(* ===== verification/_CoqProject ===== *)
-Q . S2P
Prelude.v
Strings.v
Node.v
RoundRobin.v
Config.v
Registry.v
Balancer.v
World.v
Health.v
Supervisor.v
Shutdown.v
System.v
Startup.v
Scenarios.v
Tester.v
Invariants.v
Ownership.v
Lifecycle.v
Monitor.v
