(* ===== verification/Prelude.v ===== *)
(** * Verification of the high-availability router manager

    The program ([src/api/inference/integration/router/router-ha.js]) is a
    Node.js supervisor: class [RouterManager] launches one worker process
    ([0g-compute-cli router-serve ...]) per configured key, probes every
    worker over HTTP, and fronts them with one HTTP listener that forwards
    each request to a healthy worker chosen round robin.  Everything runs on
    one event loop; the only shared state is the manager object, the
    instance objects it registers and the child-process handles.  A second
    program of the repository
    ([src/api/inference/integration/all-in-one/test-serving-capability.js])
    is a test script that runs seven checks against external services and
    prints a report; it shares no code with the manager.

    ** How the program is modelled

    A handler (a callback, or the piece of an [async] function between two
    [await]s) is a function from the world to the calls it makes, in
    program order, and the new world: [World.t → list effect * World.t].
    What the outside world answers (the outcome of a probe, an exit code,
    a reading of [Date.now()]) is an argument of the handler.  An [async]
    function is cut at its [await]s; the local variables that live across
    an [await] travel in the [Task] that the event loop holds meanwhile.
    Instance objects are shared by reference between the [Map], the
    round-robin cursor and the closures of callbacks, so the model keeps a
    store [heap : list Instance] and references into it; a JavaScript
    [Map] is an association list in insertion order.

    ** Files and the code they model

    - [Prelude] (this file): the development's scope, tactics and hint
      databases, generic lemmas on lists, and the model of the JavaScript
      runtime the source calls: numbers with [||] and [%] ([js_or],
      [js_rem]), [NaN] ([num]), [parseInt], [String.split], [trim],
      [Array.findIndex], array indexing, truthiness of strings, the
      insertion-ordered [Map] ([jm_set], [jm_get], [jm_values]) and the
      object store with allocation ([alloc]).
    - [Strings]: the laws of the string primitives: [split] and [join]
      are inverse to each other, [trim] removes the white space around
      a text, [parseInt] reads back the decimal numeral of an integer.
      The class [Reads] states such a law (a reader gives back what a
      printer wrote); its instances compose, and [Config] and
      [Supervisor] prove their round trips from them.
    - [Node]: the calls a handler makes ([effect]): console, [http],
      [child_process], timers, [process.exit]; JSON values.
    - [RoundRobin]: the abstract round-robin rule of the design (lookup of
      the previous selection, advance modulo the number of healthy
      instances), with rotation and fairness.
    - [Config]: the module constants of lines 6-24 as a function [load]
      of [process.env].  Theorems: the keys and the providers written
      in the environment come back from [load] as they were written
      (round trips through [split], [trim] and [parseInt]); an entry
      without a priority gets the priority 100.
    - [Registry]: the instance object literal of [startInstance]
      (lines 133-142) as [Record Instance], the fields of [RouterManager]
      (constructor, lines 27-32), the store, [Map.set] of a new instance
      ([register]) and the invariant [wf].
    - [Balancer]: [getHealthyInstance] (lines 232-245), the request
      listener of [startLoadBalancer] (lines 248-330) with its three
      replies (503, [/health], [/status]) and the proxy path, and the two
      callbacks of a proxied request.  Theorems: [getHealthyInstance]
      refines the rule of [RoundRobin]; rotation, fairness, no unhealthy
      instance selected; the replies on every branch.
    - [World]: the child process objects of Node.js ([running], [killed],
      the signals received), the closures of the callbacks, the pending
      continuations, and [spawn], [kill], [exit_child].  Two interfaces
      live here: the class [Resumes], which says what a handler that
      calls back its caller asks of the caller (the readiness wait and
      [startInstance] are verified against it, [System.resume]
      implements it for each invariant), and the equivalence [agree] of
      worlds that differ only in what the runtime was asked, under
      which the invariants are [Proper].
    - [Health]: [checkInstanceHealth] (lines 194-214),
      [waitForInstanceReady] (lines 178-192) as handlers and as the one
      function [runReady], the periodic check of [startHealthCheck]
      (lines 216-230).  Theorems: the readiness wait ends; what it leaves
      behind; the periodic check records the verdict and logs changes.
    - [Supervisor]: [startInstance] (lines 87-176) with its argument list
      and its callbacks ([onStdout], [onStderr], [onClose], [onError]),
      and the restart timer ([onRestartTimer]).  Theorems: what a launch
      registers; when a restart is scheduled; what a restart keeps and
      what it resets; the provider entries of the environment reach the
      worker's command line unchanged.
    - [Shutdown]: the signal handler of [setupSignalHandlers]
      (lines 341-370), before and after its sleep.  Theorems: [SIGTERM]
      reaches every registered running process; the forced kill reaches
      none.
    - [System]: [start] (lines 34-85), the loop over the keys, the
      services started at the end, and the event loop as the step
      function [step] over all handlers; [run] for a list of events.
      A handler that calls [startInstance] passes what it does with the
      result as a continuation ([World.Cont]); [System.resume] runs it.
      The handler of a rejected [start()] (lines 381-386) is the event
      [EReject].  Theorems: a worker that crashes is relaunched with its
      id, key and port when the restart timer fires ([crash_round]), and
      this repeats for any number of crashes in a row, with no limit
      and no growing delay; a start that fails exits with code 1 and
      signals no worker; when the instance ports fit in 16 bits.
    - [Startup]: the startup as a run of [System.step].  Theorems: the
      handlers of the readiness wait, resumed by the event loop,
      implement the one function [Health.runReady]; for every
      configuration that passes the checks of [start] the startup ends
      with one worker launched per key (or the single worker) and the
      services started, whatever the probes answer, provided the clock
      advances; if every worker answers its first probe the startup
      ends in the world [up], in which every instance is healthy; a
      configuration that fails the checks exits with code 1 and
      launches nothing.
    - [Scenarios]: the example scenario of the design (three instances,
      one of which fails two probes and recovers) as a run, checked by
      evaluation.
    - [Tester]: class [ServingCapabilityTester] of the test script in a
      state monad over the tester object, the two output streams and the
      clock.  Theorems: the exit code is 0 exactly when the seven tests
      pass; a run stops at the first failure; the counters agree with
      the recorded tests; where the report is written; [main] exits
      with the code of the run, and the handler of a rejected [main]
      ([onFatal]) exits with code 1.
    - [Invariants]: the worlds reachable by steps from the initial world,
      and the invariant [Inv] kept by every step.  Theorems, for every
      reachable world: the registry is well formed; no process has
      received [SIGKILL], and none more than one [SIGTERM]; nothing is
      launched while shutting down; the map keeps its keys in order; the
      startup sequence is one thread that has ended before a signal can
      be handled; a readiness wait finds its instance.
    - [Ownership]: a second invariant [Own], on who serves an instance
      id.  Theorems, for every reachable world: no id has two running
      workers, two pending restarts, or both; every running worker is
      the process of the instance registered under its id, so the
      shutdown handler reaches it; the instances are launched one after
      the other; the instance [router-i] has the port
      [parseInt(PORT) + 100 + i]; a termination signal makes the manager
      exit with code 0 after every running worker has received
      [SIGTERM].

    - [Lifecycle]: the life of an instance object, by abstraction.
      [view] reads of a world the restart counts, the running
      processes, what the callbacks captured, the pending restart
      timers and the map; every step of the event loop is one of six
      [moves] of the view ([step_moves]); the moves keep the invariant
      [good] and take each object along the [lifecycle] serving,
      waiting, replaced or stopped.  Theorems, for every reachable
      world: no restart count exceeds one, and it is one exactly for
      the replaced objects; the object registered under an id has the
      count zero; every step follows the lifecycle; an object whose
      process has exited never serves again.

    - [Monitor]: a whole round of the periodic check as a run of the
      event loop, compared with a reference that writes each answer to
      the instance at its position of the map.  Theorems, for every
      reachable world in which the timer is armed: the round ends after
      one probe per registered instance, in the order of registration,
      with one message per change of health; the instances that serve
      afterwards are those that answered with status 200, and the
      next window of selections goes to each of them once; a round
      under way when a termination signal arrives goes on probing.

    [Invariants] and [Ownership] prove each invariant first for the
    primitive changes of the world (a field written, a task added or
    taken, a worker launched, a process exited, a signal offered), then
    for each handler, then for [System.step]; the theorems on reachable
    worlds are corollaries.  [Lifecycle] goes through an abstraction
    instead: the handlers are shown to move the view, and the invariant
    and the lifecycle are proved of the moves, on lists alone.

    ** Bounds and fuel

    JavaScript numbers are IEEE doubles.  Every number the modelled code
    computes with is an integer (list indices, counters, ports,
    millisecond timestamps) and is modelled as [Z] or [nat]; this is
    exact as long as the values stay below 2^53, which holds for indices
    bounded by the number of instances and for timestamps of this era.
    [x % 0] is [NaN] in JavaScript; the one use of [%] is guarded by a
    length test, and [js_rem] is only used with a non-zero divisor.
    [parseInt] of a string without leading digits is [NaN], kept as the
    value [NaN] of [num].  A port is a number of 16 bits
    ([Node.is_port]); [start] adds to [PORT] without a check, and
    [System.instance_ports_fit] says when the result still is a port.
    The restart count is a [nat]; [Lifecycle.restart_count_bounded]
    shows that it never exceeds 1.  The number of restarts is not
    bounded: [System.restart_unbounded] holds for every [n].

    [Health.runReady] takes fuel, one unit per round of the readiness
    loop.  [Health.runReady_terminates] shows that
    [max 1 (ceil (maxWait / 1000))] units are enough whenever the clock
    advances by a second per sleep: 60 for the 60000 ms the code waits
    ([Health.rounds_needed], [Health.punctual]).
    All other definitions are structurally recursive or not recursive.
    [System.run] is total on lists of events; it returns [None] when an
    event cannot happen in the world it meets.

    The success rate of the test report has two decimals
    ([toFixed(2)]) and is kept in hundredths ([Node.JDecimal]);
    [Tester.successRate_no_tie] shows that for fewer than 32 tests the
    rounding never meets a tie, so the rounding mode does not matter
    (the script runs at most seven tests).

    ** Strings

    Strings are [string]s of bytes.  The pictographs and the leading line
    breaks that decorate four log messages of the source (lines 333-336
    and 342) are left out of the modelled messages; nothing depends on
    them.

    ** Not modelled

    - The worker executable: its behaviour enters as events.
    - The libraries of Node.js: their observable results enter as
      arguments of the handlers; what [child.kill] does to the [killed]
      property and to a process that has exited is modelled in [World]
      after the documentation of [child_process].
    - Request and response bodies, which the source pipes through
      unread, and JSON serialisation (replies carry the JSON value).
    - When a call of the runtime inside [start] throws ([spawn],
      [listen]): the rejection of [start()] is an event that may arrive
      while [start] is pending, and its handler is modelled; the
      statement of the source that could throw by itself does not
      ([Invariants.readiness_wait_finds_instance]).
    - An [error] event of the HTTP server (the port is in use): the
      source registers no handler for it.
    - In the test script: the chain node, the broker SDK and the OpenAI
      client, whose answers are arguments of the tests; the [catch]
      clause of [runAllTests] (lines 333-336), which no test reaches
      because every test catches its own errors; the export of the
      class (line 362). *)

From Stdlib Require Export ZArith Lia.
From Stdlib Require Import Ascii.
From stdpp Require Export base tactics option list strings pretty.

#[global] Open Scope Z_scope.

Declare Scope router_scope.
Delimit Scope router_scope with router.

(** ** Hint databases

    [router] collects the resolution hints of the component files and
    [router_rw] the rewrite rules that normalise store and map lookups. *)

Create HintDb router.
Create Rewrite HintDb router_rw.

(** ** Tactics *)

(** Destruct the first [decide] or boolean test that blocks the goal. *)
Ltac case_test :=
  match goal with
  | |- context [decide ?P] => destruct (decide P)
  | |- context [bool_decide ?P] => destruct (bool_decide_reflect P)
  | |- context [if ?b then _ else _] => destruct b eqn:?
  end.

(** Close a decidable goal by evaluation. *)
Ltac by_compute :=
  match goal with |- ?P => apply (@bool_decide_unpack P _) end; vm_compute; exact I.

(** Simplify option and pair equalities in the context, then finish. *)
Ltac finish := simplify_eq/=; eauto with router lia.

(** ** JavaScript numbers restricted to integers *)

(** [a || b] on numbers: [0] is the only falsy integer. *)
Definition js_or (a b : Z) : Z := if decide (a = 0) then b else a.

(** [a % b]: the remainder takes the sign of the dividend. *)
Definition js_rem (a b : Z) : Z := Z.rem a b.

(** A number that may be [NaN]: the result of [parseInt] and of arithmetic
    on it.  Infinities do not arise from the integers of the model. *)
Inductive num : Type :=
  | NaN
  | Int (z : Z).

#[export] Instance num_eq_dec : EqDecision num.
Proof. solve_decision. Defined.

(** [a + b] on numbers. *)
Definition num_add (a b : num) : num :=
  match a, b with
  | Int x, Int y => Int (x + y)
  | _, _ => NaN
  end.

(** [String(n)] and [n.toString()]. *)
Definition num_to_string (n : num) : string :=
  match n with
  | NaN => "NaN"
  | Int z => pretty z
  end.

(** Truthiness of a string value: the empty string is falsy. *)
Definition truthy (s : string) : bool := bool_decide (s ≠ EmptyString).

(** ** Strings

    Strings are sequences of bytes; the white space that [trim] removes is
    the white space of ASCII. *)

Definition is_space (c : Ascii.ascii) : bool :=
  match c with
  | " " | "009" | "010" | "011" | "012" | "013" => true
  | _ => false
  end%char.

Fixpoint trim_start (s : string) : string :=
  match s with
  | String c s' => if is_space c then trim_start s' else s
  | EmptyString => EmptyString
  end.

(** [s.trim()]. *)
Definition js_trim (s : string) : string :=
  String.rev (trim_start (String.rev (trim_start s))).

(** [s.split(sep)] for a separator of one character. *)
Fixpoint js_split (sep : Ascii.ascii) (s : string) : list string :=
  match s with
  | EmptyString => [EmptyString]
  | String c s' =>
      if decide (c = sep) then EmptyString :: js_split sep s'
      else match js_split sep s' with
           | x :: xs => String c x :: xs
           | [] => [String c EmptyString]
           end
  end.

(** The value of a character as a digit of the given radix. *)
Definition digit_value (radix : Z) (c : Ascii.ascii) : option Z :=
  let n := Z.of_N (Ascii.N_of_ascii c) in
  let v :=
    if decide (48 ≤ n ≤ 57) then Some (n - 48)
    else if decide (97 ≤ n ≤ 122) then Some (n - 87)
    else if decide (65 ≤ n ≤ 90) then Some (n - 55)
    else None in
  v ≫= λ d, if decide (d < radix) then Some d else None.

(** The value of the longest prefix of digits, [None] if it is empty. *)
Fixpoint digits_prefix (radix : Z) (s : string) (acc : option Z) : option Z :=
  match s with
  | String c s' =>
      match digit_value radix c with
      | Some d => digits_prefix radix s' (Some (default 0 acc * radix + d))
      | None => acc
      end
  | EmptyString => acc
  end.

(** [parseInt(s)] with no radix: leading white space, a sign, a [0x]
    prefix, then digits; [NaN] if there is no digit. *)
Definition parseInt (s : string) : num :=
  let s := trim_start s in
  let '(sign, s) :=
    match s with
    | String "-" s' => (-1, s')
    | String "+" s' => (1, s')
    | _ => (1, s)
    end%char in
  let '(radix, s) :=
    match s with
    | String "0" (String "x" s') => (16, s')
    | String "0" (String "X" s') => (16, s')
    | _ => (10, s)
    end%char in
  match digits_prefix radix s None with
  | Some v => Int (sign * v)
  | None => NaN
  end.

(** [l.join(sep)] for an array of strings. *)
Definition join (sep : string) (l : list string) : string := String.concat sep l.

(** ** Arrays *)

(** [l.findIndex(p)]: the first index whose element satisfies [p], or [-1]. *)
Definition findIndex {A} (P : A → Prop) `{∀ x, Decision (P x)} (l : list A) : Z :=
  match list_find P l with
  | Some (i, _) => Z.of_nat i
  | None => -1
  end.

(** [l[i]] for an integer [i]: [undefined] (here [None]) out of range. *)
Definition js_index {A} (l : list A) (i : Z) : option A :=
  if decide (0 ≤ i) then l !! Z.to_nat i else None.

(** Allocation of a fresh object: its reference is the next free slot. *)
Definition alloc {A} (h : list A) (x : A) : nat * list A := (length h, h ++ [x]).

(** ** The insertion-ordered Map *)

(** [m.set(k, v)]: an existing key keeps its position, a new one is
    appended. *)
Fixpoint jm_set {K V} `{EqDecision K} (k : K) (v : V) (m : list (K * V)) : list (K * V) :=
  match m with
  | [] => [(k, v)]
  | (k', v') :: m' =>
      if decide (k = k') then (k, v) :: m' else (k', v') :: jm_set k v m'
  end.

(** [m.get(k)]. *)
Fixpoint jm_get {K V} `{EqDecision K} (k : K) (m : list (K * V)) : option V :=
  match m with
  | [] => None
  | (k', v') :: m' => if decide (k = k') then Some v' else jm_get k m'
  end.

(** [Array.from(m.values())], the keys in iteration order and [m.size]. *)
Definition jm_values {K V} (m : list (K * V)) : list V := m.*2.
Definition jm_keys {K V} (m : list (K * V)) : list K := m.*1.
Definition jm_size {K V} (m : list (K * V)) : nat := length m.

(** * Lemmas *)

(** ** Numbers *)

Lemma js_or_0_r a : js_or a 0 = a.
Proof. unfold js_or. case_decide; congruence. Qed.

Lemma js_or_nonzero a b : a ≠ 0 → js_or a b = a.
Proof. unfold js_or. intros. case_decide; congruence. Qed.

Lemma num_add_Int a b z : num_add a b = Int z ↔ ∃ x y, a = Int x ∧ b = Int y ∧ z = x + y.
Proof.
  destruct a, b; simpl; split; try done; try (by intros (?&?&?&?&?)).
  - intros [= <-]. eauto.
  - intros (?&?&[= <-]&[= <-]&->). done.
Qed.

#[export] Instance num_Int_inj : Inj (=) (=) Int.
Proof. by intros ?? [=]. Qed.

Lemma js_rem_mod a b : 0 ≤ a → 0 < b → js_rem a b = a mod b.
Proof. intros. unfold js_rem. apply Z.rem_mod_nonneg; lia. Qed.

Lemma js_rem_small a b : 0 ≤ a < b → js_rem a b = a.
Proof. intros. unfold js_rem. apply Z.rem_small; lia. Qed.

Lemma js_rem_same b : 0 < b → js_rem b b = 0.
Proof. intros. rewrite js_rem_mod by lia. apply Z_mod_same_full. Qed.

(** ** Arrays *)

Section arrays.
Context {A : Type} (P : A → Prop) `{!∀ x, Decision (P x)}.
Implicit Types (l : list A) (x : A).

Lemma findIndex_found l (i : nat) x :
  list_find P l = Some (i, x) → findIndex P l = Z.of_nat i.
Proof. unfold findIndex. by intros ->. Qed.


Lemma findIndex_absent l : Forall (λ x, ¬ P x) l ↔ findIndex P l = -1.
Proof.
  unfold findIndex. destruct (list_find P l) as [[i x]|] eqn:E.
  - split; [intros HF | lia].
    apply (list_find_None P) in HF. congruence.
  - split; [done | intros _; by apply (list_find_None P)].
Qed.

Lemma findIndex_range l : -1 ≤ findIndex P l < Z.of_nat (length l).
Proof.
  unfold findIndex. destruct (list_find P l) as [[i x]|] eqn:E; [|lia].
  apply list_find_Some in E as [E%lookup_lt_Some _]. lia.
Qed.

Lemma findIndex_first l (i : nat) x :
  l !! i = Some x → P x →
  (∀ (j : nat) y, l !! j = Some y → (j < i)%nat → ¬ P y) →
  findIndex P l = Z.of_nat i.
Proof. intros. apply (findIndex_found _ _ x), list_find_Some; auto. Qed.

Lemma js_index_nat l (i : nat) : js_index l (Z.of_nat i) = l !! i.
Proof. unfold js_index. case_decide; [by rewrite Nat2Z.id | lia]. Qed.

Lemma js_index_neg l (i : Z) : i < 0 → js_index l i = None.
Proof. unfold js_index. intros. case_decide; [lia | done]. Qed.

Lemma alloc_lookup_new (h : list A) x : (alloc h x).2 !! (alloc h x).1 = Some x.
Proof. simpl. by rewrite lookup_app_r, Nat.sub_diag. Qed.

Lemma alloc_lookup_old (h : list A) x (r : nat) :
  (r < length h)%nat → (alloc h x).2 !! r = h !! r.
Proof. simpl. intros. by rewrite lookup_app_l. Qed.

Lemma alloc_length (h : list A) x : length (alloc h x).2 = S (length h).
Proof. simpl. rewrite length_app. simpl. lia. Qed.
(** [alter] with a function that fixes the element it meets. *)
Lemma alter_fixed (f : A → A) (l : list A) (i : nat) :
  (∀ x, l !! i = Some x → f x = x) → alter f i l = l.
Proof.
  intros Hf. rewrite <- (list_alter_id (λ x, x) l i) at 2 by done.
  by apply list_alter_ext.
Qed.

(** A property kept by every round of a loop holds after the loop. *)
Lemma foldl_invariant {B} (I : A → Prop) (f : A → B → A) (l : list B) (a : A) :
  I a → (∀ a b, b ∈ l → I a → I (f a b)) → I (foldl f a l).
Proof.
  revert a. induction l as [|b l IH]; intros a Ha Hf; simpl; [done|].
  apply IH; [apply Hf; [left | done] |]. intros a' b' ?. apply Hf. by right.
Qed.

(** Counting the elements that satisfy a predicate, one element removed. *)
Lemma length_filter_delete (Q : A → Prop) `{∀ x, Decision (Q x)}
    (l : list A) (n : nat) (x : A) :
  l !! n = Some x →
  length (filter Q l)
  = (length (filter Q (delete n l)) + if decide (Q x) then 1 else 0)%nat.
Proof.
  revert n. induction l as [|y l IH]; intros [|n] Hn; try done.
  - injection Hn as ->. change (delete 0%nat (x :: l)) with l.
    rewrite filter_cons. case_decide; simpl; lia.
  - change (delete (S n) (y :: l)) with (y :: delete n l).
    rewrite !filter_cons. specialize (IH n Hn).
    destruct (decide (Q y)); simpl; lia.
Qed.

Lemma filter_none (Q : A → Prop) `{∀ x, Decision (Q x)} (l : list A) :
  Forall (λ x, ¬ Q x) l → filter Q l = [].
Proof.
  induction 1 as [|x l Hx _ IH]; [done|]. by rewrite filter_cons_False.
Qed.

Lemma filter_all (Q : A → Prop) `{∀ x, Decision (Q x)} (l : list A) :
  Forall Q l → filter Q l = l.
Proof.
  induction 1 as [|x l Hx _ IH]; [done|]. by rewrite filter_cons_True, IH.
Qed.

(** Lookups in an array after a [push]. *)
Lemma lookup_snoc_Some (l : list A) x (i : nat) y :
  (l ++ [x]) !! i = Some y ↔ l !! i = Some y ∨ (i = length l ∧ y = x).
Proof.
  rewrite lookup_app_Some, list_lookup_singleton_Some. split.
  - intros [?|(? & ? & ?)]; [by left | right; split; [lia|done]].
  - intros [?|[-> ->]]; [by left | right; split_and!; [done|lia|done]].
Qed.

Lemma lookup_snoc_old (l : list A) x (i : nat) y :
  l !! i = Some y → (l ++ [x]) !! i = Some y.
Proof. intros. apply lookup_snoc_Some. by left. Qed.

Lemma lookup_snoc_new (l : list A) x : (l ++ [x]) !! length l = Some x.
Proof. apply lookup_snoc_Some. by right. Qed.

(** A change of an element seen through a projection. *)
Lemma fmap_alter_const {B} (g : A → B) (f : A → A) (b : B) (l : list A) (i : nat) :
  (∀ x, g (f x) = b) → g <$> alter f i l = <[i:=b]> (g <$> l).
Proof.
  intros Hf. revert i. induction l as [|y l IH]; intros [|i]; [done..| |].
  - change (alter f 0%nat (y :: l)) with (f y :: l). simpl. by rewrite Hf.
  - change (alter f (S i) (y :: l)) with (y :: alter f i l). simpl. by rewrite IH.
Qed.

Lemma fmap_alter_same {B} (g : A → B) (f : A → A) (l : list A) (i : nat) :
  (∀ x, g (f x) = g x) → g <$> alter f i l = g <$> l.
Proof.
  intros Hf. revert i. induction l as [|y l IH]; intros [|i]; [done..| |].
  - change (alter f 0%nat (y :: l)) with (f y :: l). simpl. by rewrite Hf.
  - change (alter f (S i) (y :: l)) with (y :: alter f i l). simpl. by rewrite IH.
Qed.

(** In a list without duplicates an element does not occur again after
    its position. *)
Lemma NoDup_lookup_drop l (i : nat) x :
  NoDup l → l !! i = Some x → x ∉ drop (S i) l.
Proof.
  intros Hnd Hi. rewrite <-(take_drop_middle l i x Hi) in Hnd.
  by apply NoDup_app in Hnd as (_ & _ & [? _]%NoDup_cons).
Qed.

End arrays.


(** ** Partial maps over a list *)

Section omap.
Context {A B : Type} (g : A → option B).
Implicit Types (l : list A) (f : A → A) (i j : nat).

Lemma omap_cons x l :
  omap g (x :: l) = from_option (λ b, b :: omap g l) (omap g l) (g x).
Proof. simpl. by destruct (g x). Qed.

(** A change of an element that [g] does not see. *)
Lemma omap_alter_eq f l i :
  (∀ x, l !! i = Some x → g (f x) = g x) → omap g (alter f i l) = omap g l.
Proof.
  revert i. induction l as [|y l IH]; intros [|i] Hf; [done..| |].
  - change (alter f 0%nat (y :: l)) with (f y :: l).
    by rewrite !omap_cons, (Hf y).
  - change (alter f (S i) (y :: l)) with (y :: alter f i l).
    by rewrite !omap_cons, (IH i).
Qed.

(** A change after which [g] drops the element. *)
Lemma omap_alter_None f l i x a :
  l !! i = Some x → g x = Some a → g (f x) = None →
  omap g l ≡ₚ a :: omap g (alter f i l).
Proof.
  revert i. induction l as [|y l IH]; intros [|i] Hi Hx Hfx; [done..| |].
  - injection Hi as ->. change (alter f 0%nat (x :: l)) with (f x :: l).
    by rewrite !omap_cons, Hx, Hfx.
  - change (alter f (S i) (y :: l)) with (y :: alter f i l).
    rewrite !omap_cons. destruct (g y); simpl; rewrite (IH i Hi Hx Hfx);
      [apply Permutation_swap | done].
Qed.

Lemma omap_delete_Some l i x a :
  l !! i = Some x → g x = Some a → omap g l ≡ₚ a :: omap g (delete i l).
Proof.
  revert i. induction l as [|y l IH]; intros [|i] Hi Hx; [done..| |].
  - injection Hi as ->. change (delete 0%nat (x :: l)) with l.
    by rewrite omap_cons, Hx.
  - change (delete (S i) (y :: l)) with (y :: delete i l).
    rewrite !omap_cons. destruct (g y); simpl; rewrite (IH i Hi Hx);
      [apply Permutation_swap | done].
Qed.

(** Deleting an element that [g] drops, and one that it keeps. *)
Lemma omap_delete_None l i x :
  l !! i = Some x → g x = None → omap g (delete i l) = omap g l.
Proof.
  revert i. induction l as [|y l IH]; intros [|i] Hi Hx; [done..| |].
  - injection Hi as ->. change (delete 0%nat (x :: l)) with l.
    by rewrite omap_cons, Hx.
  - change (delete (S i) (y :: l)) with (y :: delete i l).
    by rewrite !omap_cons, (IH i Hi Hx).
Qed.

Lemma omap_delete_lookup l i x a :
  l !! i = Some x → g x = Some a →
  ∃ j, omap g l !! j = Some a ∧ omap g (delete i l) = delete j (omap g l).
Proof.
  revert i. induction l as [|y l IH]; intros [|i] Hi Hx; [done..| |].
  - injection Hi as ->. exists 0%nat. change (delete 0%nat (x :: l)) with l.
    by rewrite omap_cons, Hx.
  - destruct (IH i Hi Hx) as (j & Hj & Hd).
    change (delete (S i) (y :: l)) with (y :: delete i l). rewrite !omap_cons.
    destruct (g y); simpl; [exists (S j) | exists j]; by rewrite Hd.
Qed.

Lemma omap_delete_sublist l i : omap g (delete i l) `sublist_of` omap g l.
Proof.
  revert i. induction l as [|y l IH]; intros [|i]; [done..| |].
  - change (delete 0%nat (y :: l)) with l. rewrite omap_cons.
    destruct (g y); [by apply sublist_cons | done].
  - change (delete (S i) (y :: l)) with (y :: delete i l). rewrite !omap_cons.
    destruct (g y); simpl; [by apply sublist_skip | done].
Qed.

(** Where the images are distinct, two positions with the same image
    are the same position. *)
Lemma omap_NoDup_lookup l i j x y a :
  NoDup (omap g l) → l !! i = Some x → l !! j = Some y →
  g x = Some a → g y = Some a → i = j.
Proof.
  revert i j. induction l as [|z l IH]; intros [|i] [|j] Hnd Hi Hj Hx Hy;
    simplify_eq/=; [done| | |].
  - rewrite Hx in Hnd. apply NoDup_cons in Hnd as [Hnd _]. destruct Hnd.
    apply list_elem_of_omap. exists y. split; [by eapply list_elem_of_lookup_2 | done].
  - rewrite Hy in Hnd. apply NoDup_cons in Hnd as [Hnd _]. destruct Hnd.
    apply list_elem_of_omap. exists x. split; [by eapply list_elem_of_lookup_2 | done].
  - f_equal. apply (IH i j); try done.
    destruct (g z); [by apply NoDup_cons in Hnd as [_ ?] | done].
Qed.

Lemma omap_lookup_elem l i x a : l !! i = Some x → g x = Some a → a ∈ omap g l.
Proof.
  intros Hi Hx. apply list_elem_of_omap. exists x.
  split; [by eapply list_elem_of_lookup_2 | done].
Qed.

End omap.

(** ** Rotations of a list *)

Section rotate.
Context {A : Type}.
Implicit Types (l : list A) (x : A) (k : nat).

Lemma rotate_mod l k : rotate (k mod length l) l = rotate k l.
Proof.
  unfold rotate. destruct l as [|x l]; [done|].
  by rewrite Nat.Div0.mod_mod.
Qed.

Lemma rotate_S_mod l k : rotate (S (k mod length l)) l = rotate (S k) l.
Proof.
  rewrite <- (rotate_mod l (S (k mod length l))), <- (rotate_mod l (S k)).
  f_equal. destruct l as [|x l]; [reflexivity|].
  rewrite <- !(Nat.add_1_r (k mod _)), <- (Nat.add_1_r k).
  by rewrite Nat.Div0.add_mod_idemp_l.
Qed.

Lemma rotate_Permutation l k : rotate k l ≡ₚ l.
Proof.
  unfold rotate. rewrite Permutation_app_comm. by rewrite take_drop.
Qed.

(** One more step of rotation moves the head to the back. *)
Lemma rotate_S_cons l k x :
  l !! (k mod length l)%nat = Some x →
  ∃ tl, rotate k l = x :: tl ∧ rotate (S k) l = tl ++ [x].
Proof.
  intros Hx. pose proof (lookup_lt_Some _ _ _ Hx) as Hlt.
  exists (drop (S (k mod length l)) l ++ take (k mod length l) l). split.
  { unfold rotate. by rewrite (drop_S _ x _ Hx). }
  rewrite <- rotate_S_mod. unfold rotate.
  destruct (decide (S (k mod length l) = length l)) as [E|NE].
  - rewrite E, Nat.Div0.mod_same, drop_all, drop_0, take_0, app_nil_r. simpl.
    rewrite <- (take_S_r _ _ _ Hx), E. by rewrite firstn_all.
  - rewrite Nat.mod_small by lia.
    rewrite (take_S_r _ _ _ Hx). by rewrite app_assoc.
Qed.
End rotate.

(** ** The insertion-ordered Map *)

Section jsmap.
Context {K V : Type} `{EqDecision K}.
Implicit Types (m : list (K * V)) (k : K) (v : V).

Lemma jm_get_set_eq k v m : jm_get k (jm_set k v m) = Some v.
Proof.
  induction m as [|[k' v'] m IH]; simpl; repeat (case_decide; simpl); congruence.
Qed.

Lemma jm_get_set_ne k k' v m : k ≠ k' → jm_get k' (jm_set k v m) = jm_get k' m.
Proof.
  intros ?. induction m as [|[k0 v0] m IH]; simpl;
    repeat (case_decide; simpl); congruence.
Qed.

Lemma jm_get_None k m : jm_get k m = None ↔ k ∉ jm_keys m.
Proof.
  unfold jm_keys. induction m as [|[k' v'] m IH]; simpl.
  - split; [intros _; apply not_elem_of_nil | done].
  - rewrite not_elem_of_cons. case_decide; [|tauto].
    split; [done | intros []; congruence].
Qed.

Lemma jm_get_Some k v m : jm_get k m = Some v → (k, v) ∈ m.
Proof.
  induction m as [|[k' v'] m IH]; simpl; [done|].
  case_decide; intros; simplify_eq; [left | right; auto].
Qed.

Lemma jm_get_is_Some k m : is_Some (jm_get k m) ↔ k ∈ jm_keys m.
Proof.
  rewrite <- not_eq_None_Some, jm_get_None.
  split; [apply dec_stable | auto].
Qed.

Lemma jm_elem_of_get k v m : NoDup (jm_keys m) → (k, v) ∈ m → jm_get k m = Some v.
Proof.
  unfold jm_keys. induction m as [|[k' v'] m IH]; simpl.
  - by intros _ ?%elem_of_nil.
  - intros [Hk ?]%NoDup_cons [?|Hin]%elem_of_cons; simplify_eq.
    + by rewrite decide_True.
    + rewrite decide_False; [auto|]. intros ->. apply Hk.
      by apply (list_elem_of_fmap_2 fst) in Hin.
Qed.

(** Setting a registered key changes neither the keys nor their order. *)
Lemma jm_keys_set_old k v m : k ∈ jm_keys m → jm_keys (jm_set k v m) = jm_keys m.
Proof.
  unfold jm_keys. induction m as [|[k' v'] m IH]; simpl.
  - by intros ?%elem_of_nil.
  - intros Hin. case_decide; simpl; [congruence|].
    f_equal. apply IH. apply elem_of_cons in Hin as [?|?]; [congruence|done].
Qed.

(** Setting a new key appends it. *)
Lemma jm_set_new k v m : k ∉ jm_keys m → jm_set k v m = m ++ [(k, v)].
Proof.
  unfold jm_keys. induction m as [|[k' v'] m IH]; simpl; [done|].
  intros [? ?]%not_elem_of_cons. rewrite decide_False by done.
  f_equal. auto.
Qed.

Lemma jm_keys_set_new k v m : k ∉ jm_keys m → jm_keys (jm_set k v m) = jm_keys m ++ [k].
Proof. intros. rewrite jm_set_new by done. unfold jm_keys. by rewrite fmap_app. Qed.

Lemma jm_keys_set_NoDup k v m : NoDup (jm_keys m) → NoDup (jm_keys (jm_set k v m)).
Proof.
  intros. destruct (decide (k ∈ jm_keys m)).
  - by rewrite jm_keys_set_old.
  - rewrite jm_keys_set_new by done. apply NoDup_app. repeat split; [done| |].
    + intros x ? ->%list_elem_of_singleton. done.
    + apply NoDup_singleton.
Qed.

Lemma jm_size_set_old k v m : k ∈ jm_keys m → jm_size (jm_set k v m) = jm_size m.
Proof.
  intros Hin%(jm_keys_set_old _ v). unfold jm_size.
  apply (f_equal length) in Hin. unfold jm_keys in Hin.
  by rewrite !length_fmap in Hin.
Qed.

(** The values after a set: the new value, or a value that was there. *)
Lemma jm_values_set_elem k v m x :
  x ∈ jm_values (jm_set k v m) → x = v ∨ x ∈ jm_values m.
Proof.
  unfold jm_values. induction m as [|[k' v'] m IH]; simpl.
  - intros ?%list_elem_of_singleton. by left.
  - case_decide; simpl; rewrite !elem_of_cons; intros [?|?]; auto.
    destruct IH; auto.
Qed.

(** A set removes no key. *)
Lemma jm_keys_set_mono k v m k' : k' ∈ jm_keys m → k' ∈ jm_keys (jm_set k v m).
Proof.
  intros Hin. destruct (decide (k ∈ jm_keys m)).
  - by rewrite jm_keys_set_old.
  - rewrite jm_keys_set_new by done. apply elem_of_app. by left.
Qed.

(** A set keeps the keys in their order; a new key goes last. *)
Lemma jm_keys_set_prefix k v m : jm_keys m `prefix_of` jm_keys (jm_set k v m).
Proof.
  destruct (decide (k ∈ jm_keys m)).
  - by rewrite jm_keys_set_old.
  - rewrite jm_keys_set_new by done. by apply prefix_app_r.
Qed.

Lemma jm_keys_set_elem k v m : k ∈ jm_keys (jm_set k v m).
Proof. apply jm_get_is_Some. by rewrite jm_get_set_eq. Qed.

(** The entries after a set: the new entry, or an entry that was there. *)
Lemma jm_set_elem k v m e : e ∈ jm_set k v m → e = (k, v) ∨ e ∈ m.
Proof.
  induction m as [|[k' v'] m IH]; simpl.
  - intros ?%list_elem_of_singleton. by left.
  - case_decide; simpl; rewrite !elem_of_cons; intros [?|?]; auto.
    destruct IH; auto.
Qed.

(** A set keeps the entries of the other keys, and only those. *)
Lemma jm_set_elem_ne k v m e :
  NoDup (jm_keys m) → e ∈ jm_set k v m → e = (k, v) ∨ (e ∈ m ∧ e.1 ≠ k).
Proof.
  induction m as [|[k' v'] m IH]; simpl; intros Hnd.
  { intros ?%list_elem_of_singleton. by left. }
  apply NoDup_cons in Hnd as [Hk Hnd].
  case_decide; simpl; rewrite !elem_of_cons.
  - subst k'. intros [?|He]; [by left|]. right. split; [by right|].
    intros <-. apply Hk, list_elem_of_fmap. by exists e.
  - intros [->|He]; [right; split; [by left|done]|].
    destruct (IH Hnd He) as [?|[? ?]]; auto.
Qed.

(** In position: the value of a registered key is replaced where it is. *)
Lemma jm_values_set_old k v m (i : nat) :
  NoDup (jm_keys m) → jm_keys m !! i = Some k →
  jm_values (jm_set k v m) = <[i:=v]> (jm_values m).
Proof.
  unfold jm_keys, jm_values. revert i.
  induction m as [|[k' v'] m IH]; intros i; simpl; [done|].
  intros [Hk ?]%NoDup_cons Hi. case_decide; simplify_eq.
  - destruct i; simpl in *; [done|]. exfalso. apply Hk.
    by apply list_elem_of_lookup_2 in Hi.
  - destruct i; simpl in *; [congruence|]. f_equal. auto.
Qed.
End jsmap.

#[export] Hint Rewrite @jm_get_set_eq @js_or_0_r : router_rw.
#[export] Hint Rewrite @jm_get_set_ne using congruence : router_rw.
#[export] Hint Resolve jm_keys_set_NoDup jm_get_Some : router.
