(* ===== verification/Strings.v ===== *)
(** * Laws of the string primitives

    What the program relies on when it reads its configuration from
    text and prints it again: [split] and [join] are inverse to each
    other, [trim] removes the white space around a text, and [parseInt]
    reads back the decimal numeral of an integer.  The primitives
    themselves ([js_split], [join], [js_trim], [parseInt]) are defined
    in the prelude; [pretty] is the decimal printer.

    [all], [lacks], [solid] and [occurrences] are the vocabulary of the
    statements, they model no code.  The class [Reads] states a round
    trip: a reader gives back what a printer has printed, on the values
    of a domain.  The numerals, the separated lists and (in [Config])
    the provider entries are instances, and the round trip of a list
    follows from that of its elements. *)

From Stdlib Require Import Ascii.
From S2P Require Import Prelude.

Module Strings.

(** Every character of the string passes the test. *)
Fixpoint all (P : ascii → bool) (s : string) : bool :=
  match s with
  | EmptyString => true
  | String a s' => P a && all P s'
  end.

(** The character does not occur in the string. *)
Definition lacks (c : ascii) : string → bool :=
  all (λ a, negb (bool_decide (a = c))).

(** The string holds no white space. *)
Definition solid : string → bool := all (λ a, negb (is_space a)).

(** The number of occurrences of a character. *)
Fixpoint occurrences (c : ascii) (s : string) : nat :=
  match s with
  | EmptyString => 0
  | String a s' => (if decide (a = c) then 1 else 0) + occurrences c s'
  end.

(** [read] gives back, as [emb x], the [x] of the domain that [print]
    has printed. *)
Class Reads {A B} (dom : A → Prop) (print : A → string) (read : string → B)
    (emb : A → B) : Prop :=
  reads : ∀ x, dom x → read (print x) = emb x.

Section append.
Implicit Types (s t u : string) (a c : ascii) (P Q : ascii → bool).

Lemma app_cons a s t : String a s +:+ t = String a (s +:+ t).
Proof. done. Qed.

Lemma app_nil_r s : s +:+ EmptyString = s.
Proof. induction s as [|a s IH]; [done|]. by rewrite app_cons, IH. Qed.

Lemma app_assoc s t u : (s +:+ t) +:+ u = s +:+ t +:+ u.
Proof. induction s as [|a s IH]; [done|]. by rewrite !app_cons, IH. Qed.

Lemma all_app P s t : all P (s +:+ t) = all P s && all P t.
Proof.
  induction s as [|a s IH]; [done|].
  rewrite app_cons. simpl. by rewrite IH, andb_assoc.
Qed.

Lemma all_impl P Q s : (∀ a, P a → Q a) → all P s → all Q s.
Proof.
  intros HPQ. induction s as [|a s IH]; [done|]; simpl.
  intros [??]%andb_True. apply andb_True; auto.
Qed.

Lemma rev_app_spec s t : String.rev_app s t = String.rev s +:+ t.
Proof.
  unfold String.rev. revert t. induction s as [|a s IH]; intros t; [done|]; simpl.
  by rewrite IH, (IH (String a EmptyString)), app_assoc.
Qed.

Lemma rev_cons a s : String.rev (String a s) = String.rev s +:+ String a EmptyString.
Proof. apply (rev_app_spec s (String a EmptyString)). Qed.

Lemma rev_app s t : String.rev (s +:+ t) = String.rev t +:+ String.rev s.
Proof.
  induction s as [|a s IH]; [by rewrite app_nil_r|].
  by rewrite app_cons, !rev_cons, IH, app_assoc.
Qed.

Lemma rev_involutive s : String.rev (String.rev s) = s.
Proof. induction s as [|a s IH]; [done|]. by rewrite rev_cons, rev_app, IH. Qed.

Lemma all_rev P s : all P (String.rev s) = all P s.
Proof.
  induction s as [|a s IH]; [done|].
  rewrite rev_cons, all_app, IH. simpl. by destruct (P a), (all P s).
Qed.

End append.

(** ** [split] and [join] *)

Section split.
Context (sep : ascii).
Implicit Types (s t : string) (l : list string).

Lemma js_split_cons s : ∃ x xs, js_split sep s = x :: xs.
Proof.
  induction s as [|a s (x & xs & IH)]; simpl; [by eauto|].
  case_decide; [by eauto|]. rewrite IH. eauto.
Qed.

Lemma js_split_nonempty s : js_split sep s ≠ [].
Proof. by destruct (js_split_cons s) as (x & xs & ->). Qed.

Lemma length_js_split s : length (js_split sep s) = S (occurrences sep s).
Proof.
  induction s as [|a s IH]; simpl; [done|].
  destruct (js_split_cons s) as (x & xs & Hs). rewrite Hs in *.
  case_decide; simpl in *; lia.
Qed.

Lemma join_cons x y l :
  join (String sep EmptyString) (x :: y :: l)
  = x +:+ String sep (join (String sep EmptyString) (y :: l)).
Proof. done. Qed.

(** Printing what [split] gave is the identity on every string. *)
Lemma join_js_split s : join (String sep EmptyString) (js_split sep s) = s.
Proof.
  induction s as [|a s IH]; simpl; [done|].
  destruct (js_split_cons s) as (x & xs & Hs). rewrite Hs in *.
  case_decide as Ha.
  - subst a. rewrite join_cons. by rewrite IH.
  - rewrite <-IH. by destruct xs.
Qed.

Lemma lacks_cons a s : lacks sep (String a s) ↔ a ≠ sep ∧ lacks sep s.
Proof.
  unfold lacks; simpl. by rewrite andb_True, negb_True, bool_decide_spec.
Qed.

Lemma js_split_lacks s : lacks sep s → js_split sep s = [s].
Proof.
  induction s as [|a s IH]; [done|]. intros [Ha Hs]%lacks_cons; simpl.
  rewrite decide_False by done. by rewrite IH.
Qed.

Lemma js_split_app s t :
  lacks sep s → js_split sep (s +:+ String sep t) = s :: js_split sep t.
Proof.
  induction s as [|a s IH].
  - intros _. change (EmptyString +:+ String sep t) with (String sep t).
    simpl. by rewrite decide_True.
  - intros [Ha Hs]%lacks_cons.
    rewrite app_cons. simpl. rewrite decide_False by done. by rewrite IH.
Qed.

(** Splitting what [join] printed gives the array back, where no
    element holds the separator. *)
Lemma js_split_join l :
  l ≠ [] → Forall (λ s, lacks sep s) l →
  js_split sep (join (String sep EmptyString) l) = l.
Proof.
  induction l as [|x [|y l] IH]; intros Hne Hl; [done|..].
  - apply js_split_lacks. by apply Forall_inv in Hl.
  - apply Forall_cons in Hl as [Hx Hl].
    rewrite join_cons, js_split_app by done. by rewrite IH.
Qed.

End split.

(** ** [trim] *)

Section trim.
Implicit Types (s l r : string) (a : ascii).

Lemma trim_start_spaces l s : all is_space l → trim_start (l +:+ s) = trim_start s.
Proof.
  induction l as [|a l IH]; [done|]. intros [Ha Hl]%andb_True.
  rewrite app_cons; simpl. destruct (is_space a); [auto|done].
Qed.

Lemma trim_start_all_spaces l : all is_space l → trim_start l = EmptyString.
Proof.
  intros Hl. by rewrite <-(app_nil_r l), trim_start_spaces.
Qed.

Lemma trim_start_head a s r :
  solid (String a s) → trim_start (String a s +:+ r) = String a s +:+ r.
Proof.
  intros [Ha _]%andb_True. rewrite app_cons; simpl. by destruct (is_space a).
Qed.

(** [trim] removes the white space around a text that holds none. *)
Lemma js_trim_pad l r s :
  all is_space l → all is_space r → solid s → js_trim (l +:+ s +:+ r) = s.
Proof.
  intros Hl Hr Hs. unfold js_trim. rewrite trim_start_spaces by done.
  destruct s as [|a s].
  - change (EmptyString +:+ r) with r. by rewrite (trim_start_all_spaces r).
  - rewrite trim_start_head by done.
    rewrite rev_app, trim_start_spaces by (by rewrite all_rev).
    destruct (String.rev (String a s)) as [|b u] eqn:Hrev.
    + by rewrite <-(rev_involutive (String a s)), Hrev.
    + assert (solid (String b u)) by (unfold solid; by rewrite <-Hrev, all_rev).
      rewrite <-(app_nil_r (String b u)), trim_start_head, app_nil_r by done.
      by rewrite <-Hrev, rev_involutive.
Qed.

Lemma js_trim_solid s : solid s → js_trim s = s.
Proof.
  intros Hs. rewrite <-(app_nil_r s) at 1.
  by apply (js_trim_pad EmptyString EmptyString).
Qed.

End trim.

(** ** [parseInt] and the decimal numerals *)

Section numerals.
Implicit Types (x d : N) (z : Z) (s t : string) (P : ascii → bool).

Lemma digit_value_char d :
  (d < 10)%N → digit_value 10 (pretty_N_char d) = Some (Z.of_N d).
Proof.
  intros Hd.
  assert (d = 0 ∨ d = 1 ∨ d = 2 ∨ d = 3 ∨ d = 4 ∨ d = 5 ∨ d = 6 ∨ d = 7
          ∨ d = 8 ∨ d = 9)%N as Hc by lia.
  by repeat destruct Hc as [->|Hc]; [..|subst d].
Qed.

(** The last digit and the rest. *)
Lemma digits_step x :
  (0 < x)%N →
  (x `mod` 10 < 10)%N ∧ (x `div` 10 < x)%N
  ∧ Z.of_N x = Z.of_N (x `div` 10) * 10 + Z.of_N (x `mod` 10).
Proof.
  intros Hx. split; [by apply N.mod_lt|]. split; [by apply N.div_lt|].
  rewrite (N.div_mod x 10) at 1 by done. lia.
Qed.

Lemma pretty_N_go_head x s :
  (0 < x)%N → ∃ d t, (0 < d < 10)%N ∧ pretty_N_go x s = String (pretty_N_char d) t.
Proof.
  revert s. induction (N.lt_wf_0 x) as [x _ IH]; intros s Hx.
  rewrite pretty_N_go_step by done. destruct (digits_step x Hx) as (? & ? & Hz).
  destruct (decide (x `div` 10 = 0)%N) as [Hq|Hq].
  - rewrite Hq, pretty_N_go_0. exists (x `mod` 10)%N, s. split; [lia|done].
  - apply IH; lia.
Qed.

Lemma digits_prefix_pretty x s :
  (0 < x)%N →
  digits_prefix 10 (pretty_N_go x s) None = digits_prefix 10 s (Some (Z.of_N x)).
Proof.
  revert s. induction (N.lt_wf_0 x) as [x _ IH]; intros s Hx.
  rewrite pretty_N_go_step by done. destruct (digits_step x Hx) as (? & ? & Hz).
  destruct (decide (x `div` 10 = 0)%N) as [Hq|Hq].
  - rewrite Hq, pretty_N_go_0. simpl. rewrite digit_value_char by lia.
    do 2 f_equal. lia.
  - rewrite IH by lia. simpl.
    rewrite digit_value_char by lia. do 2 f_equal. lia.
Qed.

(** [parseInt] on a text that starts with a digit from 1 to 9, with
    or without a minus sign: no white space, no sign and no [0x] to
    skip. *)
Lemma parseInt_lead d t :
  (0 < d < 10)%N →
  parseInt (String (pretty_N_char d) t)
  = from_option (λ v, Int (1 * v)) NaN
      (digits_prefix 10 (String (pretty_N_char d) t) None)
  ∧ parseInt (String "-" (String (pretty_N_char d) t))
    = from_option (λ v, Int (-1 * v)) NaN
        (digits_prefix 10 (String (pretty_N_char d) t) None).
Proof.
  intros Hd.
  assert (d = 1 ∨ d = 2 ∨ d = 3 ∨ d = 4 ∨ d = 5 ∨ d = 6 ∨ d = 7 ∨ d = 8
          ∨ d = 9)%N as Hc by lia.
  repeat destruct Hc as [->|Hc]; [..|subst d];
    unfold parseInt; simpl; split; by case_match.
Qed.

Lemma parseInt_pretty_go x :
  (0 < x)%N →
  parseInt (pretty_N_go x EmptyString) = Int (Z.of_N x)
  ∧ parseInt (String "-" (pretty_N_go x EmptyString)) = Int (- Z.of_N x).
Proof.
  intros Hx. destruct (pretty_N_go_head x EmptyString Hx) as (d & t & Hd & Ht).
  destruct (parseInt_lead d t Hd) as [Hpos Hneg].
  rewrite Ht, Hpos, Hneg, <-Ht, digits_prefix_pretty by done. simpl.
  split; f_equal; lia.
Qed.

(** Reading a printed integer gives the integer back. *)
Lemma parseInt_pretty z : parseInt (pretty z) = Int z.
Proof.
  destruct z as [|p|p]; [done|..]; unfold pretty, pretty_Z, pretty, pretty_positive,
    pretty, pretty_N; rewrite decide_False by done.
  - by destruct (parseInt_pretty_go (N.pos p)) as [-> _].
  - change (parseInt (String "-" (pretty_N_go (N.pos p) EmptyString))
            = Int (Z.neg p)).
    by destruct (parseInt_pretty_go (N.pos p)) as [_ ->].
Qed.

Lemma parseInt_pretty_nat (n : nat) : parseInt (pretty n) = Int (Z.of_nat n).
Proof.
  rewrite <-parseInt_pretty. unfold pretty at 1, pretty_nat.
  destruct n as [|n]; [done|]. done.
Qed.

(** The characters of a printed integer are digits and the sign. *)
Lemma all_pretty_N_go P x s :
  (∀ d, (d < 10)%N → P (pretty_N_char d)) → all P s → all P (pretty_N_go x s).
Proof.
  intros HP. revert s. induction (N.lt_wf_0 x) as [x _ IH]; intros s Hs.
  destruct (decide (x = 0)%N) as [->|Hx]; [done|].
  rewrite pretty_N_go_step by lia. destruct (digits_step x) as (? & ? & _); [lia|].
  apply IH; [done|]. simpl. apply andb_True; auto.
Qed.

Lemma all_pretty P z :
  (∀ d, (d < 10)%N → P (pretty_N_char d)) → P "-"%char → all P (pretty z).
Proof.
  intros HP Hm.
  destruct z as [|p|p]; unfold pretty, pretty_Z, pretty, pretty_positive,
    pretty, pretty_N; rewrite ?decide_False by done.
  - simpl. rewrite andb_True. split; [|done]. by apply (HP 0%N).
  - by apply all_pretty_N_go.
  - change (all P (String "-" (pretty_N_go (N.pos p) EmptyString))).
    simpl. apply andb_True. split; [done|]. by apply all_pretty_N_go.
Qed.

Lemma solid_pretty z : solid (pretty z).
Proof.
  apply all_pretty; [|done]. intros d _. unfold pretty_N_char.
  by repeat case_match.
Qed.

Lemma lacks_pretty c z :
  digit_value 10 c = None → c ≠ "-"%char → lacks c (pretty z).
Proof.
  intros Hc Hm. apply all_pretty.
  - intros d Hd. apply negb_True. rewrite bool_decide_spec. intros <-.
    by rewrite digit_value_char in Hc.
  - apply negb_True. by rewrite bool_decide_spec.
Qed.

Lemma pretty_truthy z : truthy (pretty z).
Proof.
  unfold truthy. rewrite bool_decide_spec. intros Hz.
  pose proof (parseInt_pretty z) as Hp. by rewrite Hz in Hp.
Qed.

End numerals.

(** ** The round trips as instances *)

#[export] Instance parseInt_reads : Reads (λ _ : Z, True) pretty parseInt Int.
Proof. intros z _. apply parseInt_pretty. Qed.

#[export] Instance split_reads sep :
  Reads (λ l, l ≠ [] ∧ Forall (λ s, lacks sep s) l)
        (join (String sep EmptyString)) (js_split sep) id.
Proof. intros l [Hne Hl]. by apply js_split_join. Qed.

(** A list of printed elements, joined by a separator that the prints
    do not hold, is read element by element. *)
#[export] Instance list_reads {A B} sep (dom : A → Prop) (print : A → string)
    (read : string → B) (emb : A → B) :
  Reads dom print read emb →
  Reads (λ l, l ≠ [] ∧ Forall (λ x, dom x ∧ lacks sep (print x)) l)
        (λ l, join (String sep EmptyString) (print <$> l))
        (λ s, read <$> js_split sep s) (fmap emb).
Proof.
  intros Hr l [Hne Hl]. rewrite js_split_join.
  - rewrite <-list_fmap_compose. apply Forall_fmap_ext_1.
    eapply Forall_impl; [done|]. intros x [Hx _]. by apply Hr.
  - by destruct l.
  - apply Forall_fmap. eapply Forall_impl; [done|]. by intros x [_ ?].
Qed.
End Strings.
