(* ===== verification/Node.v ===== *)
(** * The vocabulary of Node.js the source talks to

    The manager reaches the outside world through [console], [http],
    [child_process], timers and [process.exit].  A handler of the model
    returns the calls it makes as a list of [effect]s, in program order;
    what the outside world answers (a probe's outcome, a process exit, a
    clock reading) enters the handlers as arguments.  JSON replies are
    carried as [json] values, before serialisation. *)

From S2P Require Import Prelude.

(** Values given to [JSON.stringify].  [JDecimal h] is the number
    [h / 100], for the numbers that [toFixed(2)] and [parseFloat]
    produce. *)
#[warnings="-register-all"]
Inductive json : Type :=
  | JNull
  | JBool (b : bool)
  | JNumber (n : num)
  | JDecimal (hundredths : Z)
  | JString (s : string)
  | JArray (items : list json)
  | JObject (fields : list (string * json)).

(** [console.log], [console.warn] and [console.error]. *)
Inductive level : Type := Log | Warn | Error.

(** Signals given to [child.kill]. *)
Inductive signal : Type := SIGTERM | SIGKILL | SIGINT.

#[export] Instance level_eq_dec : EqDecision level.
Proof. solve_decision. Defined.

#[export] Instance signal_eq_dec : EqDecision signal.
Proof. solve_decision. Defined.

(** Header objects: string keys in insertion order. *)
Abbreviation headers := (list (string * string)) (only parsing).

(** The part of an incoming request the handler reads ([req.url],
    [req.method], [req.headers]). *)
Module Req.
Record t : Type := mk {
  url : string;
  method : string;
  headers : list (string * string);
}.
End Req.

(** The options object of [http.request]. *)
Module Opt.
Record t : Type := mk {
  hostname : string;
  port : num;
  path : string;
  method : string;
  headers : list (string * string);
}.
End Opt.

(** The part of a proxied response the callback reads
    ([proxyRes.statusCode], [proxyRes.headers]). *)
Module Res.
Record t : Type := mk {
  statusCode : Z;
  headers : list (string * string);
}.
End Res.

(** The calls a handler makes. *)
Inductive effect : Type :=
  | Console (l : level) (msg : string)
  | WriteHead (status : Z) (hs : list (string * string))
  | EndJson (body : json)
  | PipeResponse
  | PipeRequest
  | HttpRequest (inst : nat) (o : Opt.t)
  | ProbeRequest (o : Opt.t) (timeout : Z)
  | ExecSync (cmd : string)
  | Spawn (cmd : string) (args : list string)
  | Kill (p : nat) (s : signal)
  | SetTimeout (ms : Z)
  | SetInterval (ms : Z)
  | ClearInterval (t : nat)
  | OnSignal (name : string)
  | Listen (port : string) (host : string)
  | Exit (code : Z).

(** The status line of a reply, if the effects contain one. *)
Definition status_of (es : list effect) : option Z :=
  head (omap (λ e, match e with WriteHead s _ => Some s | _ => None end) es).

(** The JSON body of a reply, if the effects contain one. *)
Definition body_of (es : list effect) : option json :=
  head (omap (λ e, match e with EndJson b => Some b | _ => None end) es).

(** Field access on a JSON object. *)
Definition field (k : string) (j : json) : option json :=
  match j with
  | JObject fs => jm_get k fs
  | _ => None
  end.

(** The length of a JSON array. *)
Definition items_length (j : json) : option nat :=
  match j with
  | JArray l => Some (length l)
  | _ => None
  end.

(** A TCP port is an integer of 16 bits; [listen] and the workers
    accept nothing else. *)
Definition is_port (n : num) : bool :=
  match n with
  | Int z => bool_decide (0 ≤ z < 65536)
  | NaN => false
  end.

(** The processes a handler has spawned: command and arguments. *)
Definition spawns (es : list effect) : list (string * list string) :=
  omap (λ e, match e with Spawn c a => Some (c, a) | _ => None end) es.

(** The signals a handler has sent. *)
Definition kills (es : list effect) : list (nat * signal) :=
  omap (λ e, match e with Kill p s => Some (p, s) | _ => None end) es.

(** The ports a handler has sent probes to. *)
Definition probes (es : list effect) : list num :=
  omap (λ e, match e with ProbeRequest o _ => Some (Opt.port o) | _ => None end) es.

Lemma spawns_app es1 es2 : spawns (es1 ++ es2) = spawns es1 ++ spawns es2.
Proof. apply omap_app. Qed.

Lemma kills_app es1 es2 : kills (es1 ++ es2) = kills es1 ++ kills es2.
Proof. apply omap_app. Qed.

Lemma probes_app es1 es2 : probes (es1 ++ es2) = probes es1 ++ probes es2.
Proof. apply omap_app. Qed.

#[export] Hint Rewrite spawns_app kills_app probes_app : router_rw.
