(* ===== verification/RoundRobin.v ===== *)
(** * Round robin: the selection rule as an abstract specification

    The design calls for this rule: restrict to the healthy instances in
    registration order; look the previous selection up in that list;
    select the element after it, wrapping around, or the first element when
    the previous selection is not in the list.  [select] states the rule
    over any list, the lookup being a decidable predicate that recognises
    the previous selection; [run] iterates it with the selection
    remembered.  The theorems say that [m] successive selections over a
    stable list without duplicates read off a rotation of the list, hence
    that a window of as many selections as there are elements visits every
    element exactly once.  [Balancer] proves that [getHealthyInstance]
    implements [select]. *)

From S2P Require Import Prelude.

Module RoundRobin.
#[local] Open Scope nat_scope.

(** The position to select: one past the previous selection, or the
    first. *)
Definition start {A} (P : A → Prop) `{!∀ x, Decision (P x)} (l : list A) : nat :=
  match list_find P l with
  | Some (i, _) => S i
  | None => 0
  end.

(** One selection. *)
Definition select {A} (P : A → Prop) `{!∀ x, Decision (P x)} (l : list A) : option A :=
  match l with
  | [] => None
  | _ :: _ => l !! (start P l mod length l)
  end.

(** The predicate that recognises a remembered selection. *)
Definition was {A} (prev : option A) (x : A) : Prop := prev = Some x.

#[export] Instance was_dec {A} `{EqDecision A} (prev : option A) x : Decision (was prev x).
Proof. unfold was. apply _. Defined.

(** [m] successive selections, each remembered for the next. *)
Fixpoint run {A} `{EqDecision A} (m : nat) (prev : option A) (l : list A) : list A :=
  match m with
  | 0 => []
  | S m' =>
      match select (was prev) l with
      | Some x => x :: run m' (Some x) l
      | None => []
      end
  end.

(** [m] successive selections, the first by an arbitrary predicate. *)
Definition run_by {A} `{EqDecision A} (P : A → Prop) `{!∀ x, Decision (P x)}
    (m : nat) (l : list A) : list A :=
  match m with
  | 0 => []
  | S m' =>
      match select P l with
      | Some x => x :: run m' (Some x) l
      | None => []
      end
  end.

(** * Lemmas *)

Section select.
Context {A : Type} (P : A → Prop) `{!∀ x, Decision (P x)}.
Implicit Types (l : list A) (x : A).

Lemma start_le l : start P l ≤ length l.
Proof.
  unfold start. destruct (list_find P l) as [[i x]|] eqn:E; [|lia].
  apply list_find_Some in E as [E%lookup_lt_Some _]. lia.
Qed.

Lemma select_None l : select P l = None ↔ l = [].
Proof.
  destruct l as [|x l]; [done|]. split; [|done].
  intros E%lookup_ge_None. simpl in E.
  pose proof (Nat.mod_upper_bound (start P (x :: l)) (S (length l))). lia.
Qed.

Lemma select_is_Some l : l ≠ [] → is_Some (select P l).
Proof. rewrite <- not_eq_None_Some, select_None. done. Qed.

Lemma select_lookup l x :
  select P l = Some x → l !! (start P l mod length l) = Some x.
Proof. by destruct l. Qed.

Lemma select_elem l x : select P l = Some x → x ∈ l.
Proof. intros ?%select_lookup. by eapply list_elem_of_lookup_2. Qed.

(** The previous selection is not in the list: the first element. *)
Lemma select_absent l : Forall (λ x, ¬ P x) l → select P l = head l.
Proof.
  intros E%(list_find_None P). unfold select, start. rewrite E.
  destruct l; [done|]. by rewrite Nat.Div0.mod_0_l.
Qed.

(** The previous selection is at position [i]: the element after it,
    the first after the last. *)
Lemma select_next l i x :
  list_find P l = Some (i, x) → select P l = l !! (S i mod length l).
Proof.
  intros E. unfold select, start. rewrite E. destruct l; [|done].
  by apply list_find_Some in E as [? _].
Qed.

(** Two predicates that agree on the elements of the list select the
    same element. *)
Lemma select_ext (Q : A → Prop) `{!∀ x, Decision (Q x)} l :
  Forall (λ x, P x ↔ Q x) l → select P l = select Q l.
Proof.
  intros HPQ. unfold select, start.
  enough (list_find P l = list_find Q l) as -> by done.
  induction HPQ as [|x l Hx _ IH]; [done|]. simpl.
  rewrite IH. do 2 case_decide; tauto || done.
Qed.
End select.

(** ** Renaming *)

Section fmap.
Context {A B : Type} (f : A → B) (P : B → Prop) `{!∀ y, Decision (P y)}.
Lemma start_fmap (l : list A) : start P (f <$> l) = start (P ∘ f) l.
Proof.
  unfold start. rewrite list_find_fmap.
  by destruct (list_find (P ∘ f) l) as [[i x]|].
Qed.

(** Selection commutes with renaming the elements. *)
Lemma select_fmap (l : list A) :
  select P (f <$> l) = f <$> select (P ∘ f) l.
Proof.
  unfold select. rewrite start_fmap, length_fmap.
  destruct l as [|x l]; [done|]. simpl fmap at 1.
  change (f x :: (f <$> l)) with (f <$> x :: l). by rewrite list_lookup_fmap.
Qed.
End fmap.

(** ** Sequences of selections *)

Section run.
Context {A : Type} `{EqDecision A}.
Implicit Types (l : list A) (x : A) (prev : option A).

(** In a list without duplicates an element is found where it is. *)
Lemma find_was l i x : NoDup l → l !! i = Some x → list_find (was (Some x)) l = Some (i, x).
Proof.
  intros Hnd Hi. apply list_find_Some. repeat split; [done..|].
  intros j y Hj Hlt [= ->]. pose proof (NoDup_lookup _ _ _ _ Hnd Hi Hj). lia.
Qed.

Lemma start_was l i x : NoDup l → l !! i = Some x → start (was (Some x)) l = S i.
Proof. intros. unfold start. by erewrite find_was. Qed.

Lemma run_length m prev l : l ≠ [] → length (run m prev l) = m.
Proof.
  intros Hl. revert prev. induction m as [|m IH]; intros prev; simpl; [done|].
  destruct (select_is_Some (was prev) l Hl) as [x ->]. simpl. by rewrite IH.
Qed.

(** After selecting [y], the rotation that starts one past [y] is the
    tail of the rotation that starts at [y]. *)
Lemma take_rotate_select (P : A → Prop) `{!∀ x, Decision (P x)} m l y :
  NoDup l → select P l = Some y → S m ≤ length l →
  take (S m) (rotate (start P l) l) =
  y :: take m (rotate (start (was (Some y)) l) l).
Proof.
  intros Hnd Hy%select_lookup Hm.
  rewrite (start_was _ _ _ Hnd Hy), rotate_S_mod.
  destruct (rotate_S_cons _ _ _ Hy) as (tl & E1 & E2).
  pose proof (length_rotate l (start P l)) as Hlen.
  rewrite E1 in Hlen. rewrite E1, E2. simpl in *.
  rewrite take_app_le by lia. done.
Qed.

(** Successive selections read off a rotation of the list. *)
Lemma run_rotate m prev l :
  NoDup l → m ≤ length l → run m prev l = take m (rotate (start (was prev) l) l).
Proof.
  intros Hnd. revert prev. induction m as [|m IH]; intros prev Hm; simpl; [done|].
  assert (l ≠ []) as Hl by (intros ->; simpl in Hm; lia).
  destruct (select_is_Some (was prev) l Hl) as [y Hy]. rewrite Hy.
  rewrite IH by lia. by rewrite <- (take_rotate_select (was prev)).
Qed.

Lemma run_by_rotate (P : A → Prop) `{!∀ x, Decision (P x)} m l :
  NoDup l → m ≤ length l → run_by P m l = take m (rotate (start P l) l).
Proof.
  intros Hnd Hm. destruct m as [|m]; simpl; [done|].
  assert (l ≠ []) as Hl by (intros ->; simpl in Hm; lia).
  destruct (select_is_Some P l Hl) as [y Hy]. rewrite Hy.
  rewrite run_rotate by (done || lia). by rewrite <- (take_rotate_select P).
Qed.

(** A window of as many selections as there are elements is a rotation
    of the list. *)
Lemma run_full prev l : NoDup l → run (length l) prev l = rotate (start (was prev) l) l.
Proof.
  intros. rewrite run_rotate by done.
  rewrite <- (length_rotate l (start (was prev) l)) at 1. apply firstn_all.
Qed.

Lemma run_by_full (P : A → Prop) `{!∀ x, Decision (P x)} l :
  NoDup l → run_by P (length l) l = rotate (start P l) l.
Proof.
  intros. rewrite run_by_rotate by done.
  rewrite <- (length_rotate l (start P l)) at 1. apply firstn_all.
Qed.

Lemma run_full_Permutation prev l : NoDup l → run (length l) prev l ≡ₚ l.
Proof. intros. rewrite run_full by done. apply rotate_Permutation. Qed.

(** No element is selected twice within a window. *)
Lemma run_NoDup m prev l : NoDup l → m ≤ length l → NoDup (run m prev l).
Proof.
  intros Hnd Hm. rewrite run_rotate by done.
  eapply sublist_NoDup; [|apply sublist_take]. by rewrite rotate_Permutation.
Qed.
End run.

#[export] Hint Resolve select_elem select_is_Some run_NoDup : router.

End RoundRobin.
