(* ===== verification/Config.v ===== *)
(** * Configuration

    The module-level constants of [router-ha.js] (lines 6-24): what the
    environment variables are read into.  A [Config.t] is the value of
    those constants for one run of the program.  The lemmas say what
    [load] reads from well-formed text: the keys and the providers of
    the environment come back as they were written. *)

From Stdlib Require Import Ascii.
From S2P Require Import Prelude Strings.

Module Config.
Import Strings.

(** An entry of [PROVIDERS]: [{ address, priority }]. *)
Record Provider : Type := mkProvider {
  address : string;
  priority : num;
}.

(** [PORT] is [process.env.PORT || 3000]: a string from the environment
    or the number [3000]. *)
Inductive port_value : Type :=
  | PortEnv (s : string)
  | PortNumber (n : Z).

(** The constants read from the environment.  An unset variable is
    [None] ([undefined]). *)
Record t : Type := mk {
  PROVIDERS : list Provider;
  DIRECT_ENDPOINTS : list string;
  KEYS : list string;
  PORT : port_value;
  HOST : string;
  RPC : option string;
  LEDGER_CA : option string;
  INFERENCE_CA : option string;
  GAS_PRICE : option string;
  DEFAULT_PROVIDER_PRIORITY : string;
  DEFAULT_ENDPOINT_PRIORITY : string;
}.

Definition HEALTH_CHECK_INTERVAL : Z := 30000.
Definition RESTART_DELAY : Z := 5000.

(** One element of [PROVIDERS.split(';')] (lines 8-11). *)
Definition parseProvider (p : string) : Provider :=
  let parts := js_split ","%char p in
  let address := default EmptyString (parts !! 0%nat) in
  let priority :=
    match parts !! 1%nat with
    | Some priority =>
        if truthy priority then parseInt (js_trim priority) else Int 100
    | None => Int 100
    end in
  mkProvider (js_trim address) priority.

(** [v ? v.split(sep) : []]. *)
Definition splitEnv (sep : Ascii.ascii) (v : option string) : list string :=
  match v with
  | Some s => if truthy s then js_split sep s else []
  | None => []
  end.

(** [v || d] for a string or [undefined]. *)
Definition orDefault (v : option string) (d : string) : string :=
  match v with
  | Some s => if truthy s then s else d
  | None => d
  end.

(** The constants as the module computes them from [process.env]
    (lines 8-21). *)
Definition load (env : string → option string) : t :=
  mk (parseProvider <$> splitEnv ";"%char (env "PROVIDERS"))
     (splitEnv ";"%char (env "DIRECT_ENDPOINTS"))
     (splitEnv ","%char (env "KEYS"))
     (match env "PORT" with
      | Some s => if truthy s then PortEnv s else PortNumber 3000
      | None => PortNumber 3000
      end)
     (orDefault (env "HOST") "0.0.0.0")
     (env "RPC_ENDPOINT")
     (env "LEDGER_CA")
     (env "INFERENCE_CA")
     (env "GAS_PRICE")
     (orDefault (env "DEFAULT_PROVIDER_PRIORITY") "100")
     (orDefault (env "DEFAULT_ENDPOINT_PRIORITY") "50").

(** [parseInt(PORT)]. *)
Definition portNumber (cfg : t) : num :=
  match PORT cfg with
  | PortEnv s => parseInt s
  | PortNumber n => Int n
  end.

(** ** Well-formed text

    The format the comment of line 7 gives for [PROVIDERS]:
    [address,priority] entries separated by semicolons. *)
Definition entry (p : string * Z) : string := p.1 +:+ "," +:+ pretty p.2.

(** An address that survives the parsing unchanged: no separator in
    it, no white space around it. *)
Definition plain (a : string) : bool :=
  lacks "," a && lacks ";" a && bool_decide (js_trim a = a).

(** An environment that sets the given variables. *)
Definition env_of (vars : list (string * string)) (name : string) : option string :=
  jm_get name vars.

Definition sample_env : string → option string :=
  env_of [("PROVIDERS", "0xA1,10;0xB2,20"); ("KEYS", "k0,k1,k2"); ("PORT", "3000")].

Section lemmas.
Implicit Types (env : string → option string) (sep : ascii) (s a : string).
Implicit Types (z : Z) (l : list string).

Lemma splitEnv_Some sep s : s ≠ EmptyString → splitEnv sep (Some s) = js_split sep s.
Proof. intros Hs. unfold splitEnv, truthy. by rewrite bool_decide_eq_true_2. Qed.

(** Joining what was read gives the variable back, the empty one
    included. *)
Lemma join_splitEnv sep s : join (String sep EmptyString) (splitEnv sep (Some s)) = s.
Proof.
  destruct (decide (s = EmptyString)) as [->|Hs]; [done|].
  rewrite splitEnv_Some by done. apply join_js_split.
Qed.

Lemma splitEnv_join sep l :
  join (String sep EmptyString) l ≠ EmptyString → Forall (λ s, lacks sep s) l →
  splitEnv sep (Some (join (String sep EmptyString) l)) = l.
Proof.
  intros Hs Hl. rewrite splitEnv_Some by done. apply js_split_join; [|done].
  by intros ->.
Qed.

(** A variable that is set holds one element more than separators. *)
Lemma length_splitEnv sep s :
  s ≠ EmptyString → length (splitEnv sep (Some s)) = S (occurrences sep s).
Proof. intros Hs. rewrite splitEnv_Some by done. apply length_js_split. Qed.

Lemma lacks_entry sep a z :
  lacks sep a → digit_value 10 sep = None → sep ≠ "-"%char → sep ≠ ","%char →
  lacks sep (a +:+ "," +:+ pretty z).
Proof.
  intros Ha Hd Hm Hc. unfold lacks. rewrite !all_app. simpl.
  rewrite !andb_True, negb_True, bool_decide_spec.
  split_and!; [done|congruence|done|by apply lacks_pretty].
Qed.

(** An entry with a priority. *)
Lemma parseProvider_entry a z :
  lacks "," a → parseProvider (a +:+ "," +:+ pretty z) = mkProvider (js_trim a) (Int z).
Proof.
  intros Ha. unfold parseProvider.
  change (a +:+ "," +:+ pretty z) with (a +:+ String "," (pretty z)).
  rewrite (js_split_app _ a (pretty z)), js_split_lacks by (by try apply lacks_pretty).
  simpl. pose proof (pretty_truthy z) as Ht. destruct (truthy (pretty z)); [|done].
  by rewrite (js_trim_solid (pretty z)), parseInt_pretty by apply solid_pretty.
Qed.

(** An entry without a priority, or with an empty one, gets the
    priority [100]. *)
Lemma parseProvider_bare a :
  lacks "," a →
  parseProvider a = mkProvider (js_trim a) (Int 100)
  ∧ parseProvider (a +:+ ",") = mkProvider (js_trim a) (Int 100).
Proof.
  intros Ha. unfold parseProvider.
  by rewrite (js_split_app _ a EmptyString), js_split_lacks by done.
Qed.

(** [PORT] set to the numeral of an integer is read back by
    [parseInt]; unset or empty, the port is 3000. *)
Lemma load_port env z : env "PORT" = Some (pretty z) → portNumber (load env) = Int z.
Proof.
  intros Henv. unfold portNumber. simpl. rewrite Henv.
  pose proof (pretty_truthy z). destruct (truthy (pretty z)); [|done].
  apply (reads z I).
Qed.

Lemma load_port_default env :
  env "PORT" = None ∨ env "PORT" = Some EmptyString → portNumber (load env) = Int 3000.
Proof. intros [Henv|Henv]; unfold portNumber; simpl; by rewrite Henv. Qed.

Lemma join_nonempty (sp x : string) l :
  x ≠ EmptyString → join sp (x :: l) ≠ EmptyString.
Proof. by destruct x, l. Qed.

(** C18. The keys come back as they were written: where [KEYS] is the
    keys joined by commas, no key holds a comma and the text is not
    empty, [KEYS.split(',')] is the list of the keys, in order. *)
Theorem keys_roundtrip env ks :
  env "KEYS" = Some (join "," ks) → join "," ks ≠ EmptyString →
  Forall (λ k, lacks "," k) ks →
  KEYS (load env) = ks.
Proof.
  intros Henv Hs Hks. simpl. rewrite Henv, splitEnv_Some by done.
  apply (reads (Reads := split_reads ",") ks). split; [by intros ->|done].
Qed.

(** Printing the keys the program holds gives the variable back. *)
Theorem keys_printed env s : env "KEYS" = Some s → join "," (KEYS (load env)) = s.
Proof. intros Henv. simpl. rewrite Henv. apply join_splitEnv. Qed.

(** The program starts one instance per key: one more than there
    are commas in [KEYS]. *)
Theorem keys_count env s :
  env "KEYS" = Some s → s ≠ EmptyString →
  length (KEYS (load env)) = S (occurrences "," s).
Proof. intros Henv Hs. simpl. rewrite Henv. by apply length_splitEnv. Qed.

(** An entry is read back as its address and its priority. *)
#[export] Instance entry_reads :
  Reads (λ p, lacks "," p.1 ∧ js_trim p.1 = p.1) entry parseProvider
        (λ p, mkProvider p.1 (Int p.2)).
Proof.
  intros [a z] [Ha Ht]. unfold entry. simpl in *. by rewrite parseProvider_entry, Ht.
Qed.

(** The providers come back as they were written: where [PROVIDERS]
    is a list of [address,priority] entries joined by semicolons, with
    plain addresses and integer priorities, the program holds these
    addresses with these priorities, in order. *)
Lemma load_providers env (ps : list (string * Z)) :
  ps ≠ [] → Forall (λ p, plain p.1) ps →
  env "PROVIDERS" = Some (join ";" (entry <$> ps)) →
  PROVIDERS (load env) = (λ p, mkProvider p.1 (Int p.2)) <$> ps.
Proof.
  intros Hne Hps Henv. simpl. rewrite Henv, splitEnv_Some.
  - apply (list_reads ";" _ entry parseProvider _ entry_reads ps).
    split; [done|]. eapply Forall_impl; [done|].
    intros [a z] [[Hc Hs]%andb_True Ht%bool_decide_unpack]%andb_True.
    split; [done | by apply lacks_entry].
  - destruct ps as [|[a z] ps]; [done|]. apply join_nonempty.
    intros Hz. pose proof (pretty_truthy z) as Ht.
    unfold entry in Hz; simpl in Hz. by destruct a.
Qed.

End lemmas.

Lemma keys_roundtrip_witness : KEYS (load sample_env) = ["k0"; "k1"; "k2"].
Proof.
  apply (keys_roundtrip sample_env ["k0"; "k1"; "k2"]); [reflexivity|by_compute..].
Defined.

Lemma keys_printed_witness : join "," (KEYS (load sample_env)) = "k0,k1,k2".
Proof. by apply (keys_printed sample_env). Defined.

Lemma keys_count_witness : length (KEYS (load sample_env)) = 3%nat.
Proof. by apply (keys_count sample_env "k0,k1,k2"). Defined.

End Config.
