(* ===== verification/Registry.v ===== *)
(** * The instance registry

    The data of [RouterManager]: the instance object built by
    [startInstance], the manager's own fields, and the store that holds
    the instance objects.  An instance object is reached through a
    reference from three places (the [instances] map, the round-robin
    cursor [currentActiveInstance] and the closures of callbacks), so a
    field update through one of them is seen through the others.  The
    invariant [wf] says that the map's keys are distinct and that every
    reference in the map or in the cursor points to an object, the object
    under a key carrying that key as its [id]. *)

From S2P Require Import Prelude.

Module Registry.

(** References to instance objects and to child-process handles. *)
Abbreviation ref := nat (only parsing).
Abbreviation pid := nat (only parsing).

(** The object literal of [startInstance]. *)
Record Instance : Type := mkInstance {
  id : string;
  process : pid;
  port : num;
  key : option string;
  healthy : bool;
  lastHealthCheck : option Z;
  startTime : Z;
  restartCount : nat;
}.

#[export] Instance Instance_eq_dec : EqDecision Instance.
Proof. solve_decision. Defined.

(** Field assignments [i.healthy = b], [i.lastHealthCheck = t] and
    [i.restartCount++]. *)
Definition with_healthy (b : bool) (i : Instance) : Instance :=
  mkInstance (id i) (process i) (port i) (key i) b
             (lastHealthCheck i) (startTime i) (restartCount i).

Definition with_lastHealthCheck (t : Z) (i : Instance) : Instance :=
  mkInstance (id i) (process i) (port i) (key i) (healthy i)
             (Some t) (startTime i) (restartCount i).

Definition incr_restartCount (i : Instance) : Instance :=
  mkInstance (id i) (process i) (port i) (key i) (healthy i)
             (lastHealthCheck i) (startTime i) (S (restartCount i)).

(** The fields the constructor of [RouterManager] initialises.  The map
    holds references; [None] stands for [null] in the other fields. *)
Record RouterManager : Type := mkRouterManager {
  instances : list (string * ref);
  currentActiveInstance : option ref;
  isShuttingDown : bool;
  healthCheckInterval : option nat;
}.

Definition constructor : RouterManager := mkRouterManager [] None false None.

(** The manager together with the store of instance objects. *)
Record State : Type := mkState {
  heap : list Instance;
  mgr : RouterManager;
}.

Definition init : State := mkState [] constructor.

Definition with_heap (h : list Instance) (st : State) : State :=
  mkState h (mgr st).

Definition with_instances (m : list (string * ref)) (st : State) : State :=
  mkState (heap st)
    (mkRouterManager m (currentActiveInstance (mgr st))
       (isShuttingDown (mgr st)) (healthCheckInterval (mgr st))).

Definition with_currentActiveInstance (c : option ref) (st : State) : State :=
  mkState (heap st)
    (mkRouterManager (instances (mgr st)) c
       (isShuttingDown (mgr st)) (healthCheckInterval (mgr st))).

Definition with_isShuttingDown (b : bool) (st : State) : State :=
  mkState (heap st)
    (mkRouterManager (instances (mgr st)) (currentActiveInstance (mgr st))
       b (healthCheckInterval (mgr st))).

Definition with_healthCheckInterval (t : option nat) (st : State) : State :=
  mkState (heap st)
    (mkRouterManager (instances (mgr st)) (currentActiveInstance (mgr st))
       (isShuttingDown (mgr st)) t).

(** Reading a field through a reference.  A dangling reference reads as
    unhealthy; [wf] excludes it for every reference the code holds. *)
Definition healthy_at (h : list Instance) (r : ref) : bool :=
  from_option healthy false (h !! r).

Definition id_at (h : list Instance) (r : ref) : option string :=
  id <$> h !! r.

(** Writing a field through a reference. *)
Definition update (f : Instance → Instance) (r : ref) (st : State) : State :=
  with_heap (alter f r (heap st)) st.

(** [Array.from(this.instances.values())]. *)
Definition values (st : State) : list ref := jm_values (instances (mgr st)).

(** [Array.from(this.instances.values()).filter(i => i.healthy)]. *)
Definition healthyInstances (st : State) : list ref :=
  filter (λ r, healthy_at (heap st) r = true) (values st).

(** [this.instances.set(instanceId, instance)] for a freshly built
    [instance]: the object is allocated, then stored under its key. *)
Definition register (i : Instance) (st : State) : ref * State :=
  let '(r, h) := alloc (heap st) i in
  (r, with_instances (jm_set (id i) r (instances (mgr st))) (with_heap h st)).

(** Well-formedness of the registry. *)
Definition wf (st : State) : Prop :=
  NoDup (jm_keys (instances (mgr st)))
  ∧ Forall (λ kr, id_at (heap st) kr.2 = Some kr.1) (instances (mgr st))
  ∧ from_option (λ r, (r < length (heap st))%nat) True
      (currentActiveInstance (mgr st)).

#[export] Instance wf_dec st : Decision (wf st).
Proof. unfold wf. destruct (currentActiveInstance (mgr st)); simpl; apply _. Defined.

(** * Lemmas *)

Section lemmas.
Implicit Types (st : State) (h : list Instance) (r : ref) (i : Instance).

(** ** Field updates through a reference *)

Lemma id_with_healthy b i : id (with_healthy b i) = id i.
Proof. done. Qed.

Lemma id_with_lastHealthCheck t i : id (with_lastHealthCheck t i) = id i.
Proof. done. Qed.

Lemma id_incr_restartCount i : id (incr_restartCount i) = id i.
Proof. done. Qed.

Lemma mgr_update f r st : mgr (update f r st) = mgr st.
Proof. done. Qed.

Lemma values_update f r st : values (update f r st) = values st.
Proof. done. Qed.

Lemma heap_update_length f r st : length (heap (update f r st)) = length (heap st).
Proof. apply length_alter. Qed.

Lemma heap_update_eq f r st i :
  heap st !! r = Some i → heap (update f r st) !! r = Some (f i).
Proof. intros Hr. simpl. by rewrite list_lookup_alter, decide_True, Hr. Qed.

Lemma heap_update_ne f r r' st : r ≠ r' → heap (update f r st) !! r' = heap st !! r'.
Proof. intros. simpl. by rewrite list_lookup_alter_ne. Qed.

Lemma healthy_at_update_eq f r st i :
  heap st !! r = Some i → healthy_at (heap (update f r st)) r = healthy (f i).
Proof. intros Hr. unfold healthy_at. by rewrite (heap_update_eq _ _ _ i). Qed.

Lemma healthy_at_update_ne f r r' st :
  r ≠ r' → healthy_at (heap (update f r st)) r' = healthy_at (heap st) r'.
Proof. intros. unfold healthy_at. by rewrite heap_update_ne. Qed.

(** Writing [healthy] through a dangling reference changes nothing. *)
Lemma healthy_at_set b r r' st :
  healthy_at (heap (update (with_healthy b) r st)) r' =
  if decide (r = r' ∧ (r < length (heap st))%nat) then b
  else healthy_at (heap st) r'.
Proof.
  case_decide as Hd.
  - destruct Hd as [<- [i Hi]%lookup_lt_is_Some].
    by rewrite (healthy_at_update_eq _ _ _ i).
  - destruct (decide (r = r')) as [<-|]; [|by apply healthy_at_update_ne].
    unfold healthy_at. simpl. rewrite list_lookup_alter, decide_True by done.
    rewrite lookup_ge_None_2; [done | lia].
Qed.

(** After [i.healthy = false] the object reads as unhealthy. *)
Lemma healthy_at_unset r st :
  healthy_at (heap (update (with_healthy false) r st)) r = false.
Proof.
  rewrite healthy_at_set. case_decide as Hd; [done|].
  unfold healthy_at. rewrite lookup_ge_None_2; [done|].
  destruct (decide (r < length (heap st))%nat); [tauto | lia].
Qed.

Lemma id_at_update f r r' st :
  (∀ i, id (f i) = id i) → id_at (heap (update f r st)) r' = id_at (heap st) r'.
Proof.
  intros Hf. unfold id_at. simpl. rewrite list_lookup_alter.
  case_decide; [subst|done]. destruct (heap st !! r'); simpl; by rewrite ?Hf.
Qed.

(** ** The invariant *)

Lemma wf_init : wf init.
Proof. repeat split; simpl; [apply NoDup_nil_2 | done]. Qed.

Lemma wf_lookup st k r :
  wf st → (k, r) ∈ instances (mgr st) → ∃ i, heap st !! r = Some i ∧ id i = k.
Proof.
  intros (_ & Hall & _) Hin. rewrite Forall_forall in Hall.
  specialize (Hall _ Hin). unfold id_at in Hall. simpl in Hall.
  destruct (heap st !! r) as [i|]; simplify_eq/=. eauto.
Qed.

Lemma wf_values st r :
  wf st → r ∈ values st → ∃ i, heap st !! r = Some i ∧ id i ∈ jm_keys (instances (mgr st)).
Proof.
  intros Hwf ([k r'] & -> & Hin)%list_elem_of_fmap.
  destruct (wf_lookup _ _ _ Hwf Hin) as (i & ? & <-). exists i. split; [done|].
  by apply (list_elem_of_fmap_2 fst) in Hin.
Qed.

Lemma wf_values_lt st r : wf st → r ∈ values st → (r < length (heap st))%nat.
Proof. intros ? (i & ?%lookup_lt_Some & _)%wf_values; done. Qed.

(** Two registered objects with the same [id] are the same object. *)
Lemma wf_id_inj st r1 r2 :
  wf st → r1 ∈ values st → r2 ∈ values st →
  id_at (heap st) r1 = id_at (heap st) r2 → r1 = r2.
Proof.
  intros Hwf ([k1 ?] & -> & H1)%list_elem_of_fmap
             ([k2 ?] & -> & H2)%list_elem_of_fmap Hid. simpl in *.
  destruct (wf_lookup _ _ _ Hwf H1) as (i1 & E1 & <-).
  destruct (wf_lookup _ _ _ Hwf H2) as (i2 & E2 & <-).
  unfold id_at in Hid. rewrite E1, E2 in Hid. simplify_eq/=.
  destruct Hwf as (Hnd & _).
  apply (jm_elem_of_get _ _ _ Hnd) in H1, H2. congruence.
Qed.

Lemma wf_values_NoDup st : wf st → NoDup (values st).
Proof.
  intros Hwf. apply NoDup_alt. intros a b r Ha Hb.
  destruct Hwf as (Hnd & Hall & _). rewrite Forall_lookup in Hall.
  unfold values, jm_values in *. rewrite list_lookup_fmap in Ha, Hb.
  destruct (instances (mgr st) !! a) as [[ka ra]|] eqn:Ea; simplify_eq/=.
  destruct (instances (mgr st) !! b) as [[kb rb]|] eqn:Eb; simplify_eq/=.
  pose proof (Hall _ _ Ea) as Ia. pose proof (Hall _ _ Eb) as Ib. simpl in *.
  assert (ka = kb) as -> by congruence.
  eapply NoDup_lookup; [exact Hnd| |]; unfold jm_keys;
    rewrite list_lookup_fmap; [by rewrite Ea | by rewrite Eb].
Qed.

(** ** Registration *)

Lemma register_ref i st : (register i st).1 = length (heap st).
Proof. done. Qed.

Lemma register_heap i st : heap (register i st).2 = heap st ++ [i].
Proof. done. Qed.

Lemma register_instances i st :
  instances (mgr (register i st).2)
  = jm_set (id i) (length (heap st)) (instances (mgr st)).
Proof. done. Qed.

Lemma register_get i st :
  jm_get (id i) (instances (mgr (register i st).2)) = Some (length (heap st)).
Proof. rewrite register_instances. apply jm_get_set_eq. Qed.

Lemma register_lookup_new i st :
  heap (register i st).2 !! length (heap st) = Some i.
Proof. rewrite register_heap. apply list_lookup_middle. done. Qed.

Lemma register_lookup_old i st r j :
  heap st !! r = Some j → heap (register i st).2 !! r = Some j.
Proof. intros. rewrite register_heap. by apply lookup_app_l_Some. Qed.

(** Registering a new instance keeps the registry well formed. *)
Lemma wf_register i st : wf st → wf (register i st).2.
Proof.
  intros Hwf. pose proof Hwf as (Hnd & Hall & Hc). repeat split.
  - rewrite register_instances. by apply jm_keys_set_NoDup.
  - rewrite register_instances. apply Forall_forall. intros [k r] Hin.
    unfold id_at. apply jm_set_elem in Hin as [[= -> ->]|Hin]; cbn [fst snd].
    + by rewrite register_lookup_new.
    + destruct (wf_lookup st k r Hwf Hin) as (j & Hj & <-).
      by rewrite (register_lookup_old i st r j).
  - rewrite register_heap, length_app. simpl.
    destruct (currentActiveInstance (mgr st)); simpl in *; [lia | done].
Qed.

(** A field update that keeps [id] keeps the registry well formed. *)
Lemma wf_update f r st : (∀ i, id (f i) = id i) → wf st → wf (update f r st).
Proof.
  intros Hf (Hnd & Hall & Hc). repeat split; [done| |].
  - eapply Forall_impl; [exact Hall|]. intros [k r'] ?. by rewrite id_at_update.
  - rewrite mgr_update, heap_update_length. done.
Qed.

Lemma wf_with_currentActiveInstance c st :
  wf st → from_option (λ r, r ∈ values st) True c →
  wf (with_currentActiveInstance c st).
Proof.
  intros Hwf Hc. pose proof Hwf as (Hnd & Hall & _). repeat split; [done..|].
  destruct c as [r|]; simpl in *; [|done]. by apply wf_values_lt.
Qed.

Lemma healthyInstances_spec st r :
  r ∈ healthyInstances st ↔ r ∈ values st ∧ healthy_at (heap st) r = true.
Proof. unfold healthyInstances. rewrite list_elem_of_filter. tauto. Qed.

Lemma healthyInstances_NoDup st : wf st → NoDup (healthyInstances st).
Proof. intros. by apply NoDup_filter, wf_values_NoDup. Qed.

End lemmas.

#[export] Hint Resolve wf_init wf_update wf_register wf_values_lt wf_values_NoDup
  healthyInstances_NoDup id_with_healthy id_with_lastHealthCheck
  id_incr_restartCount : router.
#[export] Hint Rewrite mgr_update values_update heap_update_length : router_rw.

End Registry.
