(* ===== verification/Balancer.v ===== *)
(** * The load balancer

    [getHealthyInstance] and the request handler of [startLoadBalancer],
    with the two callbacks of a proxied request.  A handler takes the
    state, returns the calls it makes and the new state.  References read
    from the state are resolved in the store; a reference that resolves
    to nothing reads as [undefined], which [Registry.wf] excludes. *)

From S2P Require Import Prelude Node RoundRobin Registry.

Module Balancer.
Import RoundRobin Registry.

(** [this.currentActiveInstance?.id]. *)
Definition cursor_id (st : State) : option string :=
  currentActiveInstance (mgr st) ≫= id_at (heap st).

(** The predicate [i => i.id === this.currentActiveInstance?.id]:
    [undefined] equals no string. *)
Definition is_current (st : State) (r : ref) : Prop :=
  is_Some (cursor_id st) ∧ id_at (heap st) r = cursor_id st.

#[export] Instance is_current_dec st r : Decision (is_current st r).
Proof. unfold is_current. apply _. Defined.

(** [getHealthyInstance()]: the selected instance and the state with the
    cursor moved to it. *)
Definition getHealthyInstance (st : State) : option ref * State :=
  let healthyInstances := healthyInstances st in
  if decide (length healthyInstances = 0%nat) then (None, st)
  else
    let currentIndex := js_or (findIndex (is_current st) healthyInstances) 0 in
    let nextIndex :=
      js_rem (currentIndex + 1) (Z.of_nat (length healthyInstances)) in
    let st' :=
      with_currentActiveInstance (js_index healthyInstances nextIndex) st in
    (currentActiveInstance (mgr st'), st').

(** The instance objects behind [this.instances.values()]. *)
Definition objects (st : State) : list Instance :=
  omap (λ r, heap st !! r) (values st).

Definition jsonHeaders : list (string * string) :=
  [("Content-Type", "application/json")].

Definition JInt (z : Z) : json := JNumber (Int z).

(** The entry of an instance in the 503 reply. *)
Definition summary (i : Instance) : json :=
  JObject [("id", JString (id i));
           ("healthy", JBool (healthy i));
           ("port", JNumber (port i));
           ("restartCount", JInt (Z.of_nat (restartCount i)))].

(** The entry of an instance in the [/status] reply; [now] is the
    reading of [Date.now()] taken for this entry. *)
Definition detail (now : Z) (i : Instance) : json :=
  JObject [("id", JString (id i));
           ("healthy", JBool (healthy i));
           ("port", JNumber (port i));
           ("uptime", JInt (now - startTime i));
           ("restartCount", JInt (Z.of_nat (restartCount i)));
           ("lastHealthCheck", from_option JInt JNull (lastHealthCheck i))].

(** The fields shared by the [/health] and [/status] replies. *)
Definition statusFields (st : State) : list (string * json) :=
  let healthyInstances := healthyInstances st in
  let isHealthy := bool_decide (0 < length healthyInstances)%nat in
  [("status", JString (if isHealthy then "healthy" else "unhealthy"));
   ("activeInstances", JInt (Z.of_nat (length healthyInstances)));
   ("totalInstances", JInt (Z.of_nat (jm_size (instances (mgr st)))))].

(** The request listener.  [clock k] is the [k]-th reading of
    [Date.now()] during the run of the handler. *)
Definition handleRequest (clock : nat → Z) (req : Req.t) (st : State)
    : list effect * State :=
  let '(instance, st) := getHealthyInstance st in
  match instance ≫= λ r, pair r <$> heap st !! r with
  | None =>
      ([WriteHead 503 jsonHeaders;
        EndJson (JObject
          [("error", JString "No healthy instances available");
           ("instances", JArray (summary <$> objects st))])], st)
  | Some (r, i) =>
      if decide (Req.url req = "/health") then
        let isHealthy := bool_decide (0 < length (healthyInstances st))%nat in
        let statusCode := if isHealthy then 200 else 503 in
        ([WriteHead statusCode jsonHeaders;
          EndJson (JObject (statusFields st))], st)
      else if decide (Req.url req = "/status") then
        ([WriteHead 200 jsonHeaders;
          EndJson (JObject (statusFields st ++
            [("instances",
              JArray (imap (λ k, detail (clock k)) (objects st)))]))], st)
      else
        ([HttpRequest r
            (Opt.mk "localhost" (port i) (Req.url req) (Req.method req)
               (jm_set "X-Router-Instance" (id i) (Req.headers req)));
          PipeRequest], st)
  end.

(** The response callback of the proxied request. *)
Definition proxyResponse (r : ref) (proxyRes : Res.t) (st : State)
    : list effect :=
  match heap st !! r with
  | Some i =>
      [WriteHead (Res.statusCode proxyRes)
         (jm_set "X-Router-Instance" (id i) (Res.headers proxyRes));
       PipeResponse]
  | None => []
  end.

(** The error callback of the proxied request; [message] is
    [err.message]. *)
Definition proxyError (r : ref) (message : string) (st : State)
    : list effect * State :=
  match heap st !! r with
  | Some i =>
      ([Console Error
          ("[LoadBalancer] Proxy error to " +:+ id i +:+ ": " +:+ message);
        WriteHead 502 jsonHeaders;
        EndJson (JObject [("error", JString "Bad Gateway");
                          ("instance", JString (id i))])],
       update (with_healthy false) r st)
  | None => ([], st)
  end.

(** The [id] behind a reference. *)
Definition id_of (st : State) (r : ref) : string :=
  default EmptyString (id_at (heap st) r).

(** The [id]s of the healthy instances, in registration order. *)
Definition healthy_ids (st : State) : list string :=
  id_of st <$> healthyInstances st.

(** The instances returned by [m] successive calls of
    [getHealthyInstance], up to the first call that returns [null]. *)
Fixpoint selections (m : nat) (st : State) : list ref :=
  match m with
  | O => []
  | S m' =>
      match getHealthyInstance st with
      | (Some r, st') => r :: selections m' st'
      | (None, _) => []
      end
  end.

(** ** Sample states for the witnesses *)

(** Three instances, all healthy, as [start] leaves them with three keys
    and every worker ready; the cursor still [null]. *)
Definition sample : State :=
  mkState
    [mkInstance "router-0" 0%nat (Int 3100) (Some "k0") true None 0 0;
     mkInstance "router-1" 1%nat (Int 3101) (Some "k1") true None 0 0;
     mkInstance "router-2" 2%nat (Int 3102) (Some "k2") true None 0 0]
    (mkRouterManager
       [("router-0", 0%nat); ("router-1", 1%nat); ("router-2", 2%nat)]
       None false None).

(** The same registry after every instance has failed its probe. *)
Definition sample_down : State :=
  update (with_healthy false) 0%nat
    (update (with_healthy false) 1%nat
       (update (with_healthy false) 2%nat sample)).


(** * Lemmas *)

Section lemmas.
Implicit Types (st : State) (r : ref).

(** The index arithmetic of [getHealthyInstance] computes the position
    of the abstract rule. *)
Lemma nextIndex_start (P : ref → Prop) `{!∀ x, Decision (P x)} (l : list ref) :
  l ≠ [] →
  js_index l (js_rem (js_or (findIndex P l) 0 + 1) (Z.of_nat (length l))) =
  l !! (RoundRobin.start P l mod length l)%nat.
Proof.
  intros Hl. assert (0 < length l)%nat by (destruct l; simpl; [done|lia]).
  rewrite js_or_0_r. pose proof (findIndex_range P l).
  rewrite js_rem_mod by lia. unfold findIndex, RoundRobin.start in *.
  destruct (list_find P l) as [[i x]|].
  - replace (Z.of_nat i + 1) with (Z.of_nat (S i)) by lia.
    by rewrite <- Nat2Z.inj_mod, js_index_nat.
  - rewrite Z.mod_0_l, Nat.Div0.mod_0_l by lia. apply (js_index_nat l 0).
Qed.

Lemma getHealthyInstance_spec st :
  getHealthyInstance st =
  let s := RoundRobin.select (is_current st) (healthyInstances st) in
  (s, if decide (healthyInstances st = []) then st
      else with_currentActiveInstance s st).
Proof.
  unfold getHealthyInstance. cbv zeta.
  destruct (healthyInstances st) as [|r l] eqn:E; [done|].
  rewrite decide_False by done. rewrite decide_False by done.
  rewrite nextIndex_start by done. done.
Qed.

Lemma getHealthyInstance_result st :
  (getHealthyInstance st).1 = RoundRobin.select (is_current st) (healthyInstances st).
Proof. by rewrite getHealthyInstance_spec. Qed.

Lemma getHealthyInstance_unavailable st :
  healthyInstances st = [] → getHealthyInstance st = (None, st).
Proof. intros E. rewrite getHealthyInstance_spec, E. done. Qed.

Lemma getHealthyInstance_None st :
  (getHealthyInstance st).1 = None ↔ healthyInstances st = [].
Proof. rewrite getHealthyInstance_result. apply RoundRobin.select_None. Qed.

Lemma getHealthyInstance_elem st r :
  (getHealthyInstance st).1 = Some r → r ∈ healthyInstances st.
Proof. rewrite getHealthyInstance_result. apply RoundRobin.select_elem. Qed.

Lemma getHealthyInstance_healthy st r :
  (getHealthyInstance st).1 = Some r →
  r ∈ values st ∧ healthy_at (heap st) r = true.
Proof. intros ?%getHealthyInstance_elem. by apply healthyInstances_spec. Qed.

(** Only the cursor changes, and it is the selection. *)
Lemma getHealthyInstance_state st :
  (getHealthyInstance st).2 =
  if decide (healthyInstances st = []) then st
  else with_currentActiveInstance (getHealthyInstance st).1 st.
Proof. by rewrite getHealthyInstance_spec. Qed.

Lemma getHealthyInstance_heap st : heap (getHealthyInstance st).2 = heap st.
Proof. rewrite getHealthyInstance_state. by case_decide. Qed.

Lemma getHealthyInstance_instances st :
  instances (mgr (getHealthyInstance st).2) = instances (mgr st).
Proof. rewrite getHealthyInstance_state. by case_decide. Qed.

Lemma getHealthyInstance_isShuttingDown st :
  isShuttingDown (mgr (getHealthyInstance st).2) = isShuttingDown (mgr st).
Proof. rewrite getHealthyInstance_state. by case_decide. Qed.

Lemma getHealthyInstance_healthyInstances st :
  healthyInstances (getHealthyInstance st).2 = healthyInstances st.
Proof.
  unfold healthyInstances, values.
  by rewrite getHealthyInstance_heap, getHealthyInstance_instances.
Qed.

Lemma getHealthyInstance_cursor st r :
  (getHealthyInstance st).1 = Some r →
  currentActiveInstance (mgr (getHealthyInstance st).2) = Some r.
Proof.
  intros Hr. rewrite getHealthyInstance_state.
  rewrite decide_False; [by rewrite Hr|].
  intros E%getHealthyInstance_None. congruence.
Qed.

Lemma getHealthyInstance_wf st : wf st → wf (getHealthyInstance st).2.
Proof.
  intros Hwf. rewrite getHealthyInstance_state. case_decide; [done|].
  apply wf_with_currentActiveInstance; [done|].
  destruct (getHealthyInstance st).1 as [r|] eqn:E; simpl; [|done].
  by apply getHealthyInstance_healthy.
Qed.

(** With the cursor on a registered instance, the lookup by [id] finds
    that instance and no other. *)
Lemma is_current_was st r :
  wf st → currentActiveInstance (mgr st) = Some r → r ∈ values st →
  Forall (λ x, is_current st x ↔ RoundRobin.was (Some r) x) (healthyInstances st).
Proof.
  intros Hwf Hc Hr. apply Forall_forall. intros x [Hx _]%healthyInstances_spec.
  unfold is_current, cursor_id, RoundRobin.was. rewrite Hc. simpl.
  destruct (wf_values _ _ Hwf Hr) as (i & Hi & _).
  split.
  - intros [_ E]. f_equal. symmetry. by apply (wf_id_inj st).
  - intros [= ->]. split; [|done]. unfold id_at. rewrite Hi. by eexists.
Qed.

Lemma selections_run m st r :
  wf st → currentActiveInstance (mgr st) = Some r → r ∈ values st →
  selections m st = RoundRobin.run m (Some r) (healthyInstances st).
Proof.
  revert st r. induction m as [|m IH]; intros st r Hwf Hc Hr; simpl; [done|].
  destruct (getHealthyInstance st) as [s st'] eqn:E.
  pose proof (getHealthyInstance_result st) as Hs.
  pose proof (getHealthyInstance_wf st Hwf) as Hwf'.
  pose proof (getHealthyInstance_healthyInstances st) as Hh.
  pose proof (getHealthyInstance_instances st) as Hi.
  rewrite E in Hs, Hwf', Hh, Hi. simpl in *.
  rewrite <- (RoundRobin.select_ext _ _ _ (is_current_was _ _ Hwf Hc Hr)), <- Hs.
  destruct s as [x|]; simpl; [|done]. f_equal.
  rewrite <- Hh. apply IH; [done| |].
  - pose proof (getHealthyInstance_cursor st x) as Hx. rewrite E in Hx. by apply Hx.
  - unfold values. rewrite Hi.
    apply (getHealthyInstance_healthy st). by rewrite E.
Qed.

Lemma selections_run_by m st :
  wf st →
  selections m st = RoundRobin.run_by (is_current st) m (healthyInstances st).
Proof.
  intros Hwf. destruct m as [|m]; simpl; [done|].
  destruct (getHealthyInstance st) as [s st'] eqn:E.
  pose proof (getHealthyInstance_result st) as Hs. rewrite E in Hs. simpl in Hs.
  rewrite <- Hs. destruct s as [x|]; simpl; [|done]. f_equal.
  pose proof (getHealthyInstance_healthyInstances st) as Hh.
  pose proof (getHealthyInstance_wf st Hwf) as Hwf'.
  pose proof (getHealthyInstance_cursor st x) as Hx.
  pose proof (getHealthyInstance_instances st) as Hi.
  pose proof (getHealthyInstance_healthy st x) as Hv.
  rewrite E in Hh, Hwf', Hx, Hi, Hv. simpl in *. rewrite <- Hh.
  apply selections_run; [done|by apply Hx|].
  unfold values. rewrite Hi. by apply Hv.
Qed.
Lemma id_at_id_of st r : wf st → r ∈ values st → id_at (heap st) r = Some (id_of st r).
Proof.
  intros Hwf Hr. destruct (wf_values _ _ Hwf Hr) as (i & Hi & _).
  unfold id_of, id_at. by rewrite Hi.
Qed.

Lemma is_current_id st :
  wf st →
  Forall (λ r, is_current st r ↔ (RoundRobin.was (cursor_id st) ∘ id_of st) r)
    (healthyInstances st).
Proof.
  intros Hwf. apply Forall_forall. intros r [Hr _]%healthyInstances_spec.
  unfold is_current, RoundRobin.was, compose. rewrite (id_at_id_of _ _ Hwf Hr).
  split; [by intros [_ ->] | intros ->; eauto].
Qed.

End lemmas.

Section handler.
Implicit Types (st : State) (r : ref) (req : Req.t) (clock : nat → Z).

Lemma objects_length st : wf st → length (objects st) = jm_size (instances (mgr st)).
Proof.
  intros Hwf. unfold objects, jm_size.
  assert (Forall (λ r, is_Some (heap st !! r)) (values st)) as Hall.
  { apply Forall_forall. intros r (i & -> & _)%(wf_values _ _ Hwf). by eexists. }
  unfold values, jm_values in *. rewrite <- (length_fmap snd (instances (mgr st))).
  induction Hall as [|r l [i Hi] _ IH]; simpl; [done|]. rewrite Hi. simpl. by f_equal.
Qed.

(** Every request runs [getHealthyInstance] first: the state after the
    handler is the state after the selection. *)
Lemma handleRequest_state clock req st :
  (handleRequest clock req st).2 = (getHealthyInstance st).2.
Proof.
  unfold handleRequest. destruct (getHealthyInstance st) as [s st']. simpl.
  destruct (s ≫= _) as [[r i]|]; [|done]. by repeat case_decide.
Qed.

Lemma handleRequest_unavailable_eq clock req st :
  healthyInstances st = [] →
  handleRequest clock req st =
  ([WriteHead 503 jsonHeaders;
    EndJson (JObject
      [("error", JString "No healthy instances available");
       ("instances", JArray (summary <$> objects st))])], st).
Proof.
  intros E. unfold handleRequest. by rewrite (getHealthyInstance_unavailable _ E).
Qed.

Lemma proxyError_state r message st :
  (proxyError r message st).2 = update (with_healthy false) r st.
Proof.
  unfold proxyError. destruct (heap st !! r) eqn:E; [done|].
  unfold update, with_heap. destruct st as [h m]. simpl in *. f_equal.
  apply list_eq. intros j. rewrite list_lookup_alter. case_decide; [subst|done].
  by rewrite E.
Qed.

Lemma unhealthy_not_selected st r :
  healthy_at (heap st) r = false → (getHealthyInstance st).1 ≠ Some r.
Proof. intros E [_ ?]%getHealthyInstance_healthy. congruence. Qed.
End handler.

(** * Theorems *)

Section theorems.
Implicit Types (st : State) (r : ref) (req : Req.t) (clock : nat → Z).

(** C1. Refinement of the design's selection rule.  In a well-formed
    registry, the [id] of the instance [getHealthyInstance] returns is the
    one the abstract rule selects from the [id]s of the healthy instances,
    given the [id] of the previous selection. *)
Theorem getHealthyInstance_refines st :
  wf st →
  id_of st <$> (getHealthyInstance st).1 =
  RoundRobin.select (RoundRobin.was (cursor_id st)) (healthy_ids st).
Proof.
  intros Hwf. unfold healthy_ids. rewrite select_fmap, getHealthyInstance_result.
  f_equal. by apply select_ext, is_current_id.
Qed.

Lemma getHealthyInstance_refines_witness :
  wf sample ∧
  id_of sample <$> (getHealthyInstance sample).1 =
  RoundRobin.select (RoundRobin.was (cursor_id sample)) (healthy_ids sample).
Proof. split; [by_compute | apply (getHealthyInstance_refines sample); by_compute]. Defined.

(** Rotation.  With a stable healthy set of [K] instances, [m ≤ K]
    successive selections return the first [m] elements of the healthy
    list rotated to start one past the previous selection. *)
Theorem selections_rotation m st :
  wf st → (m ≤ length (healthyInstances st))%nat →
  selections m st =
  take m (rotate (RoundRobin.start (is_current st) (healthyInstances st))
            (healthyInstances st)).
Proof.
  intros Hwf Hm. rewrite selections_run_by by done.
  apply run_by_rotate; [by apply healthyInstances_NoDup | done].
Qed.

Lemma selections_rotation_witness :
  wf sample ∧ (2 ≤ length (healthyInstances sample))%nat ∧
  selections 2 sample =
  take 2 (rotate (RoundRobin.start (is_current sample) (healthyInstances sample))
            (healthyInstances sample)).
Proof.
  split; [by_compute|]. split; [by_compute|].
  apply (selections_rotation 2 sample); by_compute.
Defined.

(** A full window of selections is a rotation of the healthy
    instances. *)
Lemma selections_window st :
  wf st → selections (length (healthyInstances st)) st ≡ₚ healthyInstances st.
Proof.
  intros Hwf. rewrite selections_run_by by done.
  rewrite run_by_full by (by apply healthyInstances_NoDup).
  apply rotate_Permutation.
Qed.

(** C6. Fairness.  A window of as many selections as there are healthy
    instances returns every healthy instance exactly once. *)
Theorem selections_window_fair st :
  wf st → selections (length (healthyInstances st)) st ≡ₚ healthyInstances st.
Proof. apply selections_window. Qed.

Lemma selections_window_fair_witness :
  wf sample ∧
  selections (length (healthyInstances sample)) sample ≡ₚ healthyInstances sample.
Proof. split; [by_compute | apply (selections_window_fair sample); by_compute]. Defined.

(** C9. An instance whose [healthy] flag is [false] is returned by
    none of the following selections, whatever the cursor, for as long
    as the flag stays as it is. *)
Theorem unhealthy_instance_not_selected m st r :
  healthy_at (heap st) r = false → r ∉ selections m st.
Proof.
  revert st. induction m as [|m IH]; intros st E; simpl; [apply not_elem_of_nil|].
  pose proof (unhealthy_not_selected _ _ E) as Hne.
  pose proof (getHealthyInstance_heap st) as Hh.
  destruct (getHealthyInstance st) as [[x|] st']; simpl in *; [|apply not_elem_of_nil].
  apply not_elem_of_cons. split; [congruence|]. apply IH. by rewrite Hh.
Qed.

Lemma unhealthy_instance_not_selected_witness :
  healthy_at (heap (update (with_healthy false) 1%nat sample)) 1%nat = false ∧
  1%nat ∉ selections 5 (update (with_healthy false) 1%nat sample).
Proof.
  split; [reflexivity|].
  by apply (unhealthy_instance_not_selected 5 (update (with_healthy false) 1%nat sample)).
Defined.

(** [getHealthyInstance] returns [null] exactly when no registered
    instance is healthy, and then leaves the state as it is. *)
Theorem getHealthyInstance_null_iff st :
  healthyInstances st = [] ↔ getHealthyInstance st = (None, st).
Proof.
  split; [apply getHealthyInstance_unavailable|].
  intros E. apply getHealthyInstance_None. by rewrite E.
Qed.

(** The index arithmetic [(findIndex(...) || 0) + 1) % length] of
    [getHealthyInstance] selects, in every state, the element the
    option-typed lookup of the design selects, and stores it in the
    cursor. *)
Theorem getHealthyInstance_equiv_select st :
  healthyInstances st ≠ [] →
  getHealthyInstance st =
  (RoundRobin.select (is_current st) (healthyInstances st),
   with_currentActiveInstance
     (RoundRobin.select (is_current st) (healthyInstances st)) st).
Proof. intros. rewrite getHealthyInstance_spec. cbv zeta. by rewrite decide_False. Qed.

Lemma getHealthyInstance_equiv_select_witness :
  healthyInstances sample ≠ [] ∧
  getHealthyInstance sample =
  (RoundRobin.select (is_current sample) (healthyInstances sample),
   with_currentActiveInstance
     (RoundRobin.select (is_current sample) (healthyInstances sample)) sample).
Proof. split; [by_compute | apply (getHealthyInstance_equiv_select sample); by_compute]. Defined.

(** Whatever [getHealthyInstance] returns is registered and
    healthy, and becomes the cursor. *)
Theorem getHealthyInstance_selects_healthy st r :
  (getHealthyInstance st).1 = Some r →
  r ∈ values st ∧ healthy_at (heap st) r = true
  ∧ currentActiveInstance (mgr (getHealthyInstance st).2) = Some r.
Proof.
  intros Hr. destruct (getHealthyInstance_healthy _ _ Hr).
  by rewrite (getHealthyInstance_cursor _ _ Hr).
Qed.

Lemma getHealthyInstance_selects_healthy_witness :
  (getHealthyInstance sample).1 = Some 0%nat ∧
  (0%nat ∈ values sample ∧ healthy_at (heap sample) 0 = true
   ∧ currentActiveInstance (mgr (getHealthyInstance sample).2) = Some 0%nat).
Proof. split; [reflexivity | by apply (getHealthyInstance_selects_healthy sample 0%nat)]. Defined.

(** The request handler and the proxy error callback keep the
    registry well formed. *)
Theorem balancer_preserves_wf clock req r message st :
  wf st →
  wf (handleRequest clock req st).2 ∧ wf (proxyError r message st).2.
Proof.
  intros Hwf. rewrite handleRequest_state, proxyError_state. split.
  - by apply getHealthyInstance_wf.
  - by apply wf_update.
Qed.

Lemma balancer_preserves_wf_witness :
  wf sample ∧
  wf (handleRequest (λ _, 0) (Req.mk "/v1/chat" "POST" []) sample).2 ∧
  wf (proxyError 1%nat "ECONNREFUSED" sample).2.
Proof. split; [by_compute | apply balancer_preserves_wf; by_compute]. Defined.

(** C25. With no healthy instance every request is answered 503, with a
    listing that has one entry per registered instance, and the state is
    left as it is. *)
Theorem handleRequest_unavailable clock req st :
  wf st → healthyInstances st = [] →
  status_of (handleRequest clock req st).1 = Some 503
  ∧ (body_of (handleRequest clock req st).1 ≫= field "instances")
    ≫= items_length = Some (jm_size (instances (mgr st)))
  ∧ (handleRequest clock req st).2 = st.
Proof.
  intros Hwf E. rewrite (handleRequest_unavailable_eq _ _ _ E). simpl.
  by rewrite length_fmap, objects_length.
Qed.

Lemma handleRequest_unavailable_witness :
  wf sample_down ∧ healthyInstances sample_down = [] ∧
  status_of (handleRequest (λ _, 0) (Req.mk "/v1/chat" "POST" []) sample_down).1
  = Some 503.
Proof.
  split; [by_compute|]. split; [reflexivity|].
  apply (handleRequest_unavailable (λ _, 0) (Req.mk "/v1/chat" "POST" []) sample_down);
    [by_compute | reflexivity].
Defined.

(** C37. The [/health] path is not served apart from the proxy path: a
    [/health] request runs the round-robin selection and moves the
    cursor like any other request. *)
Theorem health_request_moves_cursor clock req st r :
  Req.url req = "/health" → (getHealthyInstance st).1 = Some r →
  currentActiveInstance (mgr (handleRequest clock req st).2) = Some r.
Proof.
  intros _ Hr. rewrite handleRequest_state. by apply getHealthyInstance_cursor.
Qed.

Lemma health_request_moves_cursor_witness :
  currentActiveInstance (mgr sample) = None ∧
  currentActiveInstance
    (mgr (handleRequest (λ _, 0) (Req.mk "/health" "GET" []) sample).2) = Some 0%nat.
Proof.
  split; [reflexivity|].
  by apply (health_request_moves_cursor (λ _, 0) (Req.mk "/health" "GET" []) sample 0%nat).
Defined.

(** C38. The [/health] reply never carries the status ["unhealthy"]:
    when no instance is healthy the handler has already answered with the
    503 error body. *)
Theorem health_reply_never_unhealthy clock req st :
  Req.url req = "/health" →
  body_of (handleRequest clock req st).1 ≫= field "status"
  ≠ Some (JString "unhealthy").
Proof.
  intros Hurl. unfold handleRequest.
  destruct (getHealthyInstance st) as [s st'] eqn:E.
  destruct (s ≫= _) as [[r i]|] eqn:Er; [|done].
  rewrite decide_True by done. simpl.
  destruct s as [r'|]; [|done].
  assert (r' ∈ healthyInstances st') as Hin.
  { pose proof (getHealthyInstance_elem st r') as H.
    pose proof (getHealthyInstance_healthyInstances st) as Hh.
    rewrite E in H, Hh. simpl in *. rewrite Hh. by apply H. }
  rewrite bool_decide_eq_true_2; [done|].
  destruct (healthyInstances st'); [by apply elem_of_nil in Hin | simpl; lia].
Qed.

Lemma health_reply_never_unhealthy_witness :
  body_of (handleRequest (λ _, 0) (Req.mk "/health" "GET" []) sample_down).1
    ≫= field "status"
  ≠ Some (JString "unhealthy").
Proof. by apply health_reply_never_unhealthy. Defined.

(** C13. Fast failure.  A transport error on a proxied request to a
    registered instance marks it unhealthy at once, answers 502, and the
    next selection returns no instance with that [id]. *)
Theorem proxyError_fast_fail r message st r' :
  wf st → r ∈ values st →
  healthy_at (heap (proxyError r message st).2) r = false
  ∧ status_of (proxyError r message st).1 = Some 502
  ∧ ((getHealthyInstance (proxyError r message st).2).1 = Some r' →
     id_of st r' ≠ id_of st r).
Proof.
  intros Hwf Hr. destruct (wf_values _ _ Hwf Hr) as (i & Hi & _).
  rewrite proxyError_state. split; [apply healthy_at_unset|]. split.
  { unfold proxyError. by rewrite Hi. }
  intros Hsel Hid.
  destruct (getHealthyInstance_healthy _ _ Hsel) as [Hr' _].
  rewrite values_update in Hr'.
  assert (r' = r) as ->.
  { apply (wf_id_inj st); [done..|]. by rewrite !id_at_id_of, Hid. }
  revert Hsel. apply unhealthy_not_selected, healthy_at_unset.
Qed.

Lemma proxyError_fast_fail_witness :
  wf sample ∧ 1%nat ∈ values sample ∧
  healthy_at (heap (proxyError 1%nat "ECONNREFUSED" sample).2) 1%nat = false.
Proof.
  split; [by_compute|]. split; [by_compute|].
  apply (proxyError_fast_fail 1%nat "ECONNREFUSED" sample 0%nat); by_compute.
Defined.


(** The proxy path.  A request for any other path is forwarded to
    the selected instance: to its port on localhost, with the request's
    path, method and headers, and the header naming the instance. *)
Theorem handleRequest_proxies clock req st r i :
  Req.url req ≠ "/health" → Req.url req ≠ "/status" →
  (getHealthyInstance st).1 = Some r → heap st !! r = Some i →
  (handleRequest clock req st).1 =
  [HttpRequest r
     (Opt.mk "localhost" (port i) (Req.url req) (Req.method req)
        (jm_set "X-Router-Instance" (id i) (Req.headers req)));
   PipeRequest].
Proof.
  intros H1 H2 Hr Hi. unfold handleRequest.
  pose proof (getHealthyInstance_heap st) as Hh.
  destruct (getHealthyInstance st) as [s st']. simpl in *. subst s.
  simpl. rewrite Hh, Hi. simpl. by rewrite !decide_False.
Qed.

Lemma handleRequest_proxies_witness :
  (handleRequest (λ _, 0) (Req.mk "/v1/chat" "POST" [("host", "a")]) sample).1 =
  [HttpRequest 0%nat
     (Opt.mk "localhost" (Int 3100) "/v1/chat" "POST"
        [("host", "a"); ("X-Router-Instance", "router-0")]);
   PipeRequest].
Proof.
  apply (handleRequest_proxies (λ _, 0) (Req.mk "/v1/chat" "POST" [("host", "a")])
           sample 0%nat
           (mkInstance "router-0" 0%nat (Int 3100) (Some "k0") true None 0 0));
    (reflexivity || by_compute).
Defined.
End theorems.

End Balancer.
