(* ===== verification/World.v ===== *)
(** * The world of the event loop

    What exists beside the manager while the program runs: the child
    process objects returned by [spawn], with the callbacks registered on
    them, and the continuations the event loop holds (armed timers,
    awaited probes and sleeps, proxied requests in flight).  A callback
    is a closure; its captured variables are kept as data.  The functions
    [spawn], [kill] and [exit_child] model what Node.js does to a child
    process object; they are not code of the repository. *)

From S2P Require Import Prelude Node Registry.

Module World.
Import Registry.

(** The variables the [close] and [error] callbacks of [startInstance]
    capture: the instance object and the three arguments. *)
Record Closure : Type := mkClosure {
  c_instance : ref;
  c_instanceId : string;
  c_key : option string;
  c_port : num;
}.

(** A child process object: whether the process still runs, the
    [killed] property, the signals sent to it (latest first), and the
    callbacks registered with [child.on]. *)
Record Child : Type := mkChild {
  running : bool;
  killed : bool;
  signals : list signal;
  listeners : option Closure;
}.

(** What the caller of [startInstance] does when it returns: nothing
    (the restart timer), or the rest of [start] ([KStartKeys i] inside
    the loop over the keys, [KStartSingle] after the single instance). *)
Inductive Cont : Type :=
  | KReturn
  | KStartKeys (i : nat)
  | KStartSingle.

(** The continuations held by the event loop. *)
Inductive Task : Type :=
  | TRestart (c : Closure)
  | TReadyProbe (instanceId : string) (port : num) (startTime maxWait : Z) (k : Cont)
  | TReadySleep (instanceId : string) (port : num) (startTime maxWait : Z) (k : Cont)
  | TStartSleep (i : nat)
  | THealthProbe (pos : nat) (instanceId : string) (instance : ref) (wasHealthy : bool)
  | TProxy (instance : ref)
  | TGrace.

#[export] Instance Closure_eq_dec : EqDecision Closure.
Proof. solve_decision. Defined.

#[export] Instance Child_eq_dec : EqDecision Child.
Proof. solve_decision. Defined.

#[export] Instance Cont_eq_dec : EqDecision Cont.
Proof. solve_decision. Defined.

#[export] Instance Task_eq_dec : EqDecision Task.
Proof. solve_decision. Defined.

(** The registry, the child processes by [pid], the pending
    continuations, and what the program has asked of the runtime so far:
    whether the interval timer of [startHealthCheck] is armed, whether
    the signal handlers are installed, whether the server listens,
    whether [start] was called, and the code given to [process.exit],
    once it was called. *)
Record t : Type := mk {
  reg : State;
  children : list Child;
  tasks : list Task;
  ticking : bool;
  handling : bool;
  listening : bool;
  started : bool;
  exited : option Z;
}.

Definition init : t := mk Registry.init [] [] false false false false None.

Definition with_reg (st : State) (w : t) : t :=
  mk st (children w) (tasks w) (ticking w) (handling w) (listening w)
     (started w) (exited w).

Definition with_children (cs : list Child) (w : t) : t :=
  mk (reg w) cs (tasks w) (ticking w) (handling w) (listening w)
     (started w) (exited w).

Definition with_tasks (ts : list Task) (w : t) : t :=
  mk (reg w) (children w) ts (ticking w) (handling w) (listening w)
     (started w) (exited w).

Definition with_ticking (b : bool) (w : t) : t :=
  mk (reg w) (children w) (tasks w) b (handling w) (listening w)
     (started w) (exited w).

Definition with_handling (b : bool) (w : t) : t :=
  mk (reg w) (children w) (tasks w) (ticking w) b (listening w)
     (started w) (exited w).

Definition with_listening (b : bool) (w : t) : t :=
  mk (reg w) (children w) (tasks w) (ticking w) (handling w) b
     (started w) (exited w).

Definition with_started (b : bool) (w : t) : t :=
  mk (reg w) (children w) (tasks w) (ticking w) (handling w) (listening w)
     b (exited w).

Definition with_exited (c : Z) (w : t) : t :=
  mk (reg w) (children w) (tasks w) (ticking w) (handling w) (listening w)
     (started w) (Some c).

(** A registry operation lifted to the world. *)
Definition on_reg (f : State → State) (w : t) : t := with_reg (f (reg w)) w.

(** A continuation handed to the event loop. *)
Definition add_task (k : Task) (w : t) : t := with_tasks (tasks w ++ [k]) w.

(** [spawn(...)]: a new child process object, running, with no
    callbacks yet. *)
Definition spawn (w : t) : pid * t :=
  let '(p, cs) := alloc (children w) (mkChild true false [] None) in
  (p, with_children cs w).

(** [child.on('close', ...)] and [child.on('error', ...)] with callbacks
    that capture [c]. *)
Definition listen (p : pid) (c : Closure) (w : t) : t :=
  with_children
    (alter (λ ch, mkChild (running ch) (killed ch) (signals ch) (Some c))
       p (children w)) w.

(** [child.kill(sig)]: the signal is delivered and [killed] set if the
    process still runs; otherwise nothing happens. *)
Definition kill (p : pid) (sig : signal) (w : t) : t :=
  with_children
    (alter (λ ch, if running ch
                  then mkChild true true (sig :: signals ch) (listeners ch)
                  else ch) p (children w)) w.

(** The process behind a child object has exited. *)
Definition exit_child (p : pid) (w : t) : t :=
  with_children
    (alter (λ ch, mkChild false (killed ch) (signals ch) (listeners ch))
       p (children w)) w.

(** [instance.process.killed] read through the instance object; an
    unresolved reference reads as [true], so that nothing is signalled. *)
Definition killed_at (w : t) (p : pid) : bool :=
  from_option killed true (children w !! p).

(** What a handler that calls back its caller asks of it: where [Q]
    holds and the caller [k] may resume ([P k]), resuming it keeps
    [Q].  The readiness wait and [startInstance] are verified against
    this interface; [start] and the restart timer implement it. *)
Class Resumes (Q : t → Prop) (P : Cont → t → Prop)
    (resume : Cont → bool → t → list effect * t) : Prop :=
  resumes : ∀ k b w, Q w → P k w → Q (resume k b w).2.

(** Worlds that agree on what the handlers read of each other's state:
    they differ at most in the handle of the interval timer and in
    what the runtime was asked ([ticking], [listening], [exited]). *)
Definition agree (w w' : t) : Prop :=
  heap (reg w) = heap (reg w')
  ∧ instances (mgr (reg w)) = instances (mgr (reg w'))
  ∧ currentActiveInstance (mgr (reg w)) = currentActiveInstance (mgr (reg w'))
  ∧ isShuttingDown (mgr (reg w)) = isShuttingDown (mgr (reg w'))
  ∧ children w = children w' ∧ tasks w = tasks w'
  ∧ handling w = handling w' ∧ started w = started w'.

(** ** Derived notions *)

(** What [if (!child.killed) child.kill(sig)] does to a child object. *)
Definition deliver (sig : signal) (ch : Child) : Child :=
  if running ch && negb (killed ch)
  then mkChild true true (sig :: signals ch) (listeners ch)
  else ch.

(** The same at each of the pids [ps], in order. *)
Definition deliver_all (sig : signal) (ps : list pid) (cs : list Child)
    : list Child :=
  foldl (λ cs p, alter (deliver sig) p cs) cs ps.

(** The process of the instance object behind a map entry. *)
Definition pid_of (st : State) (entry : string * ref) : list pid :=
  option_list (process <$> heap st !! entry.2).

(** The processes of the registered instances, in map order. *)
Definition processes (w : t) : list pid :=
  instances (mgr (reg w)) ≫= pid_of (reg w).

(** Every registered process that still runs is marked [killed]. *)
Definition quiet (w : t) : Prop :=
  ∀ p ch, p ∈ processes w → children w !! p = Some ch →
          running ch = true → killed ch = true.

(** * Lemmas *)

Section lemmas.
Implicit Types (w : t) (p : pid) (ch : Child) (sig : signal).

Lemma with_children_id w : with_children (children w) w = w.
Proof. by destruct w. Qed.

Lemma with_reg_id w : with_reg (reg w) w = w.
Proof. by destruct w. Qed.

#[export] Instance agree_equiv : Equivalence agree.
Proof.
  unfold agree. split.
  - by intros w.
  - intros w w' H. by destruct_and!.
  - intros w1 w2 w3 H1 H2. destruct_and!. split_and!; congruence.
Qed.

Lemma with_exited_agree c w : agree (with_exited c w) w.
Proof. done. Qed.

Lemma with_ticking_agree b w : agree (with_ticking b w) w.
Proof. done. Qed.

Lemma with_listening_agree b w : agree (with_listening b w) w.
Proof. done. Qed.

#[export] Instance processes_agree : Proper (agree ==> eq) processes.
Proof.
  intros w w' (Hh & Hi & _). unfold processes, pid_of. by rewrite Hh, Hi.
Qed.

#[export] Instance quiet_agree : Proper (agree ==> iff) quiet.
Proof.
  intros w w' H. unfold quiet. rewrite (processes_agree _ _ H).
  destruct H as (_ & _ & _ & _ & -> & _). done.
Qed.

Lemma reg_add_task (k : Task) w : reg (add_task k w) = reg w.
Proof. done. Qed.

Lemma children_add_task (k : Task) w : children (add_task k w) = children w.
Proof. done. Qed.

Lemma tasks_add_task (k : Task) w : tasks (add_task k w) = tasks w ++ [k].
Proof. done. Qed.

Lemma reg_on_reg f w : reg (on_reg f w) = f (reg w).
Proof. done. Qed.

Lemma children_on_reg f w : children (on_reg f w) = children w.
Proof. done. Qed.

Lemma tasks_on_reg f w : tasks (on_reg f w) = tasks w.
Proof. done. Qed.

Lemma spawn_fresh w : (spawn w).1 = length (children w).
Proof. done. Qed.

Lemma spawn_children w :
  children (spawn w).2 = children w ++ [mkChild true false [] None].
Proof. done. Qed.

Lemma killed_at_false w p :
  killed_at w p = false ↔ ∃ ch, children w !! p = Some ch ∧ killed ch = false.
Proof.
  unfold killed_at. destruct (children w !! p) as [ch|]; simpl.
  - split; [by exists ch | by intros (? & [= <-] & ?)].
  - split; [done | by intros (? & [=] & _)].
Qed.

(** The guarded [kill] of both shutdown loops. *)
Lemma kill_guarded p sig w :
  (if negb (killed_at w p) then kill p sig w else w)
  = with_children (alter (deliver sig) p (children w)) w.
Proof.
  destruct (killed_at w p) eqn:E; simpl.
  - rewrite alter_fixed; [by rewrite with_children_id|].
    intros ch Hch. unfold killed_at in E. rewrite Hch in E. simpl in E.
    unfold deliver. by rewrite E, andb_false_r.
  - apply killed_at_false in E as (ch & Hch & Hk). unfold kill. f_equal.
    apply list_alter_ext; [|done]. intros ch' Hch'. rewrite Hch in Hch'.
    injection Hch' as <-. unfold deliver. rewrite Hk, andb_true_r. by destruct (running ch).
Qed.

(** A child that was offered one signal takes no second one. *)
Lemma deliver_deliver sig sig' ch :
  deliver sig (deliver sig' ch) = deliver sig' ch.
Proof. by destruct ch as [[] [] ? ?]. Qed.

Lemma deliver_running sig ch : running (deliver sig ch) = running ch.
Proof. by destruct ch as [[] [] ? ?]. Qed.

Lemma deliver_quiet sig ch :
  running (deliver sig ch) = true → killed (deliver sig ch) = true.
Proof. by destruct ch as [[] [] ? ?]. Qed.

Lemma deliver_fixed sig ch :
  (running ch = true → killed ch = true) → deliver sig ch = ch.
Proof. destruct ch as [[] [] ? ?]; naive_solver. Qed.

Lemma deliver_all_app sig ps1 ps2 cs :
  deliver_all sig (ps1 ++ ps2) cs = deliver_all sig ps2 (deliver_all sig ps1 cs).
Proof. apply foldl_app. Qed.

Lemma deliver_all_length sig ps cs : length (deliver_all sig ps cs) = length cs.
Proof.
  revert cs. induction ps as [|p ps IH]; intros cs; [done|].
  change (length (deliver_all sig ps (alter (deliver sig) p cs)) = length cs).
  by rewrite IH, length_alter.
Qed.

(** The children after the signal was offered at [ps]. *)
Lemma deliver_all_lookup sig ps cs p :
  deliver_all sig ps cs !! p
  = if decide (p ∈ ps) then deliver sig <$> cs !! p else cs !! p.
Proof.
  revert cs. induction ps as [|q ps IH]; intros cs.
  { by rewrite decide_False by apply not_elem_of_nil. }
  change (deliver_all sig (q :: ps) cs)
    with (deliver_all sig ps (alter (deliver sig) q cs)).
  rewrite IH, list_lookup_alter.
  destruct (decide (q = p)) as [->|Hne].
  - rewrite (decide_True (P := p ∈ p :: ps)) by left.
    case_decide; [|done]. destruct (cs !! p); simpl; [|done].
    by rewrite deliver_deliver.
  - destruct (decide (p ∈ ps)) as [Hin|Hin].
    + by rewrite decide_True by (by right).
    + rewrite decide_False; [done|]. by intros [->|?]%elem_of_cons.
Qed.

(** Offering a signal where every running process is marked [killed]
    changes nothing. *)
Lemma deliver_all_fixed sig ps cs :
  (∀ p ch, p ∈ ps → cs !! p = Some ch → running ch = true → killed ch = true) →
  deliver_all sig ps cs = cs.
Proof.
  intros H. apply list_eq. intros p. rewrite deliver_all_lookup.
  case_decide; [|done]. destruct (cs !! p) as [ch|] eqn:E; simpl; [|done].
  f_equal. apply deliver_fixed. eauto.
Qed.

(** A loop over the map whose body offers [sig] to the process of each
    entry leaves the world as it was, but for the children. *)
Lemma foldl_deliver (body : list effect * t → string * ref → list effect * t) sig :
  (∀ es w e, (body (es, w) e).2
             = with_children (deliver_all sig (pid_of (reg w) e) (children w)) w) →
  ∀ l es w, (foldl body (es, w) l).2
            = with_children (deliver_all sig (l ≫= pid_of (reg w)) (children w)) w.
Proof.
  intros Hbody l. induction l as [|e l IH]; intros es w; simpl.
  { by rewrite with_children_id. }
  specialize (Hbody es w e). destruct (body (es, w) e) as [es' w'].
  simpl in Hbody. subst w'. rewrite IH. simpl. by rewrite deliver_all_app.
Qed.

Lemma processes_elem w k r i :
  (k, r) ∈ instances (mgr (reg w)) → heap (reg w) !! r = Some i →
  process i ∈ processes w.
Proof.
  intros Hin Hr. apply list_elem_of_bind. exists (k, r). split; [|done].
  unfold pid_of. simpl. rewrite Hr. simpl. left.
Qed.

(** Where the registered processes are quiet, offering them a signal
    changes nothing. *)
Lemma quiet_deliver_all sig w :
  quiet w → deliver_all sig (processes w) (children w) = children w.
Proof. intros Hq. apply deliver_all_fixed. exact Hq. Qed.

End lemmas.

#[export] Hint Rewrite deliver_deliver deliver_running deliver_all_length
  reg_add_task children_add_task tasks_add_task reg_on_reg children_on_reg
  tasks_on_reg : router_rw.

End World.
