(* ===== verification/Health.v ===== *)
(** * The health monitor

    [checkInstanceHealth], the readiness wait [waitForInstanceReady] and
    the periodic check installed by [startHealthCheck].  Both loops
    suspend at every probe; the model cuts them at their [await]s: one
    function for each piece of code that runs between two suspensions,
    the loop's local variables travelling in the task that the event loop
    holds meanwhile.  [runReady] puts the pieces of the readiness wait
    together again, driven by a list of answers of the outside world
    (probe outcome, clock reading after the sleep), to state that the
    wait ends. *)

From S2P Require Import Prelude Node Config Registry World.

Module Health.
Import Registry World.

(** How a probe ends: a response with a status code, an [error] event
    or a [timeout] event. *)
Inductive Outcome : Type :=
  | Response (statusCode : Z)
  | RequestError
  | RequestTimeout.

(** The options of the probe request and its timeout. *)
Definition probeOptions (port : num) : Opt.t :=
  Opt.mk "localhost" port "/v1/providers/status" "GET" [].

Definition probe (port : num) : effect := ProbeRequest (probeOptions port) 5000.

(** [checkInstanceHealth(port)]: what the promise resolves to. *)
Definition checkInstanceHealth (o : Outcome) : bool :=
  match o with
  | Response statusCode => bool_decide (statusCode = 200)
  | RequestError => false
  | RequestTimeout => false
  end.

(** ** The readiness wait *)

(** A piece of [waitForInstanceReady] either returns a result ([Some])
    or suspends ([None]). *)

(** The loop test [Date.now() - startTime < maxWait]: the probe is sent
    and awaited, or the function returns [false] with the timeout
    message. *)
Definition readyLoop (now : Z) (instanceId : string) (port : num)
    (startTime maxWait : Z) : option bool * list effect :=
  if decide (now - startTime < maxWait) then (None, [probe port])
  else (Some false,
        [Console Error ("[" +:+ instanceId +:+
                        "] Timeout waiting for instance to become ready")]).

(** The loop body after the probe has answered: the function returns
    [true], or sleeps for a second.  A key missing from the map makes
    [this.instances.get(instanceId).healthy] throw; the wait then ends
    without a result, which is modelled as the result [false]. *)
Definition readyProbed (o : Outcome) (instanceId : string) (st : State)
    : option bool * list effect * State :=
  if checkInstanceHealth o then
    match jm_get instanceId (instances (mgr st)) with
    | Some r =>
        (Some true,
         [Console Log ("[" +:+ instanceId +:+ "] Instance ready and healthy")],
         update (with_healthy true) r st)
    | None =>
        (Some false,
         [Console Log ("[" +:+ instanceId +:+ "] Instance ready and healthy")],
         st)
    end
  else (None, [SetTimeout 1000], st).

(** The whole wait, from the first probe on: [answers] gives, for each
    round, the outcome of the probe and the clock reading after the
    sleep that follows a failed probe. *)
Fixpoint runReady (fuel : nat) (answers : list (Outcome * Z))
    (instanceId : string) (port : num) (startTime maxWait : Z) (st : State)
    : option (bool * list effect * State) :=
  match fuel, answers with
  | S fuel', (o, now) :: answers' =>
      match readyProbed o instanceId st with
      | (Some b, es, st') => Some (b, es, st')
      | (None, es, st') =>
          match readyLoop now instanceId port startTime maxWait with
          | (Some b, es') => Some (b, es ++ es', st')
          | (None, es') =>
              '(b, es'', st'') ←
                runReady fuel' answers' instanceId port startTime maxWait st';
              Some (b, es ++ es' ++ es'', st'')
          end
      end
  | _, _ => None
  end.

(** The pieces as handlers of the event loop.  [resume] is what the
    caller of [startInstance] does with the result. *)
Section ready.
Context (resume : Cont → bool → World.t → list effect * World.t).

(** A piece has run: its result goes to the caller, or the task that
    awaits is handed to the event loop. *)
Definition settle (r : option bool) (await : Task) (k : Cont) (w : World.t)
    : list effect * World.t :=
  match r with
  | Some b => resume k b w
  | None => ([], add_task await w)
  end.

(** [waitForInstanceReady(instanceId, port, maxWait)] up to its first
    suspension; [clock 0] is the reading kept as [startTime], [clock 1]
    the reading of the first loop test. *)
Definition waitForInstanceReady (clock : nat → Z) (instanceId : string)
    (port : num) (maxWait : Z) (k : Cont) (w : World.t)
    : list effect * World.t :=
  let startTime := clock 0%nat in
  let '(r, es) := readyLoop (clock 1%nat) instanceId port startTime maxWait in
  let '(es', w) :=
    settle r (TReadyProbe instanceId port startTime maxWait k) k w in
  (es ++ es', w).

(** The probe has answered. *)
Definition onReadyProbe (o : Outcome) (instanceId : string) (port : num)
    (startTime maxWait : Z) (k : Cont) (w : World.t) : list effect * World.t :=
  let '(r, es, st) := readyProbed o instanceId (reg w) in
  let '(es', w) :=
    settle r (TReadySleep instanceId port startTime maxWait k) k (with_reg st w) in
  (es ++ es', w).

(** The sleep of one second is over; [now] is the reading of the loop
    test. *)
Definition onReadySleep (now : Z) (instanceId : string) (port : num)
    (startTime maxWait : Z) (k : Cont) (w : World.t) : list effect * World.t :=
  let '(r, es) := readyLoop now instanceId port startTime maxWait in
  let '(es', w) :=
    settle r (TReadyProbe instanceId port startTime maxWait k) k w in
  (es ++ es', w).
End ready.

(** ** The periodic check *)

(** The head of the loop [for (const [instanceId, instance] of
    this.instances)] with the iterator at position [pos]: the entry is
    read, [wasHealthy] taken, the probe sent. *)
Definition healthLoop (pos : nat) (w : World.t) : list effect * World.t :=
  match instances (mgr (reg w)) !! pos with
  | None => ([], w)
  | Some (instanceId, r) =>
      match heap (reg w) !! r with
      | Some i =>
          ([probe (port i)],
           add_task (THealthProbe pos instanceId r (healthy i)) w)
      | None => ([], w)
      end
  end.

(** The callback of [setInterval]. *)
Definition onHealthTick (w : World.t) : list effect * World.t := healthLoop 0 w.

(** The messages logged on a change of health. *)
Definition transitionLog (instanceId : string) (wasHealthy healthy : bool)
    : list effect :=
  if wasHealthy && negb healthy then
    [Console Warn ("[" +:+ instanceId +:+ "] Instance became unhealthy")]
  else if negb wasHealthy && healthy then
    [Console Log ("[" +:+ instanceId +:+ "] Instance recovered")]
  else [].

(** The loop body after the probe has answered, and the next round. *)
Definition onHealthProbe (o : Outcome) (now : Z) (pos : nat)
    (instanceId : string) (instance : ref) (wasHealthy : bool) (w : World.t)
    : list effect * World.t :=
  let w := on_reg (update (with_healthy (checkInstanceHealth o)) instance) w in
  let w := on_reg (update (with_lastHealthCheck now) instance) w in
  let es := transitionLog instanceId wasHealthy
              (healthy_at (heap (reg w)) instance) in
  let '(es', w) := healthLoop (S pos) w in
  (es ++ es', w).

(** [startHealthCheck()]: the interval timer is armed and its handle
    kept. *)
Definition startHealthCheck (handle : nat) (w : World.t) : list effect * World.t :=
  ([SetInterval Config.HEALTH_CHECK_INTERVAL],
   with_ticking true (on_reg (with_healthCheckInterval (Some handle)) w)).

(** The rounds after which a wait of [maxWait] milliseconds has
    ended: one per second, rounded up, and at least one. *)
Definition rounds_needed (maxWait : Z) : nat :=
  Z.to_nat (Z.max 1 ((maxWait + 999) / 1000)).

(** The answers of the outside world are enough for a wait, and the
    clock advances by at least a second per sleep. *)
Definition punctual (startTime maxWait : Z) (answers : list (Outcome * Z)) : Prop :=
  (rounds_needed maxWait ≤ length answers)%nat
  ∧ ∀ (j : nat) o now, answers !! j = Some (o, now) →
      startTime + 1000 * (Z.of_nat j + 1) ≤ now.

(** A registry with one instance that is not ready yet, and a world
    around it with the health check armed. *)
Definition sample_st : State :=
  mkState [mkInstance "router-0" 0 (Int 3100) (Some "k0") false None 1000 0]
          (mkRouterManager [("router-0", 0%nat)] None false (Some 0%nat)).

Definition sample : World.t :=
  World.mk sample_st [mkChild true false [] None] [] true true true true None.

(** * Properties *)

Section properties.
Implicit Types (w : World.t) (st : State) (o : Outcome) (r : ref).

(** A probe counts as healthy exactly when the worker answers with
    status 200; an error, a timeout and every other status count as
    unhealthy. *)
Theorem checkInstanceHealth_200 o :
  checkInstanceHealth o = true ↔ o = Response 200.
Proof.
  destruct o as [c| |]; simpl; [|done..].
  rewrite bool_decide_eq_true. split; [by intros -> | by intros [= ->]].
Qed.

(** ** The readiness wait *)

Lemma readyLoop_expired now instanceId port startTime maxWait :
  maxWait ≤ now - startTime →
  (readyLoop now instanceId port startTime maxWait).1 = Some false.
Proof. intros. unfold readyLoop. by rewrite decide_False by lia. Qed.

Lemma readyLoop_result now instanceId port startTime maxWait b :
  (readyLoop now instanceId port startTime maxWait).1 = Some b → b = false.
Proof. unfold readyLoop. case_decide; naive_solver. Qed.

(** The probe counts as healthy and the wait returns, or it does not
    and the wait sleeps. *)
Lemma readyProbed_cases o instanceId st :
  (checkInstanceHealth o = true
   ∧ ∃ b, (readyProbed o instanceId st).1.1 = Some b)
  ∨ (checkInstanceHealth o = false
     ∧ readyProbed o instanceId st = (None, [SetTimeout 1000], st)).
Proof.
  unfold readyProbed. destruct (checkInstanceHealth o); [left|by right].
  split; [done|]. destruct (jm_get _ _); eauto.
Qed.

Lemma readyProbed_result o instanceId st :
  match (readyProbed o instanceId st).1.1 with
  | Some true =>
      ∃ r, jm_get instanceId (instances (mgr st)) = Some r
           ∧ (readyProbed o instanceId st).2 = update (with_healthy true) r st
  | _ => (readyProbed o instanceId st).2 = st
  end.
Proof.
  unfold readyProbed. destruct (checkInstanceHealth o); [|done].
  destruct (jm_get instanceId (instances (mgr st))) as [r|]; simpl; eauto.
Qed.

(** The wait ends within [m] rounds when the clock has advanced by a
    second per round; [k] rounds lie behind. *)
Lemma runReady_is_Some (m : nat) : ∀ (k : nat) fuel answers instanceId port startTime maxWait st,
  (0 < m)%nat → (m ≤ fuel)%nat → (m ≤ length answers)%nat →
  maxWait ≤ 1000 * Z.of_nat (k + m) →
  (∀ (j : nat) o now, answers !! j = Some (o, now) →
     startTime + 1000 * Z.of_nat (k + j + 1) ≤ now) →
  is_Some (runReady fuel answers instanceId port startTime maxWait st).
Proof.
  induction m as [|m IH]; intros k fuel answers instanceId port startTime maxWait st
    Hm Hfuel Hlen Hmax Hclock; [lia|].
  destruct fuel as [|fuel]; [lia|].
  destruct answers as [|[o now] answers]; [simpl in Hlen; lia|]. simpl.
  destruct (readyProbed o instanceId st) as [[[b|] es] st']; [done|].
  pose proof (Hclock 0%nat o now eq_refl) as Hnow.
  destruct (readyLoop now instanceId port startTime maxWait) as [[b|] es'] eqn:Hloop;
    [done|].
  destruct (decide (m = 0)%nat) as [->|].
  { apply (f_equal fst) in Hloop. rewrite readyLoop_expired in Hloop by lia. done. }
  destruct (IH (S k) fuel answers instanceId port startTime maxWait st')
    as [[[b es''] st''] ->]; [lia | lia | simpl in Hlen; lia | lia | | done].
  intros j o' now' Hj. specialize (Hclock (S j) o' now' Hj). lia.
Qed.

(** The effect of the whole wait on the registry. *)
Lemma runReady_state fuel : ∀ answers instanceId port startTime maxWait st b es st',
  runReady fuel answers instanceId port startTime maxWait st = Some (b, es, st') →
  if b then ∃ r, jm_get instanceId (instances (mgr st)) = Some r
                 ∧ st' = update (with_healthy true) r st
  else st' = st.
Proof.
  induction fuel as [|fuel IH]; intros answers instanceId port startTime maxWait
    st b es st' Hrun; [done|].
  destruct answers as [|[o now] answers]; [done|]. simpl in Hrun.
  pose proof (readyProbed_result o instanceId st) as Hp.
  destruct (readyProbed o instanceId st) as [[[b1|] es1] st1]; simpl in Hp.
  { simplify_eq. by destruct b. }
  subst st1.
  destruct (readyLoop now instanceId port startTime maxWait) as [[b2|] es2] eqn:Hl.
  { apply (f_equal fst), readyLoop_result in Hl. by simplify_eq/=. }
  destruct (runReady fuel _ _ _ _ _ _) as [[[b3 es3] st3]|] eqn:Hrec; simplify_eq/=.
  by apply IH in Hrec.
Qed.

Lemma runReady_punctual answers instanceId port startTime maxWait st :
  punctual startTime maxWait answers →
  is_Some (runReady (rounds_needed maxWait) answers instanceId port startTime
             maxWait st).
Proof.
  intros [Hlen Hclock]. unfold rounds_needed in *.
  set (n := Z.to_nat (Z.max 1 ((maxWait + 999) / 1000))) in *.
  assert (0 < n)%nat as Hpos by (unfold n; lia).
  assert (maxWait ≤ 1000 * Z.of_nat (0 + n)) as Hmax.
  { pose proof (Z.div_mod (maxWait + 999) 1000 ltac:(lia)).
    pose proof (Z.mod_pos_bound (maxWait + 999) 1000 ltac:(lia)).
    unfold n. lia. }
  apply (runReady_is_Some n 0); [done | done | done | done |].
  intros j o now Hj. specialize (Hclock j o now Hj). lia.
Qed.

(** C8. The readiness wait ends.  If the clock advances by at least a
    second per sleep, then after at most [maxWait / 1000] rounds (rounded
    up, and at least one) the wait has returned, whatever the probes
    answer: 60 rounds for the 60 seconds the code waits. *)
Theorem runReady_terminates answers instanceId port startTime maxWait st :
  let n := Z.to_nat (Z.max 1 ((maxWait + 999) / 1000)) in
  (n ≤ length answers)%nat →
  (∀ (j : nat) o now, answers !! j = Some (o, now) →
     startTime + 1000 * (Z.of_nat j + 1) ≤ now) →
  is_Some (runReady n answers instanceId port startTime maxWait st).
Proof.
  intros n Hlen Hclock. by apply runReady_punctual.
Qed.

Lemma runReady_terminates_witness :
  is_Some (runReady 2 [(RequestError, 2100); (RequestTimeout, 3200)]
             "router-0" (Int 3100) 1000 2000 sample_st).
Proof.
  apply (runReady_terminates [(RequestError, 2100); (RequestTimeout, 3200)]
           "router-0" (Int 3100) 1000 2000 sample_st); [vm_compute; lia|].
  intros [|[|j]] o now Hj; simplify_eq/=; lia.
Defined.

(** What the wait leaves behind.  When it returns [true] the
    instance registered under the id is marked healthy and the registry
    is otherwise as before; when it returns [false] nothing has
    changed. *)
Theorem runReady_result fuel answers instanceId port startTime maxWait st b es st' :
  wf st →
  runReady fuel answers instanceId port startTime maxWait st = Some (b, es, st') →
  wf st'
  ∧ if b then ∃ r, jm_get instanceId (instances (mgr st')) = Some r
                  ∧ healthy_at (heap st') r = true
                  ∧ st' = update (with_healthy true) r st
    else st' = st.
Proof.
  intros Hwf Hrun. apply runReady_state in Hrun.
  destruct b; [|by subst]. destruct Hrun as (r & Hr & ->).
  split; [by apply wf_update|]. exists r. repeat split; [done|].
  destruct (wf_lookup st instanceId r Hwf (jm_get_Some _ _ _ Hr)) as (i & Hi & _).
  by rewrite (healthy_at_update_eq _ _ _ i).
Qed.

Lemma runReady_result_witness :
  wf sample_st
  ∧ ∃ r, jm_get "router-0" (instances (mgr (update (with_healthy true) 0 sample_st)))
         = Some r
         ∧ healthy_at (heap (update (with_healthy true) 0 sample_st)) r = true
         ∧ update (with_healthy true) 0 sample_st
           = update (with_healthy true) r sample_st.
Proof.
  assert (wf sample_st) as Hwf by by_compute. split; [done|].
  apply (runReady_result 3 [(RequestError, 2100); (Response 200, 0)]
           "router-0" (Int 3100) 1000 60000 sample_st true
           [SetTimeout 1000; probe (Int 3100);
            Console Log "[router-0] Instance ready and healthy"] _ Hwf eq_refl).
Defined.

(** The wait returns [true] at the first probe that answers 200,
    provided the deadline has not passed at any loop test before it. *)
Theorem runReady_ready (j : nat) : ∀ fuel answers instanceId port startTime maxWait st r o now,
  jm_get instanceId (instances (mgr st)) = Some r →
  (j < fuel)%nat →
  answers !! j = Some (o, now) → checkInstanceHealth o = true →
  (∀ (i : nat) o' now', (i < j)%nat → answers !! i = Some (o', now') →
     checkInstanceHealth o' = false ∧ now' - startTime < maxWait) →
  ∃ es, runReady fuel answers instanceId port startTime maxWait st
        = Some (true, es, update (with_healthy true) r st).
Proof.
  induction j as [|j IH]; intros fuel answers instanceId port startTime maxWait
    st r o now Hr Hfuel Hj Ho Hbefore;
    (destruct fuel as [|fuel]; [lia|]);
    destruct answers as [|[o0 now0] answers]; simplify_eq/=.
  - unfold readyProbed. rewrite Ho, Hr. eauto.
  - destruct (Hbefore 0%nat o0 now0 ltac:(lia) eq_refl) as [Ho0 Hnow0].
    unfold readyProbed, readyLoop. rewrite Ho0, decide_True by done.
    destruct (IH fuel answers instanceId port startTime maxWait st r o now)
      as [es ->]; [done | lia | done | done | | by eexists].
    intros i o' now' Hi. apply (Hbefore (S i)). lia.
Qed.

Lemma runReady_ready_witness :
  ∃ es, runReady 3 [(RequestError, 2100); (Response 200, 0)]
          "router-0" (Int 3100) 1000 60000 sample_st
        = Some (true, es, update (with_healthy true) 0 sample_st).
Proof.
  apply (runReady_ready 1 3 _ _ _ _ _ _ 0%nat (Response 200) 0);
    [done | lia | done | done |].
  intros [|i] o' now' Hi Hl; simplify_eq/=; [done | lia].
Defined.

(** The handlers of the wait: either the next step is awaited, or the
    caller resumes. *)
Section handlers.
Context (resume : Cont → bool → World.t → list effect * World.t).

Lemma waitForInstanceReady_suspends clock instanceId port maxWait k w :
  clock 1%nat - clock 0%nat < maxWait →
  waitForInstanceReady resume clock instanceId port maxWait k w
  = ([probe port],
     add_task (TReadyProbe instanceId port (clock 0%nat) maxWait k) w).
Proof.
  intros. unfold waitForInstanceReady, readyLoop. by rewrite decide_True.
Qed.

Lemma waitForInstanceReady_expired clock instanceId port maxWait k w :
  maxWait ≤ clock 1%nat - clock 0%nat →
  waitForInstanceReady resume clock instanceId port maxWait k w
  = (Console Error ("[" +:+ instanceId +:+
                    "] Timeout waiting for instance to become ready")
       :: (resume k false w).1, (resume k false w).2).
Proof.
  intros. unfold waitForInstanceReady, readyLoop.
  rewrite decide_False by lia. simpl. by destruct (resume k false w).
Qed.

Lemma onReadySleep_suspends now instanceId port startTime maxWait k w :
  now - startTime < maxWait →
  onReadySleep resume now instanceId port startTime maxWait k w
  = ([probe port],
     add_task (TReadyProbe instanceId port startTime maxWait k) w).
Proof. intros. unfold onReadySleep, readyLoop. by rewrite decide_True. Qed.

Lemma onReadySleep_expired now instanceId port startTime maxWait k w :
  maxWait ≤ now - startTime →
  onReadySleep resume now instanceId port startTime maxWait k w
  = (Console Error ("[" +:+ instanceId +:+
                    "] Timeout waiting for instance to become ready")
       :: (resume k false w).1, (resume k false w).2).
Proof.
  intros. unfold onReadySleep, readyLoop.
  rewrite decide_False by lia. simpl. by destruct (resume k false w).
Qed.

Lemma onReadyProbe_failed o instanceId port startTime maxWait k w :
  checkInstanceHealth o = false →
  onReadyProbe resume o instanceId port startTime maxWait k w
  = ([SetTimeout 1000],
     add_task (TReadySleep instanceId port startTime maxWait k) w).
Proof.
  intros Ho. unfold onReadyProbe, readyProbed. rewrite Ho. simpl.
  unfold add_task. simpl. by destruct w.
Qed.

Lemma onReadyProbe_returns o instanceId port startTime maxWait k w b es st' :
  readyProbed o instanceId (reg w) = (Some b, es, st') →
  onReadyProbe resume o instanceId port startTime maxWait k w
  = (es ++ (resume k b (with_reg st' w)).1, (resume k b (with_reg st' w)).2).
Proof.
  intros H. unfold onReadyProbe. rewrite H. simpl.
  by destruct (resume k b (with_reg st' w)).
Qed.

Lemma onReadyProbe_ready o instanceId port startTime maxWait k w r :
  checkInstanceHealth o = true →
  jm_get instanceId (instances (mgr (reg w))) = Some r →
  onReadyProbe resume o instanceId port startTime maxWait k w
  = (Console Log ("[" +:+ instanceId +:+ "] Instance ready and healthy")
       :: (resume k true (on_reg (update (with_healthy true) r) w)).1,
     (resume k true (on_reg (update (with_healthy true) r) w)).2).
Proof.
  intros Ho Hr. unfold onReadyProbe, readyProbed. rewrite Ho, Hr. simpl.
  by destruct (resume k true _).
Qed.

End handlers.

(** ** What the readiness wait keeps

    The readiness wait keeps every property [Q] of the world that its
    caller keeps ([Resumes]) and that holds with the awaited task handed
    to the event loop. *)

Section keeps.
Context (resume : Cont → bool → World.t → list effect * World.t).
Context (Q : World.t → Prop) (P : Cont → World.t → Prop).
Context `{!Resumes Q P resume}.

Lemma settle_keeps (res : option bool) (await : Task) k w :
  Q w → P k w → (res = None → Q (add_task await w)) →
  Q (settle resume res await k w).2.
Proof. intros ? ? Ha. destruct res; simpl; [by apply resumes | by apply Ha]. Qed.

Lemma waitForInstanceReady_keeps clock instanceId port maxWait k w :
  Q w → P k w →
  Q (add_task (TReadyProbe instanceId port (clock 0%nat) maxWait k) w) →
  Q (waitForInstanceReady resume clock instanceId port maxWait k w).2.
Proof.
  intros HQ HP Ha. unfold waitForInstanceReady.
  destruct (readyLoop _ _ _ _ _) as [res es].
  pose proof (settle_keeps res _ k w HQ HP (λ _, Ha)). by destruct (settle _ _ _ _ _).
Qed.

Lemma onReadySleep_keeps now instanceId port startTime maxWait k w :
  Q w → P k w →
  Q (add_task (TReadyProbe instanceId port startTime maxWait k) w) →
  Q (onReadySleep resume now instanceId port startTime maxWait k w).2.
Proof.
  intros HQ HP Ha. unfold onReadySleep.
  destruct (readyLoop _ _ _ _ _) as [res es].
  pose proof (settle_keeps res _ k w HQ HP (λ _, Ha)). by destruct (settle _ _ _ _ _).
Qed.

Lemma onReadyProbe_keeps o instanceId port startTime maxWait k w :
  Q w → P k w →
  (∀ r, jm_get instanceId (instances (mgr (reg w))) = Some r →
        Q (on_reg (update (with_healthy true) r) w)
        ∧ P k (on_reg (update (with_healthy true) r) w)) →
  Q (add_task (TReadySleep instanceId port startTime maxWait k) w) →
  Q (onReadyProbe resume o instanceId port startTime maxWait k w).2.
Proof.
  intros HQ HP Hr Ha. unfold onReadyProbe.
  pose proof (readyProbed_result o instanceId (reg w)) as Hst.
  destruct (readyProbed o instanceId (reg w)) as [[res es] st]. simpl in Hst.
  assert (Q (with_reg st w) ∧ P k (with_reg st w)
          ∧ (res = None →
             Q (add_task (TReadySleep instanceId port startTime maxWait k)
                  (with_reg st w)))) as (HQ' & HP' & Ha').
  { destruct res as [[]|]; [|subst; by rewrite with_reg_id..].
    destruct Hst as (r & Hget & ->). by destruct (Hr r Hget). }
  pose proof (settle_keeps res (TReadySleep instanceId port startTime maxWait k)
                k _ HQ' HP' Ha').
  by destruct (settle _ _ _ _ _).
Qed.

End keeps.

(** ** The periodic check *)

Lemma healthLoop_world pos w :
  (healthLoop pos w).2 = w
  ∨ ∃ k, (healthLoop pos w).2 = add_task k w.
Proof.
  unfold healthLoop. destruct (instances (mgr (reg w)) !! pos) as [[k r]|]; [|by left].
  destruct (heap (reg w) !! r); [right; eauto | by left].
Qed.

Lemma healthLoop_reg pos w : reg (healthLoop pos w).2 = reg w.
Proof. by destruct (healthLoop_world pos w) as [->|[k ->]]. Qed.

Lemma healthLoop_children pos w : children (healthLoop pos w).2 = children w.
Proof. by destruct (healthLoop_world pos w) as [->|[k ->]]. Qed.

Lemma healthLoop_effects pos w e :
  e ∈ (healthLoop pos w).1 → ∃ port, e = probe port.
Proof.
  unfold healthLoop. destruct (instances (mgr (reg w)) !! pos) as [[k r]|];
    [|by intros ?%elem_of_nil].
  destruct (heap (reg w) !! r) as [i|]; [|by intros ?%elem_of_nil].
  intros ->%list_elem_of_singleton. eauto.
Qed.

Lemma onHealthProbe_reg o now pos instanceId r wasHealthy w :
  reg (onHealthProbe o now pos instanceId r wasHealthy w).2
  = update (with_lastHealthCheck now) r
      (update (with_healthy (checkInstanceHealth o)) r (reg w)).
Proof.
  unfold onHealthProbe.
  match goal with |- context [healthLoop ?p ?w'] =>
    pose proof (healthLoop_reg p w') as H; destruct (healthLoop p w') as [es' w''] end.
  simpl in *. by rewrite H.
Qed.

(** C35. A health probe that has answered writes its verdict and the
    time into the instance object it was sent for, and nowhere else:
    the object's [healthy] flag is the probe's result, whatever it was
    before and whatever a handler wrote to it while the probe was in
    flight. *)
Theorem onHealthProbe_records o now pos instanceId r wasHealthy w i :
  heap (reg w) !! r = Some i →
  let st' := reg (onHealthProbe o now pos instanceId r wasHealthy w).2 in
  heap st' !! r
  = Some (with_lastHealthCheck now (with_healthy (checkInstanceHealth o) i))
  ∧ mgr st' = mgr (reg w)
  ∧ ∀ r', r' ≠ r → heap st' !! r' = heap (reg w) !! r'.
Proof.
  intros Hi st'. unfold st'. rewrite onHealthProbe_reg. repeat split.
  - apply heap_update_eq. by apply heap_update_eq.
  - intros r' Hne. by rewrite !heap_update_ne.
Qed.

Lemma onHealthProbe_records_witness :
  let st' := reg (onHealthProbe (Response 200) 5000 0 "router-0" 0 false sample).2 in
  heap st' !! 0%nat
  = Some (mkInstance "router-0" 0 (Int 3100) (Some "k0") true (Some 5000) 1000 0)
  ∧ mgr st' = mgr (reg sample)
  ∧ ∀ r', r' ≠ 0%nat → heap st' !! r' = heap (reg sample) !! r'.
Proof.
  apply (onHealthProbe_records (Response 200) 5000 0 "router-0" 0 false sample
           (mkInstance "router-0" 0 (Int 3100) (Some "k0") false None 1000 0)).
  reflexivity.
Defined.

(** A round of the periodic check probes the instance at the
    iterator's position and no other. *)
Lemma healthLoop_probes pos w :
  probes (healthLoop pos w).1
  = option_list (entry ← instances (mgr (reg w)) !! pos;
                 port <$> heap (reg w) !! entry.2).
Proof.
  unfold healthLoop. destruct (instances (mgr (reg w)) !! pos) as [[k r]|]; [|done].
  simpl. by destruct (heap (reg w) !! r).
Qed.

Lemma probes_transitionLog instanceId a b : probes (transitionLog instanceId a b) = [].
Proof. by destruct a, b. Qed.

(** C30. The periodic check probes one instance at a time.  The timer
    callback sends the probe of the first instance of the map only; the
    probe of the instance at position [pos + 1] is sent when the probe
    at [pos] has answered.  A round over [n] instances is [n] probes in
    sequence, never two in flight. *)
Theorem health_check_sequential o now pos instanceId r wasHealthy w :
  probes (onHealthTick w).1
  = option_list (entry ← instances (mgr (reg w)) !! 0%nat;
                 port <$> heap (reg w) !! entry.2)
  ∧ probes (onHealthProbe o now pos instanceId r wasHealthy w).1
    = option_list (entry ← instances (mgr (reg w)) !! S pos;
                   port <$> heap (reg w) !! entry.2).
Proof.
  split; [apply healthLoop_probes|]. unfold onHealthProbe.
  match goal with |- context [healthLoop ?p ?w'] =>
    pose proof (healthLoop_probes p w') as H; destruct (healthLoop p w') as [es' w'']
  end.
  cbn [fst] in *. rewrite probes_app, probes_transitionLog, H. simpl.
  destruct (instances (mgr (reg w)) !! S pos) as [[k r']|]; [simpl|done].
  rewrite !list_lookup_alter.
  repeat case_decide; subst; by destruct (heap (reg w) !! r').
Qed.

Lemma transitionLog_same instanceId b : transitionLog instanceId b b = [].
Proof. by destruct b. Qed.

(** The periodic check logs on a change of health and is silent
    otherwise: nothing is written to the console when the probe
    confirms the flag read before it. *)
Theorem onHealthProbe_silent o now pos instanceId r w i l msg :
  heap (reg w) !! r = Some i →
  Console l msg ∉ (onHealthProbe o now pos instanceId r
                     (checkInstanceHealth o) w).1.
Proof.
  intros Hi. unfold onHealthProbe.
  match goal with |- context [healthLoop ?p ?w'] =>
    pose proof (healthLoop_effects p w') as H; destruct (healthLoop p w') as [es' w''] end.
  simpl in *. unfold healthy_at. rewrite !list_lookup_alter_eq, Hi. simpl.
  rewrite transitionLog_same. simpl.
  intros Hin. by destruct (H _ Hin) as [port ?].
Qed.

Lemma onHealthProbe_silent_witness :
  Console Warn "[router-0] Instance became unhealthy"
  ∉ (onHealthProbe RequestError 5000 0 "router-0" 0
       (checkInstanceHealth RequestError) sample).1.
Proof.
  apply (onHealthProbe_silent RequestError 5000 0 "router-0" 0 sample
           (mkInstance "router-0" 0 (Int 3100) (Some "k0") false None 1000 0)).
  reflexivity.
Defined.

(** A change of health is logged first thing: a warning when a
    healthy instance fails its probe, a message when an unhealthy one
    passes it. *)
Theorem onHealthProbe_logs_transition o now pos instanceId r wasHealthy w i :
  heap (reg w) !! r = Some i →
  wasHealthy ≠ checkInstanceHealth o →
  head (onHealthProbe o now pos instanceId r wasHealthy w).1
  = Some (if wasHealthy
          then Console Warn ("[" +:+ instanceId +:+ "] Instance became unhealthy")
          else Console Log ("[" +:+ instanceId +:+ "] Instance recovered")).
Proof.
  intros Hi Hne. unfold onHealthProbe.
  destruct (healthLoop _ _) as [es' w'']. simpl.
  unfold healthy_at. rewrite !list_lookup_alter_eq, Hi. simpl.
  by destruct wasHealthy, (checkInstanceHealth o).
Qed.

Lemma onHealthProbe_logs_transition_witness :
  head (onHealthProbe (Response 200) 5000 0 "router-0" 0 false sample).1
  = Some (Console Log "[router-0] Instance recovered").
Proof.
  apply (onHealthProbe_logs_transition (Response 200) 5000 0 "router-0" 0 false
           sample (mkInstance "router-0" 0 (Int 3100) (Some "k0") false None 1000 0));
    [reflexivity | by_compute].
Defined.

End properties.

End Health.
