(* ===== verification/Supervisor.v ===== *)
(** * The process supervisor

    [startInstance] and the callbacks it registers on the child process.
    [startInstance] runs without suspension up to the first probe of
    [waitForInstanceReady]: it builds the argument list, spawns the
    worker, builds a new instance object, stores it in the map under the
    instance id (replacing, on a restart, the object that was there) and
    registers the callbacks, which capture the new object.  The [close]
    callback arms the restart timer; the timer's callback counts the
    restart on the captured object and calls [startInstance] again. *)

From Stdlib Require Import Ascii.
From S2P Require Import Prelude Strings Node Config Registry World Health.

Module Supervisor.
Import Registry World.

Section supervisor.
Context (cfg : Config.t).
Context (resume : Cont → bool → World.t → list effect * World.t).

(** [if (v) args.push(flag, v)]. *)
Definition optionFlag (flag : string) (v : option string) : list string :=
  match v with
  | Some s => if truthy s then [flag; s] else []
  | None => []
  end.

(** The flags of the on-chain providers (lines 102-104). *)
Definition providerArgs : list string :=
  flat_map (λ provider,
    ["--add-provider";
     Config.address provider +:+ "," +:+
     num_to_string (Config.priority provider)]) (Config.PROVIDERS cfg).

(** The argument list of the worker (lines 99-124). *)
Definition buildArgs (key : option string) (port : num) : list string :=
  ["router-serve"]
  ++ providerArgs
  ++ flat_map (λ endpoint, ["--add-endpoint"; endpoint])
       (Config.DIRECT_ENDPOINTS cfg)
  ++ optionFlag "--key" key
  ++ ["--port"; num_to_string port]
  ++ ["--host"; Config.HOST cfg]
  ++ ["--default-provider-priority"; Config.DEFAULT_PROVIDER_PRIORITY cfg]
  ++ ["--default-endpoint-priority"; Config.DEFAULT_ENDPOINT_PRIORITY cfg]
  ++ optionFlag "--rpc" (Config.RPC cfg)
  ++ optionFlag "--ledger-ca" (Config.LEDGER_CA cfg)
  ++ optionFlag "--inference-ca" (Config.INFERENCE_CA cfg)
  ++ optionFlag "--gas-price" (Config.GAS_PRICE cfg).

(** [startInstance(instanceId, key, port)] up to the first suspension
    of [waitForInstanceReady].  [found] says whether [which
    0g-compute-cli] succeeded; [clock 0] is the reading stored as
    [startTime], the later readings are those of the readiness wait. *)
Definition startInstance (found : bool) (clock : nat → Z)
    (instanceId : string) (key : option string) (port : num) (k : Cont)
    (w : World.t) : list effect * World.t :=
  let args := buildArgs key port in
  let '(child, w) := spawn w in
  let instance :=
    mkInstance instanceId child port key false None (clock 0%nat) 0 in
  let '(r, st) := register instance (reg w) in
  let w := listen child (mkClosure r instanceId key port) (with_reg st w) in
  let '(es, w) :=
    Health.waitForInstanceReady resume (λ n, clock (S n)) instanceId port
      60000 k w in
  ([Console Log ("Starting instance " +:+ instanceId +:+ " on port " +:+
                 num_to_string port +:+ "...");
    ExecSync "which 0g-compute-cli"]
   ++ (if found then []
       else [Console Error ("[" +:+ instanceId +:+
                            "] 0g-compute-cli not found in PATH")])
   ++ [Console Log ("[" +:+ instanceId +:+ "] Executing: 0g-compute-cli " +:+
                    join " " args);
       Spawn "0g-compute-cli" args]
   ++ es, w).

(** The callbacks of [child.stdout] and [child.stderr]. *)
Definition onStdout (c : Closure) (data : string) : list effect :=
  [Console Log ("[" +:+ c_instanceId c +:+ "] " +:+ js_trim data)].

Definition onStderr (c : Closure) (data : string) : list effect :=
  [Console Error ("[" +:+ c_instanceId c +:+ "] ERROR: " +:+ js_trim data)].

(** [String(code)] for an exit code, [null] when a signal ended the
    process. *)
Definition code_to_string (code : option Z) : string :=
  from_option pretty "null" code.

(** The [close] callback. *)
Definition onClose (c : Closure) (code : option Z) (w : World.t)
    : list effect * World.t :=
  let w := on_reg (update (with_healthy false) (c_instance c)) w in
  let exited :=
    Console Log ("[" +:+ c_instanceId c +:+ "] Process exited with code " +:+
                 code_to_string code) in
  if negb (isShuttingDown (mgr (reg w))) && bool_decide (code ≠ Some 0) then
    ([exited;
      Console Log ("[" +:+ c_instanceId c +:+ "] Scheduling restart in " +:+
                   pretty Config.RESTART_DELAY +:+ "ms...");
      SetTimeout Config.RESTART_DELAY],
     add_task (TRestart c) w)
  else ([exited], w).

(** The callback of the restart timer. *)
Definition onRestartTimer (found : bool) (clock : nat → Z) (c : Closure)
    (w : World.t) : list effect * World.t :=
  if isShuttingDown (mgr (reg w)) then ([], w)
  else
    let w := on_reg (update incr_restartCount (c_instance c)) w in
    startInstance found clock (c_instanceId c) (c_key c) (c_port c) KReturn w.

(** The [error] callback; [message] is [error.message]. *)
Definition onError (c : Closure) (message : string) (w : World.t)
    : list effect * World.t :=
  ([Console Error ("[" +:+ c_instanceId c +:+ "] Failed to start: " +:+ message)],
   on_reg (update (with_healthy false) (c_instance c)) w).

(** The world in which [startInstance] reaches the readiness wait: the
    child spawned, the new instance object registered, the callbacks
    installed. *)
Definition launched (instanceId : string) (key : option string) (port : num)
    (now : Z) (w : World.t) : World.t :=
  let '(child, w) := spawn w in
  let '(r, st) :=
    register (mkInstance instanceId child port key false None now 0) (reg w) in
  listen child (mkClosure r instanceId key port) (with_reg st w).

End supervisor.

(** The caller that does nothing with the result. *)
Definition detached (k : Cont) (result : bool) (w : World.t)
    : list effect * World.t := ([], w).

(** A configuration with one on-chain provider and two keys. *)
Definition sample_cfg : Config.t :=
  Config.mk [Config.mkProvider "0xf07240Efa67755B5311bc75784a061eDB47165Dd" (Int 100)]
            [] ["k0"; "k1"] (Config.PortNumber 3000) "0.0.0.0"
            None None None None "100" "50".

(** A world with one worker that has exited, and its closure. *)
Definition sample_closure : Closure :=
  mkClosure 0 "router-0" (Some "k0") (Int 3100).

Definition sample : World.t :=
  World.mk
    (mkState [mkInstance "router-0" 0 (Int 3100) (Some "k0") true None 1000 0]
             (mkRouterManager [("router-0", 0%nat)] None false (Some 0%nat)))
    [mkChild false false [] (Some sample_closure)]
    [] true true true true None.

(** Clock readings a second apart. *)
Definition sample_clock (n : nat) : Z := 10000 + 1000 * Z.of_nat n.

(** * Properties *)

Section properties.
Context (cfg : Config.t).
Context (resume : Cont → bool → World.t → list effect * World.t).
Implicit Types (w : World.t) (c : Closure) (k : Cont).

(** ** Launching *)

Lemma launched_reg instanceId key port now w :
  reg (launched instanceId key port now w)
  = (register (mkInstance instanceId (length (children w)) port key false None now 0)
       (reg w)).2.
Proof. done. Qed.

Lemma launched_children instanceId key port now w :
  children (launched instanceId key port now w)
  = children w
    ++ [mkChild true false []
          (Some (mkClosure (length (heap (reg w))) instanceId key port))].
Proof.
  unfold launched, spawn, alloc, listen. simpl.
  by rewrite <- (Nat.add_0_r (length (children w))), alter_app_r.
Qed.

Lemma launched_tasks instanceId key port now w :
  tasks (launched instanceId key port now w) = tasks w.
Proof. done. Qed.

Lemma launched_flags instanceId key port now w :
  handling (launched instanceId key port now w) = handling w
  ∧ started (launched instanceId key port now w) = started w
  ∧ isShuttingDown (mgr (reg (launched instanceId key port now w)))
    = isShuttingDown (mgr (reg w)).
Proof. done. Qed.

Lemma launched_keys instanceId key port now w x :
  x = instanceId ∨ x ∈ jm_keys (instances (mgr (reg w))) →
  x ∈ jm_keys (instances (mgr (reg (launched instanceId key port now w)))).
Proof.
  rewrite launched_reg, register_instances.
  intros [->|?]; [apply jm_keys_set_elem | by apply jm_keys_set_mono].
Qed.

Lemma launched_wf instanceId key port now w :
  wf (reg w) → wf (reg (launched instanceId key port now w)).
Proof. intros. rewrite launched_reg. by apply wf_register. Qed.

(** [startInstance] is its messages, then the wait from the launched
    world. *)
Lemma startInstance_world found clock instanceId key port k w :
  (startInstance cfg resume found clock instanceId key port k w).2
  = (Health.waitForInstanceReady resume (λ n, clock (S n)) instanceId port 60000 k
       (launched instanceId key port (clock 0%nat) w)).2.
Proof.
  unfold startInstance, launched. simpl.
  by destruct (Health.waitForInstanceReady _ _ _ _ _ _ _).
Qed.

Lemma startInstance_spawns found clock instanceId key port k w :
  spawns (startInstance cfg resume found clock instanceId key port k w).1
  = ("0g-compute-cli", buildArgs cfg key port)
    :: spawns (Health.waitForInstanceReady resume (λ n, clock (S n)) instanceId
                 port 60000 k (launched instanceId key port (clock 0%nat) w)).1.
Proof.
  unfold startInstance, launched. simpl.
  destruct (Health.waitForInstanceReady _ _ _ _ _ _ _) as [es w'].
  by destruct found.
Qed.

(** [startInstance] keeps what holds of the launched world with the
    first probe awaited, if its caller keeps it. *)
Lemma startInstance_keeps (Q : World.t → Prop) (P : Cont → World.t → Prop)
    `{!Resumes Q P resume} found clock instanceId key port k w :
  let w' := launched instanceId key port (clock 0%nat) w in
  Q w' → P k w' →
  Q (add_task (TReadyProbe instanceId port (clock 1%nat) 60000 k) w') →
  Q (startInstance cfg resume found clock instanceId key port k w).2.
Proof.
  intros w' HQ HP Ha. rewrite startInstance_world.
  by apply (Health.waitForInstanceReady_keeps resume Q P).
Qed.

(** Where the first probe is sent, [startInstance] spawns one worker
    and suspends in the launched world. *)
Lemma startInstance_suspends found clock instanceId key port k w :
  clock 2%nat - clock 1%nat < 60000 →
  (startInstance cfg resume found clock instanceId key port k w).2
  = add_task (TReadyProbe instanceId port (clock 1%nat) 60000 k)
      (launched instanceId key port (clock 0%nat) w)
  ∧ spawns (startInstance cfg resume found clock instanceId key port k w).1
    = [("0g-compute-cli", buildArgs cfg key port)].
Proof.
  intros Hclock. rewrite startInstance_spawns, startInstance_world.
  by rewrite Health.waitForInstanceReady_suspends.
Qed.

(** [startInstance] spawns one worker with the argument list
    built from the configuration, registers a new instance object for
    it (unhealthy, restart count 0, holding the new child) under the
    instance id, installs the callbacks on the child, and awaits the
    first readiness probe. *)
Theorem startInstance_launches found clock instanceId key port k w :
  clock 2%nat - clock 1%nat < 60000 →
  let out := startInstance cfg resume found clock instanceId key port k w in
  spawns out.1 = [("0g-compute-cli", buildArgs cfg key port)]
  ∧ reg out.2
    = (register (mkInstance instanceId (length (children w)) port key false None
                   (clock 0%nat) 0) (reg w)).2
  ∧ children out.2
    = children w
      ++ [mkChild true false []
            (Some (mkClosure (length (heap (reg w))) instanceId key port))]
  ∧ tasks out.2 = tasks w ++ [TReadyProbe instanceId port (clock 1%nat) 60000 k].
Proof.
  intros Hclock out. unfold out.
  destruct (startInstance_suspends found clock instanceId key port k w Hclock)
    as [-> ->].
  by rewrite reg_add_task, children_add_task, tasks_add_task, launched_reg,
    launched_children, launched_tasks.
Qed.

(** ** The close callback *)

(** The close callback of a crash: the instance is marked unhealthy
    and the restart timer armed. *)
Lemma onClose_crash c code w :
  isShuttingDown (mgr (reg w)) = false → code ≠ Some 0 →
  onClose c code w
  = ([Console Log ("[" +:+ c_instanceId c +:+ "] Process exited with code " +:+
                   code_to_string code);
      Console Log ("[" +:+ c_instanceId c +:+ "] Scheduling restart in " +:+
                   pretty Config.RESTART_DELAY +:+ "ms...");
      SetTimeout Config.RESTART_DELAY],
     add_task (TRestart c)
       (on_reg (update (with_healthy false) (c_instance c)) w)).
Proof.
  intros Hs Hc. unfold onClose. simpl. by rewrite Hs, bool_decide_eq_true_2.
Qed.

Lemma onClose_reg c code w :
  reg (onClose c code w).2 = update (with_healthy false) (c_instance c) (reg w).
Proof. unfold onClose. by case_match. Qed.

Lemma onClose_children c code w : children (onClose c code w).2 = children w.
Proof. unfold onClose. by case_match. Qed.

Lemma onClose_tasks c code w :
  tasks (onClose c code w).2
  = tasks w ++ (if negb (isShuttingDown (mgr (reg w))) && bool_decide (code ≠ Some 0)
                then [TRestart c] else []).
Proof. unfold onClose. simpl. case_match; simpl; by rewrite ?app_nil_r. Qed.

Lemma onClose_effects c code w :
  (onClose c code w).1
  = Console Log ("[" +:+ c_instanceId c +:+ "] Process exited with code " +:+
                 code_to_string code)
    :: (if negb (isShuttingDown (mgr (reg w))) && bool_decide (code ≠ Some 0)
        then [Console Log ("[" +:+ c_instanceId c +:+ "] Scheduling restart in " +:+
                           pretty Config.RESTART_DELAY +:+ "ms...");
              SetTimeout Config.RESTART_DELAY]
        else []).
Proof. unfold onClose. simpl. by case_match. Qed.

Lemma onClose_unhealthy c code w :
  healthy_at (heap (reg (onClose c code w).2)) (c_instance c) = false.
Proof. rewrite onClose_reg. apply healthy_at_unset. Qed.

(** C22. A worker that exits abnormally while the manager is not
    shutting down is restarted: the [close] callback marks the
    instance unhealthy and arms one restart timer of [RESTART_DELAY]
    milliseconds.  An exit by signal, for which the exit code is
    [null], counts as abnormal. *)
Theorem onClose_schedules_restart c code w :
  isShuttingDown (mgr (reg w)) = false → code ≠ Some 0 →
  tasks (onClose c code w).2 = tasks w ++ [TRestart c]
  ∧ last (onClose c code w).1 = Some (SetTimeout Config.RESTART_DELAY)
  ∧ healthy_at (heap (reg (onClose c code w).2)) (c_instance c) = false.
Proof.
  intros Hs Hc.
  rewrite onClose_tasks, onClose_effects, Hs, bool_decide_eq_true_2 by done.
  repeat split. apply onClose_unhealthy.
Qed.

Lemma onClose_schedules_restart_witness :
  tasks (onClose sample_closure None sample).2 = [] ++ [TRestart sample_closure]
  ∧ last (onClose sample_closure None sample).1
    = Some (SetTimeout Config.RESTART_DELAY)
  ∧ healthy_at (heap (reg (onClose sample_closure None sample).2))
      (c_instance sample_closure) = false.
Proof. apply (onClose_schedules_restart sample_closure None sample); done. Defined.

(** No restart is scheduled for a worker that exits with code 0,
    nor for any worker that exits while the manager shuts down: the
    callback logs the exit, marks the instance unhealthy and arms no
    timer. *)
Theorem onClose_no_restart c code w :
  isShuttingDown (mgr (reg w)) = true ∨ code = Some 0 →
  tasks (onClose c code w).2 = tasks w
  ∧ (onClose c code w).1
    = [Console Log ("[" +:+ c_instanceId c +:+ "] Process exited with code " +:+
                    code_to_string code)]
  ∧ healthy_at (heap (reg (onClose c code w).2)) (c_instance c) = false.
Proof.
  intros H. rewrite onClose_tasks, onClose_effects.
  assert (negb (isShuttingDown (mgr (reg w))) && bool_decide (code ≠ Some 0) = false)
    as ->.
  { destruct H as [-> | ->]; [done|]. by rewrite andb_false_r. }
  rewrite app_nil_r. repeat split. apply onClose_unhealthy.
Qed.

Lemma onClose_no_restart_witness :
  tasks (onClose sample_closure (Some 0) sample).2 = tasks sample
  ∧ (onClose sample_closure (Some 0) sample).1
    = [Console Log "[router-0] Process exited with code 0"]
  ∧ healthy_at (heap (reg (onClose sample_closure (Some 0) sample).2))
      (c_instance sample_closure) = false.
Proof. apply (onClose_no_restart sample_closure (Some 0) sample). by right. Defined.

(** ** The restart timer *)

Lemma onRestartTimer_shutdown found clock c w :
  isShuttingDown (mgr (reg w)) = true →
  onRestartTimer cfg resume found clock c w = ([], w).
Proof. intros Hs. unfold onRestartTimer. by rewrite Hs. Qed.

Lemma onRestartTimer_world found clock c w :
  isShuttingDown (mgr (reg w)) = false →
  clock 2%nat - clock 1%nat < 60000 →
  (onRestartTimer cfg resume found clock c w).2
  = add_task (TReadyProbe (c_instanceId c) (c_port c) (clock 1%nat) 60000 KReturn)
      (launched (c_instanceId c) (c_key c) (c_port c) (clock 0%nat)
         (on_reg (update incr_restartCount (c_instance c)) w)).
Proof.
  intros Hs Hclock. unfold onRestartTimer. rewrite Hs.
  by apply startInstance_suspends.
Qed.

(** A restart does not carry the restart count over.  The timer
    increments [restartCount] on the instance object that the [close]
    callback captured, and [startInstance] then replaces that object in
    the map by a new one whose [restartCount] is 0: the count of the
    registered instance is 0 after every restart. *)
Theorem restart_resets_count found clock c w i :
  isShuttingDown (mgr (reg w)) = false →
  clock 2%nat - clock 1%nat < 60000 →
  heap (reg w) !! c_instance c = Some i →
  let st' := reg (onRestartTimer cfg resume found clock c w).2 in
  ∃ r, jm_get (c_instanceId c) (instances (mgr st')) = Some r
       ∧ restartCount <$> heap st' !! r = Some 0%nat
       ∧ restartCount <$> heap st' !! c_instance c = Some (S (restartCount i)).
Proof.
  intros Hs Hclock Hi st'. unfold st'. rewrite onRestartTimer_world by done.
  rewrite reg_add_task, launched_reg, reg_on_reg.
  eexists. split; [rewrite register_instances; apply jm_get_set_eq|]. split.
  - by rewrite register_lookup_new.
  - by rewrite (register_lookup_old _ _ _ (incr_restartCount i))
      by (by apply heap_update_eq).
Qed.

(** A restart keeps the identity of the instance: the new object
    is registered under the same id, at the same position of the map,
    with the port and the key of the old one; it holds the new child
    process and starts unhealthy. *)
Theorem restart_keeps_identity found clock c w :
  isShuttingDown (mgr (reg w)) = false →
  clock 2%nat - clock 1%nat < 60000 →
  c_instanceId c ∈ jm_keys (instances (mgr (reg w))) →
  let st' := reg (onRestartTimer cfg resume found clock c w).2 in
  jm_keys (instances (mgr st')) = jm_keys (instances (mgr (reg w)))
  ∧ ∃ r, jm_get (c_instanceId c) (instances (mgr st')) = Some r
         ∧ heap st' !! r
           = Some (mkInstance (c_instanceId c) (length (children w)) (c_port c)
                     (c_key c) false None (clock 0%nat) 0).
Proof.
  intros Hs Hclock Hin st'. unfold st'. rewrite onRestartTimer_world by done.
  rewrite reg_add_task, launched_reg, reg_on_reg, children_on_reg. split.
  - rewrite register_instances. by apply jm_keys_set_old.
  - eexists. split; [rewrite register_instances; apply jm_get_set_eq|]. apply register_lookup_new.
Qed.

(** ** The error callback *)

(** A worker that fails to start is marked unhealthy and nothing
    else happens: no restart is scheduled, no process is touched, the
    other instances are as before. *)
Theorem onError_marks_unhealthy c message w :
  let out := onError c message w in
  healthy_at (heap (reg out.2)) (c_instance c) = false
  ∧ (∀ r, r ≠ c_instance c → heap (reg out.2) !! r = heap (reg w) !! r)
  ∧ mgr (reg out.2) = mgr (reg w)
  ∧ tasks out.2 = tasks w ∧ children out.2 = children w.
Proof.
  simpl. repeat split.
  - apply healthy_at_unset.
  - intros r Hne. by rewrite list_lookup_alter_ne.
Qed.

End properties.

(** ** From the environment to the command line *)

Section arguments.
Implicit Types (env : string → option string) (ps : list (string * Z)).

(** An empty key is no key: the worker gets no [--key] flag. *)
Lemma buildArgs_empty_key cfg port :
  buildArgs cfg (Some EmptyString) port = buildArgs cfg None port.
Proof. done. Qed.

(** C17. The provider entries of the environment reach the worker as
    they were written: where [PROVIDERS] is a list of
    [address,priority] entries joined by semicolons, with plain
    addresses and integer priorities, the values of the
    [--add-provider] flags are these entries, in order.  Reading the
    entries with [split], [trim] and [parseInt] and printing them again
    loses nothing. *)
Theorem provider_flags_roundtrip env ps :
  ps ≠ [] → Forall (λ p, Config.plain p.1) ps →
  env "PROVIDERS" = Some (join ";" (Config.entry <$> ps)) →
  providerArgs (Config.load env)
  = flat_map (λ p, ["--add-provider"; Config.entry p]) ps.
Proof.
  intros Hne Hps Henv. unfold providerArgs.
  rewrite (Config.load_providers env ps) by done. clear.
  induction ps as [|[a z] ps IH]; [done|].
  rewrite fmap_cons. cbn [flat_map]. by rewrite IH.
Qed.

(** C40. An entry without a priority reaches the worker with the
    priority [100], whatever [DEFAULT_PROVIDER_PRIORITY] is. *)
Theorem provider_default_priority env a :
  env "PROVIDERS" = Some a → a ≠ EmptyString →
  Strings.lacks ","%char a → Strings.lacks ";"%char a →
  providerArgs (Config.load env) = ["--add-provider"; js_trim a +:+ "," +:+ "100"].
Proof.
  intros Henv Ha Hc Hs. unfold providerArgs. simpl. rewrite Henv.
  rewrite Config.splitEnv_Some, Strings.js_split_lacks by done.
  cbn [fmap list_fmap flat_map app].
  by destruct (Config.parseProvider_bare a Hc) as [-> _].
Qed.

End arguments.

(** ** The supervisor at a concrete world *)

Lemma startInstance_launches_witness :
  let out := startInstance sample_cfg detached true sample_clock "router-1"
               (Some "k1") (Int 3101) KReturn sample in
  spawns out.1 = [("0g-compute-cli", buildArgs sample_cfg (Some "k1") (Int 3101))]
  ∧ reg out.2
    = (register (mkInstance "router-1" (length (children sample)) (Int 3101)
                   (Some "k1") false None (sample_clock 0%nat) 0) (reg sample)).2
  ∧ children out.2
    = children sample
      ++ [mkChild true false []
            (Some (mkClosure (length (heap (reg sample))) "router-1" (Some "k1")
                     (Int 3101)))]
  ∧ tasks out.2
    = tasks sample
      ++ [TReadyProbe "router-1" (Int 3101) (sample_clock 1%nat) 60000 KReturn].
Proof.
  apply (startInstance_launches sample_cfg detached true sample_clock "router-1"
           (Some "k1") (Int 3101) KReturn sample).
  by_compute.
Defined.

Lemma restart_resets_count_witness :
  let st' := reg (onRestartTimer sample_cfg detached true sample_clock
                    sample_closure sample).2 in
  ∃ r, jm_get "router-0" (instances (mgr st')) = Some r
       ∧ restartCount <$> heap st' !! r = Some 0%nat
       ∧ restartCount <$> heap st' !! 0%nat = Some 1%nat.
Proof.
  apply (restart_resets_count sample_cfg detached true sample_clock sample_closure
           sample (mkInstance "router-0" 0 (Int 3100) (Some "k0") true None 1000 0));
    [done | by_compute | done].
Defined.

Lemma restart_keeps_identity_witness :
  let st' := reg (onRestartTimer sample_cfg detached true sample_clock
                    sample_closure sample).2 in
  jm_keys (instances (mgr st')) = ["router-0"]
  ∧ ∃ r, jm_get "router-0" (instances (mgr st')) = Some r
         ∧ heap st' !! r
           = Some (mkInstance "router-0" 1 (Int 3100) (Some "k0") false None 10000 0).
Proof.
  apply (restart_keeps_identity sample_cfg detached true sample_clock
           sample_closure sample); [done | by_compute | by_compute].
Defined.

Lemma provider_flags_roundtrip_witness :
  providerArgs (Config.load Config.sample_env)
  = ["--add-provider"; "0xA1,10"; "--add-provider"; "0xB2,20"].
Proof.
  apply (provider_flags_roundtrip Config.sample_env [("0xA1", 10); ("0xB2", 20)]);
    [done|by_compute|reflexivity].
Defined.

Lemma provider_default_priority_witness :
  providerArgs (Config.load (Config.env_of
    [("PROVIDERS", "0xA1"); ("DEFAULT_PROVIDER_PRIORITY", "7")]))
  = ["--add-provider"; "0xA1,100"].
Proof. by apply (provider_default_priority _ "0xA1"). Defined.

End Supervisor.
