(* ===== verification/Shutdown.v ===== *)
(** * The shutdown coordinator

    The handler that [setupSignalHandlers] installs for [SIGTERM] and
    [SIGINT].  It suspends once, at the sleep of three seconds: [shutdown]
    is the code before the sleep, [shutdownAfterGrace] the code after it.
    The pictographs and line breaks that decorate the log messages are
    left out. *)

From S2P Require Import Prelude Node Config Registry World.

Module Shutdown.
Import Registry World.

(** One round of the first loop: [console.log], then [SIGTERM] unless
    the child object is already marked [killed]. *)
Definition stopInstance (acc : list effect * World.t) (entry : string * ref)
    : list effect * World.t :=
  let '(es, w) := acc in
  let '(instanceId, r) := entry in
  let es := es ++ [Console Log ("Stopping " +:+ instanceId +:+ "...")] in
  match heap (reg w) !! r with
  | Some instance =>
      if negb (killed_at w (process instance)) then
        (es ++ [Kill (process instance) SIGTERM],
         kill (process instance) SIGTERM w)
      else (es, w)
  | None => (es, w)
  end.

(** One round of the second loop: [SIGKILL], with its message, unless
    the child object is marked [killed]. *)
Definition forceKillInstance (acc : list effect * World.t) (entry : string * ref)
    : list effect * World.t :=
  let '(es, w) := acc in
  let '(instanceId, r) := entry in
  match heap (reg w) !! r with
  | Some instance =>
      if negb (killed_at w (process instance)) then
        (es ++ [Console Log ("Force killing " +:+ instanceId +:+ "...");
                Kill (process instance) SIGKILL],
         kill (process instance) SIGKILL w)
      else (es, w)
  | None => (es, w)
  end.

(** [shutdown(signal)] up to the sleep. *)
Definition shutdown (signal : string) (w : World.t) : list effect * World.t :=
  let w := on_reg (with_isShuttingDown true) w in
  let '(es1, w) :=
    match healthCheckInterval (mgr (reg w)) with
    | Some handle => ([ClearInterval handle], with_ticking false w)
    | None => ([], w)
    end in
  let '(es2, w) := foldl stopInstance ([], w) (instances (mgr (reg w))) in
  ([Console Log ("Received " +:+ signal +:+ ". Shutting down gracefully...")]
   ++ es1 ++ es2 ++ [SetTimeout 3000],
   add_task TGrace w).

(** [shutdown(signal)] after the sleep. *)
Definition shutdownAfterGrace (w : World.t) : list effect * World.t :=
  let '(es, w) := foldl forceKillInstance ([], w) (instances (mgr (reg w))) in
  (es ++ [Console Log "Shutdown complete"; Exit 0], with_exited 0 w).

(** The world in which [shutdown] suspends: the flag is raised, the
    interval timer cleared, [SIGTERM] offered to every registered
    process, the sleep awaited. *)
Definition stopped (w : World.t) : World.t :=
  let w1 := on_reg (with_isShuttingDown true) w in
  let w2 := if healthCheckInterval (mgr (reg w)) is Some _
            then with_ticking false w1 else w1 in
  add_task TGrace
    (with_children (deliver_all SIGTERM (processes w) (children w)) w2).

(** A world with two registered workers, the first of which runs; the
    second has exited and awaits its restart. *)
Definition sample : World.t :=
  World.mk
    (mkState
       [mkInstance "router-0" 0 (Int 3100) (Some "k0") true None 0 0;
        mkInstance "router-1" 1 (Int 3101) (Some "k1") false None 0 0]
       (mkRouterManager [("router-0", 0%nat); ("router-1", 1%nat)] None false
          (Some 0%nat)))
    [mkChild true false [] (Some (mkClosure 0 "router-0" (Some "k0") (Int 3100)));
     mkChild false false [] (Some (mkClosure 1 "router-1" (Some "k1") (Int 3101)))]
    [TRestart (mkClosure 1 "router-1" (Some "k1") (Int 3101))]
    true true true true None.

(** * Properties *)

Section properties.
Implicit Types (w : World.t) (p : pid) (sig : Node.signal).

(** ** The two loops *)

Lemma stopInstance_world es w e :
  (stopInstance (es, w) e).2
  = with_children (deliver_all SIGTERM (pid_of (reg w) e) (children w)) w.
Proof.
  destruct e as [k r]. unfold stopInstance, pid_of. simpl.
  destruct (heap (reg w) !! r) as [i|]; simpl; [|by rewrite with_children_id].
  rewrite <- kill_guarded. by destruct (killed_at w (process i)).
Qed.

Lemma forceKillInstance_world es w e :
  (forceKillInstance (es, w) e).2
  = with_children (deliver_all SIGKILL (pid_of (reg w) e) (children w)) w.
Proof.
  destruct e as [k r]. unfold forceKillInstance, pid_of. simpl.
  destruct (heap (reg w) !! r) as [i|]; simpl; [|by rewrite with_children_id].
  rewrite <- kill_guarded. by destruct (killed_at w (process i)).
Qed.

Lemma shutdown_world signal w : (shutdown signal w).2 = stopped w.
Proof.
  unfold shutdown, stopped.
  destruct (healthCheckInterval (mgr (reg w))) as [h|] eqn:E; simpl; rewrite E;
    match goal with
    | |- context [foldl stopInstance (?es, ?w') ?l] =>
        pose proof (foldl_deliver stopInstance SIGTERM stopInstance_world l es w') as H;
        destruct (foldl stopInstance (es, w') l) as [es2 w2]
    end; simpl in *; by subst w2.
Qed.

Lemma shutdownAfterGrace_world w :
  (shutdownAfterGrace w).2
  = with_exited 0
      (with_children (deliver_all SIGKILL (processes w) (children w)) w).
Proof.
  unfold shutdownAfterGrace.
  pose proof (foldl_deliver forceKillInstance SIGKILL forceKillInstance_world
                (instances (mgr (reg w))) [] w) as H.
  destruct (foldl forceKillInstance _ _) as [es w']. simpl in *. by subst w'.
Qed.

Lemma processes_stopped w : processes (stopped w) = processes w.
Proof.
  unfold stopped. by destruct (healthCheckInterval (mgr (reg w))).
Qed.

Lemma children_stopped w :
  children (stopped w) = deliver_all SIGTERM (processes w) (children w).
Proof.
  unfold stopped. by destruct (healthCheckInterval (mgr (reg w))).
Qed.

Lemma reg_stopped w : reg (stopped w) = with_isShuttingDown true (reg w).
Proof. unfold stopped. by destruct (healthCheckInterval (mgr (reg w))). Qed.

Lemma tasks_stopped w : tasks (stopped w) = tasks w ++ [TGrace].
Proof. unfold stopped. by destruct (healthCheckInterval (mgr (reg w))). Qed.

Lemma flags_stopped w :
  handling (stopped w) = handling w ∧ started (stopped w) = started w.
Proof. unfold stopped. by destruct (healthCheckInterval (mgr (reg w))). Qed.

(** When [shutdown] suspends, every registered process that runs is
    marked [killed]. *)
Lemma quiet_stopped w : quiet (stopped w).
Proof.
  intros p ch Hp Hch Hrun. rewrite processes_stopped in Hp.
  rewrite children_stopped, deliver_all_lookup, decide_True in Hch by done.
  destruct (children w !! p) as [ch0|]; simplify_eq/=.
  by apply deliver_quiet in Hrun.
Qed.

Lemma shutdown_effects signal w :
  ∃ es, (shutdown signal w).1
        = [Console Log ("Received " +:+ signal +:+ ". Shutting down gracefully...")]
          ++ (if healthCheckInterval (mgr (reg w)) is Some h
              then [ClearInterval h] else [])
          ++ es ++ [SetTimeout 3000].
Proof.
  unfold shutdown.
  destruct (healthCheckInterval (mgr (reg w))) as [h|] eqn:E; simpl; rewrite E;
    destruct (foldl stopInstance _ _) as [es2 w2]; by exists es2.
Qed.

Lemma shutdownAfterGrace_effects w :
  last (shutdownAfterGrace w).1 = Some (Exit 0).
Proof.
  unfold shutdownAfterGrace. destruct (foldl forceKillInstance _ _) as [es w'].
  simpl. by rewrite last_app.
Qed.

(** ** The contract of the coordinator *)

(** [shutdown] raises [isShuttingDown], hands the rest of the
    handler to the event loop behind every other pending continuation,
    and ends by arming the sleep of three seconds. *)
Theorem shutdown_raises_flag signal w :
  isShuttingDown (mgr (reg (shutdown signal w).2)) = true
  ∧ tasks (shutdown signal w).2 = tasks w ++ [TGrace]
  ∧ last (shutdown signal w).1 = Some (SetTimeout 3000).
Proof.
  rewrite shutdown_world. destruct (shutdown_effects signal w) as [es ->].
  repeat split.
  - unfold stopped. by destruct (healthCheckInterval (mgr (reg w))).
  - unfold stopped. by destruct (healthCheckInterval (mgr (reg w))).
  - by rewrite !app_assoc, last_snoc.
Qed.

(** If the interval timer of the health check is armed, [shutdown]
    clears it: no further tick runs. *)
Theorem shutdown_stops_monitor signal w h :
  healthCheckInterval (mgr (reg w)) = Some h →
  ticking (shutdown signal w).2 = false
  ∧ ClearInterval h ∈ (shutdown signal w).1.
Proof.
  intros Hh. rewrite shutdown_world.
  destruct (shutdown_effects signal w) as [es ->]. unfold stopped.
  rewrite Hh. split; [done|]. right; left.
Qed.

Lemma shutdown_stops_monitor_witness :
  healthCheckInterval (mgr (reg sample)) = Some 0%nat
  ∧ ticking (shutdown "SIGTERM" sample).2 = false
  ∧ ClearInterval 0 ∈ (shutdown "SIGTERM" sample).1.
Proof. split; [done | by apply shutdown_stops_monitor]. Defined.

(** C23. Every registered worker process that runs and has not been
    signalled before receives [SIGTERM] from [shutdown], once, and is
    marked [killed]. *)
Theorem shutdown_delivers_sigterm signal w p ch :
  p ∈ processes w → children w !! p = Some ch →
  running ch = true → killed ch = false →
  children (shutdown signal w).2 !! p
  = Some (mkChild true true (SIGTERM :: signals ch) (listeners ch)).
Proof.
  intros Hp Hch Hrun Hk.
  rewrite shutdown_world, children_stopped, deliver_all_lookup, decide_True, Hch
    by done.
  simpl. unfold deliver. by rewrite Hrun, Hk.
Qed.

Lemma shutdown_delivers_sigterm_witness :
  children (shutdown "SIGINT" sample).2 !! 0%nat
  = Some (mkChild true true [SIGTERM]
            (Some (mkClosure 0 "router-0" (Some "k0") (Int 3100)))).
Proof.
  apply (shutdown_delivers_sigterm "SIGINT" sample 0
           (mkChild true false [] (Some (mkClosure 0 "router-0" (Some "k0") (Int 3100)))));
    by_compute.
Defined.

(** [shutdown] signals nothing but the processes of registered
    instances. *)
Theorem shutdown_spares_unregistered signal w p :
  p ∉ processes w →
  children (shutdown signal w).2 !! p = children w !! p.
Proof.
  intros Hp.
  by rewrite shutdown_world, children_stopped, deliver_all_lookup, decide_False.
Qed.

Lemma shutdown_spares_unregistered_witness :
  children (shutdown "SIGINT" sample).2 !! 2%nat = children sample !! 2%nat.
Proof. apply shutdown_spares_unregistered. by_compute. Defined.

(** The forced kill after the grace period reaches no process:
    [child.kill('SIGTERM')] has set [killed] on every process it
    reached, and the second loop skips a child object marked [killed];
    the processes it does call [kill('SIGKILL')] on have exited.  A
    worker that ignores [SIGTERM] survives the shutdown. *)
Theorem grace_delivers_nothing signal w :
  children (shutdownAfterGrace (shutdown signal w).2).2
  = children (shutdown signal w).2.
Proof.
  rewrite shutdownAfterGrace_world, shutdown_world. simpl.
  apply quiet_deliver_all, quiet_stopped.
Qed.

(** Whenever the registered processes are quiet, every
    [kill('SIGKILL')] the second loop issues addresses a process that
    has exited. *)
Theorem force_kill_targets_exited w p sig :
  quiet w → Kill p sig ∈ (shutdownAfterGrace w).1 →
  ∃ ch, children w !! p = Some ch ∧ running ch = false.
Proof.
  intros Hq. unfold shutdownAfterGrace.
  pose (I := λ a : list effect * World.t,
          a.2 = w ∧ ∀ p sig, Kill p sig ∈ a.1 →
                  ∃ ch, children w !! p = Some ch ∧ running ch = false).
  assert (I (foldl forceKillInstance ([], w) (instances (mgr (reg w))))) as HI.
  { apply foldl_invariant.
    - split; [done|]. by intros ?? ?%elem_of_nil.
    - intros [es w'] [k r] Hin [Heq HI]. simpl in Heq. subst w'.
      unfold I, forceKillInstance.
      destruct (heap (reg w) !! r) as [i|] eqn:Hr; [|done].
      destruct (killed_at w (process i)) eqn:Hk; [done|]. simpl.
      apply killed_at_false in Hk as (ch & Hch & Hk).
      assert (running ch = false) as Hrun.
      { destruct (running ch) eqn:Hrun; [|done].
        rewrite (Hq _ _ (processes_elem _ _ _ _ Hin Hr) Hch Hrun) in Hk. done. }
      split.
      + unfold kill. rewrite alter_fixed; [apply with_children_id|].
        intros ch' Hch'. rewrite Hch in Hch'. injection Hch' as <-.
        by rewrite Hrun.
      + intros p' sig' [Hin'|Hin']%elem_of_app; [by apply (HI p' sig')|].
        apply elem_of_cons in Hin' as [[=]|Hin'].
        apply list_elem_of_singleton in Hin'. injection Hin' as -> ->. eauto. }
  destruct (foldl forceKillInstance _ _) as [es w']. destruct HI as [_ HI].
  simpl. intros [Hin|Hin]%elem_of_app; [by apply (HI p sig)|].
  apply elem_of_cons in Hin as [[=]|Hin]. by apply list_elem_of_singleton in Hin.
Qed.

Lemma force_kill_targets_exited_witness :
  ∃ ch, children (stopped sample) !! 1%nat = Some ch ∧ running ch = false.
Proof.
  apply (force_kill_targets_exited (stopped sample) 1 SIGKILL);
    [apply quiet_stopped | by apply (list_elem_of_lookup_2 _ 1%nat)].
Defined.

(** Where a registered process runs and is not marked [killed], the
    second loop does deliver [SIGKILL] to it. *)
Theorem shutdownAfterGrace_delivers_sigkill w p ch :
  p ∈ processes w → children w !! p = Some ch →
  running ch = true → killed ch = false →
  children (shutdownAfterGrace w).2 !! p
  = Some (mkChild true true (SIGKILL :: signals ch) (listeners ch)).
Proof.
  intros Hp Hch Hrun Hk.
  rewrite shutdownAfterGrace_world. simpl.
  rewrite deliver_all_lookup, decide_True, Hch by done.
  simpl. unfold deliver. by rewrite Hrun, Hk.
Qed.

Lemma shutdownAfterGrace_delivers_sigkill_witness :
  children (shutdownAfterGrace sample).2 !! 0%nat
  = Some (mkChild true true [SIGKILL]
            (Some (mkClosure 0 "router-0" (Some "k0") (Int 3100)))).
Proof.
  apply (shutdownAfterGrace_delivers_sigkill sample 0
           (mkChild true false [] (Some (mkClosure 0 "router-0" (Some "k0") (Int 3100)))));
    by_compute.
Defined.

(** The handler ends the program with exit code 0, after the
    message [Shutdown complete]. *)
Theorem shutdownAfterGrace_exits w :
  exited (shutdownAfterGrace w).2 = Some 0
  ∧ ∃ es, (shutdownAfterGrace w).1
          = es ++ [Console Log "Shutdown complete"; Exit 0].
Proof.
  rewrite shutdownAfterGrace_world. split; [done|]. unfold shutdownAfterGrace.
  destruct (foldl forceKillInstance _ _) as [es w']. by exists es.
Qed.

End properties.

End Shutdown.
