(* ===== verification/System.v ===== *)
(** * The program on the event loop

    [start], the rest of the startup sequence, and the event loop as a
    step function: an event of the outside world (a process exit, an
    answer to an awaited probe or timer, a request, a signal) runs the
    handler the program registered for it, from the state the previous
    handler left; [run] takes a list of events in order. *)

From S2P Require Import Prelude Node Config Registry Balancer World.
From S2P Require Import Health Supervisor Shutdown.

Module System.
Import Registry World.

(** What the outside world answers when a continuation resumes. *)
Inductive Answer : Type :=
  | AProbe (o : Health.Outcome) (now : Z)
  | ATimer (found : bool) (clock : nat → Z)
  | AProxyResponse (proxyRes : Res.t)
  | AProxyError (message : string).

(** The events of the outside world. *)
Inductive Event : Type :=
  | EStart (found : bool) (clock : nat → Z)
  | EClose (child : pid) (code : option Z)
  | EError (child : pid) (message : string)
  | EStdout (child : pid) (data : string)
  | EStderr (child : pid) (data : string)
  | EResume (n : nat) (a : Answer)
  | ETick
  | ERequest (req : Req.t) (clock : nat → Z)
  | EListening
  | ESignal (name : string)
  | EReject (error : string).

Section system.
Context (cfg : Config.t).

(** [String(PORT)]. *)
Definition portString : string :=
  match Config.PORT cfg with
  | Config.PortEnv s => s
  | Config.PortNumber n => pretty n
  end.

(** [setupSignalHandlers()]. *)
Definition setupSignalHandlers (w : World.t) : list effect * World.t :=
  ([OnSignal "SIGTERM"; OnSignal "SIGINT"], with_handling true w).

(** [startLoadBalancer()]: the server is created and told to listen. *)
Definition startLoadBalancer (w : World.t) : list effect * World.t :=
  ([Listen portString (Config.HOST cfg)], with_listening true w).

(** The callback of [server.listen]. *)
Definition onListening : list effect :=
  let instanceCount :=
    if bool_decide (0 < length (Config.KEYS cfg))%nat
    then length (Config.KEYS cfg) else 1%nat in
  [Console Log ("High-Availability Router running on " +:+ Config.HOST cfg +:+
                ":" +:+ portString);
   Console Log ("Health check endpoint: http://" +:+ Config.HOST cfg +:+
                ":" +:+ portString +:+ "/health");
   Console Log ("Load balancing across " +:+ pretty instanceCount +:+
                " instances")].

(** The end of [start] (lines 77-84). *)
Definition startServices (w : World.t) : list effect * World.t :=
  let '(es1, w) := Health.startHealthCheck 0 w in
  let '(es2, w) := setupSignalHandlers w in
  let '(es3, w) := startLoadBalancer w in
  (es1 ++ es2 ++ es3, w).

(** What [start] does when [startInstance] returns: inside the loop it
    sleeps two seconds; after the single instance it goes on to the
    services.  The restart timer does nothing with the result. *)
Definition resume (k : Cont) (result : bool) (w : World.t)
    : list effect * World.t :=
  match k with
  | KReturn => ([], w)
  | KStartKeys i => ([SetTimeout 2000], add_task (TStartSleep i) w)
  | KStartSingle => startServices w
  end.

(** [parseInt(PORT) + 100 + i]. *)
Definition instancePort (i : nat) : num :=
  num_add (num_add (Config.portNumber cfg) (Int 100)) (Int (Z.of_nat i)).

(** The loop over [KEYS] at index [i]. *)
Definition startKey (found : bool) (clock : nat → Z) (i : nat) (w : World.t)
    : list effect * World.t :=
  match Config.KEYS cfg !! i with
  | Some key =>
      Supervisor.startInstance cfg resume found clock
        ("router-" +:+ pretty i) (Some key) (instancePort i) (KStartKeys i) w
  | None => startServices w
  end.

(** The messages [start] logs before it starts instances. *)
Definition startLog : list effect :=
  [Console Log "Starting Router High-Availability Manager"]
  ++ (if bool_decide (0 < length (Config.PROVIDERS cfg))%nat then
        [Console Log ("On-chain Providers: " +:+
           join ", " ((λ p, Config.address p +:+ "(priority:" +:+
                            num_to_string (Config.priority p) +:+ ")")
                      <$> Config.PROVIDERS cfg));
         Console Log ("Keys: " +:+ pretty (length (Config.KEYS cfg)) +:+
                      " keys configured")]
      else [])
  ++ (if bool_decide (0 < length (Config.DIRECT_ENDPOINTS cfg))%nat then
        [Console Log ("Direct Endpoints: " +:+
                      pretty (length (Config.DIRECT_ENDPOINTS cfg)) +:+
                      " configured")]
      else [])
  ++ [Console Log ("Port: " +:+ portString +:+ ", Host: " +:+ Config.HOST cfg)].

(** [start()] up to its first suspension. *)
Definition start (found : bool) (clock : nat → Z) (w : World.t)
    : list effect * World.t :=
  if bool_decide (length (Config.PROVIDERS cfg) = 0%nat)
     && bool_decide (length (Config.DIRECT_ENDPOINTS cfg) = 0%nat) then
    ([Console Error "ERROR: No providers or direct endpoints specified.";
      Console Error "Set PROVIDERS or DIRECT_ENDPOINTS environment variables.";
      Exit 1], with_exited 1 w)
  else if bool_decide (0 < length (Config.PROVIDERS cfg))%nat
          && bool_decide (length (Config.KEYS cfg) = 0%nat) then
    ([Console Error
        "ERROR: No keys specified for on-chain providers. Set KEYS environment variable.";
      Exit 1], with_exited 1 w)
  else
    let '(es, w) :=
      if bool_decide (0 < length (Config.KEYS cfg))%nat then
        startKey found clock 0 w
      else
        Supervisor.startInstance cfg resume found clock "router-0" None
          (num_add (Config.portNumber cfg) (Int 100)) KStartSingle w in
    (startLog ++ es, w).

(** The handler of a rejected [start()] (lines 382-385); [error] is
    what [console.error] prints of the error object. *)
Definition onStartRejected (error : string) (w : World.t) : list effect * World.t :=
  ([Console Error ("Failed to start router manager: " +:+ error); Exit 1],
   with_exited 1 w).

(** A continuation resumes with the answer it awaited. *)
Definition runTask (t : Task) (a : Answer) (w : World.t)
    : option (list effect * World.t) :=
  match t, a with
  | TRestart c, ATimer found clock =>
      Some (Supervisor.onRestartTimer cfg resume found clock c w)
  | TReadyProbe instanceId port startTime maxWait k, AProbe o _ =>
      Some (Health.onReadyProbe resume o instanceId port startTime maxWait k w)
  | TReadySleep instanceId port startTime maxWait k, AProbe _ now =>
      Some (Health.onReadySleep resume now instanceId port startTime maxWait k w)
  | TStartSleep i, ATimer found clock => Some (startKey found clock (S i) w)
  | THealthProbe pos instanceId instance wasHealthy, AProbe o now =>
      Some (Health.onHealthProbe o now pos instanceId instance wasHealthy w)
  | TProxy instance, AProxyResponse proxyRes =>
      Some (Balancer.proxyResponse instance proxyRes (reg w), w)
  | TProxy instance, AProxyError message =>
      let '(es, st) := Balancer.proxyError instance message (reg w) in
      Some (es, with_reg st w)
  | TGrace, _ => Some (Shutdown.shutdownAfterGrace w)
  | _, _ => None
  end.

(** The proxied requests a handler has started. *)
Definition proxied (es : list effect) : list Task :=
  omap (λ e, match e with HttpRequest r _ => Some (TProxy r) | _ => None end) es.

(** One event.  [None]: the event cannot happen in this world (the
    process has exited, the child does not run, no such continuation is
    pending, nothing listens).  [EReject] is the rejection of the
    promise of [start()]: a call of the runtime inside [start] has
    thrown ([spawn], [listen]).  When the runtime throws is not
    modelled: the event may arrive whenever [start] has been called and
    has not reached its last statement, after which the server
    listens. *)
Definition step (e : Event) (w : World.t) : option (list effect * World.t) :=
  if decide (is_Some (exited w)) then None else
  match e with
  | EStart found clock =>
      if started w then None
      else Some (start found clock (with_started true w))
  | EClose child code =>
      ch ← children w !! child;
      c ← listeners ch;
      if running ch then Some (Supervisor.onClose c code (exit_child child w))
      else None
  | EError child message =>
      ch ← children w !! child;
      c ← listeners ch;
      Some (Supervisor.onError c message w)
  | EStdout child data =>
      ch ← children w !! child;
      c ← listeners ch;
      Some (Supervisor.onStdout c data, w)
  | EStderr child data =>
      ch ← children w !! child;
      c ← listeners ch;
      Some (Supervisor.onStderr c data, w)
  | EResume n a =>
      t ← tasks w !! n;
      runTask t a (with_tasks (delete n (tasks w)) w)
  | ETick => if ticking w then Some (Health.onHealthTick w) else None
  | ERequest req clock =>
      if listening w then
        let '(es, st) := Balancer.handleRequest clock req (reg w) in
        Some (es, with_tasks (tasks w ++ proxied es) (with_reg st w))
      else None
  | EListening => if listening w then Some (onListening, w) else None
  | ESignal name =>
      if handling w then Some (Shutdown.shutdown name w) else None
  | EReject error =>
      if started w && negb (listening w) then Some (onStartRejected error w)
      else None
  end.

(** The keys of the map, in its order. *)
Definition keys (w : World.t) : list string :=
  jm_keys (instances (mgr (reg w))).

(** The ids [start] gives to the first [n] instances (line 65). *)
Definition names (n : nat) : list string :=
  (λ j : nat, "router-" +:+ pretty j) <$> seq 0 n.

(** The events of [n] crashes in a row: the worker exits and its
    restart timer fires, [n] times.  [p] is the process that exits
    first, [q] the process that the next restart creates and [t] the
    position at which its timer will be pending. *)
Fixpoint crashes (found : bool) (clock : nat → Z) (code : option Z) (n : nat)
    (p q t : nat) : list Event :=
  match n with
  | O => []
  | S n =>
      EClose p code :: EResume t (ATimer found clock)
      :: crashes found clock code n q (S q) (S t)
  end.

(** A run: the events in order, the effects concatenated. *)
Fixpoint run (evs : list Event) (w : World.t) : option (list effect * World.t) :=
  match evs with
  | [] => Some ([], w)
  | e :: evs' =>
      '(es, w') ← step e w;
      '(es', w'') ← run evs' w';
      Some (es ++ es', w'')
  end.

End system.

(** * Lemmas *)

Section lemmas.
Context (cfg : Config.t).
Implicit Types (w : World.t).

Lemma startServices_world w :
  (startServices cfg w).2
  = with_listening true (with_handling true (with_ticking true
      (on_reg (with_healthCheckInterval (Some 0%nat)) w))).
Proof. done. Qed.

Lemma startServices_effects w :
  (startServices cfg w).1
  = [SetInterval Config.HEALTH_CHECK_INTERVAL; OnSignal "SIGTERM";
     OnSignal "SIGINT"; Listen (portString cfg) (Config.HOST cfg)].
Proof. done. Qed.

(** The three ways [start] goes on: it exits on a configuration
    error, enters the loop over the keys, or starts the single
    instance. *)
Lemma start_cases found clock w :
  (start cfg found clock w).2 = with_exited 1 w
  ∨ (start cfg found clock w).2 = (startKey cfg found clock 0 w).2
  ∨ (start cfg found clock w).2
    = (Supervisor.startInstance cfg (resume cfg) found clock "router-0" None
         (num_add (Config.portNumber cfg) (Int 100)) KStartSingle w).2.
Proof.
  unfold start. destruct (_ && _); [by left|]. destruct (_ && _); [by left|].
  destruct (bool_decide _); [right; left | right; right];
    by match goal with |- context [let '(_, _) := ?x in _] => destruct x end.
Qed.

Lemma names_S n : names (S n) = names n ++ ["router-" +:+ pretty n].
Proof. unfold names. by rewrite seq_S, fmap_app. Qed.

(** The next id is not among the ids given so far. *)
Lemma names_fresh n : "router-" +:+ pretty n ∉ names n.
Proof.
  intros (j & Hj & Hin)%list_elem_of_fmap. apply elem_of_seq in Hin.
  simpl in Hj. simplify_eq. lia.
Qed.

(** The single instance has the port of the first of several. *)
Lemma instancePort_0 :
  instancePort cfg 0 = num_add (Config.portNumber cfg) (Int 100).
Proof.
  unfold instancePort. destruct (Config.portNumber cfg); simpl; [done|].
  f_equal. lia.
Qed.

(** A readiness wait that times out does not stop the startup:
    the failure is logged, the instance stays registered and unhealthy
    as it was launched, and the loop over the keys goes on to its sleep
    and the next key. *)
Theorem readiness_timeout_proceeds now instanceId port startTime maxWait i w :
  maxWait ≤ now - startTime →
  Health.onReadySleep (resume cfg) now instanceId port startTime maxWait
    (KStartKeys i) w
  = ([Console Error ("[" +:+ instanceId +:+
                     "] Timeout waiting for instance to become ready");
      SetTimeout 2000],
     add_task (TStartSleep i) w).
Proof. intros H. by rewrite Health.onReadySleep_expired. Qed.

(** The tasks a request adds are proxied requests. *)
Lemma proxied_spec es : Forall (λ t, ∃ r, t = TProxy r) (proxied es).
Proof.
  apply Forall_forall. intros t (e & _ & He)%list_elem_of_omap.
  destruct e; simplify_eq. eauto.
Qed.

(** The task handed over last is resumed. *)
Lemma step_last (t : Task) a w :
  exited w = None →
  step cfg (EResume (length (tasks w)) a) (add_task t w) = runTask cfg t a w.
Proof.
  intros He. unfold step.
  rewrite decide_False by (simpl; rewrite He; by intros [? ?]).
  rewrite tasks_add_task, list_lookup_middle by done. cbn [mbind option_bind].
  f_equal. rewrite (delete_middle _ []), app_nil_r. by destruct w.
Qed.

(** A run whose first step is known. *)
Lemma run_step e evs w es w' :
  step cfg e w = Some (es, w') →
  run cfg (e :: evs) w = '(es', w'') ← run cfg evs w'; Some (es ++ es', w'').
Proof. by intros H; simpl; rewrite H. Qed.

Lemma run_app evs1 evs2 w es1 w1 :
  run cfg evs1 w = Some (es1, w1) →
  run cfg (evs1 ++ evs2) w
  = '(es2, w2) ← run cfg evs2 w1; Some (es1 ++ es2, w2).
Proof.
  revert w es1. induction evs1 as [|e evs1 IH]; intros w es1 Hrun; simplify_eq/=.
  { by destruct (run cfg evs2 w1) as [[??]|]. }
  destruct (step cfg e w) as [[es w']|]; simplify_eq/=.
  destruct (run cfg evs1 w') as [[es' w'']|] eqn:E; simplify_eq/=.
  rewrite (IH _ _ E). destruct (run cfg evs2 w1) as [[??]|]; simpl; [|done].
  by rewrite app_assoc.
Qed.

(** One crash and its restart, as a run of two events. *)
Lemma crash_round found clock p ch c code w :
  exited w = None → isShuttingDown (mgr (reg w)) = false →
  children w !! p = Some ch → running ch = true → listeners ch = Some c →
  code ≠ Some 0 → clock 2%nat - clock 1%nat < 60000 →
  ∃ es,
    run cfg [EClose p code; EResume (length (tasks w)) (ATimer found clock)] w
    = Some (es,
            add_task (TReadyProbe (c_instanceId c) (c_port c) (clock 1%nat)
                        60000 KReturn)
              (Supervisor.launched (c_instanceId c) (c_key c) (c_port c)
                 (clock 0%nat)
                 (on_reg (update incr_restartCount (c_instance c))
                    (on_reg (update (with_healthy false) (c_instance c))
                       (exit_child p w)))))
    ∧ SetTimeout Config.RESTART_DELAY ∈ es
    ∧ spawns es = [("0g-compute-cli", Supervisor.buildArgs cfg (c_key c) (c_port c))].
Proof.
  intros He Hs Hp Hrun Hc Hcode Hclock.
  set (w1 := on_reg (update (with_healthy false) (c_instance c)) (exit_child p w)).
  assert (step cfg (EClose p code) w
          = Some ((Supervisor.onClose c code (exit_child p w)).1,
                  add_task (TRestart c) w1)) as H1.
  { unfold step. rewrite decide_False by (rewrite He; by intros [? ?]).
    rewrite Hp. simpl. rewrite Hc. simpl. rewrite Hrun.
    by rewrite Supervisor.onClose_crash. }
  pose proof (step_last (TRestart c) (ATimer found clock) w1 He) as H2.
  cbn [runTask] in H2.
  destruct (Supervisor.onRestartTimer cfg (resume cfg) found clock c w1)
    as [es2 w2] eqn:E.
  pose proof (Supervisor.onRestartTimer_world cfg (resume cfg) found clock c w1
                Hs Hclock) as Hw.
  rewrite E in Hw. simpl in Hw. subst w2.
  rewrite (run_step _ _ _ _ _ H1), (run_step _ _ _ _ _ H2). simpl.
  eexists. split; [done|]. rewrite app_nil_r, Supervisor.onClose_crash by done.
  split; [apply elem_of_app; left; by apply (list_elem_of_lookup_2 _ 2%nat)|].
  rewrite spawns_app. simpl.
  apply (f_equal (spawns ∘ fst)) in E. simpl in E. rewrite <- E.
  unfold Supervisor.onRestartTimer.
  assert (isShuttingDown (mgr (reg w1)) = false) as -> by done.
  by destruct (Supervisor.startInstance_suspends cfg (resume cfg) found clock
                 (c_instanceId c) (c_key c) (c_port c) KReturn
                 (on_reg (update incr_restartCount (c_instance c)) w1) Hclock).
Qed.


(** C14. A crashed worker is relaunched.  When a running worker exits
    with a code other than 0 while the manager is not shutting down,
    and the restart timer then fires, the manager arms the timer with
    [RESTART_DELAY], marks the instance unhealthy, counts the restart
    on the old instance object, and spawns a new worker with the id,
    the key and the port of the old one, registered in its place and
    awaiting its first readiness probe. *)
Theorem crash_restarts found clock p ch c code w :
  exited w = None → isShuttingDown (mgr (reg w)) = false →
  children w !! p = Some ch → running ch = true → listeners ch = Some c →
  code ≠ Some 0 → clock 2%nat - clock 1%nat < 60000 →
  ∃ es,
    run cfg [EClose p code; EResume (length (tasks w)) (ATimer found clock)] w
    = Some (es,
            add_task (TReadyProbe (c_instanceId c) (c_port c) (clock 1%nat)
                        60000 KReturn)
              (Supervisor.launched (c_instanceId c) (c_key c) (c_port c)
                 (clock 0%nat)
                 (on_reg (update incr_restartCount (c_instance c))
                    (on_reg (update (with_healthy false) (c_instance c))
                       (exit_child p w)))))
    ∧ SetTimeout Config.RESTART_DELAY ∈ es
    ∧ spawns es = [("0g-compute-cli", Supervisor.buildArgs cfg (c_key c) (c_port c))].
Proof. apply crash_round. Qed.

(** C34. Restarts have no limit and no back-off.  A worker that exits
    with a code other than 0 again and again is relaunched every time,
    with the same key and port: [n] crashes in a row give [n] launches,
    whatever [n] is. *)
Theorem restart_unbounded found clock code n : ∀ w p ch c,
  exited w = None → isShuttingDown (mgr (reg w)) = false →
  children w !! p = Some ch → running ch = true → listeners ch = Some c →
  code ≠ Some 0 → clock 2%nat - clock 1%nat < 60000 →
  ∃ es w',
    run cfg (crashes found clock code n p (length (children w)) (length (tasks w))) w
    = Some (es, w')
    ∧ spawns es
      = replicate n ("0g-compute-cli", Supervisor.buildArgs cfg (c_key c) (c_port c))
    ∧ length (children w') = (length (children w) + n)%nat
    ∧ isShuttingDown (mgr (reg w')) = false.
Proof.
  induction n as [|n IH]; intros w p ch c He Hs Hp Hrun Hc Hcode Hclock.
  { exists [], w. by rewrite Nat.add_0_r. }
  destruct (crash_round found clock p ch c code w) as (es1 & Hrun1 & _ & Hsp);
    try done.
  set (w0 := on_reg (update incr_restartCount (c_instance c))
               (on_reg (update (with_healthy false) (c_instance c))
                  (exit_child p w))) in *.
  set (w1 := add_task _ _) in Hrun1.
  assert (length (children w0) = length (children w)) as Hlen
    by (unfold w0; simpl; by rewrite length_alter).
  destruct (IH w1 (length (children w))
              (mkChild true false []
                 (Some (mkClosure (length (heap (reg w0))) (c_instanceId c)
                          (c_key c) (c_port c))))
              (mkClosure (length (heap (reg w0))) (c_instanceId c) (c_key c) (c_port c)))
    as (es2 & w2 & Hrun2 & Hsp2 & Hch2 & Hs2); try done.
  { unfold w1. rewrite children_add_task, Supervisor.launched_children, <-Hlen.
    apply lookup_snoc_new. }
  assert (length (children w1) = S (length (children w))) as Hc1.
  { unfold w1. rewrite children_add_task, Supervisor.launched_children, length_app.
    rewrite Hlen. change (length [_]) with 1%nat. lia. }
  assert (length (tasks w1) = S (length (tasks w))) as Ht1.
  { unfold w1. rewrite tasks_add_task, Supervisor.launched_tasks, length_app.
    change (length (tasks w0)) with (length (tasks w)).
    change (length [_]) with 1%nat. lia. }
  rewrite Hc1, Ht1 in Hrun2. exists (es1 ++ es2), w2.
  change (crashes found clock code (S n) p (length (children w)) (length (tasks w)))
    with ([EClose p code; EResume (length (tasks w)) (ATimer found clock)]
          ++ crashes found clock code n (length (children w))
               (S (length (children w))) (S (length (tasks w)))).
  rewrite (run_app _ _ _ _ _ Hrun1), Hrun2. simpl.
  rewrite spawns_app, Hsp, Hsp2. split_and!; [done..|lia|done].
Qed.

(** The port of an instance fits in 16 bits exactly when [PORT + 100 +
    i] does: [start] adds without a check, so a [PORT] near the top of
    the range gives the later instances ports that no worker can
    listen on. *)
Theorem instance_ports_fit p (i : nat) :
  Config.portNumber cfg = Int p →
  instancePort cfg i = Int (p + 100 + Z.of_nat i)
  ∧ (is_port (instancePort cfg i) ↔ 0 ≤ p + 100 + Z.of_nat i < 65536).
Proof.
  intros Hp. unfold instancePort. rewrite Hp. simpl. split; [done|].
  by rewrite bool_decide_spec.
Qed.

(** C28. A start that fails exits and leaves the workers behind.  When
    the promise of [start()] rejects, the handler logs the error and
    exits with the code 1; it sends no signal, so the workers that
    [start] has launched before keep running without a manager. *)
Theorem start_rejected_exits error w :
  exited w = None → started w = true → listening w = false →
  ∃ es w',
    step cfg (EReject error) w = Some (es, w')
    ∧ last es = Some (Exit 1) ∧ exited w' = Some 1
    ∧ kills es = [] ∧ children w' = children w.
Proof.
  intros He Hs Hl. unfold step. rewrite decide_False by (rewrite He; by intros [? ?]).
  rewrite Hs, Hl. simpl. by eexists _, _.
Qed.

End lemmas.

Lemma readiness_timeout_proceeds_witness :
  Health.onReadySleep (resume Supervisor.sample_cfg) 71000 "router-0" (Int 3100)
    10000 60000 (KStartKeys 0) Supervisor.sample
  = ([Console Error "[router-0] Timeout waiting for instance to become ready";
      SetTimeout 2000],
     add_task (TStartSleep 0) Supervisor.sample).
Proof.
  apply (readiness_timeout_proceeds Supervisor.sample_cfg 71000 "router-0"
           (Int 3100) 10000 60000 0 Supervisor.sample).
  by_compute.
Defined.

Lemma crash_restarts_witness :
  ∃ es,
    run Supervisor.sample_cfg
      [EClose 0 (Some 1); EResume 0 (ATimer true Supervisor.sample_clock)]
      (with_children [mkChild true false [] (Some Supervisor.sample_closure)]
         Supervisor.sample)
    = Some (es,
            add_task (TReadyProbe "router-0" (Int 3100) 11000 60000 KReturn)
              (Supervisor.launched "router-0" (Some "k0") (Int 3100) 10000
                 (on_reg (update incr_restartCount 0)
                    (on_reg (update (with_healthy false) 0)
                       (exit_child 0
                          (with_children
                             [mkChild true false [] (Some Supervisor.sample_closure)]
                             Supervisor.sample))))))
    ∧ SetTimeout Config.RESTART_DELAY ∈ es
    ∧ spawns es
      = [("0g-compute-cli",
          Supervisor.buildArgs Supervisor.sample_cfg (Some "k0") (Int 3100))].
Proof.
  apply (crash_restarts Supervisor.sample_cfg true Supervisor.sample_clock 0
           (mkChild true false [] (Some Supervisor.sample_closure))
           Supervisor.sample_closure (Some 1)
           (with_children [mkChild true false [] (Some Supervisor.sample_closure)]
              Supervisor.sample)); done.
Defined.

Lemma instance_ports_fit_witness :
  instancePort (Config.load (Config.env_of [("PORT", "65500")])) 0 = Int 65600
  ∧ (is_port (instancePort (Config.load (Config.env_of [("PORT", "65500")])) 0)
     ↔ 0 ≤ 65500 + 100 + Z.of_nat 0 < 65536).
Proof.
  by apply (instance_ports_fit (Config.load (Config.env_of [("PORT", "65500")]))
              65500 0).
Defined.

Lemma restart_unbounded_witness :
  ∃ es w',
    run Supervisor.sample_cfg
      (crashes true Supervisor.sample_clock (Some 1) 3 0 1 0)
      (with_children [mkChild true false [] (Some Supervisor.sample_closure)]
         Supervisor.sample)
    = Some (es, w')
    ∧ spawns es
      = replicate 3 ("0g-compute-cli",
                     Supervisor.buildArgs Supervisor.sample_cfg (Some "k0") (Int 3100))
    ∧ length (children w') = 4%nat
    ∧ isShuttingDown (mgr (reg w')) = false.
Proof.
  apply (restart_unbounded Supervisor.sample_cfg true Supervisor.sample_clock
           (Some 1) 3
           (with_children [mkChild true false [] (Some Supervisor.sample_closure)]
              Supervisor.sample)
           0 (mkChild true false [] (Some Supervisor.sample_closure))
           Supervisor.sample_closure); done.
Defined.

Lemma start_rejected_exits_witness :
  ∃ es w',
    step Supervisor.sample_cfg (EReject "Error: spawn EAGAIN")
      (Supervisor.launched "router-0" (Some "k0") (Int 3100) 10000
         (with_started true World.init)) = Some (es, w')
    ∧ last es = Some (Exit 1) ∧ exited w' = Some 1
    ∧ kills es = []
    ∧ children w'
      = [mkChild true false [] (Some (mkClosure 0 "router-0" (Some "k0") (Int 3100)))].
Proof.
  by apply (start_rejected_exits Supervisor.sample_cfg "Error: spawn EAGAIN"
              (Supervisor.launched "router-0" (Some "k0") (Int 3100) 10000
                 (with_started true World.init))).
Defined.

End System.
