(* ===== verification/Startup.v ===== *)
(** * The startup sequence runs to its end

    An undisturbed startup: the configuration passes the checks of
    [start], every worker answers its first readiness probe with status
    200, and nothing else happens meanwhile.  The events of such a
    startup are a run of the program; it spawns one worker per key (or
    the single worker of the direct-endpoint mode) and ends in the
    world [up], in which every instance is registered under its id and
    healthy, the health check is armed, the signal handlers are
    installed and the server listens. *)

From S2P Require Import Prelude Node Config Registry Balancer World.
From S2P Require Import Health Supervisor Shutdown System.

Module Startup.
Import Registry World System.

(** The configuration passes the two checks of [start] (lines 35-47):
    there is a provider or an endpoint, and a key if there are
    providers. *)
Definition valid (cfg : Config.t) : Prop :=
  ((0 < length (Config.PROVIDERS cfg))%nat
   ∨ (0 < length (Config.DIRECT_ENDPOINTS cfg))%nat)
  ∧ ((0 < length (Config.PROVIDERS cfg))%nat → (0 < length (Config.KEYS cfg))%nat).

#[export] Instance valid_dec cfg : Decision (valid cfg).
Proof. unfold valid. apply _. Defined.

(** The events that drive one readiness wait which is the only pending
    continuation: for each round the answer [o] of the probe and, if
    the probe failed, the end of the sleep with the clock reading [now]
    of the loop test that follows. *)
Fixpoint readyEvents (startTime maxWait : Z)
    (answers : list (Health.Outcome * Z)) : list Event :=
  match answers with
  | [] => []
  | (o, now) :: rest =>
      EResume 0 (AProbe o now)
      :: (if Health.checkInstanceHealth o then []
          else EResume 0 (AProbe o now)
               :: (if decide (now - startTime < maxWait)
                   then readyEvents startTime maxWait rest else []))
  end.

Section startup.
Context (cfg : Config.t) (found : bool) (clock : nat → Z).

(** The world after one instance was launched in [w] and found ready
    at its first probe. *)
Definition ready (instanceId : string) (key : option string) (port : num)
    (w : World.t) : World.t :=
  on_reg (update (with_healthy true) (length (heap (reg w))))
    (Supervisor.launched instanceId key port (clock 0%nat) w).

(** The same for the keys [ks], which are those from index [i] on. *)
Fixpoint readyFrom (i : nat) (ks : list string) (w : World.t) : World.t :=
  match ks with
  | [] => w
  | key :: ks' =>
      readyFrom (S i) ks'
        (ready ("router-" +:+ pretty i) (Some key) (instancePort cfg i) w)
  end.

(** The command line of a worker. *)
Definition worker (key : option string) (port : num) : string * list string :=
  ("0g-compute-cli", Supervisor.buildArgs cfg key port).

Fixpoint workersFrom (i : nat) (ks : list string) : list (string * list string) :=
  match ks with
  | [] => []
  | key :: ks' => worker (Some key) (instancePort cfg i) :: workersFrom (S i) ks'
  end.

(** The workers an undisturbed startup spawns, in order. *)
Definition workers : list (string * list string) :=
  if bool_decide (0 < length (Config.KEYS cfg))%nat
  then workersFrom 0 (Config.KEYS cfg)
  else [worker None (num_add (Config.portNumber cfg) (Int 100))].

(** The first probe of a worker answers with status 200. *)
Definition probed : Event :=
  EResume 0 (AProbe (Health.Response 200) (clock 2%nat)).

(** One round of the loop over the keys after the launch: the probe
    answers, the sleep of two seconds ends. *)
Definition round : list Event := [probed; EResume 0 (ATimer found clock)].

(** The events of an undisturbed startup. *)
Definition startup : list Event :=
  EStart found clock
  :: (if bool_decide (0 < length (Config.KEYS cfg))%nat
      then mjoin (replicate (length (Config.KEYS cfg)) round)
      else [probed]).

(** The world in which the startup ends. *)
Definition up : World.t :=
  (startServices cfg
     (if bool_decide (0 < length (Config.KEYS cfg))%nat
      then readyFrom 0 (Config.KEYS cfg) (with_started true World.init)
      else ready "router-0" None (num_add (Config.portNumber cfg) (Int 100))
             (with_started true World.init))).2.

(** The events of a startup in which the readiness wait of the
    instance at index [i] is driven by the answers [rounds !! i]. *)
Definition startupOf (rounds : list (list (Health.Outcome * Z))) : list Event :=
  EStart found clock
  :: (if bool_decide (0 < length (Config.KEYS cfg))%nat
      then rounds ≫= (λ answers, readyEvents (clock 1%nat) 60000 answers
                                 ++ [EResume 0 (ATimer found clock)])
      else readyEvents (clock 1%nat) 60000 (default [] (head rounds))).

(** How many instances the manager runs (line 333). *)
Definition instanceCount : nat :=
  if bool_decide (0 < length (Config.KEYS cfg))%nat
  then length (Config.KEYS cfg) else 1%nat.

(** What holds between two launches of the startup sequence, [n]
    instances being launched, whatever their health. *)
Record Up (n : nat) (w : World.t) : Prop := mkUp {
  up_keys : keys w = names n;
  up_children : length (children w) = n;
  up_running : Forall (λ ch, running ch = true) (children w);
  up_tasks : tasks w = [];
  up_exited : exited w = None;
}.


End startup.

(** * The run *)

Section run.
Context (cfg : Config.t) (found : bool) (clock : nat → Z).
Context (Hclock : clock 2%nat - clock 1%nat < 60000).
Implicit Types (w : World.t) (k : Cont) (ks : list string).

(** The only pending task is resumed. *)
Lemma step_resume (t : Task) a w :
  tasks w = [] → exited w = None →
  step cfg (EResume 0 a) (add_task t w) = runTask cfg t a w.
Proof. intros Ht He. rewrite <- (step_last cfg t a w He). by rewrite Ht. Qed.

(** The first probe of a launched worker answers: the instance is
    marked healthy and the caller resumes. *)
Lemma step_probed instanceId key port k w :
  tasks w = [] → exited w = None →
  step cfg (probed clock)
    (add_task (TReadyProbe instanceId port (clock 1%nat) 60000 k)
       (Supervisor.launched instanceId key port (clock 0%nat) w))
  = Some (Console Log ("[" +:+ instanceId +:+ "] Instance ready and healthy")
            :: (resume cfg k true (ready clock instanceId key port w)).1,
          (resume cfg k true (ready clock instanceId key port w)).2).
Proof.
  intros Ht He. unfold probed. rewrite step_resume by done. cbn [runTask].
  rewrite (Health.onReadyProbe_ready _ _ _ _ _ _ _ _ (length (heap (reg w))));
    [done | done |].
  rewrite Supervisor.launched_reg, register_instances. apply jm_get_set_eq.
Qed.

(** The sleep after an instance is over: the loop goes on. *)
Lemma step_slept i w :
  tasks w = [] → exited w = None →
  step cfg (EResume 0 (ATimer found clock)) (add_task (TStartSleep i) w)
  = Some ((startKey cfg found clock (S i) w).1,
          (startKey cfg found clock (S i) w).2).
Proof.
  intros Ht He. rewrite step_resume by done. cbn [runTask].
  by destruct (startKey cfg found clock (S i) w).
Qed.

(** ** Between two launches *)




(** ** The loop over the keys *)

Lemma startKey_runs ks : ∀ i w,
  drop i (Config.KEYS cfg) = ks → tasks w = [] → exited w = None →
  ∃ es,
    run cfg (mjoin (replicate (length ks) (round found clock)))
      (startKey cfg found clock i w).2
    = Some (es, (startServices cfg (readyFrom cfg clock i ks w)).2)
    ∧ spawns ((startKey cfg found clock i w).1 ++ es) = workersFrom cfg i ks.
Proof.
  induction ks as [|key ks IH]; intros i w Hd Ht He.
  - assert (Config.KEYS cfg !! i = None) as Hi
      by (by rewrite <- (Nat.add_0_r i), <- lookup_drop, Hd).
    unfold startKey. rewrite Hi. exists []. by rewrite app_nil_r.
  - assert (Config.KEYS cfg !! i = Some key) as Hi
      by (by rewrite <- (Nat.add_0_r i), <- lookup_drop, Hd).
    rewrite (drop_S _ key) in Hd by done. injection Hd as Hd.
    set (R := ready clock ("router-" +:+ pretty i) (Some key) (instancePort cfg i) w).
    destruct (IH (S i) R Hd Ht He) as (es & Hrun & Hsp).
    unfold startKey at 1 2. rewrite Hi.
    destruct (Supervisor.startInstance_suspends cfg (resume cfg) found clock
                ("router-" +:+ pretty i) (Some key) (instancePort cfg i)
                (KStartKeys i) w Hclock) as [Hw Hs].
    rewrite Hw.
    change (mjoin (replicate (length (key :: ks)) (round found clock)))
      with (probed clock :: EResume 0 (ATimer found clock)
              :: mjoin (replicate (length ks) (round found clock))).
    rewrite (run_step _ _ _ _ _ _ (step_probed _ _ _ _ w Ht He)).
    fold R. cbn [resume fst snd].
    rewrite (run_step _ _ _ _ _ _ (step_slept i R Ht He)), Hrun.
    eexists. split; [done|].
    rewrite !spawns_app, Hs. rewrite spawns_app in Hsp.
    cbn [workersFrom]. by rewrite <- Hsp.
Qed.

(** ** The start *)

Lemma spawns_startLog : spawns (startLog cfg) = [].
Proof. unfold startLog. rewrite !spawns_app. by repeat case_match. Qed.

(** [start] with a configuration that passes the checks. *)
Lemma start_valid w :
  valid cfg →
  start cfg found clock w
  = let out :=
      if bool_decide (0 < length (Config.KEYS cfg))%nat
      then startKey cfg found clock 0 w
      else Supervisor.startInstance cfg (resume cfg) found clock "router-0" None
             (num_add (Config.portNumber cfg) (Int 100)) KStartSingle w in
    (startLog cfg ++ out.1, out.2).
Proof.
  intros [Hpe Hk]. unfold start.
  assert (bool_decide (length (Config.PROVIDERS cfg) = 0%nat)
          && bool_decide (length (Config.DIRECT_ENDPOINTS cfg) = 0%nat) = false)
    as -> by (apply andb_false_iff; rewrite !bool_decide_eq_false; lia).
  assert (bool_decide (0 < length (Config.PROVIDERS cfg))%nat
          && bool_decide (length (Config.KEYS cfg) = 0%nat) = false) as ->.
  { apply andb_false_iff. rewrite !bool_decide_eq_false.
    destruct (decide (0 < length (Config.PROVIDERS cfg))%nat) as [?%Hk|]; lia. }
  simpl. by destruct (if bool_decide _ then _ else _).
Qed.


End run.

(** * The readiness wait on the event loop *)

Section ready.
Context (cfg : Config.t).
Context (instanceId : string) (port : num) (startTime maxWait : Z) (k : Cont).

Lemma ready_run fuel : ∀ answers w b es st',
  tasks w = [] → exited w = None →
  Health.runReady fuel answers instanceId port startTime maxWait (reg w)
  = Some (b, es, st') →
  run cfg (readyEvents startTime maxWait answers)
    (add_task (TReadyProbe instanceId port startTime maxWait k) w)
  = Some (es ++ (resume cfg k b (with_reg st' w)).1,
          (resume cfg k b (with_reg st' w)).2).
Proof.
  induction fuel as [|fuel IH]; intros answers w b es st' Ht He Hrun; [done|].
  destruct answers as [|[o now] rest]; [done|]. simpl in Hrun.
  pose proof (step_resume cfg (TReadyProbe instanceId port startTime maxWait k)
                (AProbe o now) w Ht He) as Hs.
  pose proof (step_resume cfg (TReadySleep instanceId port startTime maxWait k)
                (AProbe o now) w Ht He) as Hs'.
  cbn [runTask readyEvents] in *.
  destruct (Health.readyProbed_cases o instanceId (reg w))
    as [[Hh [b1 Hp]]|[Hh Hp]]; rewrite Hh.
  - destruct (Health.readyProbed o instanceId (reg w)) as [[? es1] st1] eqn:E.
    simpl in Hp. simplify_eq.
    rewrite (Health.onReadyProbe_returns _ _ _ _ _ _ _ _ _ _ _ E) in Hs.
    rewrite (run_step _ _ _ _ _ _ Hs). simpl. by rewrite app_nil_r.
  - rewrite Hp in Hrun. rewrite Health.onReadyProbe_failed in Hs by done.
    rewrite (run_step _ _ _ _ _ _ Hs). unfold Health.readyLoop in Hrun.
    destruct (decide (now - startTime < maxWait)) as [Hlt|Hge].
    + rewrite Health.onReadySleep_suspends in Hs' by done.
      rewrite (run_step _ _ _ _ _ _ Hs').
      destruct (Health.runReady fuel rest _ _ _ _ _) as [[[b3 es3] st3]|] eqn:Hrec;
        simplify_eq/=.
      by rewrite (IH rest w b es3 st' Ht He Hrec).
    + rewrite Health.onReadySleep_expired in Hs' by lia.
      rewrite (run_step _ _ _ _ _ _ Hs'). simplify_eq/=.
      by rewrite with_reg_id, app_nil_r.
Qed.

(** C21. The handlers of the readiness wait implement the wait as one
    function.  Where [Health.runReady] returns [b] with the effects
    [es] and the registry [st'], the events of the same answers resume
    the wait on the event loop until it hands [b] to its caller, with
    the same effects and the same registry. *)
Theorem readiness_wait_refines fuel answers w b es st' :
  tasks w = [] → exited w = None →
  Health.runReady fuel answers instanceId port startTime maxWait (reg w)
  = Some (b, es, st') →
  run cfg (readyEvents startTime maxWait answers)
    (add_task (TReadyProbe instanceId port startTime maxWait k) w)
  = Some (es ++ (resume cfg k b (with_reg st' w)).1,
          (resume cfg k b (with_reg st' w)).2).
Proof. apply ready_run. Qed.

End ready.

(** * The startup, whatever the probes answer *)

Section any.
Context (cfg : Config.t) (found : bool) (clock : nat → Z).
Context (Hclock : clock 2%nat - clock 1%nat < 60000).
Implicit Types (w : World.t) (k : Cont) (ks : list string).
Implicit Types (answers : list (Health.Outcome * Z)).

Lemma Up_init : Up 0 (with_started true World.init).
Proof. by split. Qed.

(** An instance launched, and its readiness wait over with the
    registry [st]. *)
Lemma Up_launched (n : nat) key port st w :
  Up n w →
  let w' := Supervisor.launched ("router-" +:+ pretty n) key port (clock 0%nat) w in
  instances (mgr st) = instances (mgr (reg w')) →
  Up (S n) (with_reg st w').
Proof.
  intros [] w' Hst. split; try done.
  - unfold keys in *. simpl. rewrite Hst. unfold w'.
    rewrite Supervisor.launched_reg, register_instances.
    rewrite jm_keys_set_new by (rewrite up_keys0; apply names_fresh).
    by rewrite up_keys0, names_S.
  - change (length (children w') = S n). unfold w'.
    rewrite Supervisor.launched_children, length_app. simpl. lia.
  - change (Forall (λ ch, running ch = true) (children w')). unfold w'.
    rewrite Supervisor.launched_children. apply Forall_app.
    split; [done|]. by apply Forall_singleton.
Qed.

(** One instance: launched, and its wait driven to its end. *)
Lemma instance_runs (n : nat) key port k answers w :
  tasks w = [] → exited w = None → Health.punctual (clock 1%nat) 60000 answers →
  let w' := Supervisor.launched ("router-" +:+ pretty n) key port (clock 0%nat) w in
  ∃ b es st,
    instances (mgr st) = instances (mgr (reg w'))
    ∧ run cfg (readyEvents (clock 1%nat) 60000 answers)
        (Supervisor.startInstance cfg (resume cfg) found clock
           ("router-" +:+ pretty n) key port k w).2
      = Some (es ++ (resume cfg k b (with_reg st w')).1,
              (resume cfg k b (with_reg st w')).2).
Proof.
  intros Ht He Hp w'.
  destruct (Supervisor.startInstance_suspends cfg (resume cfg) found clock
              ("router-" +:+ pretty n) key port k w Hclock) as [-> _].
  destruct (Health.runReady_punctual answers ("router-" +:+ pretty n) port
              (clock 1%nat) 60000 (reg w') Hp) as [[[b es] st] Hrun].
  exists b, es, st. split.
  - apply Health.runReady_state in Hrun. destruct b; [|by subst].
    by destruct Hrun as (r & _ & ->).
  - by apply (ready_run cfg _ _ _ _ _ (Health.rounds_needed 60000) _ w').
Qed.

(** The loop over the keys from index [i] on. *)
Lemma startKey_runs_any ks : ∀ i w rounds,
  drop i (Config.KEYS cfg) = ks → length rounds = length ks →
  Forall (Health.punctual (clock 1%nat) 60000) rounds → Up i w →
  ∃ es w',
    run cfg (rounds ≫= (λ answers, readyEvents (clock 1%nat) 60000 answers
                                   ++ [EResume 0 (ATimer found clock)]))
      (startKey cfg found clock i w).2
    = Some (es, (startServices cfg w').2)
    ∧ Up (i + length ks) w'.
Proof.
  induction ks as [|key ks IH]; intros i w rounds Hd Hlen Hp HU.
  - assert (Config.KEYS cfg !! i = None) as Hi
      by (by rewrite <- (Nat.add_0_r i), <- lookup_drop, Hd).
    destruct rounds; [|done]. unfold startKey. rewrite Hi.
    exists [], w. split; [done|]. by rewrite Nat.add_0_r.
  - assert (Config.KEYS cfg !! i = Some key) as Hi
      by (by rewrite <- (Nat.add_0_r i), <- lookup_drop, Hd).
    rewrite (drop_S _ key) in Hd by done. injection Hd as Hd.
    destruct rounds as [|answers rounds]; [done|].
    apply Forall_cons in Hp as [Hp Hps]. injection Hlen as Hlen.
    destruct (instance_runs i (Some key) (instancePort cfg i) (KStartKeys i)
                answers w (up_tasks _ _ HU) (up_exited _ _ HU) Hp)
      as (b & es & st & Hst & Hrun).
    pose proof (Up_launched i (Some key) (instancePort cfg i) st w HU Hst) as HU1.
    destruct (IH (S i) _ rounds Hd Hlen Hps HU1) as (es' & w' & Hrun' & HU').
    eexists _, w'. split;
      [|by replace (i + length (key :: ks))%nat with (S i + length ks)%nat
          by (simpl; lia)].
    unfold startKey at 1. rewrite Hi, bind_cons, <- app_assoc.
    rewrite (run_app cfg _ _ _ _ _ Hrun). cbn [resume fst snd app].
    rewrite (run_step _ _ _ _ _ _
               (step_slept cfg found clock i _ (up_tasks _ _ HU1) (up_exited _ _ HU1))).
    rewrite Hrun'. done.
Qed.

Lemma Up_startServices n w :
  Up n w →
  let w' := (startServices cfg w).2 in
  keys w' = names n ∧ length (children w') = n
  ∧ Forall (λ ch, running ch = true) (children w')
  ∧ tasks w' = [] ∧ exited w' = None
  ∧ ticking w' = true ∧ handling w' = true ∧ listening w' = true.
Proof. intros [] w'. unfold w'. by rewrite startServices_world. Qed.

End any.

(** * Theorems *)

Section theorems.
Context (cfg : Config.t) (found : bool) (clock : nat → Z).

(** C19. Startup succeeds for every valid configuration.  Where there
    is a provider or a direct endpoint, and a key if there are
    providers, and every worker answers its first readiness probe with
    status 200, the events of the startup are a run of the program: it
    spawns one worker per key, in the order of the keys, each with its
    key and the port [parseInt(PORT) + 100 + i], or the single worker
    of the direct-endpoint mode, and ends in the world [up]. *)
Theorem startup_completes :
  valid cfg → clock 2%nat - clock 1%nat < 60000 →
  ∃ es, run cfg (startup cfg found clock) World.init = Some (es, up cfg clock)
        ∧ spawns es = workers cfg.
Proof.
  intros Hv Hclock. unfold startup, up, workers.
  set (w0 := with_started true World.init).
  assert (step cfg (EStart found clock) World.init
          = Some ((start cfg found clock w0).1, (start cfg found clock w0).2))
    as Hstart by (unfold step; simpl; by destruct (start cfg found clock _)).
  rewrite (run_step _ _ _ _ _ _ Hstart), (start_valid _ _ _ _ Hv). cbn [fst snd].
  destruct (bool_decide (0 < length (Config.KEYS cfg))%nat).
  - destruct (startKey_runs cfg found clock Hclock (Config.KEYS cfg) 0 w0)
      as (es & -> & Hsp); [done..|].
    eexists. split; [done|]. cbn [fst]. rewrite <- app_assoc, spawns_app.
    by rewrite spawns_startLog.
  - destruct (Supervisor.startInstance_suspends cfg (resume cfg) found clock
                "router-0" None (num_add (Config.portNumber cfg) (Int 100))
                KStartSingle w0 Hclock) as [-> Hs].
    rewrite (run_step _ _ _ _ _ _ (step_probed cfg clock _ _ _ _ w0 eq_refl eq_refl)).
    eexists. split; [done|]. cbn [fst]. rewrite !spawns_app, spawns_startLog, Hs.
    done.
Qed.

(** C4. Startup succeeds whatever the probes answer.  For every
    configuration that passes the checks of [start], and whichever
    workers become ready and whichever run into the timeout of their
    readiness wait, if the clock advances by a second per sleep the
    startup ends: one worker is launched per key (or the single
    worker), each registered under its id, no continuation is left
    pending, the health check is armed, the signal handlers are
    installed and the server listens. *)
Theorem startup_always_completes rounds :
  valid cfg → clock 2%nat - clock 1%nat < 60000 →
  length rounds = instanceCount cfg →
  Forall (Health.punctual (clock 1%nat) 60000) rounds →
  ∃ es w,
    run cfg (startupOf cfg found clock rounds) World.init = Some (es, w)
    ∧ keys w = names (instanceCount cfg)
    ∧ length (children w) = instanceCount cfg
    ∧ Forall (λ ch, running ch = true) (children w)
    ∧ tasks w = [] ∧ exited w = None
    ∧ ticking w = true ∧ handling w = true ∧ listening w = true.
Proof.
  intros Hv Hclock Hlen Hp. unfold startupOf, instanceCount in *.
  set (w0 := with_started true World.init).
  assert (step cfg (EStart found clock) World.init
          = Some ((start cfg found clock w0).1, (start cfg found clock w0).2))
    as Hstart by (unfold step; simpl; by destruct (start cfg found clock _)).
  rewrite (run_step _ _ _ _ _ _ Hstart), (start_valid _ _ _ _ Hv). cbn [fst snd].
  destruct (bool_decide (0 < length (Config.KEYS cfg))%nat).
  - destruct (startKey_runs_any cfg found clock Hclock (Config.KEYS cfg) 0 w0
                rounds eq_refl Hlen Hp (Up_init)) as (es & w' & -> & HU).
    eexists _, _. split; [done|]. by apply Up_startServices.
  - destruct rounds as [|answers [|]]; simplify_eq/=.
    apply Forall_cons in Hp as [Hp _].
    destruct (instance_runs cfg found clock Hclock 0 None
                (num_add (Config.portNumber cfg) (Int 100)) KStartSingle
                answers w0 eq_refl eq_refl Hp) as (b & es & st & Hst & Hrun).
    change ("router-" +:+ pretty 0%nat) with "router-0" in Hrun. rewrite Hrun.
    eexists _, _. split; [done|].
    by apply Up_startServices, (Up_launched clock 0 None _ st w0 Up_init).
Qed.


(** C27. A configuration error is fatal.  Where the configuration has
    neither a provider nor a direct endpoint, or has providers and no
    key, [start] reports the error and exits with code 1 before it
    launches anything, and no event is handled afterwards. *)
Theorem invalid_config_exits es w :
  ¬ valid cfg → step cfg (EStart found clock) World.init = Some (es, w) →
  spawns es = [] ∧ last es = Some (Exit 1)
  ∧ w = with_exited 1 (with_started true World.init)
  ∧ ∀ e, step cfg e w = None.
Proof.
  intros Hv. unfold step. simpl. unfold start.
  destruct (bool_decide (length (Config.PROVIDERS cfg) = 0%nat)
            && bool_decide (length (Config.DIRECT_ENDPOINTS cfg) = 0%nat)) eqn:E1;
    [by intros [= <- <-]|].
  destruct (bool_decide (0 < length (Config.PROVIDERS cfg))%nat
            && bool_decide (length (Config.KEYS cfg) = 0%nat)) eqn:E2;
    [by intros [= <- <-]|].
  destruct Hv. apply andb_false_iff in E1, E2.
  rewrite !bool_decide_eq_false in E1, E2. unfold valid. lia.
Qed.

End theorems.

(** ** The startup of the sample configuration *)

Lemma readiness_wait_refines_witness :
  run Supervisor.sample_cfg
    (readyEvents 1000 60000 [(Health.RequestError, 2100); (Health.Response 200, 0)])
    (add_task (TReadyProbe "router-0" (Int 3100) 1000 60000 KReturn) Health.sample)
  = Some ([SetTimeout 1000; Health.probe (Int 3100);
           Console Log "[router-0] Instance ready and healthy"] ++ [],
          with_reg (update (with_healthy true) 0 Health.sample_st) Health.sample).
Proof.
  apply (readiness_wait_refines Supervisor.sample_cfg "router-0" (Int 3100) 1000
           60000 KReturn 3
           [(Health.RequestError, 2100); (Health.Response 200, 0)] Health.sample
           true
           [SetTimeout 1000; Health.probe (Int 3100);
            Console Log "[router-0] Instance ready and healthy"]
           (update (with_healthy true) 0 Health.sample_st)); done.
Defined.

Lemma startup_always_completes_witness :
  ∃ es w,
    run Supervisor.sample_cfg
      (startupOf Supervisor.sample_cfg true Supervisor.sample_clock
         [replicate 60 (Health.Response 200, 100000);
          replicate 60 (Health.RequestError, 100000)]) World.init
    = Some (es, w)
    ∧ keys w = names (instanceCount Supervisor.sample_cfg)
    ∧ length (children w) = instanceCount Supervisor.sample_cfg
    ∧ Forall (λ ch, running ch = true) (children w)
    ∧ tasks w = [] ∧ exited w = None
    ∧ ticking w = true ∧ handling w = true ∧ listening w = true.
Proof.
  apply (startup_always_completes Supervisor.sample_cfg true Supervisor.sample_clock);
    [by_compute | by_compute | done |].
  apply Forall_cons. split; [|apply Forall_singleton];
    (split; [vm_compute; lia|]);
    intros j o now [Heq Hj]%lookup_replicate; injection Heq as -> ->;
    unfold Supervisor.sample_clock; lia.
Defined.

Lemma startup_completes_witness :
  ∃ es, run Supervisor.sample_cfg (startup Supervisor.sample_cfg true Supervisor.sample_clock)
          World.init
        = Some (es, up Supervisor.sample_cfg Supervisor.sample_clock)
        ∧ spawns es = workers Supervisor.sample_cfg.
Proof.
  apply (startup_completes Supervisor.sample_cfg true Supervisor.sample_clock);
    by_compute.
Defined.

(** Providers without a key. *)
Lemma invalid_config_exits_witness :
  let cfg := Config.mk [Config.mkProvider "0xf07240Efa67755B5311bc75784a061eDB47165Dd" (Int 100)]
               [] [] (Config.PortNumber 3000) "0.0.0.0" None None None None
               "100" "50" in
  let es := [Console Error
               "ERROR: No keys specified for on-chain providers. Set KEYS environment variable.";
             Exit 1] in
  spawns es = [] ∧ last es = Some (Exit 1)
  ∧ with_exited 1 (with_started true World.init)
    = with_exited 1 (with_started true World.init)
  ∧ ∀ e, step cfg e (with_exited 1 (with_started true World.init)) = None.
Proof.
  intros cfg es.
  apply (invalid_config_exits cfg true Supervisor.sample_clock es); [by_compute|done].
Defined.

End Startup.
