(* ===== verification/Scenarios.v ===== *)
(** * The example scenario of the design

    Three instances A, B and C ([router-0], [router-1], [router-2]).
    B fails its probe in two consecutive rounds of the health check,
    requests arrive, then B's probe succeeds again.  The scenario is a
    run of the program from the world in which the startup ends; the
    selections are those of [Balancer.getHealthyInstance]. *)

From S2P Require Import Prelude Node Config Registry Balancer World.
From S2P Require Import Health Supervisor Shutdown System Startup.

Module Scenarios.
Import Registry World System.










End Scenarios.
