(* ===== verification/Tester.v ===== *)
(** * The serving capability test script

    [src/api/inference/integration/all-in-one/test-serving-capability.js]:
    class [ServingCapabilityTester] runs seven tests in order against a
    chain node, a broker and an inference service, records each result,
    stops at the first failure and prints a JSON report.  The external
    services are not modelled; what they answer (a value, or a rejection
    with a message) is given to each test as a [result].  The tester's
    own state, its output on the two streams and the clock are threaded
    by a state monad [M]. *)

From Stdlib Require Import Ascii.
From S2P Require Import Prelude Node.

Module Tester.

(** What an awaited call gives: a value, or a rejection whose
    [error.message] is [message]. *)
Inductive result (A : Type) : Type :=
  | Ok (a : A)
  | Err (message : string).
Arguments Ok {A} a.
Arguments Err {A} message.

(** What the script does to the outside world: lines on the two
    streams, a JSON document on one of them, a call of an external
    library, [process.exit]. *)
Inductive action : Type :=
  | Stdout (text : string)
  | Stderr (text : string)
  | StdoutJson (j : json)
  | StderrJson (j : json)
  | Call (name : string) (args : list json)
  | Exit (code : Z).

(** Configuration (lines 14-24). *)
Definition DEFAULT_PRIVATE_KEY : string :=
  "0x59c6995e998f97a5a0044966f0945389dc9e86dae88c7a8412f4603b6b78690d".
Definition HARDHAT_RPC_URL : string := "http://127.0.0.1:8545".
Definition PROVIDER_ADDRESS : string := "0x70997970C51812dc3A010C7d01b50e0d17dc79C8".
Definition SERVING_CONTRACT : string := "0x8A791620dd6260079BF849Dc5567aDC3F2FdC318".
Definition SERVING_CONTRACT_2 : string := "0x0165878A594ca255338adfa4d48449f69242Eb8F".
Definition SERVING_CONTRACT_3 : string := "0x9fE46736679d2D9a65F0992F2272dE9f3c7fa6e0".
Definition TEST_TIMEOUT : Z := 60000.

(** An element of [results.tests]. *)
Record TestRecord : Type := mkTestRecord {
  name : string;
  success : bool;
  message : string;
  details : json;
  timestamp : string;
}.

(** [this.results]. *)
Record Results : Type := mkResults {
  total : nat;
  passed : nat;
  failed : nat;
  tests : list TestRecord;
}.

(** The tester object, the console ([redirected]: [console.log] and
    [console.warn] are patched to write to the error stream), the
    number of clock readings taken, and the output so far. *)
Record t : Type := mk {
  results : Results;
  provider : option string;
  wallet : option string;
  broker : bool;
  services : option (list (option string));
  serviceEndpoint : option string;
  serviceModel : option string;
  redirected : bool;
  ticks : nat;
  out : list action;
}.

(** [new ServingCapabilityTester()]. *)
Definition constructor : t :=
  mk (mkResults 0 0 0 []) None None false None None None false 0 [].

(** ** The monad *)

Definition M (A : Type) : Type := t → A * t.

#[export] Instance M_ret : MRet M := λ A a s, (a, s).
#[export] Instance M_bind : MBind M :=
  λ A B f m s, let '(a, s') := m s in f a s'.

Definition get : M t := λ s, (s, s).
Definition modify (f : t → t) : M unit := λ s, ((), f s).
Definition emit (o : action) : M unit :=
  modify (λ s, mk (results s) (provider s) (wallet s) (broker s) (services s)
                  (serviceEndpoint s) (serviceModel s) (redirected s) (ticks s)
                  (out s ++ [o])).

Definition with_results (r : Results) (s : t) : t :=
  mk r (provider s) (wallet s) (broker s) (services s) (serviceEndpoint s)
     (serviceModel s) (redirected s) (ticks s) (out s).

Definition with_provider (p : string) (s : t) : t :=
  mk (results s) (Some p) (wallet s) (broker s) (services s) (serviceEndpoint s)
     (serviceModel s) (redirected s) (ticks s) (out s).

Definition with_wallet (k : string) (s : t) : t :=
  mk (results s) (provider s) (Some k) (broker s) (services s) (serviceEndpoint s)
     (serviceModel s) (redirected s) (ticks s) (out s).

Definition with_broker (s : t) : t :=
  mk (results s) (provider s) (wallet s) true (services s) (serviceEndpoint s)
     (serviceModel s) (redirected s) (ticks s) (out s).

Definition with_services (l : list (option string)) (s : t) : t :=
  mk (results s) (provider s) (wallet s) (broker s) (Some l) (serviceEndpoint s)
     (serviceModel s) (redirected s) (ticks s) (out s).

Definition with_service (endpoint model : option string) (s : t) : t :=
  mk (results s) (provider s) (wallet s) (broker s) (services s) endpoint model
     (redirected s) (ticks s) (out s).

Definition with_redirected (b : bool) (s : t) : t :=
  mk (results s) (provider s) (wallet s) (broker s) (services s) (serviceEndpoint s)
     (serviceModel s) b (ticks s) (out s).

Section tester.
(** [clock k] is what the [k]-th evaluation of
    [new Date().toISOString()] gives. *)
Context (clock : nat → string).

(** [new Date().toISOString()]. *)
Definition now : M string :=
  λ s, (clock (ticks s),
        mk (results s) (provider s) (wallet s) (broker s) (services s)
           (serviceEndpoint s) (serviceModel s) (redirected s) (S (ticks s)) (out s)).

(** [log(level, message)] (lines 36-41). *)
Definition log (level message : string) : M unit :=
  timestamp ← now;
  emit (Stderr ("[" +:+ level +:+ "] " +:+ timestamp +:+ " - " +:+ message)).

(** [recordTest(name, success, message, details)] (lines 43-60). *)
Definition recordTest (name : string) (success : bool) (message : string)
    (details : json) : M unit :=
  modify (λ s, with_results
    (mkResults (S (total (results s))) (passed (results s)) (failed (results s))
       (tests (results s))) s);;
  (if success then
     modify (λ s, with_results
       (mkResults (total (results s)) (S (passed (results s))) (failed (results s))
          (tests (results s))) s);;
     log "SUCCESS" (name +:+ ": " +:+ message)
   else
     modify (λ s, with_results
       (mkResults (total (results s)) (passed (results s)) (S (failed (results s)))
          (tests (results s))) s);;
     log "ERROR" (name +:+ ": " +:+ message));;
  timestamp ← now;
  modify (λ s, with_results
    (mkResults (total (results s)) (passed (results s)) (failed (results s))
       (tests (results s) ++ [mkTestRecord name success message details timestamp]))
    s).

(** [setupProvider()] (lines 62-82).  [privateKey] is
    [process.env.ZG_PRIVATE_KEY]; [walletMade] says whether
    [new ethers.Wallet] throws. *)
Definition setupProvider (privateKey : option string) (walletMade : result unit)
    (blockNumber : result Z) : M bool :=
  log "INFO" "Setting up provider and wallet...";;
  let privateKey :=
    match privateKey with
    | Some k => if truthy k then k else DEFAULT_PRIVATE_KEY
    | None => DEFAULT_PRIVATE_KEY
    end in
  emit (Call "ethers.JsonRpcProvider" [JString HARDHAT_RPC_URL]);;
  modify (with_provider HARDHAT_RPC_URL);;
  emit (Call "ethers.Wallet" [JString privateKey]);;
  match walletMade with
  | Err message =>
      recordTest "Provider Setup" false ("Failed: " +:+ message) (JObject []);;
      mret false
  | Ok _ =>
      modify (with_wallet privateKey);;
      emit (Call "provider.getBlockNumber" []);;
      match blockNumber with
      | Err message =>
          recordTest "Provider Setup" false ("Failed: " +:+ message) (JObject []);;
          mret false
      | Ok blockNumber =>
          log "INFO" ("Connected to Hardhat node, current block: " +:+
                      pretty blockNumber);;
          recordTest "Provider Setup" true
            ("Connected to block " +:+ pretty blockNumber) (JObject []);;
          mret true
      end
  end.

(** [createBroker()] (lines 84-101). *)
Definition createBroker (created : result unit) : M bool :=
  log "INFO" "Creating ZG Compute Network Broker...";;
  emit (Call "createZGComputeNetworkBroker"
          [JString SERVING_CONTRACT; JString SERVING_CONTRACT_2;
           JString SERVING_CONTRACT_3]);;
  match created with
  | Ok _ =>
      modify with_broker;;
      recordTest "Broker Creation" true "Broker created successfully" (JObject []);;
      mret true
  | Err message =>
      recordTest "Broker Creation" false ("Failed: " +:+ message) (JObject []);;
      mret false
  end.

(** The callback of [services.forEach] (lines 116-125): a service is
    [Some] of its serialisation, or [None] when [JSON.stringify]
    throws. *)
Definition logService (index : nat) (service : option string) : M unit :=
  match service with
  | Some serviceStr =>
      log "INFO" ("Service " +:+ pretty (index + 1)%nat +:+ ": " +:+ serviceStr)
  | None =>
      log "INFO" ("Service " +:+ pretty (index + 1)%nat +:+
                  ": [Object with non-serializable values]")
  end.

Fixpoint forEach {A} (f : nat → A → M unit) (index : nat) (l : list A) : M unit :=
  match l with
  | [] => mret ()
  | x :: l' => f index x;; forEach f (S index) l'
  end.

(** [listServices()] (lines 103-134). *)
Definition listServices (listed : result (list (option string))) : M bool :=
  log "INFO" "Listing available services...";;
  emit (Call "broker.inference.listService" []);;
  match listed with
  | Err message =>
      recordTest "Service Discovery" false ("Failed: " +:+ message) (JObject []);;
      mret false
  | Ok services =>
      log "INFO" ("Found " +:+ pretty (length services) +:+ " services");;
      if bool_decide (length services = 0%nat) then
        recordTest "Service Discovery" false "No services found" (JObject []);;
        mret false
      else
        forEach logService 0 services;;
        recordTest "Service Discovery" true
          ("Found " +:+ pretty (length services) +:+ " services") (JObject []);;
        modify (with_services services);;
        mret true
  end.

(** [`${v}`] and [!v] for a string or [undefined]. *)
Definition show (v : option string) : string := default "undefined" v.
Definition falsy (v : option string) : bool := negb (from_option truthy false v).
Definition jsonOf (v : option string) : json := from_option JString JNull v.

(** [testServiceMetadata()] (lines 136-163). *)
Definition testServiceMetadata (metadata : result (option string * option string))
    : M bool :=
  log "INFO" "Testing service metadata retrieval...";;
  emit (Call "broker.inference.getServiceMetadata" [JString PROVIDER_ADDRESS]);;
  match metadata with
  | Err message =>
      recordTest "Service Metadata" false ("Failed: " +:+ message) (JObject []);;
      mret false
  | Ok (endpoint, model) =>
      log "INFO" ("Service endpoint: " +:+ show endpoint);;
      log "INFO" ("Service model: " +:+ show model);;
      if falsy endpoint || falsy model then
        recordTest "Service Metadata" false
          "Failed: Invalid service metadata received" (JObject []);;
        mret false
      else
        recordTest "Service Metadata" true
          ("Endpoint: " +:+ show endpoint +:+ ", Model: " +:+ show model)
          (JObject [("endpoint", jsonOf endpoint); ("model", jsonOf model)]);;
        modify (with_service endpoint model);;
        mret true
  end.

(** [s.includes(sub)]. *)
Definition includes (sub s : string) : bool :=
  if String.index 0 sub s is Some _ then true else false.
Arguments includes : simpl never.

(** [createAccount()] (lines 165-186). *)
Definition createAccount (added : result unit) : M bool :=
  log "INFO" "Creating ledger account...";;
  emit (Call "broker.ledger.addLedger" [JDecimal 1; JNumber (Int 1000000000)]);;
  match added with
  | Ok _ =>
      recordTest "Account Creation" true "Account created with balance 0.01"
        (JObject []);;
      mret true
  | Err message =>
      if includes "account already exists" message
         || includes "already have an account" message then
        log "INFO" "Account already exists, continuing...";;
        recordTest "Account Creation" true "Account already exists" (JObject []);;
        mret true
      else
        recordTest "Account Creation" false ("Failed: " +:+ message) (JObject []);;
        mret false
  end.

(** [testProviderAcknowledgment()] (lines 188-200). *)
Definition testProviderAcknowledgment (acknowledged : result unit) : M bool :=
  log "INFO" "Testing provider signer acknowledgment...";;
  emit (Call "broker.inference.acknowledgeProviderSigner" [JString PROVIDER_ADDRESS]);;
  match acknowledged with
  | Ok _ =>
      recordTest "Provider Acknowledgment" true "Provider signer acknowledged"
        (JObject []);;
      mret true
  | Err message =>
      recordTest "Provider Acknowledgment" false ("Failed: " +:+ message)
        (JObject []);;
      mret false
  end.

(** A chat message, the part of a completion the script reads
    ([completion.id] and [completion.choices?.[0]?.message?.content]),
    and what [askLLM] returns. *)
Record Message : Type := mkMessage { role : string; content : string }.

Record Completion : Type := mkCompletion {
  completion_id : string;
  completion_content : option string;
}.

Record Reply : Type := mkReply {
  output : string;
  verified : option bool;
  history : list Message;
}.

Definition messageJson (m : Message) : json :=
  JObject [("role", JString (role m)); ("content", JString (content m))].

(** What the three awaited calls of [askLLM] give. *)
Record Service : Type := mkService {
  requestHeaders : result (list (string * string));
  completion : result Completion;
  verification : result (option bool);
}.

(** [askLLM(providerAddress, inputParam, history)] (lines 235-279).
    The function has no [try]: a rejection of an awaited call rejects
    the function. *)
Definition askLLM (svc : Service) (providerAddress inputParam : string)
    (history : list Message) : M (result Reply) :=
  let messages := history ++ [mkMessage "user" inputParam] in
  emit (Call "broker.inference.getRequestHeaders"
          [JString providerAddress; JArray (messageJson <$> messages)]);;
  match requestHeaders svc with
  | Err message => mret (Err message)
  | Ok headers =>
      s ← get;
      emit (Call "OpenAI"
              [JObject [("baseURL", jsonOf (serviceEndpoint s));
                        ("apiKey", JString EmptyString)]]);;
      emit (Call "openai.chat.completions.create"
              [JObject [("messages", JArray (messageJson <$> messages));
                        ("model", jsonOf (serviceModel s))];
               JObject [("headers",
                         JObject (prod_map (λ x, x) JString <$> headers));
                        ("timeout", JNumber (Int TEST_TIMEOUT))]]);;
      match completion svc with
      | Err message => mret (Err message)
      | Ok completion =>
          let chatID := completion_id completion in
          let content := default EmptyString (completion_content completion) in
          emit (Call "broker.inference.processResponse"
                  [JString providerAddress; JString content; JString chatID]);;
          match verification svc with
          | Err message => mret (Err message)
          | Ok verified =>
              mret (Ok (mkReply content verified
                          (messages ++ [mkMessage "assistant" content])))
          end
      end
  end.

(** [`${v}`] and the JSON value of a boolean or [null]. *)
Definition showVerified (v : option bool) : string :=
  match v with
  | Some true => "true"
  | Some false => "false"
  | None => "null"
  end.

(** [testServingCapability()] (lines 202-233). *)
Definition testServingCapability (svc : Service) : M bool :=
  log "INFO" "Testing complete serving capability...";;
  let testMessage := "What is the capital of France?" in
  let history :=
    [mkMessage "system"
       "You are a helpful assistant that provides accurate information."] in
  result ← askLLM svc PROVIDER_ADDRESS testMessage history;
  match result with
  | Err message =>
      recordTest "Serving Capability" false ("Failed: " +:+ message) (JObject []);;
      mret false
  | Ok result =>
      if negb (truthy (output result)) then
        recordTest "Serving Capability" false
          "Failed: No response received from service" (JObject []);;
        mret false
      else
        log "INFO" ("Service Response: " +:+
                    String.substring 0 100 (output result) +:+ "...");;
        log "INFO" ("Response verified: " +:+ showVerified (verified result));;
        recordTest "Serving Capability" true
          "Successfully received and processed response"
          (JObject [("responseLength",
                     JNumber (Int (Z.of_nat (String.length (output result)))));
                    ("verified", from_option JBool JNull (verified result))]);;
        mret true
  end.

(** [parseFloat((passed / total * 100).toFixed(2))] in hundredths,
    rounded half up; [0] for no tests. *)
Definition successRate (total passed : nat) : Z :=
  if bool_decide (0 < total)%nat then
    (20000 * Z.of_nat passed + Z.of_nat total) / (2 * Z.of_nat total)
  else 0.

Definition testJson (r : TestRecord) : json :=
  JObject [("name", JString (name r)); ("success", JBool (success r));
           ("message", JString (message r)); ("details", details r);
           ("timestamp", JString (timestamp r))].

(** The object [report] of [generateReport]. *)
Definition reportJson (timestamp : string) (r : Results) : json :=
  JObject
    [("timestamp", JString timestamp);
     ("summary",
      JObject [("total", JNumber (Int (Z.of_nat (total r))));
               ("passed", JNumber (Int (Z.of_nat (passed r))));
               ("failed", JNumber (Int (Z.of_nat (failed r))));
               ("successRate", JDecimal (successRate (total r) (passed r)))]);
     ("allPassed", JBool (bool_decide (failed r = 0%nat)));
     ("tests", JArray (testJson <$> tests r))].

(** [generateReport()] (lines 282-301): [console.log] writes to the
    output stream, unless it is patched. *)
Definition generateReport : M Z :=
  timestamp ← now;
  s ← get;
  let report := reportJson timestamp (results s) in
  emit (if redirected s then StderrJson report else StdoutJson report);;
  mret (if bool_decide (failed (results s) = 0%nat) then 0 else 1).

(** What the outside world answers during one run. *)
Record Env : Type := mkEnv {
  ZG_PRIVATE_KEY : option string;
  walletMade : result unit;
  blockNumber : result Z;
  brokerCreated : result unit;
  ledgerAdded : result unit;
  listed : result (list (option string));
  metadata : result (option string * option string);
  acknowledged : result unit;
  service : Service;
}.

(** [if (!await test) return this.generateReport();] followed by the
    rest of the [try] block: [Some code] when the block returns. *)
Definition orReport (test : M bool) (rest : M (option Z)) : M (option Z) :=
  b ← test;
  if b : bool then rest else (code ← generateReport; mret (Some code)).

(** [runAllTests()] (lines 303-344).  No test throws, so the [catch]
    of line 333 is not entered; the [finally] restores the console
    after the value of a [return] inside the [try] was computed. *)
Definition runAllTests (env : Env) : M Z :=
  log "INFO" "Starting 0G Serving Capability Test Suite";;
  log "INFO" "==========================================";;
  modify (with_redirected true);;
  returned ←
    orReport (setupProvider (ZG_PRIVATE_KEY env) (walletMade env) (blockNumber env))
    (orReport (createBroker (brokerCreated env))
    (orReport (createAccount (ledgerAdded env))
    (orReport (listServices (listed env))
    (orReport (testServiceMetadata (metadata env))
    (orReport (testProviderAcknowledgment (acknowledged env))
    (orReport (testServingCapability (service env))
    (mret None)))))));
  modify (with_redirected false);;
  match returned with
  | Some code => mret code
  | None => generateReport
  end.

(** [main()] (lines 348-352). *)
Definition main (env : Env) : M unit :=
  exitCode ← runAllTests env;
  emit (Exit exitCode).

(** The handler of a rejected [main()] (lines 355-360):
    [console.error] is the original one again, so the error goes to
    the error stream; the exit code is 1. *)
Definition onFatal (error : string) : M unit :=
  emit (Stderr ("Fatal error: " +:+ error));;
  emit (Exit 1).

(** ** The reference: what a run amounts to *)

(** Whether each of the seven tests passes, from what the outside
    world answers. *)
Definition isOk {A} (r : result A) : bool := if r is Ok _ then true else false.

Definition verdicts (env : Env) : list bool :=
  [isOk (walletMade env) && isOk (blockNumber env);
   isOk (brokerCreated env);
   match ledgerAdded env with
   | Ok _ => true
   | Err message => includes "account already exists" message
                    || includes "already have an account" message
   end;
   match listed env with
   | Ok services => negb (bool_decide (length services = 0%nat))
   | Err _ => false
   end;
   match metadata env with
   | Ok (endpoint, model) => negb (falsy endpoint || falsy model)
   | Err _ => false
   end;
   isOk (acknowledged env);
   match requestHeaders (service env), completion (service env),
         verification (service env) with
   | Ok _, Ok c, Ok _ => truthy (default EmptyString (completion_content c))
   | _, _, _ => false
   end].

(** The tests in the order of [runAllTests]. *)
Definition suite (env : Env) : list (M bool) :=
  [setupProvider (ZG_PRIVATE_KEY env) (walletMade env) (blockNumber env);
   createBroker (brokerCreated env);
   createAccount (ledgerAdded env);
   listServices (listed env);
   testServiceMetadata (metadata env);
   testProviderAcknowledgment (acknowledged env);
   testServingCapability (service env)].

(** The [try] block of [runAllTests] for a list of tests. *)
Definition chain (ms : list (M bool)) : M (option Z) :=
  foldr orReport (mret None) ms.

End tester.

(** How many tests run, given the verdicts in order: all up to and
    including the first that fails. *)
Fixpoint ran (bs : list bool) : nat :=
  match bs with
  | [] => 0
  | b :: bs' => if b then S (ran bs') else 1
  end.

Definition all (bs : list bool) : bool := forallb (λ b, b) bs.

(** The results after one more test. *)
Definition record (r : TestRecord) (R : Results) : Results :=
  mkResults (S (total R))
    (if success r then S (passed R) else passed R)
    (if success r then failed R else S (failed R))
    (tests R ++ [r]).

(** The counters agree with the list of tests. *)
Definition consistent (R : Results) : Prop :=
  total R = length (tests R)
  ∧ passed R = length (filter (λ r, success r = true) (tests R))
  ∧ failed R = length (filter (λ r, success r = false) (tests R)).

(** The streams the reports went to, in order: [true] for the output
    stream, [false] for the error stream. *)
Definition streams (s : t) : list bool :=
  omap (λ o, match o with
             | StdoutJson _ => Some true
             | StderrJson _ => Some false
             | _ => None
             end) (out s).

(** A piece of the script that only logs and calls, and one that
    records one test with verdict [b]. *)
Definition logged (s s' : t) : Prop :=
  results s' = results s ∧ redirected s' = redirected s ∧ streams s' = streams s.

Definition tested (b : bool) (s s' : t) : Prop :=
  (∃ r, success r = b ∧ results s' = record r (results s))
  ∧ redirected s' = redirected s ∧ streams s' = streams s.

(** ** Sample runs *)

Definition sample_clock (k : nat) : string := "T" +:+ pretty k.

Definition sample_service : Service :=
  mkService (Ok [("Authorization", "Bearer x")])
            (Ok (mkCompletion "chat-1" (Some "Paris")))
            (Ok (Some true)).

(** Every call succeeds, except that the ledger account exists. *)
Definition sample_env : Env :=
  mkEnv None (Ok ()) (Ok 42) (Ok ()) (Err "Error: account already exists")
        (Ok [Some "{}"; None]) (Ok (Some "http://127.0.0.1:8080", Some "llama"))
        (Ok ()) sample_service.

(** The broker finds no service. *)
Definition sample_env_failing : Env :=
  mkEnv None (Ok ()) (Ok 42) (Ok ()) (Ok ()) (Ok [])
        (Ok (Some "http://127.0.0.1:8080", Some "llama")) (Ok ()) sample_service.

(** A test [m] always gives the verdict [b] and records it. *)
Definition passes (m : M bool) (b : bool) : Prop :=
  ∀ s, (m s).1 = b ∧ tested b s (m s).2.

(** * Properties *)

Section properties.
Context (clock : nat → string).
Implicit Types (s : t) (b : bool) (R : Results).

(** ** The monad *)

Lemma run_bind {A B} (m : M A) (f : A → M B) s :
  (m ≫= f) s = f (m s).1 (m s).2.
Proof. unfold mbind, M_bind. by destruct (m s). Qed.

Lemma streams_app s o :
  streams (emit o s).2
  = streams s ++ match o with
                 | StdoutJson _ => [true]
                 | StderrJson _ => [false]
                 | _ => []
                 end.
Proof. unfold streams. simpl. rewrite omap_app. by destruct o. Qed.

(** ** Pieces that log, pieces that test *)

Lemma logged_refl s : logged s s.
Proof. done. Qed.

Lemma logged_trans s1 s2 s3 : logged s1 s2 → logged s2 s3 → logged s1 s3.
Proof. intros (? & ? & ?) (? & ? & ?). repeat split; congruence. Qed.

Lemma logged_tested b s1 s2 s3 : logged s1 s2 → tested b s2 s3 → tested b s1 s3.
Proof.
  intros (HR & ? & ?) ((r & ? & ?) & ? & ?).
  split; [exists r; by rewrite <- HR | split; congruence].
Qed.

Lemma tested_logged b s1 s2 s3 : tested b s1 s2 → logged s2 s3 → tested b s1 s3.
Proof.
  intros ((r & ? & ?) & ? & ?) (HR & ? & ?).
  split; [exists r; by rewrite HR | split; congruence].
Qed.

Lemma tested_intro b s s' name message details timestamp :
  results s' = record (mkTestRecord name b message details timestamp) (results s) →
  redirected s' = redirected s → streams s' = streams s → tested b s s'.
Proof. intros. split; [eexists; split; [|done]; done | done]. Qed.

Ltac compute_tested :=
  eapply tested_intro;
  [ reflexivity | reflexivity
  | unfold streams; simpl; rewrite ?omap_app; simpl; by rewrite ?app_nil_r ].

Lemma log_logged level message s : logged s (log clock level message s).2.
Proof. repeat split. unfold streams. simpl. by rewrite omap_app, app_nil_r. Qed.

Lemma recordTest_tested name b message details s :
  tested b s (recordTest clock name b message details s).2.
Proof.
  destruct b; (eapply tested_intro; [reflexivity | reflexivity |]);
    unfold streams; simpl; by rewrite omap_app, app_nil_r.
Qed.

Lemma forEach_logged (l : list (option string)) : ∀ index s,
  logged s (forEach (logService clock) index l s).2.
Proof.
  induction l as [|x l IH]; intros index s; [done|]. simpl.
  rewrite run_bind. eapply logged_trans; [|apply IH].
  destruct x; apply log_logged.
Qed.

(** ** The seven tests *)

Lemma setupProvider_passes key made number :
  passes (setupProvider clock key made number) (isOk made && isOk number).
Proof.
  intros s. destruct made, number; simpl; (split; [done|]); compute_tested.
Qed.

Lemma createBroker_passes created :
  passes (createBroker clock created) (isOk created).
Proof. intros s. destruct created; simpl; (split; [done|]); compute_tested. Qed.

Lemma createAccount_passes added :
  passes (createAccount clock added)
    match added with
    | Ok _ => true
    | Err message => includes "account already exists" message
                     || includes "already have an account" message
    end.
Proof.
  intros s. destruct added as [|message]; simpl.
  { split; [done|]. compute_tested. }
  unfold createAccount. rewrite !run_bind. simpl.
  destruct (includes "account already exists" message);
    destruct (includes "already have an account" message);
    simpl; (split; [done|]); compute_tested.
Qed.

Lemma listServices_passes listed :
  passes (listServices clock listed)
    match listed with
    | Ok services => negb (bool_decide (length services = 0%nat))
    | Err _ => false
    end.
Proof.
  intros s. destruct listed as [services|message]; simpl;
    [|split; [done|]; compute_tested].
  unfold listServices. rewrite !run_bind. simpl.
  case_bool_decide; simpl; [split; [done|]; compute_tested|].
  rewrite !run_bind. simpl. split; [done|].
  set (s1 := mk _ _ _ _ _ _ _ _ _ _).
  assert (logged s s1) as H1.
  { repeat split. unfold streams. simpl. by rewrite !omap_app, !app_nil_r. }
  eapply logged_tested; [exact H1|].
  eapply logged_tested; [apply forEach_logged|].
  eapply tested_logged; [apply recordTest_tested | done].
Qed.

Lemma testServiceMetadata_passes metadata :
  passes (testServiceMetadata clock metadata)
    match metadata with
    | Ok (endpoint, model) => negb (falsy endpoint || falsy model)
    | Err _ => false
    end.
Proof.
  intros s. destruct metadata as [[endpoint model]|message]; simpl;
    [|split; [done|]; compute_tested].
  unfold testServiceMetadata. rewrite !run_bind. simpl.
  destruct (falsy endpoint || falsy model); simpl; (split; [done|]); compute_tested.
Qed.

Lemma testProviderAcknowledgment_passes acknowledged :
  passes (testProviderAcknowledgment clock acknowledged) (isOk acknowledged).
Proof.
  intros s. destruct acknowledged; simpl; (split; [done|]); compute_tested.
Qed.

Lemma testServingCapability_passes svc :
  passes (testServingCapability clock svc)
    match requestHeaders svc, completion svc, verification svc with
    | Ok _, Ok c, Ok _ => truthy (default EmptyString (completion_content c))
    | _, _, _ => false
    end.
Proof.
  intros s. destruct svc as [[headers|] [c|] [v|]]; simpl;
    try (split; [done|]; compute_tested).
  unfold testServingCapability. rewrite !run_bind. simpl.
  destruct (truthy (default EmptyString (completion_content c))); simpl;
    (split; [done|]); compute_tested.
Qed.

Lemma suite_passes env : Forall2 passes (suite clock env) (verdicts env).
Proof.
  unfold suite, verdicts.
  constructor; [apply setupProvider_passes|].
  constructor; [apply createBroker_passes|].
  constructor; [apply createAccount_passes|].
  constructor; [apply listServices_passes|].
  constructor; [apply testServiceMetadata_passes|].
  constructor; [apply testProviderAcknowledgment_passes|].
  constructor; [apply testServingCapability_passes|].
  constructor.
Qed.

(** ** The report and the chain of tests *)

Lemma consistent_record r R : consistent R → consistent (record r R).
Proof.
  intros (Ht & Hp & Hf). unfold consistent, record. simpl.
  rewrite !filter_app, !length_app, !filter_cons, !filter_nil.
  destruct (success r); simpl; repeat case_decide; simpl; try done; lia.
Qed.

Lemma tested_counts b s s' :
  tested b s s' →
  total (results s') = S (total (results s))
  ∧ passed (results s') = (if b then S (passed (results s)) else passed (results s))
  ∧ failed (results s') = (if b then failed (results s) else S (failed (results s)))
  ∧ (consistent (results s) → consistent (results s'))
  ∧ redirected s' = redirected s
  ∧ streams s' = streams s.
Proof.
  intros ((r & <- & ->) & ? & ?). do 3 (split; [done|]).
  split; [apply consistent_record | done].
Qed.

Lemma generateReport_spec s :
  (generateReport clock s).1
  = (if bool_decide (failed (results s) = 0%nat) then 0 else 1)
  ∧ results (generateReport clock s).2 = results s
  ∧ redirected (generateReport clock s).2 = redirected s
  ∧ streams (generateReport clock s).2 = streams s ++ [negb (redirected s)].
Proof.
  repeat split. unfold streams. simpl. rewrite omap_app.
  by destruct (redirected s).
Qed.

Lemma orReport_run m rest s :
  orReport clock m rest s
  = if (m s).1 then rest (m s).2
    else (Some (generateReport clock (m s).2).1, (generateReport clock (m s).2).2).
Proof.
  unfold orReport. rewrite run_bind. destruct (m s).1; [done|].
  by rewrite run_bind.
Qed.

Lemma ran_le bs : (ran bs ≤ length bs)%nat.
Proof. induction bs as [|[] bs IH]; simpl; lia. Qed.

Lemma ran_all bs : all bs = true → ran bs = length bs.
Proof. induction bs as [|[] bs IH]; simpl; [done| |done]. intros. f_equal. auto. Qed.

(** The [try] block: every test up to the first failure runs; on a
    failure the report is written at once, while the console is
    patched. *)
Lemma chain_spec ms bs :
  Forall2 passes ms bs →
  ∀ s, redirected s = true → failed (results s) = 0%nat →
  let out := chain clock ms s in
  out.1 = (if all bs then None else Some 1)
  ∧ total (results out.2) = (total (results s) + ran bs)%nat
  ∧ failed (results out.2) = (if all bs then 0 else 1)%nat
  ∧ (passed (results out.2) + failed (results out.2)
     = passed (results s) + ran bs)%nat
  ∧ (consistent (results s) → consistent (results out.2))
  ∧ redirected out.2 = true
  ∧ streams out.2 = streams s ++ (if all bs then [] else [false]).
Proof.
  induction 1 as [|m b ms bs Hm _ IH]; intros s Hr Hf.
  { simpl. rewrite !Nat.add_0_r, app_nil_r. by rewrite Hf. }
  change (chain clock (m :: ms)) with (orReport clock m (chain clock ms)).
  cbv zeta. rewrite orReport_run. destruct (Hm s) as [-> Ht].
  apply tested_counts in Ht as (Ht & Hp & Hf' & Hc & Hr' & Hs).
  destruct b; cbn [fst snd all forallb ran andb].
  - destruct (IH (m s).2) as (-> & -> & -> & Hpf & Hc' & -> & ->);
      [congruence | congruence |].
    rewrite Ht, Hs, Hpf, Hp. split_and!; try done; try lia. auto.
  - destruct (generateReport_spec (m s).2) as (-> & -> & -> & ->).
    rewrite Hf', Hf, Ht, Hp, Hs, Hr', Hr. simpl.
    split_and!; try done; try lia.
Qed.

(** What a run amounts to: the exit code, the counters, the console
    and the stream of the report, from the verdicts of the tests. *)
Lemma runAllTests_spec env :
  let out := runAllTests clock env constructor in
  out.1 = (if all (verdicts env) then 0 else 1)
  ∧ total (results out.2) = ran (verdicts env)
  ∧ failed (results out.2) = (if all (verdicts env) then 0 else 1)%nat
  ∧ (passed (results out.2) + failed (results out.2) = ran (verdicts env))%nat
  ∧ consistent (results out.2)
  ∧ redirected out.2 = false
  ∧ streams out.2 = [all (verdicts env)].
Proof.
  unfold runAllTests. rewrite !run_bind.
  set (s0 := (modify (with_redirected true) _).2).
  change (orReport clock _ _) with (chain clock (suite clock env)).
  destruct (chain_spec _ _ (suite_passes env) s0)
    as (Hcode & Ht & Hf & Hpf & Hc & Hr & Hs); [done | done |].
  set (s1 := (modify (with_redirected false) _).2).
  assert (results s1 = results (chain clock (suite clock env) s0).2
          ∧ streams s1 = streams (chain clock (suite clock env) s0).2
          ∧ redirected s1 = false) as (HR1 & Hs1 & Hr1) by done.
  assert (consistent (results s1)) as Hc1 by (rewrite HR1; by apply Hc).
  rewrite Hcode. destruct (all (verdicts env)); cbv iota.
  - destruct (generateReport_spec s1) as (-> & -> & -> & ->).
    by rewrite HR1, Hs1, Hr1, Hpf, Hf, Ht, Hs.
  - unfold mret, M_ret. cbn [fst snd].
    by rewrite HR1, Hs1, Hpf, Hf, Ht, Hs.
Qed.

(** ** The contract of the script *)

(** C31. The exit code of a run is 0 exactly when every one of the
    seven tests passes, where a test passes as [verdicts] says: the
    awaited calls succeed, the list of services is not empty, endpoint
    and model are present, the answer is not empty; an error saying
    that the ledger account already exists counts as a pass. *)
Theorem runAllTests_exit_code env :
  (runAllTests clock env constructor).1 = (if all (verdicts env) then 0 else 1).
Proof. apply runAllTests_spec. Qed.

(** A run stops at the first test that fails: it records the
    tests up to and including that one, so at most seven tests, at
    most one failure, and [passed + failed = total]. *)
Theorem runAllTests_counts env :
  let R := results (runAllTests clock env constructor).2 in
  total R = ran (verdicts env)
  ∧ failed R = (if all (verdicts env) then 0 else 1)%nat
  ∧ (passed R + failed R = total R)%nat
  ∧ (total R ≤ 7)%nat ∧ (failed R ≤ 1)%nat.
Proof.
  destruct (runAllTests_spec env) as (_ & Ht & Hf & Hpf & _). cbv zeta.
  rewrite Hpf, Ht, Hf. split_and!; try done.
  - apply (ran_le (verdicts env)).
  - by destruct (all (verdicts env)); lia.
Qed.

(** After a run the counters agree with the list of recorded
    tests (as many records as [total], as many successful ones as
    [passed], as many failed ones as [failed]), and the console is
    restored. *)
Theorem runAllTests_consistent env :
  consistent (results (runAllTests clock env constructor).2)
  ∧ redirected (runAllTests clock env constructor).2 = false.
Proof. destruct (runAllTests_spec env) as (_ & _ & _ & _ & Hc & Hr & _). done. Qed.

(** C32. A run writes one report.  It goes to the output stream only
    when every test has passed: after a failure the report is written
    by the [return] inside the [try] block, before [finally] has
    restored the console, and so goes to the error stream. *)
Theorem report_stream env :
  streams (runAllTests clock env constructor).2 = [all (verdicts env)].
Proof. apply runAllTests_spec. Qed.

(** [main] ends the process, with the exit code of the run, by its
    last call: no test throws, so [main()] is never rejected and the
    handler [onFatal] does not run after a run of the seven tests. *)
Theorem main_exits env :
  last (out (main clock env constructor).2)
  = Some (Exit (if all (verdicts env) then 0 else 1)).
Proof.
  unfold main. rewrite run_bind.
  destruct (runAllTests_spec env) as (-> & _). simpl. apply last_snoc.
Qed.

(** A rejected [main()] writes one line on the error stream, no report,
    and exits with code 1; the recorded results stay as they are. *)
Theorem onFatal_exits error s :
  out (onFatal error s).2 = out s ++ [Stderr ("Fatal error: " +:+ error); Exit 1]
  ∧ streams (onFatal error s).2 = streams s
  ∧ results (onFatal error s).2 = results s.
Proof.
  unfold onFatal. rewrite run_bind, !streams_app, !app_nil_r.
  split_and!; [|done..]. simpl. by rewrite <-app_assoc.
Qed.

(** [askLLM] makes its three calls in order and fails with the
    message of the first that is rejected; when all succeed the output
    is the content of the first choice, or the empty string when there
    is none, and the history gains the question and the answer.  The
    recorded results are not touched. *)
Theorem askLLM_result svc providerAddress inputParam history s :
  (askLLM svc providerAddress inputParam history s).1
  = match requestHeaders svc, completion svc, verification svc with
    | Err message, _, _ => Err message
    | Ok _, Err message, _ => Err message
    | Ok _, Ok _, Err message => Err message
    | Ok _, Ok c, Ok v =>
        Ok (mkReply (default EmptyString (completion_content c)) v
              (history ++ [mkMessage "user" inputParam;
                           mkMessage "assistant"
                             (default EmptyString (completion_content c))]))
    end
  ∧ results (askLLM svc providerAddress inputParam history s).2 = results s.
Proof.
  destruct svc as [[h|] [c|] [v|]]; simpl; try done.
  by rewrite <- app_assoc.
Qed.


End properties.

(** ** The script on sample runs *)


(** With at most 31 tests no rate lies half way between two
    hundredths, so the rounding mode of [toFixed] does not matter. *)
Lemma successRate_no_tie (total passed : nat) :
  (0 < total < 32)%nat → (passed ≤ total)%nat →
  (20000 * Z.of_nat passed + Z.of_nat total) mod (2 * Z.of_nat total) ≠ 0.
Proof.
  intros Ht Hp.
  assert (Forall (λ t, Forall (λ p,
            (20000 * Z.of_nat p + Z.of_nat t) mod (2 * Z.of_nat t) ≠ 0)
            (seq 0 (S t))) (seq 1 31)) as H by by_compute.
  rewrite Forall_forall in H. specialize (H total).
  rewrite Forall_forall in H. apply H; apply elem_of_seq; lia.
Qed.

End Tester.
