(* ===== verification/Invariants.v ===== *)
(** * The invariant of the event loop

    What holds of every world the program reaches ([System.reachable]):
    the registry is well formed, the startup sequence is a single thread
    of continuations that has ended when the signal handlers are
    installed, a readiness wait only waits for a registered id, and once
    the manager shuts down every registered process that still runs has
    been sent [SIGTERM] and is marked [killed].  The invariant is kept by
    each primitive change of the world, hence by each handler, hence by
    each step. *)

From S2P Require Import Prelude Node Config Registry Balancer World.
From S2P Require Import Health Supervisor Shutdown System.

Module Invariants.
Import Registry World System.

(** The worlds the program reaches from its initial state. *)
Inductive reachable (cfg : Config.t) : World.t → Prop :=
  | reachable_init : reachable cfg World.init
  | reachable_step w e es w' :
      reachable cfg w → step cfg e w = Some (es, w') → reachable cfg w'.

(** The continuations of the startup sequence: the sleep between two
    instances, and a readiness wait whose caller is [start]. *)
Definition starting (t : Task) : bool :=
  match t with
  | TStartSleep _ => true
  | TReadyProbe _ _ _ _ k | TReadySleep _ _ _ _ k => bool_decide (k ≠ KReturn)
  | _ => false
  end.

(** How many of them are pending. *)
Definition tokens (w : World.t) : nat :=
  length (filter (λ t, starting t = true) (tasks w)).

(** The id a readiness wait waits for. *)
Definition awaited (t : Task) : option string :=
  match t with
  | TReadyProbe instanceId _ _ _ _ | TReadySleep instanceId _ _ _ _ =>
      Some instanceId
  | _ => None
  end.

(** The caller that a pending continuation resumes in the end. *)
Definition caller (t : Task) : Cont :=
  match t with
  | TReadyProbe _ _ _ _ k | TReadySleep _ _ _ _ k => k
  | TStartSleep i => KStartKeys i
  | _ => KReturn
  end.

(** The caller [k] may be resumed in [w]: unless it is the restart
    timer, it is the only thread of the startup sequence. *)
Definition resumable (k : Cont) (w : World.t) : Prop :=
  k ≠ KReturn → tokens w = 0%nat ∧ handling w = false.

(** The invariant of a world [w] in which [start] has been called.
    The last two fields compare [w] with an earlier world [w0]: the
    map has kept its keys in their order, and if the manager was
    shutting down then, it still is and no child process has been
    created since. *)
Record Inv (w0 w : World.t) : Prop := mkInv {
  inv_started : started w = true;
  inv_wf : wf (reg w);
  inv_tokens : (tokens w ≤ 1)%nat;
  inv_handling : handling w = true → tokens w = 0%nat;
  inv_shutting :
    isShuttingDown (mgr (reg w)) = true → handling w = true ∧ quiet w;
  inv_grace : TGrace ∈ tasks w → isShuttingDown (mgr (reg w)) = true;
  inv_signals : ∀ p ch,
    children w !! p = Some ch →
    signals ch = if killed ch then [SIGTERM] else [];
  inv_awaited : ∀ t instanceId,
    t ∈ tasks w → awaited t = Some instanceId →
    instanceId ∈ jm_keys (instances (mgr (reg w)));
  inv_keys :
    jm_keys (instances (mgr (reg w0))) `prefix_of` jm_keys (instances (mgr (reg w)));
  inv_frozen :
    isShuttingDown (mgr (reg w0)) = true →
    isShuttingDown (mgr (reg w)) = true
    ∧ length (children w) = length (children w0);
}.

(** ** A run of the program

    Two keys.  Both workers come up at their first probe; the first
    worker then crashes, and a [SIGTERM] arrives before its restart
    timer fires. *)
Definition sample_startup : list Event :=
  [EStart true Supervisor.sample_clock;
   EResume 0 (AProbe (Health.Response 200) 12000);
   EResume 0 (ATimer true Supervisor.sample_clock);
   EResume 0 (AProbe (Health.Response 200) 15000);
   EResume 0 (ATimer true Supervisor.sample_clock)].

Definition sample_events : list Event :=
  sample_startup ++ [EClose 0 (Some 1); ESignal "SIGTERM"].

(** The world after the startup, and the world after the signal. *)
Definition sample_up : World.t :=
  from_option snd World.init (run Supervisor.sample_cfg sample_startup World.init).

Definition sample_down : World.t :=
  from_option snd World.init (run Supervisor.sample_cfg sample_events World.init).

(** * The primitive changes *)

Section primitives.
Context (w0 : World.t).
Implicit Types (w : World.t) (t : Task) (k : Cont).

Lemma tokens_add_task t w :
  tokens (add_task t w) = (tokens w + if starting t then 1 else 0)%nat.
Proof.
  unfold tokens. rewrite tasks_add_task, filter_app, length_app. f_equal.
  rewrite filter_cons, filter_nil. by destruct (starting t).
Qed.

Lemma tokens_delete w n t :
  tasks w !! n = Some t →
  tokens w
  = (tokens (with_tasks (delete n (tasks w)) w) + if starting t then 1 else 0)%nat.
Proof.
  intros Hn. unfold tokens. simpl.
  rewrite (length_filter_delete _ _ n t Hn). by destruct (starting t).
Qed.

(** Not shutting down, where the startup sequence still runs. *)
Lemma Inv_running w :
  Inv w0 w → handling w = false → isShuttingDown (mgr (reg w)) = false.
Proof.
  intros HI Hh. destruct (isShuttingDown (mgr (reg w))) eqn:E; [|done].
  apply (inv_shutting _ _ HI) in E as [? _]. congruence.
Qed.

(** The invariant reads the registry, the children, the tasks and two
    flags. *)
Lemma Inv_ext w w' : agree w w' → Inv w0 w → Inv w0 w'.
Proof.
  intros H []. pose proof (quiet_agree _ _ H) as Hq.
  destruct H as (Hh & Hi & Hc & Hs & Hch & Ht & Hha & Hst).
  split; unfold tokens, wf, id_at in *; rewrite <- ?Hh, <- ?Hi, <- ?Hc, <- ?Hs,
    <- ?Hch, <- ?Ht, <- ?Hha, <- ?Hst, <- ?Hq; done.
Qed.

#[export] Instance Inv_agree : Proper (agree ==> iff) (Inv w0).
Proof. intros w w' H. split; apply Inv_ext; [done | by symmetry]. Qed.

(** A write to a field of an instance object other than [id] and
    [process]. *)
Lemma processes_update f r w :
  (∀ i, process (f i) = process i) →
  processes (on_reg (update f r) w) = processes w.
Proof.
  intros Hf. unfold processes. simpl. apply list_bind_ext; [|done].
  intros [k r']. unfold pid_of. simpl. rewrite list_lookup_alter.
  case_decide; [subst|done]. destruct (heap (reg w) !! r'); simpl; by rewrite ?Hf.
Qed.

Lemma Inv_write f r w :
  (∀ i, id (f i) = id i) → (∀ i, process (f i) = process i) →
  Inv w0 w → Inv w0 (on_reg (update f r) w).
Proof.
  intros Hid Hp []. split; try done.
  - by apply wf_update.
  - intros [? Hq]%inv_shutting0. split; [done|].
    unfold quiet. by rewrite processes_update.
Qed.

(** A task handed to the event loop. *)
Lemma Inv_add_task t w :
  Inv w0 w →
  (starting t = true → tokens w = 0%nat ∧ handling w = false) →
  t ≠ TGrace →
  (∀ instanceId, awaited t = Some instanceId →
     instanceId ∈ jm_keys (instances (mgr (reg w)))) →
  Inv w0 (add_task t w).
Proof.
  intros [] Hs Hg Ha. split; try done.
  - rewrite tokens_add_task. destruct (starting t); [|lia].
    destruct Hs as [-> _]; [done | lia].
  - rewrite tokens_add_task. intros Hh. destruct (starting t).
    + destruct Hs as [_ Hs]; [done|]. simpl in Hh. congruence.
    + rewrite inv_handling0 by done. done.
  - rewrite tasks_add_task. intros [?|Hin]%elem_of_app; [auto|].
    by apply list_elem_of_singleton in Hin.
  - rewrite tasks_add_task. intros t' instanceId [?|Hin]%elem_of_app; [eauto|].
    apply list_elem_of_singleton in Hin as ->. apply Ha.
Qed.

(** A task taken from the event loop. *)
Lemma Inv_delete n w t :
  tasks w !! n = Some t → Inv w0 w → Inv w0 (with_tasks (delete n (tasks w)) w).
Proof.
  intros Hn []. pose proof (tokens_delete w n t Hn) as Ht.
  assert (∀ x, x ∈ delete n (tasks w) → x ∈ tasks w) as Hsub.
  { intros x. apply list_elem_of_delete_inv. }
  split; simpl; try done; [lia | intros ?%inv_handling0; lia | auto | eauto].
Qed.

(** The task taken was the thread of the startup sequence. *)
Lemma resumable_delete n w t k :
  Inv w0 w → tasks w !! n = Some t → starting t = true →
  resumable k (with_tasks (delete n (tasks w)) w).
Proof.
  intros [] Hn Hs _. pose proof (tokens_delete w n t Hn) as Ht.
  rewrite Hs in Ht. split; [lia|]. simpl.
  destruct (handling w) eqn:Hh; [|done]. rewrite inv_handling0 in Ht by done. lia.
Qed.

(** Only the startup sequence has a caller that waits. *)
Lemma caller_starting t : caller t ≠ KReturn → starting t = true.
Proof. destruct t; simpl; try done; intros; by apply bool_decide_eq_true. Qed.

(** The caller of the task taken may be resumed. *)
Lemma resumable_caller n w t :
  Inv w0 w → tasks w !! n = Some t →
  resumable (caller t) (with_tasks (delete n (tasks w)) w).
Proof.
  intros HI Hn Hk. by eapply resumable_delete; [| |apply caller_starting|].
Qed.

(** Where no thread of the startup sequence is pending, no task is
    one. *)
Lemma tokens_0 w t : tokens w = 0%nat → t ∈ tasks w → starting t = false.
Proof.
  unfold tokens. intros Hl%length_zero_iff_nil Ht.
  destruct (starting t) eqn:E; [|done].
  assert (t ∈ filter (λ t, starting t = true) (tasks w)) as Hin
    by (by apply list_elem_of_filter).
  rewrite Hl in Hin. by apply elem_of_nil in Hin.
Qed.

(** A worker launched while the manager is not shutting down. *)
Lemma Inv_launched instanceId key port now w :
  Inv w0 w → isShuttingDown (mgr (reg w)) = false →
  Inv w0 (Supervisor.launched instanceId key port now w).
Proof.
  intros [] Hs.
  destruct (Supervisor.launched_flags instanceId key port now w) as (Hh & Hst & Hsh).
  split.
  - by rewrite Hst.
  - by apply Supervisor.launched_wf.
  - done.
  - by rewrite Hh.
  - by rewrite Hsh, Hs.
  - intros ?%inv_grace0. congruence.
  - rewrite Supervisor.launched_children.
    intros p ch [?|[_ Hch]]%lookup_app_Some; [eauto|].
    by apply list_lookup_singleton_Some in Hch as [_ <-].
  - intros t k Ht Ha. apply Supervisor.launched_keys. right. eauto.
  - etransitivity; [exact inv_keys0|].
    rewrite Supervisor.launched_reg, register_instances. apply jm_keys_set_prefix.
  - intros [? _]%inv_frozen0. congruence.
Qed.

Lemma Inv_exit_child p w : Inv w0 w → Inv w0 (exit_child p w).
Proof.
  intros []. split; try done.
  - intros [? Hq]%inv_shutting0. split; [done|]. intros q ch Hq' Hch Hrun.
    simpl in Hch. rewrite list_lookup_alter in Hch. case_decide; [subst|eauto].
    destruct (children w !! q) as [ch0|]; simplify_eq/=.
  - intros q ch Hch. simpl in Hch. rewrite list_lookup_alter in Hch.
    case_decide; [subst|eauto].
    destruct (children w !! q) as [ch0|] eqn:E; simplify_eq/=. eauto.
  - simpl. by rewrite length_alter.
Qed.

End primitives.

(** * The handlers *)

Section handlers.
Context (cfg : Config.t) (w0 : World.t).
Implicit Types (w : World.t) (t : Task) (k : Cont).

Lemma Inv_startServices w :
  Inv w0 w → tokens w = 0%nat → Inv w0 (startServices cfg w).2.
Proof.
  intros [] Ht. rewrite startServices_world. split; try done.
  intros [_ ?]%inv_shutting0. by split.
Qed.

Lemma Inv_resume k b w : Inv w0 w → resumable k w → Inv w0 (resume cfg k b w).2.
Proof.
  intros HI Hk. destruct k as [|i|]; simpl; [done| |].
  - apply Inv_add_task; [done | by intros _; apply Hk | done..].
  - apply Inv_startServices; [done|]. by apply Hk.
Qed.

Lemma Inv_await t k w instanceId :
  Inv w0 w → resumable k w → starting t = bool_decide (k ≠ KReturn) →
  awaited t = Some instanceId →
  instanceId ∈ jm_keys (instances (mgr (reg w))) →
  Inv w0 (add_task t w).
Proof.
  intros HI Hk Hs Ha Hin. apply Inv_add_task; [done| | |].
  - rewrite Hs. intros ?%bool_decide_eq_true. by apply Hk.
  - by intros ->.
  - intros ? ?. by simplify_eq.
Qed.

(** [start] is a caller of the readiness wait. *)
#[export] Instance Inv_resumes : Resumes (Inv w0) resumable (resume cfg).
Proof. intros k b w. apply Inv_resume. Qed.

Lemma Inv_onReadySleep now instanceId port startTime maxWait k w :
  Inv w0 w → resumable k w →
  instanceId ∈ jm_keys (instances (mgr (reg w))) →
  Inv w0 (Health.onReadySleep (resume cfg) now instanceId port startTime maxWait k w).2.
Proof.
  intros HI Hk Hin.
  apply (Health.onReadySleep_keeps _ (Inv w0) resumable); [done..|].
  by eapply Inv_await.
Qed.

Lemma Inv_onReadyProbe o instanceId port startTime maxWait k w :
  Inv w0 w → resumable k w →
  instanceId ∈ jm_keys (instances (mgr (reg w))) →
  Inv w0 (Health.onReadyProbe (resume cfg) o instanceId port startTime maxWait k w).2.
Proof.
  intros HI Hk Hin.
  apply (Health.onReadyProbe_keeps _ (Inv w0) resumable);
    [done | done | | by eapply Inv_await].
  intros r _. split; [by apply Inv_write | done].
Qed.

Lemma Inv_startInstance found clock instanceId key port k w :
  Inv w0 w → isShuttingDown (mgr (reg w)) = false → resumable k w →
  Inv w0 (Supervisor.startInstance cfg (resume cfg) found clock instanceId key port k w).2.
Proof.
  intros HI Hs Hk.
  apply (Supervisor.startInstance_keeps _ _ (Inv w0) resumable);
    [by apply Inv_launched | done |].
  eapply Inv_await; [by apply Inv_launched | done..|].
  apply Supervisor.launched_keys. by left.
Qed.

Lemma Inv_startKey found clock i w :
  Inv w0 w → tokens w = 0%nat → handling w = false →
  Inv w0 (startKey cfg found clock i w).2.
Proof.
  intros HI Ht Hh. unfold startKey.
  destruct (Config.KEYS cfg !! i); [|by apply Inv_startServices].
  apply Inv_startInstance; [done | by eapply Inv_running | done].
Qed.

Lemma Inv_start found clock w :
  Inv w0 w → tokens w = 0%nat → handling w = false →
  Inv w0 (start cfg found clock w).2.
Proof.
  intros HI Ht Hh. destruct (start_cases cfg found clock w) as [->|[->| ->]].
  - by rewrite with_exited_agree.
  - by apply Inv_startKey.
  - apply Inv_startInstance; [done | by eapply Inv_running | done].
Qed.

Lemma Inv_onRestartTimer found clock c w :
  Inv w0 w → Inv w0 (Supervisor.onRestartTimer cfg (resume cfg) found clock c w).2.
Proof.
  intros HI. unfold Supervisor.onRestartTimer.
  destruct (isShuttingDown (mgr (reg w))) eqn:Hs; [done|].
  apply Inv_startInstance; [by apply Inv_write | done | done].
Qed.

Lemma Inv_onClose c code w : Inv w0 w → Inv w0 (Supervisor.onClose c code w).2.
Proof.
  intros HI. unfold Supervisor.onClose. case_match; [|by apply Inv_write].
  apply Inv_add_task; [by apply Inv_write | done..].
Qed.

Lemma Inv_healthLoop pos w : Inv w0 w → Inv w0 (Health.healthLoop pos w).2.
Proof.
  intros HI. unfold Health.healthLoop. repeat case_match; try done.
  by apply Inv_add_task.
Qed.

Lemma Inv_onHealthProbe o now pos instanceId r wasHealthy w :
  Inv w0 w → Inv w0 (Health.onHealthProbe o now pos instanceId r wasHealthy w).2.
Proof.
  intros HI. unfold Health.onHealthProbe.
  match goal with |- context [Health.healthLoop ?p ?w'] =>
    pose proof (Inv_healthLoop p w') as H; destruct (Health.healthLoop p w') end.
  apply H. by do 2 (apply Inv_write; [done | done |]).
Qed.

(** The state after a request: the cursor has moved, proxied requests
    are in flight. *)
Lemma Inv_request st ts w :
  Inv w0 w → wf st →
  instances (mgr st) = instances (mgr (reg w)) →
  isShuttingDown (mgr st) = isShuttingDown (mgr (reg w)) →
  heap st = heap (reg w) →
  Forall (λ t, ∃ r, t = TProxy r) ts →
  Inv w0 (with_tasks (tasks w ++ ts) (with_reg st w)).
Proof.
  intros [] Hwf Hi Hs Hh Hts.
  assert (∀ t, t ∈ ts → starting t = false ∧ t ≠ TGrace ∧ awaited t = None) as Hp.
  { intros t Ht. rewrite Forall_forall in Hts. by destruct (Hts t Ht) as [r ->]. }
  assert (tokens (with_tasks (tasks w ++ ts) (with_reg st w)) = tokens w) as Htok.
  { unfold tokens. simpl. rewrite filter_app, length_app.
    rewrite (filter_none _ ts); [simpl; lia|].
    apply Forall_forall. intros t Ht. destruct (Hp t Ht) as [-> _]. done. }
  split; simpl; rewrite ?Htok, ?Hs, ?Hi; try done.
  - intros [? Hq]%inv_shutting0. split; [done|].
    unfold quiet, processes in *. simpl. by rewrite Hi; unfold pid_of; rewrite Hh.
  - intros [?|Ht]%elem_of_app; [auto|]. by destruct (Hp _ Ht) as (_ & ? & _).
  - intros t k [?|Ht]%elem_of_app; [eauto|].
    destruct (Hp _ Ht) as (_ & _ & ->). done.
Qed.

Lemma Inv_handleRequest clock req w :
  Inv w0 w →
  Inv w0 (with_tasks
         (tasks w ++ proxied (Balancer.handleRequest clock req (reg w)).1)
         (with_reg (Balancer.handleRequest clock req (reg w)).2 w)).
Proof.
  intros HI. rewrite Balancer.handleRequest_state.
  apply Inv_request; [done| | | | |].
  - apply Balancer.getHealthyInstance_wf, HI.
  - apply Balancer.getHealthyInstance_instances.
  - apply Balancer.getHealthyInstance_isShuttingDown.
  - apply Balancer.getHealthyInstance_heap.
  - apply proxied_spec.
Qed.

Lemma Inv_proxyError r message w :
  Inv w0 w → Inv w0 (with_reg (Balancer.proxyError r message (reg w)).2 w).
Proof.
  intros HI. rewrite Balancer.proxyError_state. by apply (Inv_write w0 _ r w).
Qed.

(** The signal handler. *)
Lemma Inv_shutdown signal w :
  Inv w0 w → handling w = true → Inv w0 (Shutdown.shutdown signal w).2.
Proof.
  intros [] Hh. rewrite Shutdown.shutdown_world.
  destruct (Shutdown.flags_stopped w) as [Hh' Hs'].
  assert (tokens (Shutdown.stopped w) = tokens w) as Ht.
  { unfold tokens. rewrite Shutdown.tasks_stopped, filter_app, length_app.
    simpl. lia. }
  split.
  - by rewrite Hs'.
  - by rewrite Shutdown.reg_stopped.
  - by rewrite Ht.
  - intros _. rewrite Ht. by apply inv_handling0.
  - intros _. split; [by rewrite Hh' | apply Shutdown.quiet_stopped].
  - intros _. by rewrite Shutdown.reg_stopped.
  - intros p ch. rewrite Shutdown.children_stopped, deliver_all_lookup.
    case_decide; [|by eauto].
    destruct (children w !! p) as [ch0|] eqn:E; [|done]. intros [= <-].
    specialize (inv_signals0 p ch0 E). unfold deliver.
    destruct ch0 as [[] [] ? ?]; simpl in *; by subst.
  - intros t k. rewrite Shutdown.tasks_stopped, Shutdown.reg_stopped.
    intros [?|Ht']%elem_of_app; [by eauto|].
    by apply list_elem_of_singleton in Ht' as ->.
  - by rewrite Shutdown.reg_stopped.
  - intros [_ Hl]%inv_frozen0.
    by rewrite Shutdown.reg_stopped, Shutdown.children_stopped, deliver_all_length.
Qed.

Lemma Inv_shutdownAfterGrace w :
  Inv w0 w → isShuttingDown (mgr (reg w)) = true →
  Inv w0 (Shutdown.shutdownAfterGrace w).2.
Proof.
  intros HI Hs. rewrite Shutdown.shutdownAfterGrace_world.
  destruct (inv_shutting _ _ HI Hs) as [_ Hq].
  by rewrite quiet_deliver_all, with_children_id, with_exited_agree.
Qed.

(** ** The step *)

Lemma Inv_runTask t a w :
  Inv w0 w → resumable (caller t) w →
  (∀ instanceId, awaited t = Some instanceId →
     instanceId ∈ jm_keys (instances (mgr (reg w)))) →
  (t = TGrace → isShuttingDown (mgr (reg w)) = true) →
  from_option (λ out, Inv w0 out.2) True (runTask cfg t a w).
Proof.
  intros HI Hk Ha Hg.
  destruct t, a; cbn [runTask from_option snd caller] in *; try done.
  - by apply Inv_onRestartTimer.
  - apply Inv_onReadyProbe; auto.
  - apply Inv_onReadySleep; auto.
  - destruct Hk; [done|]. by apply Inv_startKey.
  - by apply Inv_onHealthProbe.
  - pose proof (Inv_proxyError instance message w HI) as HI'.
    by destruct (Balancer.proxyError _ _ _).
  - by apply Inv_shutdownAfterGrace, Hg.
  - by apply Inv_shutdownAfterGrace, Hg.
  - by apply Inv_shutdownAfterGrace, Hg.
  - by apply Inv_shutdownAfterGrace, Hg.
Qed.

(** A step keeps the invariant. *)
Lemma Inv_step_option e w :
  Inv w0 w → from_option (λ out, Inv w0 out.2) True (step cfg e w).
Proof.
  intros HI. unfold step. case_decide; [done|].
  destruct e; try (destruct (children w !! child) as [ch|]; [simpl|done];
                   destruct (listeners ch) as [c|]; [simpl|done]).
  - by rewrite (inv_started _ _ HI).
  - destruct (running ch); [simpl|done]. by apply Inv_onClose, Inv_exit_child.
  - by apply (Inv_write w0 _ _ w).
  - done.
  - done.
  - destruct (tasks w !! n) as [t|] eqn:Ht; [simpl|done].
    apply Inv_runTask; [by eapply Inv_delete | by eapply resumable_caller | |].
    + intros k Hk. eapply (inv_awaited _ _ HI); [|done].
      by eapply list_elem_of_lookup_2.
    + intros ->. eapply (inv_grace _ _ HI), list_elem_of_lookup_2. done.
  - destruct (ticking w); [simpl|done]. by apply Inv_healthLoop.
  - destruct (listening w); [|done].
    pose proof (Inv_handleRequest clock req w HI) as H'.
    by destruct (Balancer.handleRequest _ _ _).
  - by destruct (listening w).
  - destruct (handling w) eqn:Hh; [simpl|done]. by apply Inv_shutdown.
  - destruct (started w && negb (listening w)); [simpl|done].
    by rewrite with_exited_agree.
Qed.

Lemma Inv_step e w es w' : Inv w0 w → step cfg e w = Some (es, w') → Inv w0 w'.
Proof. intros HI Hs. pose proof (Inv_step_option e w HI) as H. by rewrite Hs in H. Qed.

End handlers.

(** * Reachable worlds *)

Section reachable.
Context (cfg : Config.t).

(** A run leads from reachable worlds to reachable worlds. *)
Lemma run_reachable evs : ∀ w es w',
  reachable cfg w → run cfg evs w = Some (es, w') → reachable cfg w'.
Proof.
  induction evs as [|e evs IH]; intros w es w' Hw Hrun; simplify_eq/=; [done|].
  destruct (step cfg e w) as [[es1 w1]|] eqn:Hstep; simplify_eq/=.
  destruct (run cfg evs w1) as [[es2 w2]|] eqn:E; simplify_eq/=.
  eapply IH; [|done]. by eapply reachable_step.
Qed.

(** The first step is [start]. *)
Lemma Inv_first e es w' :
  step cfg e World.init = Some (es, w') → Inv World.init w'.
Proof.
  unfold step. destruct e; simpl; try done; try by destruct child.
  intros [= <-]%(f_equal (fmap snd)). apply Inv_start; [|done..].
  split; try done; simpl; try by intros ?%elem_of_nil.
  - apply wf_init.
  - unfold tokens. simpl. lia.
  - by intros ?? ?%elem_of_nil.
Qed.

(** The comparison starts afresh at any world. *)
Lemma Inv_rebase w0 w : Inv w0 w → Inv w w.
Proof. intros []. by split. Qed.

Lemma reachable_Inv w : reachable cfg w → w = World.init ∨ Inv w w.
Proof.
  induction 1 as [|w e es w' _ [->|HI] Hstep]; [by left|right..].
  - eapply Inv_rebase, Inv_first. done.
  - eapply Inv_rebase, Inv_step; done.
Qed.

(** A step from a reachable world, compared with that world. *)
Lemma reachable_step_Inv w e es w' :
  reachable cfg w → step cfg e w = Some (es, w') → Inv w w'.
Proof.
  intros [->|HI]%reachable_Inv Hstep; [by eapply Inv_first | by eapply Inv_step].
Qed.

(** ** What holds of every reachable world *)

(** The registry of a reachable world, for the developments that start
    from it. *)
Lemma reachable_registry w : reachable cfg w → wf (reg w).
Proof. intros [->|[]]%reachable_Inv; [apply wf_init | done]. Qed.

(** C3. The registry is well formed in every world the program
    reaches: the keys of the map are distinct, every entry refers to an
    instance object that carries the entry's key as its id, and the
    round-robin cursor refers to an object. *)
Theorem reachable_wf w : reachable cfg w → wf (reg w).
Proof. apply reachable_registry. Qed.

(** C2. No worker process is ever sent [SIGKILL].  Whatever the
    workers and the clients do, and however often the manager is
    signalled, the forced kill of the shutdown handler reaches no
    process: the handler skips every child whose [killed] flag is set,
    and the flag is set by the [SIGTERM] it has sent before. *)
Theorem sigkill_never_delivered w p ch :
  reachable cfg w → children w !! p = Some ch → SIGKILL ∉ signals ch.
Proof.
  intros [->|HI]%reachable_Inv Hch; [by destruct p|].
  rewrite (inv_signals _ _ HI p ch Hch).
  destruct (killed ch); [|apply not_elem_of_nil].
  by intros ?%list_elem_of_singleton.
Qed.

(** A worker is sent at most one signal, and that signal is
    [SIGTERM]: the signals a child process has received are [SIGTERM]
    alone if its [killed] flag is set and none otherwise.  A second
    signal to the manager does not signal the workers again. *)
Theorem worker_signalled_once w p ch :
  reachable cfg w → children w !! p = Some ch →
  signals ch = if killed ch then [SIGTERM] else [].
Proof.
  intros [->|HI]%reachable_Inv Hch; [by destruct p|]. by eapply inv_signals.
Qed.

(** C12. Once the manager shuts down it stays shut down and creates no
    further process: no step of a world with [isShuttingDown] set
    clears the flag or spawns a child, whichever timers and probes are
    still pending. *)
Theorem no_launch_while_shutting_down w e es w' :
  reachable cfg w → isShuttingDown (mgr (reg w)) = true →
  step cfg e w = Some (es, w') →
  isShuttingDown (mgr (reg w')) = true
  ∧ length (children w') = length (children w).
Proof.
  intros Hw Hs Hstep.
  apply (inv_frozen w w'); [by eapply reachable_step_Inv | done].
Qed.

(** The map never loses a key and never reorders its keys: a step
    keeps the keys where they are and adds new ones at the end, so an
    instance keeps its place in the rotation across restarts. *)
Theorem registry_keeps_keys w e es w' :
  reachable cfg w → step cfg e w = Some (es, w') →
  jm_keys (instances (mgr (reg w)))
  `prefix_of` jm_keys (instances (mgr (reg w'))).
Proof. intros Hw Hstep. apply (inv_keys w w'). by eapply reachable_step_Inv. Qed.

(** A readiness wait only ever waits for a registered id: the
    lookup [this.instances.get(instanceId)] of [waitForInstanceReady]
    finds an instance, so the assignment to its [healthy] field does
    not throw. *)
Theorem readiness_wait_finds_instance w t instanceId :
  reachable cfg w → t ∈ tasks w → awaited t = Some instanceId →
  is_Some (jm_get instanceId (instances (mgr (reg w)))).
Proof.
  intros [->|HI]%reachable_Inv Ht Ha; [by apply elem_of_nil in Ht|].
  apply jm_get_is_Some. by eapply inv_awaited.
Qed.

(** The startup sequence is a single thread, and it has ended when
    the signal handlers are installed: at most one continuation of
    [start] is pending, and none once the manager handles signals.  A
    shutdown therefore never overlaps the loop that starts the
    instances. *)
Theorem startup_single_thread w :
  reachable cfg w →
  (tokens w ≤ 1)%nat ∧ (handling w = true → tokens w = 0%nat).
Proof.
  intros [->|[]]%reachable_Inv; [|done]. split; [|done]. unfold tokens. simpl. lia.
Qed.

(** While the manager shuts down, every registered worker process
    that still runs has its [killed] flag set: it was sent [SIGTERM]
    and, by the theorem above, nothing else. *)
Theorem shutting_down_quiet w :
  reachable cfg w → isShuttingDown (mgr (reg w)) = true → quiet w.
Proof.
  intros [->|HI]%reachable_Inv Hs; [done|]. by apply (inv_shutting _ _ HI).
Qed.

End reachable.

(** ** The sample run *)

Lemma sample_up_reachable : reachable Supervisor.sample_cfg sample_up.
Proof.
  eapply (run_reachable _ sample_startup World.init); [constructor|].
  vm_compute. reflexivity.
Qed.

Lemma sample_down_reachable : reachable Supervisor.sample_cfg sample_down.
Proof.
  eapply (run_reachable _ sample_events World.init); [constructor|].
  vm_compute. reflexivity.
Qed.

Lemma reachable_wf_witness : wf (reg sample_down).
Proof. apply (reachable_wf Supervisor.sample_cfg), sample_down_reachable. Defined.

Lemma sigkill_never_delivered_witness :
  SIGKILL ∉ signals
    (mkChild true true [SIGTERM]
       (Some (mkClosure 1 "router-1" (Some "k1") (Int 3101)))).
Proof.
  apply (sigkill_never_delivered Supervisor.sample_cfg sample_down 1);
    [apply sample_down_reachable | by vm_compute].
Defined.

Lemma worker_signalled_once_witness :
  signals (mkChild true true [SIGTERM]
             (Some (mkClosure 1 "router-1" (Some "k1") (Int 3101))))
  = [SIGTERM].
Proof.
  apply (worker_signalled_once Supervisor.sample_cfg sample_down 1);
    [apply sample_down_reachable | by vm_compute].
Defined.

Lemma no_launch_while_shutting_down_witness :
  isShuttingDown (mgr (reg (with_tasks [TGrace] sample_down))) = true
  ∧ length (children (with_tasks [TGrace] sample_down))
    = length (children sample_down).
Proof.
  apply (no_launch_while_shutting_down Supervisor.sample_cfg sample_down
           (EResume 0 (ATimer true Supervisor.sample_clock)) []);
    [apply sample_down_reachable | by vm_compute | by vm_compute].
Defined.

Lemma registry_keeps_keys_witness :
  jm_keys (instances (mgr (reg sample_up)))
  `prefix_of`
  jm_keys (instances (mgr (reg
    (from_option snd sample_up
       (step Supervisor.sample_cfg (EClose 0 (Some 0)) sample_up))))).
Proof.
  apply (registry_keeps_keys Supervisor.sample_cfg sample_up (EClose 0 (Some 0))
           [Console Log "[router-0] Process exited with code 0"]);
    [apply sample_up_reachable | by vm_compute].
Defined.

Lemma readiness_wait_finds_instance_witness :
  is_Some (jm_get "router-0"
             (instances (mgr (reg (Supervisor.launched "router-0" (Some "k0")
                                     (Int 3100) 10000
                                     (with_started true World.init)))))).
Proof.
  apply (readiness_wait_finds_instance Supervisor.sample_cfg
           (add_task (TReadyProbe "router-0" (Int 3100) 11000 60000 (KStartKeys 0))
              (Supervisor.launched "router-0" (Some "k0") (Int 3100) 10000
                 (with_started true World.init)))
           (TReadyProbe "router-0" (Int 3100) 11000 60000 (KStartKeys 0)));
    [|by left|done].
  eapply (run_reachable _ [EStart true Supervisor.sample_clock] World.init);
    [constructor | by vm_compute].
Defined.

Lemma startup_single_thread_witness :
  (tokens sample_up ≤ 1)%nat ∧ (handling sample_up = true → tokens sample_up = 0%nat).
Proof. apply (startup_single_thread Supervisor.sample_cfg), sample_up_reachable. Defined.

Lemma shutting_down_quiet_witness : quiet sample_down.
Proof.
  apply (shutting_down_quiet Supervisor.sample_cfg);
    [apply sample_down_reachable | by vm_compute].
Defined.

End Invariants.
