(* ===== verification/Ownership.v ===== *)
(** * One worker per instance

    A second invariant of the event loop, on who serves an instance id.
    An id is served by a running child process whose callbacks were
    registered for it, or it awaits a restart timer; [Own] says that no
    id is served twice, that every served id is a key of the map, that
    the keys are [router-0], [router-1], ... in the order of the startup
    loop, and that the instance object registered under the id of a
    running worker holds that worker's process.  Theorems, for every
    reachable world: at most one worker runs per id; a restart is never
    pending for an id whose worker runs; every running worker is the
    process of a registered instance, and so is reached by the shutdown
    handler. *)

From S2P Require Import Prelude Node Config Registry Balancer World.
From S2P Require Import Health Supervisor Shutdown System Invariants.

Module Ownership.
Import Registry World System Invariants.

(** The id whose worker a pending restart timer starts. *)
Definition restart_id (t : Task) : option string :=
  match t with
  | TRestart c => Some (c_instanceId c)
  | _ => None
  end.

(** The id a running child process serves: the [instanceId] its
    callbacks captured. *)
Definition live_id (ch : Child) : option string :=
  if running ch then c_instanceId <$> listeners ch else None.

(** The ids that are served: a restart is pending or a worker runs. *)
Definition ids (w : World.t) : list string :=
  omap restart_id (tasks w) ++ omap live_id (children w).

(** How many instances [start] has launched when its caller [k]
    resumes. *)
Definition next_of (k : Cont) : nat :=
  match k with
  | KReturn => 0
  | KStartKeys i => S i
  | KStartSingle => 1
  end.

(** The map holds what [start] has launched up to [k]. *)
Definition named (k : Cont) (w : World.t) : Prop :=
  k ≠ KReturn → keys w = names (next_of k).

(** The instance object registered under the id of the closure [c] is
    the one [c] captured, and its process is [p]. *)
Definition owns (w : World.t) (p : pid) (c : Closure) : Prop :=
  jm_get (c_instanceId c) (instances (mgr (reg w))) = Some (c_instance c)
  ∧ process <$> heap (reg w) !! c_instance c = Some p.

(** The id and the port are those [start] gives to an instance. *)
Definition placed (cfg : Config.t) (instanceId : string) (port : num) : Prop :=
  ∃ i : nat, instanceId = "router-" +:+ pretty i ∧ port = instancePort cfg i.

Record Own (cfg : Config.t) (w : World.t) : Prop := mkOwn {
  own_nodup : NoDup (ids w);
  own_registered : ∀ x, x ∈ ids w → x ∈ keys w;
  own_naming : ∀ t,
    t ∈ tasks w → starting t = true → keys w = names (next_of (caller t));
  own_listeners : ∀ p ch, children w !! p = Some ch → is_Some (listeners ch);
  own_owner : ∀ p ch c,
    children w !! p = Some ch → running ch = true → listeners ch = Some c →
    owns w p c;
  own_ports : ∀ k r,
    (k, r) ∈ instances (mgr (reg w)) →
    ∃ i, heap (reg w) !! r = Some i ∧ placed cfg k (port i);
  own_closures : ∀ p ch c,
    children w !! p = Some ch → listeners ch = Some c →
    placed cfg (c_instanceId c) (c_port c);
  own_restarts : ∀ c,
    TRestart c ∈ tasks w → placed cfg (c_instanceId c) (c_port c);
}.

(** * The primitive changes *)

Section primitives.
Context (cfg : Config.t).
Implicit Types (w : World.t) (t : Task) (k : Cont) (c : Closure).
Implicit Types (p : pid) (ch : Child) (x : string).

Lemma live_id_Some ch x :
  live_id ch = Some x ↔
  running ch = true ∧ ∃ c, listeners ch = Some c ∧ c_instanceId c = x.
Proof.
  unfold live_id. destruct (running ch), (listeners ch) as [c|]; simpl; split;
    try (by intros (? & ? & ? & ?)); try done.
  - intros [= <-]. eauto.
  - by intros (_ & ? & [= <-] & <-).
Qed.

Lemma ids_elem w x :
  x ∈ ids w ↔
  (∃ c, TRestart c ∈ tasks w ∧ c_instanceId c = x)
  ∨ (∃ p ch, children w !! p = Some ch ∧ live_id ch = Some x).
Proof.
  unfold ids. rewrite elem_of_app, !list_elem_of_omap. split.
  - intros [(t & Ht & Hx)|(ch & Hch & Hx)].
    + left. destruct t; simplify_eq/=. eauto.
    + right. apply list_elem_of_lookup_1 in Hch as [p Hp]. eauto.
  - intros [(c & Hc & <-)|(p & ch & Hp & Hx)].
    + left. by exists (TRestart c).
    + right. exists ch. split; [by eapply list_elem_of_lookup_2 | done].
Qed.

(** The invariant reads the map, the store, the children and the
    tasks. *)
Lemma Own_ext w w' :
  instances (mgr (reg w')) = instances (mgr (reg w)) →
  heap (reg w') = heap (reg w) →
  children w' = children w → tasks w' = tasks w → Own cfg w → Own cfg w'.
Proof.
  intros Hi Hh Hc Ht [].
  split; unfold ids, keys, owns in *; rewrite ?Hi, ?Hh, ?Hc, ?Ht; done.
Qed.

#[export] Instance Own_agree : Proper (agree ==> iff) (Own cfg).
Proof.
  assert (∀ w w', agree w w' → Own cfg w → Own cfg w') as H.
  { intros w w' (Hh & Hi & _ & _ & Hc & Ht & _). by apply Own_ext. }
  intros w w' Hw. split; apply H; [done | by symmetry].
Qed.

(** A write to a field of an instance object other than [process]. *)
Lemma Own_write f r w :
  (∀ i, process (f i) = process i) → (∀ i, port (f i) = port i) →
  Own cfg w → Own cfg (on_reg (update f r) w).
Proof.
  intros Hf Hf' []. split; try done.
  - intros p ch c Hch Hrun Hc.
    destruct (own_owner0 p ch c Hch Hrun Hc) as [Hg Hp].
    split; [done|]. simpl. rewrite list_lookup_alter. case_decide; [subst|done].
    destruct (heap (reg w) !! c_instance c); simplify_eq/=. by rewrite Hf.
  - intros k r' (i & Hi & Hpl)%own_ports0. simpl. rewrite list_lookup_alter.
    case_decide; [subst|by eauto]. rewrite Hi. exists (f i). by rewrite Hf'.
Qed.

(** A task handed to the event loop. *)
Lemma Own_add_task t w :
  Own cfg w →
  (∀ c, t = TRestart c →
     (c_instanceId c ∉ ids w) ∧ c_instanceId c ∈ keys w
     ∧ placed cfg (c_instanceId c) (c_port c)) →
  (starting t = true → keys w = names (next_of (caller t))) →
  Own cfg (add_task t w).
Proof.
  intros [] Hr' Hs.
  assert (∀ x, restart_id t = Some x → (x ∉ ids w) ∧ x ∈ keys w) as Hr.
  { intros x Hx. destruct t; simplify_eq/=.
    by destruct (Hr' _ eq_refl) as (? & ? & _). }
  assert (ids (add_task t w) ≡ₚ option_list (restart_id t) ++ ids w) as Hids.
  { unfold ids. rewrite tasks_add_task, omap_app. simpl.
    destruct (restart_id t); simpl; [|by rewrite app_nil_r].
    rewrite <- app_assoc. symmetry. apply Permutation_middle. }
  split; try done.
  - rewrite Hids. destruct (restart_id t) as [x|]; simpl; [|done].
    apply NoDup_cons. split; [by apply Hr | done].
  - intros x. rewrite Hids. destruct (restart_id t) as [y|]; simpl; [|auto].
    intros [->|?]%elem_of_cons; [by apply Hr | auto].
  - intros t'. rewrite tasks_add_task.
    intros [?|Ht']%elem_of_app; [auto|].
    by apply list_elem_of_singleton in Ht' as ->.
  - intros c. rewrite tasks_add_task. intros [?|Hc]%elem_of_app; [auto|].
    apply list_elem_of_singleton in Hc. by destruct (Hr' c) as (_ & _ & ?).
Qed.

(** A task taken from the event loop; if it was a restart timer, its
    id is no longer served. *)
Lemma Own_delete n w t :
  tasks w !! n = Some t → Own cfg w →
  Own cfg (with_tasks (delete n (tasks w)) w)
  ∧ ∀ c, t = TRestart c →
         (c_instanceId c ∉ ids (with_tasks (delete n (tasks w)) w))
         ∧ c_instanceId c ∈ keys w ∧ placed cfg (c_instanceId c) (c_port c).
Proof.
  intros Hn [].
  assert (ids (with_tasks (delete n (tasks w)) w) `sublist_of` ids w) as Hsub.
  { apply sublist_app; [apply omap_delete_sublist | done]. }
  split; [split; try done|].
  - by eapply sublist_NoDup.
  - intros x Hx. apply own_registered0. by eapply elem_of_sublist.
  - intros t' Ht'%list_elem_of_delete_inv. auto.
  - intros c Hc%list_elem_of_delete_inv. auto.
  - intros c ->. split; [|split].
    + assert (ids w ≡ₚ c_instanceId c
                       :: ids (with_tasks (delete n (tasks w)) w)) as Hp.
      { unfold ids. simpl.
        by rewrite (omap_delete_Some _ _ n (TRestart c) (c_instanceId c)). }
      rewrite Hp in own_nodup0. by apply NoDup_cons in own_nodup0 as [? _].
    + apply own_registered0, elem_of_app. left. by eapply omap_lookup_elem.
    + apply own_restarts0. by eapply list_elem_of_lookup_2.
Qed.

(** A worker launched for an id that is not served.  The id is a key
    already (a restart), or no thread of the startup sequence waits. *)
Lemma Own_launched instanceId key port now w :
  Own cfg w → instanceId ∉ ids w →
  instanceId ∈ keys w ∨ (∀ t, t ∈ tasks w → starting t = false) →
  placed cfg instanceId port →
  Own cfg (Supervisor.launched instanceId key port now w).
Proof.
  intros [] Hfresh Hkey Hpl.
  assert (ids (Supervisor.launched instanceId key port now w)
          = ids w ++ [instanceId]) as Hids.
  { unfold ids. rewrite Supervisor.launched_children, Supervisor.launched_tasks.
    by rewrite omap_app, app_assoc. }
  split.
  - rewrite Hids. apply NoDup_app. split; [done|]. split; [|apply NoDup_singleton].
    intros x Hx Hx'. apply list_elem_of_singleton in Hx'. by subst.
  - intros x. rewrite Hids. unfold keys.
    intros [?|Hx]%elem_of_app; apply Supervisor.launched_keys;
      [right; by apply own_registered0 | left].
    by apply list_elem_of_singleton in Hx.
  - rewrite Supervisor.launched_tasks. intros t Ht Hs.
    destruct Hkey as [Hin|Hno]; [|by rewrite Hno in Hs].
    unfold keys. rewrite Supervisor.launched_reg, register_instances.
    rewrite jm_keys_set_old by done. auto.
  - rewrite Supervisor.launched_children.
    intros p ch [?|[_ Hch]]%lookup_app_Some; [eauto|].
    by apply list_lookup_singleton_Some in Hch as [_ <-].
  - rewrite Supervisor.launched_children. unfold owns.
    rewrite Supervisor.launched_reg, register_instances. simpl.
    intros p ch c [Hch|[Hp Hch]]%lookup_app_Some Hrun Hc.
    + destruct (own_owner0 p ch c Hch Hrun Hc) as [Hg Hpr].
      rewrite jm_get_set_ne.
      * split; [done|]. destruct (heap (reg w) !! c_instance c) as [i|] eqn:E;
          [|done]. by rewrite (lookup_app_l_Some _ _ _ i).
      * intros Heq. apply Hfresh, ids_elem. right. exists p, ch.
        split; [done|]. apply live_id_Some. eauto.
    + apply list_lookup_singleton_Some in Hch as [Hp' <-]. simplify_eq/=.
      rewrite jm_get_set_eq, list_lookup_middle by done. simpl.
      split; [done|]. f_equal. lia.
  - intros k r. rewrite Supervisor.launched_reg, register_instances. simpl.
    intros [[= -> ->]|Hin]%jm_set_elem.
    + rewrite list_lookup_middle by done. eauto.
    + destruct (own_ports0 k r Hin) as (i & Hi & ?). exists i.
      by rewrite (lookup_app_l_Some _ _ _ i).
  - rewrite Supervisor.launched_children.
    intros p ch c [?|[_ Hch]]%lookup_app_Some; [eauto|].
    apply list_lookup_singleton_Some in Hch as [_ <-]. by intros [= <-].
  - done.
Qed.

(** The process behind a child object has exited: its id is no longer
    served. *)
Lemma Own_exit_child p ch c w :
  Own cfg w → children w !! p = Some ch → running ch = true →
  listeners ch = Some c →
  Own cfg (exit_child p w)
  ∧ (c_instanceId c ∉ ids (exit_child p w)) ∧ c_instanceId c ∈ keys w
  ∧ placed cfg (c_instanceId c) (c_port c).
Proof.
  intros [] Hp Hrun Hc.
  assert (live_id ch = Some (c_instanceId c)) as Hlive
    by (apply live_id_Some; eauto).
  assert (ids w ≡ₚ c_instanceId c :: ids (exit_child p w)) as Hids.
  { unfold ids, exit_child. simpl.
    rewrite (omap_alter_None live_id
               (λ ch, mkChild false (killed ch) (signals ch) (listeners ch))
               (children w) p ch (c_instanceId c) Hp Hlive eq_refl).
    symmetry. apply Permutation_middle. }
  assert (∀ x, x ∈ ids (exit_child p w) → x ∈ ids w) as Hsub.
  { intros x Hx. rewrite Hids. by right. }
  rewrite Hids in own_nodup0. apply NoDup_cons in own_nodup0 as [Hnot Hnd].
  split; [split; try done|split; [done|split; [|eauto]]].
  - auto.
  - intros q ch'. simpl. rewrite list_lookup_alter. case_decide; [subst|eauto].
    rewrite Hp. intros [= <-]. simpl. eauto.
  - intros q ch' c'. simpl. rewrite list_lookup_alter.
    case_decide; [subst; rewrite Hp; by intros [= <-]|]. apply own_owner0.
  - intros q ch' c'. simpl. rewrite list_lookup_alter.
    case_decide; [subst; rewrite Hp; intros [= <-]|]; eauto.
  - apply own_registered0. rewrite Hids. by left.
Qed.

(** A signal offered to some processes. *)
Lemma Own_deliver_all sig ps w :
  Own cfg w → Own cfg (with_children (deliver_all sig ps (children w)) w).
Proof.
  intros [].
  assert (∀ ch, live_id (deliver sig ch) = live_id ch) as Hlive.
  { intros ch. unfold live_id. rewrite deliver_running.
    by destruct ch as [[] [] ? ?]. }
  assert (∀ p ch', deliver_all sig ps (children w) !! p = Some ch' →
            ∃ ch, children w !! p = Some ch ∧ running ch' = running ch
                  ∧ listeners ch' = listeners ch) as Hlook.
  { intros p ch'. rewrite deliver_all_lookup. case_decide; [|by eauto].
    destruct (children w !! p) as [ch|]; intros [= <-]. exists ch.
    rewrite deliver_running. by destruct ch as [[] [] ? ?]. }
  assert (ids (with_children (deliver_all sig ps (children w)) w) = ids w) as Hids.
  { unfold ids, deliver_all. simpl. f_equal.
    apply (foldl_invariant (λ cs, omap live_id cs = omap live_id (children w)));
      [done|]. intros cs q _ <-. apply omap_alter_eq. auto. }
  split; rewrite ?Hids; try done.
  - intros p ch' (ch & Hch & _ & ->)%Hlook. eauto.
  - intros p ch' c (ch & Hch & -> & ->)%Hlook. apply own_owner0. done.
  - intros p ch' c (ch & Hch & _ & ->)%Hlook. eauto.
Qed.

(** Requests in flight are no restart timers. *)
Lemma Own_request st ts w :
  Own cfg w → instances (mgr st) = instances (mgr (reg w)) →
  heap st = heap (reg w) → Forall (λ t, ∃ r, t = TProxy r) ts →
  Own cfg (with_tasks (tasks w ++ ts) (with_reg st w)).
Proof.
  intros HO Hi Hh. induction ts as [|t ts IH] using rev_ind; intros Hts.
  { rewrite app_nil_r. by apply (Own_ext w). }
  apply Forall_app in Hts as [Hts [[r ->] _]%Forall_cons]. rewrite app_assoc.
  by apply (Own_add_task (TProxy r)) in IH.
Qed.

End primitives.

(** * The handlers *)

Section handlers.
Context (cfg : Config.t).
Implicit Types (w : World.t) (t : Task) (k : Cont) (c : Closure).

Lemma Own_startServices w : Own cfg w → Own cfg (startServices cfg w).2.
Proof. rewrite startServices_world. by apply Own_ext. Qed.

(** A task of the thread whose caller is [k]. *)
Lemma Own_await t k w :
  Own cfg w → named k w → restart_id t = None →
  (starting t = true → caller t = k ∧ k ≠ KReturn) → Own cfg (add_task t w).
Proof.
  intros HO Hk Hr Hs. apply Own_add_task; [done | by intros c -> |].
  intros [-> Hne]%Hs. by apply Hk.
Qed.

Lemma Own_resume k b w : Own cfg w → named k w → Own cfg (resume cfg k b w).2.
Proof.
  intros HO Hk. destruct k as [|i|]; simpl; [done| |by apply Own_startServices].
  by apply (Own_await _ (KStartKeys i)).
Qed.

(** [start] is a caller of the readiness wait. *)
#[export] Instance Own_resumes : Resumes (Own cfg) named (resume cfg).
Proof. intros k b w. apply Own_resume. Qed.

Lemma Own_onReadySleep now instanceId port startTime maxWait k w :
  Own cfg w → named k w →
  Own cfg (Health.onReadySleep (resume cfg) now instanceId port startTime maxWait k w).2.
Proof.
  intros HO Hk. apply (Health.onReadySleep_keeps _ (Own cfg) named); [done..|].
  apply (Own_await _ k); [done..|]. by intros ?%bool_decide_eq_true.
Qed.

Lemma Own_onReadyProbe o instanceId port startTime maxWait k w :
  Own cfg w → named k w → instanceId ∈ keys w →
  Own cfg (Health.onReadyProbe (resume cfg) o instanceId port startTime maxWait k w).2.
Proof.
  intros HO Hk Hin.
  apply (Health.onReadyProbe_keeps _ (Own cfg) named); [done | done | |].
  - intros r _. split; [by apply Own_write | done].
  - apply (Own_await _ k); [done..|]. by intros ?%bool_decide_eq_true.
Qed.

Lemma Own_startInstance found clock instanceId key port k w :
  Own cfg w → instanceId ∉ ids w →
  instanceId ∈ keys w ∨ (∀ t, t ∈ tasks w → starting t = false) →
  placed cfg instanceId port →
  (∀ now, named k (Supervisor.launched instanceId key port now w)) →
  Own cfg (Supervisor.startInstance cfg (resume cfg) found clock instanceId key port k w).2.
Proof.
  intros HO Hfresh Hkey Hpl Hk.
  apply (Supervisor.startInstance_keeps _ _ (Own cfg) named);
    [by apply Own_launched | done |].
  apply (Own_await _ k); [by apply Own_launched | done..|].
  by intros ?%bool_decide_eq_true.
Qed.

(** The instance [start] launches after [i] others. *)
Lemma Own_startNext found clock i key port k w :
  Own cfg w → (∀ t, t ∈ tasks w → starting t = false) →
  keys w = names i → next_of k = S i → port = instancePort cfg i →
  Own cfg (Supervisor.startInstance cfg (resume cfg) found clock
         ("router-" +:+ pretty i) key port k w).2.
Proof.
  intros HO Hno Hkeys Hnext Hport.
  assert ("router-" +:+ pretty i ∉ keys w) as Hfresh
    by (rewrite Hkeys; apply names_fresh).
  apply Own_startInstance; [done| |by right|by exists i|].
  - intros Hin. by apply Hfresh, (own_registered _ _ HO).
  - intros now _. unfold keys.
    rewrite Supervisor.launched_reg, register_instances, jm_keys_set_new by done.
    fold (keys w). by rewrite Hkeys, Hnext, names_S.
Qed.

Lemma Own_startKey found clock i w :
  Own cfg w → (∀ t, t ∈ tasks w → starting t = false) → keys w = names i →
  Own cfg (startKey cfg found clock i w).2.
Proof.
  intros HO Hno Hkeys. unfold startKey.
  destruct (Config.KEYS cfg !! i); [|by apply Own_startServices].
  by apply Own_startNext.
Qed.

Lemma Own_start found clock w :
  Own cfg w → tasks w = [] → keys w = [] → Own cfg (start cfg found clock w).2.
Proof.
  intros HO Ht Hk.
  assert (∀ t, t ∈ tasks w → starting t = false) as Hno
    by (rewrite Ht; by intros ? ?%elem_of_nil).
  destruct (start_cases cfg found clock w) as [->|[->| ->]].
  - by rewrite with_exited_agree.
  - by apply Own_startKey.
  - apply (Own_startNext found clock 0); try done.
    symmetry. apply instancePort_0.
Qed.

Lemma Own_onRestartTimer found clock c w :
  Own cfg w → c_instanceId c ∉ ids w → c_instanceId c ∈ keys w →
  placed cfg (c_instanceId c) (c_port c) →
  Own cfg (Supervisor.onRestartTimer cfg (resume cfg) found clock c w).2.
Proof.
  intros HO Hfresh Hin Hpl. unfold Supervisor.onRestartTimer.
  destruct (isShuttingDown (mgr (reg w))); [done|].
  apply Own_startInstance;
    [by apply Own_write | done | by left | done | by intros ? []].
Qed.

Lemma Own_onClose p ch c code w :
  Own cfg w → children w !! p = Some ch → running ch = true →
  listeners ch = Some c →
  Own cfg (Supervisor.onClose c code (exit_child p w)).2.
Proof.
  intros HO Hp Hrun Hc.
  destruct (Own_exit_child cfg p ch c w HO Hp Hrun Hc) as (HO' & Hnot & Hin & Hpl).
  unfold Supervisor.onClose. case_match; [|by apply Own_write].
  apply Own_add_task; [by apply Own_write | by intros c' [= <-] | done].
Qed.

Lemma Own_healthLoop pos w : Own cfg w → Own cfg (Health.healthLoop pos w).2.
Proof.
  intros HO. unfold Health.healthLoop. repeat case_match; try done.
  by apply Own_add_task.
Qed.

Lemma Own_onHealthProbe o now pos instanceId r wasHealthy w :
  Own cfg w → Own cfg (Health.onHealthProbe o now pos instanceId r wasHealthy w).2.
Proof.
  intros HO. unfold Health.onHealthProbe.
  match goal with |- context [Health.healthLoop ?p ?w'] =>
    pose proof (Own_healthLoop p w') as H; destruct (Health.healthLoop p w') end.
  apply H. by do 2 (apply Own_write; [done|done|]).
Qed.

Lemma Own_handleRequest clock req w :
  Own cfg w →
  Own cfg (with_tasks
         (tasks w ++ proxied (Balancer.handleRequest clock req (reg w)).1)
         (with_reg (Balancer.handleRequest clock req (reg w)).2 w)).
Proof.
  intros HO. rewrite Balancer.handleRequest_state.
  apply Own_request; [done| | |apply proxied_spec].
  - apply Balancer.getHealthyInstance_instances.
  - apply Balancer.getHealthyInstance_heap.
Qed.

Lemma Own_proxyError r message w :
  Own cfg w → Own cfg (with_reg (Balancer.proxyError r message (reg w)).2 w).
Proof.
  intros HO. rewrite Balancer.proxyError_state. by apply (Own_write cfg _ r w).
Qed.

Lemma Own_shutdown signal w : Own cfg w → Own cfg (Shutdown.shutdown signal w).2.
Proof.
  intros HO. rewrite Shutdown.shutdown_world. unfold Shutdown.stopped.
  apply Own_add_task; [|done..].
  destruct (healthCheckInterval (mgr (reg w)));
    by apply (Own_ext cfg (with_children
                         (deliver_all SIGTERM (processes w) (children w)) w));
      [..|apply Own_deliver_all].
Qed.

Lemma Own_shutdownAfterGrace w : Own cfg w → Own cfg (Shutdown.shutdownAfterGrace w).2.
Proof.
  intros HO. rewrite Shutdown.shutdownAfterGrace_world, with_exited_agree.
  by apply Own_deliver_all.
Qed.

(** ** The step *)

Lemma Own_runTask t a w :
  Own cfg w → resumable (caller t) w → named (caller t) w →
  (∀ instanceId, awaited t = Some instanceId → instanceId ∈ keys w) →
  (∀ c, t = TRestart c →
     (c_instanceId c ∉ ids w) ∧ c_instanceId c ∈ keys w
     ∧ placed cfg (c_instanceId c) (c_port c)) →
  from_option (λ out, Own cfg out.2) True (runTask cfg t a w).
Proof.
  intros HO Hres Hk Ha Hr.
  destruct t, a; cbn [runTask from_option snd caller] in *; try done.
  - destruct (Hr _ eq_refl) as (? & ? & ?). by apply Own_onRestartTimer.
  - apply Own_onReadyProbe; auto.
  - by apply Own_onReadySleep.
  - destruct Hres as [Htok _]; [done|]. apply Own_startKey; [done| |by apply Hk].
    intros t. by apply tokens_0.
  - by apply Own_onHealthProbe.
  - pose proof (Own_proxyError instance message w HO) as HO'.
    by destruct (Balancer.proxyError _ _ _).
  - by apply Own_shutdownAfterGrace.
  - by apply Own_shutdownAfterGrace.
  - by apply Own_shutdownAfterGrace.
  - by apply Own_shutdownAfterGrace.
Qed.

(** A step keeps the invariant. *)
Lemma Own_step_option w0 e w :
  Inv w0 w → Own cfg w → from_option (λ out, Own cfg out.2) True (step cfg e w).
Proof.
  intros HI HO. unfold step. case_decide; [done|].
  destruct e; try (destruct (children w !! child) as [ch|] eqn:Hch; [simpl|done];
                   destruct (listeners ch) as [c|] eqn:Hc; [simpl|done]).
  - by rewrite (inv_started _ _ HI).
  - destruct (running ch) eqn:Hrun; [simpl|done]. by eapply Own_onClose.
  - by apply (Own_write cfg _ _ w).
  - done.
  - done.
  - destruct (tasks w !! n) as [t|] eqn:Ht; [simpl|done].
    destruct (Own_delete cfg n w t Ht HO) as [HO' Hr].
    apply Own_runTask; [done | by eapply resumable_caller | | |done].
    + intros Hk. apply (own_naming _ _ HO); [by eapply list_elem_of_lookup_2|].
      by apply caller_starting.
    + intros k Hk. eapply (inv_awaited _ _ HI); [|done].
      by eapply list_elem_of_lookup_2.
  - destruct (ticking w); [simpl|done]. by apply Own_healthLoop.
  - destruct (listening w); [|done].
    pose proof (Own_handleRequest clock req w HO) as H'.
    by destruct (Balancer.handleRequest _ _ _).
  - by destruct (listening w).
  - destruct (handling w); [simpl|done]. by apply Own_shutdown.
  - destruct (started w && negb (listening w)); [simpl|done].
    by rewrite with_exited_agree.
Qed.

End handlers.

(** * Reachable worlds *)

Section reachable.
Context (cfg : Config.t).
Implicit Types (w : World.t) (p q : pid) (ch : Child) (x : string).

Lemma Own_init : Own cfg World.init.
Proof.
  split; try (by intros ? ?%elem_of_nil); try (by intros ? ? ?%elem_of_nil);
    try done.
  apply NoDup_nil_2.
Qed.

Lemma reachable_Own w : reachable cfg w → Own cfg w.
Proof.
  induction 1 as [|w e es w' Hw HO Hstep]; [apply Own_init|].
  destruct (reachable_Inv cfg w Hw) as [->|HI].
  - unfold step in Hstep. destruct e; simplify_eq/=; try by destruct child.
    apply (f_equal snd) in Hstep. simpl in Hstep. subst w'.
    by apply Own_start; [apply (Own_ext cfg World.init)|..].
  - pose proof (Own_step_option cfg w e w HI HO) as H. by rewrite Hstep in H.
Qed.

(** A running worker is the process of the instance registered under
    its id. *)
Lemma live_owns w p ch x :
  Own cfg w → children w !! p = Some ch → live_id ch = Some x →
  ∃ c, listeners ch = Some c ∧ c_instanceId c = x ∧ owns w p c
       ∧ p ∈ processes w.
Proof.
  intros HO Hp (Hrun & c & Hc & <-)%live_id_Some.
  destruct (own_owner _ _ HO p ch c Hp Hrun Hc) as [Hg Hpr].
  exists c. do 3 (split; [done|]).
  destruct (heap (reg w) !! c_instance c) as [i|] eqn:Hi; simplify_eq/=.
  by eapply processes_elem; [apply jm_get_Some|].
Qed.

(** C5. No instance id is served twice.  In every world the program
    reaches, the ids of the running workers and the ids that await a
    restart timer are pairwise distinct: an instance never has two
    workers, never two restarts pending, and never a restart pending
    while its worker runs.  Every served id is a key of the map. *)
Theorem served_once w :
  reachable cfg w → NoDup (ids w) ∧ ∀ x, x ∈ ids w → x ∈ keys w.
Proof. intros [? ? _ _ _]%reachable_Own. by split. Qed.

(** At most one worker runs per instance id: two running child
    processes whose callbacks were registered for the same id are the
    same process.  The workers of the manager therefore never compete
    for a port. *)
Theorem one_worker_per_instance w p q ch ch' x :
  reachable cfg w → children w !! p = Some ch → children w !! q = Some ch' →
  live_id ch = Some x → live_id ch' = Some x → p = q.
Proof.
  intros HO%reachable_Own Hp Hq Hx Hx'.
  destruct (proj1 (NoDup_app _ _) (own_nodup _ _ HO)) as (_ & _ & Hnd).
  by eapply (omap_NoDup_lookup live_id).
Qed.

(** While a restart timer is pending for an id, no worker runs
    for it. *)
Theorem restart_pending_no_worker w c p ch :
  reachable cfg w → TRestart c ∈ tasks w → children w !! p = Some ch →
  live_id ch ≠ Some (c_instanceId c).
Proof.
  intros HO%reachable_Own Hc Hp Hx.
  destruct (proj1 (NoDup_app _ _) (own_nodup _ _ HO)) as (_ & Hdis & _).
  apply (Hdis (c_instanceId c)).
  - apply list_elem_of_omap. by exists (TRestart c).
  - by eapply omap_lookup_elem.
Qed.

(** C20. Every running worker is the process of a registered instance:
    the instance object stored under the worker's id is the one its
    callbacks captured, and its [process] field is the worker.  The
    loops of the shutdown handler, which walk the map, therefore reach
    every running worker. *)
Theorem running_worker_registered w p ch x :
  reachable cfg w → children w !! p = Some ch → live_id ch = Some x →
  ∃ c, listeners ch = Some c ∧ c_instanceId c = x ∧ owns w p c
       ∧ p ∈ processes w.
Proof. intros HO%reachable_Own. by apply live_owns. Qed.

(** While the manager shuts down, every worker that still runs
    has been signalled: its [killed] flag is set.  No worker is left
    behind by the shutdown handler. *)
Theorem shutdown_reaches_every_worker w p ch x :
  reachable cfg w → isShuttingDown (mgr (reg w)) = true →
  children w !! p = Some ch → live_id ch = Some x → killed ch = true.
Proof.
  intros Hw Hs Hp Hx. pose proof (reachable_Own w Hw) as HO.
  destruct (live_owns w p ch x HO Hp Hx) as (c & _ & _ & _ & Hin).
  apply live_id_Some in Hx as [Hrun _].
  destruct (reachable_Inv cfg w Hw) as [->|HI]; [done|].
  destruct (inv_shutting _ _ HI Hs) as [_ Hq]. by apply (Hq p ch).
Qed.

(** C24. The instances are launched one after the other.  While the
    startup sequence waits, for the readiness of instance [i] or in the
    sleep after it, the map holds [router-0] to [router-i] and nothing
    else: the next instance is launched only when the wait for this
    one is over. *)
Theorem startup_sequential w t :
  reachable cfg w → t ∈ tasks w → starting t = true →
  keys w = names (next_of (caller t)).
Proof. intros HO%reachable_Own. apply (own_naming _ _ HO). Qed.

(** C29. The instance registered under [router-i] has the port
    [parseInt(PORT) + 100 + i], through every restart.  Where [PORT]
    holds a number, no two registered instances have the same port;
    where it does not start with a number, [parseInt(PORT)] is [NaN]
    and so is the port of every instance. *)
Theorem instance_ports w k r i :
  reachable cfg w → (k, r) ∈ instances (mgr (reg w)) →
  heap (reg w) !! r = Some i →
  placed cfg k (port i)
  ∧ (∀ (n0 : Z) k' r' i',
       Config.portNumber cfg = Int n0 → (k', r') ∈ instances (mgr (reg w)) →
       heap (reg w) !! r' = Some i' → port i' = port i → k' = k)
  ∧ (Config.portNumber cfg = NaN → port i = NaN).
Proof.
  intros HO%reachable_Own Hin Hi.
  assert (∀ k r i, (k, r) ∈ instances (mgr (reg w)) →
            heap (reg w) !! r = Some i → placed cfg k (port i)) as Hpl.
  { intros k0 r0 i0 (j & Hj & ?)%(own_ports _ _ HO) Hi0. by simplify_eq. }
  destruct (Hpl _ _ _ Hin Hi) as (n & -> & Hn).
  split; [by exists n|]. split.
  - intros n0 k' r' i' Hp0 Hin' Hi' Hport.
    destruct (Hpl _ _ _ Hin' Hi') as (n' & -> & Hn').
    rewrite Hport, Hn in Hn'. unfold instancePort in Hn'. rewrite Hp0 in Hn'.
    simpl in Hn'. do 3 f_equal. injection Hn'. lia.
  - intros Hnan. rewrite Hn. unfold instancePort. by rewrite Hnan.
Qed.

(** C15. The shutdown runs to its end.  When a termination signal
    arrives and the sleep of three seconds is over, the manager has
    exited with code 0 and handles no further event; every worker that
    still runs has received [SIGTERM], once, and no other signal. *)
Theorem shutdown_completes w name a :
  reachable cfg w → handling w = true → exited w = None →
  ∃ es w',
    run cfg [ESignal name; EResume (length (tasks w)) a] w = Some (es, w')
    ∧ last es = Some (Exit 0) ∧ exited w' = Some 0
    ∧ (∀ p ch x, children w' !! p = Some ch → live_id ch = Some x →
         signals ch = [SIGTERM])
    ∧ ∀ e, step cfg e w' = None.
Proof.
  intros Hw Hh He.
  assert (∃ w1, Shutdown.stopped w = add_task TGrace w1
                ∧ tasks w1 = tasks w ∧ exited w1 = None
                ∧ isShuttingDown (mgr (reg w1)) = true) as (w1 & Hst & Ht & He1 & Hs1).
  { unfold Shutdown.stopped.
    destruct (healthCheckInterval (mgr (reg w))); by eexists. }
  assert (step cfg (ESignal name) w
          = Some ((Shutdown.shutdown name w).1, add_task TGrace w1)) as H1.
  { unfold step. rewrite decide_False by (rewrite He; by intros [? ?]).
    rewrite Hh, <- Hst, <- (Shutdown.shutdown_world name).
    by destruct (Shutdown.shutdown name w). }
  assert (step cfg (EResume (length (tasks w)) a) (add_task TGrace w1)
          = Some ((Shutdown.shutdownAfterGrace w1).1,
                  (Shutdown.shutdownAfterGrace w1).2)) as H2.
  { rewrite <- Ht, step_last by done.
    destruct a; cbn [runTask]; by destruct (Shutdown.shutdownAfterGrace w1). }
  assert (run cfg [ESignal name; EResume (length (tasks w)) a] w
          = Some ((Shutdown.shutdown name w).1
                  ++ (Shutdown.shutdownAfterGrace w1).1 ++ [],
                  (Shutdown.shutdownAfterGrace w1).2)) as Hrun
    by (by rewrite (run_step _ _ _ _ _ _ H1), (run_step _ _ _ _ _ _ H2)).
  pose proof (run_reachable cfg _ _ _ _ Hw Hrun) as Hw'.
  eexists _, _. split; [done|].
  rewrite Shutdown.shutdownAfterGrace_world in *. split_and!; [|done| |].
  - by rewrite app_nil_r, last_app, Shutdown.shutdownAfterGrace_effects.
  - intros p ch x Hp Hx. destruct (reachable_Inv cfg _ Hw') as [?|HI]; [done|].
    destruct (inv_shutting _ _ HI Hs1) as [_ Hq].
    destruct (live_owns _ p ch x (reachable_Own _ Hw') Hp Hx) as (_ & _ & _ & _ & Hin).
    rewrite (inv_signals _ _ HI p ch Hp).
    apply live_id_Some in Hx as [Hrun' _]. by rewrite (Hq p ch).
  - intros e. unfold step. by rewrite decide_True.
Qed.

End reachable.

(** ** The sample run *)

Lemma served_once_witness :
  NoDup (ids sample_down) ∧ ∀ x, x ∈ ids sample_down → x ∈ keys sample_down.
Proof. apply (served_once Supervisor.sample_cfg), sample_down_reachable. Defined.

Lemma one_worker_per_instance_witness : 1%nat = 1%nat.
Proof.
  apply (one_worker_per_instance Supervisor.sample_cfg sample_up 1 1
           (mkChild true false []
              (Some (mkClosure 1 "router-1" (Some "k1") (Int 3101))))
           (mkChild true false []
              (Some (mkClosure 1 "router-1" (Some "k1") (Int 3101))))
           "router-1");
    [apply sample_up_reachable | by vm_compute..].
Defined.

Lemma restart_pending_no_worker_witness :
  live_id (mkChild true false []
             (Some (mkClosure 1 "router-1" (Some "k1") (Int 3101))))
  ≠ Some "router-0".
Proof.
  apply (restart_pending_no_worker Supervisor.sample_cfg
           (from_option snd sample_up
              (step Supervisor.sample_cfg (EClose 0 (Some 1)) sample_up))
           (mkClosure 0 "router-0" (Some "k0") (Int 3100)) 1).
  - eapply (reachable_step _ sample_up (EClose 0 (Some 1)));
      [apply sample_up_reachable | vm_compute; reflexivity].
  - by_compute.
  - by vm_compute.
Defined.

Lemma running_worker_registered_witness :
  ∃ c, Some (mkClosure 1 "router-1" (Some "k1") (Int 3101)) = Some c
       ∧ c_instanceId c = "router-1" ∧ owns sample_up 1 c
       ∧ 1%nat ∈ processes sample_up.
Proof.
  apply (running_worker_registered Supervisor.sample_cfg sample_up 1
           (mkChild true false []
              (Some (mkClosure 1 "router-1" (Some "k1") (Int 3101)))) "router-1");
    [apply sample_up_reachable | by vm_compute..].
Defined.

Lemma startup_sequential_witness :
  ["router-0"] = names (next_of (KStartKeys 0)).
Proof.
  apply (startup_sequential Supervisor.sample_cfg
           (add_task (TReadyProbe "router-0" (Int 3100) 11000 60000 (KStartKeys 0))
              (Supervisor.launched "router-0" (Some "k0") (Int 3100) 10000
                 (with_started true World.init)))
           (TReadyProbe "router-0" (Int 3100) 11000 60000 (KStartKeys 0)));
    [|by left|done].
  eapply (run_reachable _ [EStart true Supervisor.sample_clock] World.init);
    [constructor | vm_compute; reflexivity].
Defined.

Lemma instance_ports_witness :
  placed Supervisor.sample_cfg "router-1" (Int 3101)
  ∧ (∀ (n0 : Z) k' r' i',
       Config.portNumber Supervisor.sample_cfg = Int n0 →
       (k', r') ∈ instances (mgr (reg sample_up)) →
       heap (reg sample_up) !! r' = Some i' → port i' = Int 3101 →
       k' = "router-1")
  ∧ (Config.portNumber Supervisor.sample_cfg = NaN → Int 3101 = NaN).
Proof.
  apply (instance_ports Supervisor.sample_cfg sample_up "router-1" 1
           (mkInstance "router-1" 1 (Int 3101) (Some "k1") true None 10000 0));
    [apply sample_up_reachable | by_compute | by vm_compute].
Defined.

Lemma shutdown_completes_witness :
  ∃ es w',
    run Supervisor.sample_cfg
      [ESignal "SIGINT"; EResume (length (tasks sample_up)) (AProxyError "x")]
      sample_up
    = Some (es, w')
    ∧ last es = Some (Exit 0) ∧ exited w' = Some 0
    ∧ (∀ p ch x, children w' !! p = Some ch → live_id ch = Some x →
         signals ch = [SIGTERM])
    ∧ ∀ e, step Supervisor.sample_cfg e w' = None.
Proof.
  apply (shutdown_completes Supervisor.sample_cfg sample_up "SIGINT"
           (AProxyError "x")); [apply sample_up_reachable | by vm_compute..].
Defined.

Lemma shutdown_reaches_every_worker_witness :
  killed (mkChild true true [SIGTERM]
            (Some (mkClosure 1 "router-1" (Some "k1") (Int 3101)))) = true.
Proof.
  apply (shutdown_reaches_every_worker Supervisor.sample_cfg sample_down 1 _
           "router-1");
    [apply sample_down_reachable | by vm_compute..].
Defined.

End Ownership.
