(* ===== verification/Lifecycle.v ===== *)
(** * The lifecycle of an instance object

    [startInstance] builds a new instance object at every launch and
    the callbacks of the child process capture it; the restart timer
    counts the restart on the captured object and launches again.  This
    file follows each object from its launch on.  A [View] is what the
    lifecycle reads of a world: the restart counts, which processes
    run, which object each process' callbacks captured, and the objects
    of the pending restart timers.  Every step of the event loop moves
    the view by one of six [moves]; the moves keep the view [good]; and
    under a good view every object goes through the [lifecycle]
    serving, waiting for its restart, replaced or stopped, in this
    order and never back.  Hence, in every reachable world, no restart
    count exceeds one. *)

From S2P Require Import Prelude Node Config Registry Balancer World.
From S2P Require Import Health Supervisor Shutdown System Invariants.

Module Lifecycle.
Import Registry World System Invariants.

(** What the lifecycle reads of a world: of each instance object its
    restart count and its id, of each child process whether it runs
    and which object and id its callbacks captured, the captures of
    the pending restart timers, and the map.  Process [p] and object
    [r] are positions in the lists. *)
Record View : Type := mkView {
  counts : list nat;
  names : list string;
  alive : list bool;
  ties : list (option (ref * string));
  timers : list (ref * string);
  entries : list (string * ref);
}.

(** What the lifecycle reads of the variables a callback captured. *)
Definition tie (c : Closure) : ref * string := (c_instance c, c_instanceId c).

(** The capture of a pending restart timer. *)
Definition restart_ref (t : Task) : option (ref * string) :=
  match t with
  | TRestart c => Some (tie c)
  | _ => None
  end.

Definition view (w : World.t) : View :=
  mkView (restartCount <$> heap (reg w))
         (id <$> heap (reg w))
         (running <$> children w)
         ((λ ch, tie <$> listeners ch) <$> children w)
         (omap restart_ref (tasks w))
         (instances (mgr (reg w))).

(** ** The moves *)

(** A launch under the id [x]: a new process, a new object stored in
    the map under [x], the callbacks tied to it. *)
Definition born (x : string) (v : View) : View :=
  mkView (counts v ++ [0%nat]) (names v ++ [x]) (alive v ++ [true])
         (ties v ++ [Some (length (counts v), x)]) (timers v)
         (jm_set x (length (counts v)) (entries v)).

(** The process [p] has exited. *)
Definition ended (p : pid) (v : View) : View :=
  mkView (counts v) (names v) (<[p := false]> (alive v)) (ties v) (timers v)
         (entries v).

(** A restart timer is armed with the capture [c]. *)
Definition armed (c : ref * string) (v : View) : View :=
  mkView (counts v) (names v) (alive v) (ties v) (timers v ++ [c]) (entries v).

(** The [n]-th pending restart timer fires. *)
Definition fired (n : nat) (v : View) : View :=
  mkView (counts v) (names v) (alive v) (ties v) (delete n (timers v))
         (entries v).

(** The restart is counted on the object [r]. *)
Definition counted (r : ref) (v : View) : View :=
  mkView (alter S r (counts v)) (names v) (alive v) (ties v) (timers v)
         (entries v).

Inductive moves (v : View) : View → Prop :=
  | moves_same : moves v v
  | moves_born x : moves v (born x v)
  | moves_exit p : alive v !! p = Some true → moves v (ended p v)
  | moves_crash p c :
      alive v !! p = Some true → ties v !! p = Some (Some c) →
      moves v (armed c (ended p v))
  | moves_cancel n c : timers v !! n = Some c → moves v (fired n v)
  | moves_restart n c :
      timers v !! n = Some c → moves v (born c.2 (counted c.1 (fired n v))).

(** ** The invariant of the view

    One object per process, in the same position; a capture is the
    position and the id of its process' object; at most one timer per
    object, for objects whose process has exited and whose count is
    zero; the count of an object whose process runs is zero; no count
    exceeds one; the map has distinct keys and holds, under the id of
    an object, an object with that id and the count zero. *)
Record good (v : View) : Prop := mkGood {
  good_counts : length (counts v) = length (alive v);
  good_names : length (names v) = length (alive v);
  good_ties : length (ties v) = length (alive v);
  good_tied : ∀ p r x,
    ties v !! p = Some (Some (r, x)) → r = p ∧ names v !! p = Some x;
  good_timers : NoDup (timers v).*1;
  good_waiting : ∀ r x,
    (r, x) ∈ timers v →
    alive v !! r = Some false ∧ counts v !! r = Some 0%nat
    ∧ names v !! r = Some x;
  good_alive : ∀ r, alive v !! r = Some true → counts v !! r = Some 0%nat;
  good_bound : ∀ r n, counts v !! r = Some n → (n ≤ 1)%nat;
  good_keys : NoDup (entries v).*1;
  good_entries : ∀ k r,
    (k, r) ∈ entries v → names v !! r = Some k ∧ counts v !! r = Some 0%nat;
}.

(** ** The phases of an object *)

Inductive Phase : Type := Serving | Waiting | Replaced | Stopped.

#[export] Instance Phase_eq_dec : EqDecision Phase.
Proof. solve_decision. Defined.

(** The phase of the object [r]: its process runs; or a restart timer
    is pending for it; or its restart has been counted; or its process
    has exited and nothing is pending. *)
Definition phase (v : View) (r : ref) : option Phase :=
  a ← alive v !! r;
  Some (if a : bool then Serving
        else if bool_decide (r ∈ (timers v).*1) then Waiting
        else if bool_decide (counts v !! r = Some 1%nat) then Replaced
        else Stopped).

(** The transitions of the lifecycle. *)
Inductive lifecycle : Phase → Phase → Prop :=
  | lifecycle_crash : lifecycle Serving Waiting
  | lifecycle_exit : lifecycle Serving Stopped
  | lifecycle_restart : lifecycle Waiting Replaced
  | lifecycle_cancel : lifecycle Waiting Stopped.

(** One transition or none. *)
Definition follows (ph ph' : Phase) : Prop := ph' = ph ∨ lifecycle ph ph'.

(** The order of the phases. *)
Definition rank (ph : Phase) : nat :=
  match ph with
  | Serving => 0
  | Waiting => 1
  | Replaced | Stopped => 2
  end.

(** ** A run with a restart

    The startup of the sample run; the first worker crashes; its
    restart timer fires; the new worker answers its first probe. *)
Definition sample_crash : list Event := sample_startup ++ [EClose 0 (Some 1)].

Definition sample_restart : list Event :=
  sample_crash ++ [EResume 0 (ATimer true Supervisor.sample_clock)].

Definition sample_crashed : World.t :=
  from_option snd World.init (run Supervisor.sample_cfg sample_crash World.init).

Definition sample_restarted : World.t :=
  from_option snd World.init (run Supervisor.sample_cfg sample_restart World.init).

(** * The event loop moves the view *)

Section view.
Context (cfg : Config.t).
Implicit Types (w : World.t) (t : Task) (k : Cont) (c : Closure) (v : View).

(** A write to a field of an instance object other than the count. *)
Lemma view_write f r w :
  (∀ i, restartCount (f i) = restartCount i) → (∀ i, id (f i) = id i) →
  view (on_reg (update f r) w) = view w.
Proof. intros Hf Hid. unfold view. simpl. by rewrite !fmap_alter_same. Qed.

Lemma view_count r w :
  view (on_reg (update incr_restartCount r) w) = counted r (view w).
Proof.
  unfold view, counted. simpl. f_equal; [apply list_eq; intros j|].
  - rewrite list_lookup_fmap, !list_lookup_alter, !list_lookup_fmap.
    case_decide; [|done]. by destruct (heap (reg w) !! r).
  - by apply fmap_alter_same.
Qed.

Lemma view_add_task t w : restart_ref t = None → view (add_task t w) = view w.
Proof.
  intros Ht. unfold view. simpl. rewrite omap_app. simpl. rewrite Ht.
  by rewrite app_nil_r.
Qed.

Lemma view_arm c w : view (add_task (TRestart c) w) = armed (tie c) (view w).
Proof. unfold view, armed. simpl. by rewrite omap_app. Qed.

Lemma view_launched instanceId key port now w :
  view (Supervisor.launched instanceId key port now w) = born instanceId (view w).
Proof.
  unfold view, born.
  rewrite Supervisor.launched_children, Supervisor.launched_reg.
  simpl. by rewrite !fmap_app, length_fmap.
Qed.

Lemma view_exit_child p w : view (exit_child p w) = ended p (view w).
Proof.
  unfold view, ended. simpl. f_equal; [by apply fmap_alter_const|].
  by apply fmap_alter_same.
Qed.

Lemma view_deliver_all sig ps w :
  view (with_children (deliver_all sig ps (children w)) w) = view w.
Proof.
  unfold view. simpl. f_equal; unfold deliver_all.
  - apply (foldl_invariant (λ cs, running <$> cs = running <$> children w));
      [done|]. intros cs q _ <-. apply fmap_alter_same, deliver_running.
  - apply (foldl_invariant
             (λ cs, (λ ch, tie <$> listeners ch) <$> cs
                    = (λ ch, tie <$> listeners ch) <$> children w));
      [done|]. intros cs q _ <-. apply fmap_alter_same.
    by intros [[] [] ? ?].
Qed.

Lemma view_delete n t w :
  tasks w !! n = Some t → restart_ref t = None →
  view (with_tasks (delete n (tasks w)) w) = view w.
Proof. intros Hn Ht. unfold view. simpl. by rewrite (omap_delete_None _ _ _ t). Qed.

Lemma view_fire n c w :
  tasks w !! n = Some (TRestart c) →
  ∃ j, timers (view w) !! j = Some (tie c)
       ∧ view (with_tasks (delete n (tasks w)) w) = fired j (view w).
Proof.
  intros Hn.
  destruct (omap_delete_lookup restart_ref _ _ _ (tie c) Hn eq_refl)
    as (j & Hj & Hd).
  exists j. split; [done|]. unfold view, fired. simpl. by rewrite Hd.
Qed.

Lemma view_requests ts st w :
  heap st = heap (reg w) → instances (mgr st) = instances (mgr (reg w)) →
  Forall (λ t, ∃ r, t = TProxy r) ts →
  view (with_tasks (tasks w ++ ts) (with_reg st w)) = view w.
Proof.
  intros Hh Hi Hts. unfold view. simpl. rewrite Hh, Hi, omap_app. f_equal.
  rewrite <-(app_nil_r (omap _ (tasks w))) at 2. f_equal.
  induction Hts as [|t ts [r ->] _ IH]; [done|]. by simpl.
Qed.

(** ** The handlers that leave the view *)

Lemma view_startServices w : view (startServices cfg w).2 = view w.
Proof. by rewrite startServices_world. Qed.

Lemma view_resume k b w : view (resume cfg k b w).2 = view w.
Proof.
  destruct k; simpl; [done | by apply view_add_task | apply view_startServices].
Qed.

(** Whoever calls [startInstance] leaves the view when it resumes. *)
#[export] Instance view_resumes v :
  Resumes (λ w, view w = v) (λ _ _, True) (resume cfg).
Proof. intros k b w <- _. apply view_resume. Qed.

Lemma view_onReadySleep now instanceId port startTime maxWait k w :
  view (Health.onReadySleep (resume cfg) now instanceId port startTime maxWait k w).2
  = view w.
Proof.
  apply (Health.onReadySleep_keeps _ (λ w', view w' = view w) (λ _ _, True));
    [done | done | by apply view_add_task].
Qed.

Lemma view_onReadyProbe o instanceId port startTime maxWait k w :
  view (Health.onReadyProbe (resume cfg) o instanceId port startTime maxWait k w).2
  = view w.
Proof.
  apply (Health.onReadyProbe_keeps _ (λ w', view w' = view w) (λ _ _, True));
    [done | done | | by apply view_add_task].
  intros r _. split; [by apply view_write | done].
Qed.

Lemma view_healthLoop pos w : view (Health.healthLoop pos w).2 = view w.
Proof.
  unfold Health.healthLoop. repeat case_match; try done. by apply view_add_task.
Qed.

Lemma view_onHealthProbe o now pos instanceId r wasHealthy w :
  view (Health.onHealthProbe o now pos instanceId r wasHealthy w).2 = view w.
Proof.
  unfold Health.onHealthProbe.
  match goal with |- context [Health.healthLoop ?p ?w'] =>
    pose proof (view_healthLoop p w') as H; destruct (Health.healthLoop p w') end.
  simpl in *. by rewrite H, !view_write.
Qed.

Lemma view_shutdown signal w : view (Shutdown.shutdown signal w).2 = view w.
Proof.
  rewrite Shutdown.shutdown_world. unfold Shutdown.stopped.
  rewrite view_add_task by done.
  destruct (healthCheckInterval (mgr (reg w))).
  - exact (view_deliver_all SIGTERM (processes w)
             (with_ticking false (on_reg (with_isShuttingDown true) w))).
  - exact (view_deliver_all SIGTERM (processes w)
             (on_reg (with_isShuttingDown true) w)).
Qed.

Lemma view_shutdownAfterGrace w : view (Shutdown.shutdownAfterGrace w).2 = view w.
Proof.
  rewrite Shutdown.shutdownAfterGrace_world.
  apply (view_deliver_all SIGKILL (processes w)).
Qed.

(** ** The handlers that move it *)

Lemma view_startInstance found clock instanceId key port k w :
  view (Supervisor.startInstance cfg (resume cfg) found clock instanceId key port k w).2
  = born instanceId (view w).
Proof.
  apply (Supervisor.startInstance_keeps cfg (resume cfg)
           (λ w', view w' = born instanceId (view w)) (λ _ _, True));
    [apply view_launched | done |].
  rewrite view_add_task by done. apply view_launched.
Qed.

Lemma moves_startKey found clock i w :
  moves (view w) (view (startKey cfg found clock i w).2).
Proof.
  unfold startKey. destruct (Config.KEYS cfg !! i).
  - rewrite view_startInstance. constructor.
  - rewrite view_startServices. constructor.
Qed.

Lemma moves_start found clock w :
  moves (view w) (view (start cfg found clock w).2).
Proof.
  destruct (start_cases cfg found clock w) as [->|[->| ->]].
  - constructor.
  - apply moves_startKey.
  - rewrite view_startInstance. constructor.
Qed.

Lemma moves_onClose p ch c code w :
  children w !! p = Some ch → running ch = true → listeners ch = Some c →
  moves (view w) (view (Supervisor.onClose c code (exit_child p w)).2).
Proof.
  intros Hp Hrun Hc.
  assert (alive (view w) !! p = Some true) as Ha
    by (unfold view; simpl; by rewrite list_lookup_fmap, Hp, <-Hrun).
  assert (ties (view w) !! p = Some (Some (tie c))) as Ht
    by (unfold view; simpl; by rewrite list_lookup_fmap, Hp; simpl; rewrite Hc).
  unfold Supervisor.onClose. case_match; simpl.
  - rewrite view_arm, view_write, view_exit_child by done. by apply moves_crash.
  - rewrite view_write, view_exit_child by done. by apply moves_exit.
Qed.

Lemma moves_onRestartTimer found clock c n w :
  tasks w !! n = Some (TRestart c) →
  moves (view w)
    (view (Supervisor.onRestartTimer cfg (resume cfg) found clock c
             (with_tasks (delete n (tasks w)) w)).2).
Proof.
  intros (j & Hj & Hv)%view_fire. unfold Supervisor.onRestartTimer.
  case_match; simpl.
  - rewrite Hv. by eapply moves_cancel.
  - rewrite view_startInstance, view_count, Hv.
    by apply (moves_restart _ j (tie c)).
Qed.

(** ** The step *)

Lemma moves_runTask t a n w out :
  tasks w !! n = Some t →
  runTask cfg t a (with_tasks (delete n (tasks w)) w) = Some out →
  moves (view w) (view out.2).
Proof.
  intros Hn Hrun.
  destruct t; try (rewrite <-(view_delete n _ w Hn eq_refl));
    destruct a; simplify_eq/=;
    rewrite ?view_onReadyProbe, ?view_onReadySleep, ?view_onHealthProbe,
      ?view_shutdownAfterGrace;
    try constructor.
  - by apply moves_onRestartTimer.
  - apply moves_startKey.
  - destruct (Balancer.proxyError _ _ _) as [es st] eqn:E. simplify_eq/=.
    apply (f_equal snd) in E. rewrite Balancer.proxyError_state in E.
    simpl in E. subst st.
    set (w0 := with_tasks (delete n (tasks w)) w).
    change (with_reg _ w0) with (on_reg (update (with_healthy false) instance) w0).
    rewrite view_write by done. constructor.
Qed.

(** Every step of the event loop is a move of the view. *)
Lemma step_moves e w es w' :
  step cfg e w = Some (es, w') → moves (view w) (view w').
Proof.
  unfold step. case_decide; [done|].
  destruct e; try (destruct (children w !! child) as [ch|] eqn:Hch; [simpl|done];
                   destruct (listeners ch) as [c|] eqn:Hc; [simpl|done]).
  - destruct (started w); [done|]. intros Hs.
    apply (f_equal (fmap snd)) in Hs. simplify_eq/=.
    apply (moves_start found clock (with_started true w)).
  - destruct (running ch) eqn:Hrun; [|done]. intros Hs.
    apply (f_equal (fmap snd)) in Hs. simplify_eq/=. by eapply moves_onClose.
  - intros [= <- <-]. rewrite view_write by done. constructor.
  - intros [= <- <-]. constructor.
  - intros [= <- <-]. constructor.
  - destruct (tasks w !! n) as [t|] eqn:Ht; [simpl|done]. intros Hs.
    by apply (moves_runTask t a n w (es, w')).
  - destruct (ticking w); [|done]. intros Hs.
    apply (f_equal (fmap snd)) in Hs. simplify_eq/=.
    unfold Health.onHealthTick. rewrite view_healthLoop. constructor.
  - destruct (listening w); [|done].
    destruct (Balancer.handleRequest _ _ _) as [es' st] eqn:E. intros [= <- <-].
    apply (f_equal snd) in E. rewrite Balancer.handleRequest_state in E.
    simpl in E. subst st.
    rewrite view_requests;
      [constructor | apply Balancer.getHealthyInstance_heap
       | apply Balancer.getHealthyInstance_instances | apply proxied_spec].
  - destruct (listening w); [|done]. intros [= <- <-]. constructor.
  - destruct (handling w); [|done]. intros Hs.
    apply (f_equal (fmap snd)) in Hs. simplify_eq/=.
    rewrite view_shutdown. constructor.
  - destruct (started w && negb (listening w)); [|done]. intros [= <- <-].
    constructor.
Qed.

End view.

(** * The moves keep the view good *)

Section good.
Implicit Types (v : View) (r p n : nat) (x : string) (c : ref * string).

Lemma good_init : good (view World.init).
Proof.
  split; simpl; try done; try apply NoDup_nil_2;
    intros ? ? Hin; by apply elem_of_nil in Hin.
Qed.

Lemma timers_lookup v n c : timers v !! n = Some c → c.1 ∈ (timers v).*1.
Proof.
  intros Hn. apply list_elem_of_fmap. exists c.
  split; [done | by eapply list_elem_of_lookup_2].
Qed.

(** No timer is pending for an object whose process runs. *)
Lemma good_running v r : good v → alive v !! r = Some true → r ∉ (timers v).*1.
Proof.
  intros Hv Hr ([r' x] & -> & Hin)%list_elem_of_fmap.
  destruct (good_waiting v Hv _ _ Hin) as (? & _). simpl in *. congruence.
Qed.

Lemma good_ended p v : good v → alive v !! p = Some true → good (ended p v).
Proof.
  intros Hv Hp. destruct Hv. split; simpl; rewrite ?length_insert; try done.
  - intros r x Hin. destruct (good_waiting0 r x Hin) as (Hr & ? & ?).
    rewrite list_lookup_insert_ne by congruence. done.
  - intros r Hr. apply good_alive0.
    destruct (decide (p = r)) as [->|?];
      [|by rewrite list_lookup_insert_ne in Hr].
    rewrite list_lookup_insert_eq in Hr; [done | by eapply lookup_lt_Some].
Qed.

Lemma good_armed r x v :
  good v → alive v !! r = Some false → counts v !! r = Some 0%nat →
  names v !! r = Some x → r ∉ (timers v).*1 → good (armed (r, x) v).
Proof.
  intros Hv Ha Hc Hx Hr. destruct Hv. split; simpl; try done.
  - rewrite fmap_app. apply NoDup_app. split_and!; [done| |apply NoDup_singleton].
    by intros ? ? ->%list_elem_of_singleton.
  - intros r' x' [?|[= -> ->]%list_elem_of_singleton]%elem_of_app; auto.
Qed.

Lemma good_fired n c v :
  good v → timers v !! n = Some c → good (fired n v) ∧ c.1 ∉ (timers (fired n v)).*1.
Proof.
  intros Hv Hn. pose proof (delete_Permutation _ _ _ Hn) as Hp.
  pose proof (good_timers v Hv) as Hnd.
  rewrite Hp, fmap_cons in Hnd. apply NoDup_cons in Hnd as [Hc Hnd].
  split; [|done]. destruct Hv. split; simpl; try done.
  intros r x Hin. apply good_waiting0. rewrite Hp. by right.
Qed.

(** A launch. *)
Lemma good_born x v : good v → good (born x v).
Proof.
  intros Hv. destruct Hv. split; simpl; rewrite ?length_app; simpl; try lia.
  - intros p r y [Hp|[-> [= -> ->]]]%lookup_snoc_Some.
    + destruct (good_tied0 p r y Hp) as [-> ?].
      split; [done | by apply lookup_snoc_old].
    + split; [lia|]. rewrite good_ties0, <-good_names0. apply lookup_snoc_new.
  - done.
  - intros r y Hin. destruct (good_waiting0 r y Hin) as (? & ? & ?).
    split_and!; by apply lookup_snoc_old.
  - intros r [?|[-> _]]%lookup_snoc_Some; [apply lookup_snoc_old; auto|].
    rewrite <-good_counts0. apply lookup_snoc_new.
  - intros r n [?|[_ ->]]%lookup_snoc_Some; [by eauto | lia].
  - by apply jm_keys_set_NoDup.
  - intros k r [[= -> ->]|[Hin _]]%jm_set_elem_ne; [| |done].
    + split; [rewrite good_counts0, <-good_names0|]; apply lookup_snoc_new.
    + apply good_entries0 in Hin as [? ?]. split; by apply lookup_snoc_old.
Qed.

(** A restart: the count goes to the object whose timer has fired,
    and the launch takes that object's place in the map. *)
Lemma good_reborn r x v :
  good v → alive v !! r = Some false → counts v !! r = Some 0%nat →
  names v !! r = Some x → r ∉ (timers v).*1 →
  good (born x (counted r v)).
Proof.
  intros Hv Ha Hc Hx Hr.
  assert (∀ r', r' ≠ r → alter S r (counts v) !! r' = counts v !! r') as Hne
    by (intros; by rewrite list_lookup_alter_ne).
  pose proof (length_alter S (counts v) r) as Hlen.
  destruct Hv.
  split; simpl; rewrite ?length_app, ?Hlen; simpl; try lia.
  - intros p r' y [Hp|[-> [= -> ->]]]%lookup_snoc_Some.
    + destruct (good_tied0 p r' y Hp) as [-> ?].
      split; [done | by apply lookup_snoc_old].
    + split; [lia|]. rewrite good_ties0, <-good_names0. apply lookup_snoc_new.
  - done.
  - intros r' y Hin. destruct (good_waiting0 r' y Hin) as (? & ? & ?).
    split_and!; apply lookup_snoc_old; [done| |done]. rewrite Hne; [done|].
    intros ->. apply Hr, list_elem_of_fmap. by exists (r, y).
  - intros r' [Hr'|[-> _]]%lookup_snoc_Some.
    + apply lookup_snoc_old. rewrite Hne by congruence. auto.
    + rewrite <-good_counts0, <-Hlen. apply lookup_snoc_new.
  - intros r' n [Hr'|[_ ->]]%lookup_snoc_Some; [|lia].
    rewrite list_lookup_alter in Hr'. case_decide; [subst|by eauto].
    rewrite Hc in Hr'. simplify_eq/=. lia.
  - by apply jm_keys_set_NoDup.
  - intros k r' [[= -> ->]|[Hin Hk]]%jm_set_elem_ne; [| |done].
    + split; [rewrite good_counts0, <-good_names0|rewrite <-Hlen];
        apply lookup_snoc_new.
    + apply good_entries0 in Hin as [Hn' Hc']. simpl in Hk.
      split; apply lookup_snoc_old; [done|]. rewrite Hne; [done|].
      intros ->. congruence.
Qed.

(** Every move keeps the view good. *)
Lemma moves_good v v' : good v → moves v v' → good v'.
Proof.
  intros Hv [|x|p Hp|p [r x] Hp Ht|n c Hn|n [r x] Hn]; [done|..].
  - by apply good_born.
  - by apply good_ended.
  - destruct (good_tied v Hv _ _ _ Ht) as [-> Hx].
    apply good_armed; [by apply good_ended|simpl..].
    + rewrite list_lookup_insert_eq; [done | by eapply lookup_lt_Some].
    + by apply (good_alive v).
    + done.
    + by apply good_running.
  - by eapply good_fired.
  - destruct (good_fired n (r, x) v Hv Hn) as [Hv' Hr].
    destruct (good_waiting v Hv r x) as (? & ? & ?);
      [by eapply list_elem_of_lookup_2|].
    by apply good_reborn.
Qed.

End good.

(** * The moves follow the lifecycle *)

Section phases.
Implicit Types (v : View) (r p n : nat) (x : string) (c : ref * string).
Implicit Types (ph : Phase).

Lemma phase_ext v v' r :
  alive v' !! r = alive v !! r → counts v' !! r = counts v !! r →
  (r ∈ (timers v').*1 ↔ r ∈ (timers v).*1) → phase v' r = phase v r.
Proof.
  intros Ha Hc Ht. unfold phase. rewrite Ha, Hc.
  by rewrite (bool_decide_ext _ _ Ht).
Qed.

Lemma phase_Serving v r : phase v r = Some Serving ↔ alive v !! r = Some true.
Proof.
  unfold phase. destruct (alive v !! r) as [[]|]; simpl; split; try done.
  by repeat case_bool_decide.
Qed.

Lemma phase_Waiting v r :
  alive v !! r = Some false → r ∈ (timers v).*1 → phase v r = Some Waiting.
Proof. intros Ha Ht. unfold phase. rewrite Ha. simpl. by rewrite bool_decide_eq_true_2. Qed.

Lemma phase_Replaced v r :
  alive v !! r = Some false → r ∉ (timers v).*1 → counts v !! r = Some 1%nat →
  phase v r = Some Replaced.
Proof.
  intros Ha Ht Hc. unfold phase. rewrite Ha, Hc. simpl.
  by rewrite bool_decide_eq_false_2.
Qed.

Lemma phase_Stopped v r :
  alive v !! r = Some false → r ∉ (timers v).*1 → counts v !! r = Some 0%nat →
  phase v r = Some Stopped.
Proof.
  intros Ha Ht Hc. unfold phase. rewrite Ha, Hc. simpl.
  by rewrite bool_decide_eq_false_2.
Qed.

Lemma phase_lt v r ph : phase v r = Some ph → (r < length (alive v))%nat.
Proof.
  unfold phase. destruct (alive v !! r) eqn:Ha; [|done]. intros _.
  by eapply lookup_lt_Some.
Qed.

(** Under a good view the phase tells the count. *)
Lemma phase_count v r ph :
  good v → phase v r = Some ph →
  counts v !! r = Some (if decide (ph = Replaced) then 1%nat else 0%nat).
Proof.
  intros Hv. unfold phase. destruct (alive v !! r) as [a|] eqn:Ha; [simpl|done].
  destruct (lookup_lt_is_Some_2 (counts v) r) as [n Hn];
    [rewrite (good_counts v Hv); by eapply lookup_lt_Some|].
  pose proof (good_bound v Hv r n Hn).
  destruct a; [intros [= <-]; by apply (good_alive v)|].
  case_bool_decide as Ht.
  - intros [= <-]. apply list_elem_of_fmap in Ht as ([r' x] & -> & Hin).
    by destruct (good_waiting v Hv _ _ Hin) as (_ & ? & _).
  - case_bool_decide; intros [= <-]; [done|]. simpl. rewrite Hn. f_equal.
    destruct n as [|[|n]]; [done|congruence|lia].
Qed.

(** The timers left after one has fired. *)
Lemma fired_timers v n c r :
  good v → timers v !! n = Some c →
  r ∈ (timers (fired n v)).*1 ↔ r ∈ (timers v).*1 ∧ r ≠ c.1.
Proof.
  intros Hv Hn. destruct (good_fired n c v Hv Hn) as [_ Hc].
  pose proof (fmap_Permutation fst _ _ (delete_Permutation _ _ _ Hn)) as Hp.
  rewrite fmap_cons in Hp. simpl in *. rewrite Hp, elem_of_cons.
  split; [|by intros [[?|?] ?]].
  intros Hr. split; [by right | by intros ->].
Qed.

(** A launch leaves the objects there are. *)
Lemma phase_born x v r ph : good v → phase v r = Some ph → phase (born x v) r = Some ph.
Proof.
  intros Hv Hph. rewrite <-Hph. pose proof (phase_lt _ _ _ Hph).
  apply phase_ext; simpl; [| |done]; rewrite lookup_app_l; try done.
  by rewrite (good_counts v Hv).
Qed.

Lemma phase_counted r v r' : r' ≠ r → phase (counted r v) r' = phase v r'.
Proof.
  intros Hne. apply phase_ext; simpl; [done| |done].
  by rewrite list_lookup_alter_ne.
Qed.

(** The process [p] exits and no restart is armed. *)
Lemma ended_follows p v r ph :
  good v → alive v !! p = Some true → phase v r = Some ph →
  ∃ ph', phase (ended p v) r = Some ph' ∧ follows ph ph'.
Proof.
  intros Hv Hp Hph. destruct (decide (r = p)) as [->|Hne].
  - apply phase_Serving in Hp as Hs. rewrite Hs in Hph. injection Hph as <-.
    exists Stopped. split; [|right; constructor].
    apply phase_Stopped; simpl; [| by apply good_running | by apply (good_alive v)].
    rewrite list_lookup_insert_eq; [done | by eapply lookup_lt_Some].
  - exists ph. split; [|by left]. rewrite <-Hph.
    apply phase_ext; simpl; [|done..]. by rewrite list_lookup_insert_ne.
Qed.

(** The process [p] exits and its restart is armed. *)
Lemma crashed_follows p x v r ph :
  good v → alive v !! p = Some true → phase v r = Some ph →
  ∃ ph', phase (armed (p, x) (ended p v)) r = Some ph' ∧ follows ph ph'.
Proof.
  intros Hv Hp Hph. destruct (decide (r = p)) as [->|Hne].
  - apply phase_Serving in Hp as Hs. rewrite Hs in Hph. injection Hph as <-.
    exists Waiting. split; [|right; constructor]. apply phase_Waiting; simpl.
    + rewrite list_lookup_insert_eq; [done | by eapply lookup_lt_Some].
    + rewrite fmap_app, elem_of_app. right. by apply list_elem_of_singleton.
  - exists ph. split; [|by left]. rewrite <-Hph.
    apply phase_ext; simpl; [by rewrite list_lookup_insert_ne|done|].
    rewrite fmap_app, elem_of_app. simpl. rewrite list_elem_of_singleton.
    split; [by intros [?|?] | by left].
Qed.

(** A timer fires: [u] is what the timer's callback makes of the view
    without the timer, [ph0] the phase it gives to the timer's object;
    the other objects keep their phase. *)
Lemma fired_follows n c v u r ph ph0 :
  good v → timers v !! n = Some c → lifecycle Waiting ph0 →
  phase u c.1 = Some ph0 →
  (∀ r', r' ≠ c.1 → (r' < length (alive v))%nat →
         phase u r' = phase (fired n v) r') →
  phase v r = Some ph →
  ∃ ph', phase u r = Some ph' ∧ follows ph ph'.
Proof.
  intros Hv Hn Hl Hc Hu Hph.
  destruct (good_waiting v Hv c.1 c.2) as (Ha & _);
    [destruct c; by eapply list_elem_of_lookup_2|].
  destruct (decide (r = c.1)) as [->|Hne].
  - rewrite phase_Waiting in Hph by (by try eapply timers_lookup).
    injection Hph as <-. exists ph0. split; [done | by right].
  - exists ph. split; [|by left].
    rewrite Hu, <-Hph by (by try eapply phase_lt).
    apply phase_ext; simpl; [done..|].
    rewrite (fired_timers v n c) by done. split; [by intros [? _] | done].
Qed.

(** Every move takes every object one transition of the lifecycle
    further, or leaves it. *)
Lemma moves_lifecycle v v' r ph :
  good v → moves v v' → phase v r = Some ph →
  ∃ ph', phase v' r = Some ph' ∧ follows ph ph'.
Proof.
  intros Hv [|x|p Hp|p [r0 x] Hp Ht|n c Hn|n [r0 x] Hn] Hph.
  - exists ph. split; [done | by left].
  - exists ph. split; [by apply phase_born | by left].
  - by apply ended_follows.
  - destruct (good_tied v Hv _ _ _ Ht) as [-> Hx]. by apply crashed_follows.
  - destruct (good_waiting v Hv c.1 c.2) as (Ha & Hc & _);
      [destruct c; by eapply list_elem_of_lookup_2|].
    apply (fired_follows n c v _ r ph Stopped); try done; [constructor|].
    apply phase_Stopped; simpl; [done| |done]. by apply (good_fired n c v).
  - destruct (good_waiting v Hv r0 x) as (Ha & Hc & _);
      [by eapply list_elem_of_lookup_2|].
    destruct (good_fired n (r0, x) v Hv Hn) as [Hv' Hr0].
    assert (∀ r', (r' < length (alive v))%nat →
              phase (born x (counted r0 (fired n v))) r'
              = phase (counted r0 (fired n v)) r') as Hb.
    { intros r' Hlt. apply phase_ext; simpl; [| |done]; rewrite lookup_app_l;
        try done. by rewrite length_alter, (good_counts v Hv). }
    apply (fired_follows n (r0, x) v _ r ph Replaced); try done; [constructor|..].
    + rewrite Hb by (by eapply lookup_lt_Some). apply phase_Replaced; simpl; try done.
      by rewrite list_lookup_alter_eq, Hc.
    + intros r' Hne Hlt. by rewrite Hb, phase_counted.
Qed.

(** An object that appears is serving. *)
Lemma moves_newborn v v' r ph :
  good v → moves v v' → phase v r = None → phase v' r = Some ph → ph = Serving.
Proof.
  intros Hv Hm Hnone Hph.
  assert (length (alive v) ≤ r)%nat as Hr.
  { unfold phase in Hnone. apply lookup_ge_None.
    by destruct (alive v !! r). }
  assert (∀ u, length (alive u) = length (alive v) → phase u r = None) as Hout.
  { intros u Hu. unfold phase.
    by rewrite (proj2 (lookup_ge_None (alive u) r)) by lia. }
  assert (∀ x u, length (alive u) = length (alive v) →
            phase (born x u) r = Some ph → ph = Serving) as Hborn.
  { intros x u Hu Hb. pose proof (phase_lt _ _ _ Hb) as Hlt. simpl in Hlt.
    rewrite length_app in Hlt. simpl in Hlt.
    assert (phase (born x u) r = Some Serving) as Hs; [|congruence].
    apply phase_Serving. simpl.
    replace r with (length (alive u)) by lia. apply lookup_snoc_new. }
  destruct Hm as [|x|p Hp|p c Hp Ht|n c Hn|n c Hn];
    try (rewrite Hout in Hph; [done|]; simpl; by rewrite ?length_insert);
    (eapply Hborn; [|exact Hph]; done).
Qed.

Lemma lifecycle_rank ph ph' : lifecycle ph ph' → (rank ph < rank ph')%nat.
Proof. destruct 1; simpl; lia. Qed.

End phases.

(** * Reachable worlds *)

Section reachable.
Context (cfg : Config.t).
Implicit Types (w : World.t) (r : ref) (i : Instance) (ph : Phase).

Lemma reachable_good w : reachable cfg w → good (view w).
Proof.
  induction 1 as [|w e es w' _ IH Hstep]; [apply good_init|].
  eapply moves_good; [done | by eapply step_moves].
Qed.

(** Every instance object has a phase, which tells its count. *)
Lemma object_phase w r i :
  reachable cfg w → heap (reg w) !! r = Some i →
  ∃ ph, phase (view w) r = Some ph
        ∧ restartCount i = if decide (ph = Replaced) then 1%nat else 0%nat.
Proof.
  intros Hv%reachable_good Hr.
  assert (counts (view w) !! r = Some (restartCount i)) as Hc
    by (unfold view; simpl; by rewrite list_lookup_fmap, Hr).
  destruct (lookup_lt_is_Some_2 (alive (view w)) r) as [a Ha].
  { rewrite <-(good_counts _ Hv). by eapply lookup_lt_Some. }
  assert (is_Some (phase (view w) r)) as [ph Hph]
    by (unfold phase; rewrite Ha; by eexists).
  exists ph. split; [done|]. pose proof (phase_count _ _ _ Hv Hph). congruence.
Qed.

(** C16. No restart count exceeds one.  In every world the program
    reaches, the [restartCount] of every instance object is [0] or
    [1], and it is [1] exactly for the objects that a restart has
    replaced: the timer counts the restart on the object of the worker
    that has exited, an object is counted at most once, and the new
    worker gets a new object. *)
Theorem restart_count_bounded w r i :
  reachable cfg w → heap (reg w) !! r = Some i →
  (restartCount i ≤ 1)%nat
  ∧ (restartCount i = 1%nat ↔ phase (view w) r = Some Replaced).
Proof.
  intros Hw Hr. destruct (object_phase w r i Hw Hr) as (ph & Hph & ->).
  rewrite Hph. case_decide; [subst|]; (split; [lia|]); split; try done.
  by intros [= ->].
Qed.

(** C7. The restart count of a registered instance is zero.  In every
    world the program reaches, the object the map holds under an id
    has [restartCount] [0] and has not been replaced: a restart puts
    the new object in the place of the one it has counted, so the count
    that the [/status] and the 503 replies read from the map never
    moves. *)
Theorem registered_count_zero w k r i :
  reachable cfg w → (k, r) ∈ instances (mgr (reg w)) → heap (reg w) !! r = Some i →
  restartCount i = 0%nat ∧ phase (view w) r ≠ Some Replaced.
Proof.
  intros Hw Hin Hr. destruct (object_phase w r i Hw Hr) as (ph & Hph & Hc).
  destruct (good_entries _ (reachable_good w Hw) k r Hin) as [_ Hz].
  unfold view in Hz; simpl in Hz. rewrite list_lookup_fmap, Hr in Hz.
  injection Hz as Hz. split; [done|]. rewrite Hph. intros [= ->].
  rewrite Hz in Hc. by rewrite decide_True in Hc.
Qed.

(** C11. The event loop implements the lifecycle of an instance object.
    From a reachable world, every step takes every instance object
    one transition of the lifecycle further (serving to waiting or
    stopped, waiting to replaced or stopped) or leaves its phase; an
    object that the step creates is serving. *)
Theorem step_lifecycle w e es w' r :
  reachable cfg w → step cfg e w = Some (es, w') →
  match phase (view w) r with
  | Some ph => ∃ ph', phase (view w') r = Some ph' ∧ follows ph ph'
  | None => ∀ ph', phase (view w') r = Some ph' → ph' = Serving
  end.
Proof.
  intros Hv%reachable_good Hm%step_moves.
  destruct (phase (view w) r) as [ph|] eqn:Hph.
  - by eapply moves_lifecycle.
  - intros ph'. by eapply moves_newborn.
Qed.

(** Along a run the phase of an object only advances. *)
Lemma run_rank evs : ∀ w es w' r ph,
  reachable cfg w → run cfg evs w = Some (es, w') → phase (view w) r = Some ph →
  ∃ ph', phase (view w') r = Some ph' ∧ (rank ph ≤ rank ph')%nat.
Proof.
  induction evs as [|e evs IH]; intros w es w' r ph Hw Hrun Hph; simplify_eq/=.
  { eauto. }
  destruct (step cfg e w) as [[es1 w1]|] eqn:Hstep; simplify_eq/=.
  destruct (run cfg evs w1) as [[es2 w2]|] eqn:E; simplify_eq/=.
  destruct (moves_lifecycle _ _ r ph (reachable_good w Hw) (step_moves cfg _ _ _ _ Hstep) Hph)
    as (ph1 & Hph1 & Hrel).
  edestruct (IH w1) as (ph2 & Hph2 & Hle);
    [by eapply reachable_step | exact E | exact Hph1 |].
  exists ph2. split; [done|].
  destruct Hrel as [->|?%lifecycle_rank]; lia.
Qed.

(** An instance object never serves again.  Once the process of
    an instance object has exited, the object is not served by a
    running process in any later world: a restart serves the id from a
    new object, and what still holds the old one (a proxied request in
    flight, a probe of the periodic check) writes to an object that the
    map no longer holds. *)
Theorem never_serves_again evs w es w' r ph :
  reachable cfg w → run cfg evs w = Some (es, w') →
  phase (view w) r = Some ph → ph ≠ Serving →
  ∃ ph', phase (view w') r = Some ph' ∧ ph' ≠ Serving.
Proof.
  intros Hw Hrun Hph Hne.
  destruct (run_rank evs w es w' r ph Hw Hrun Hph) as (ph' & Hph' & Hle).
  exists ph'. split; [done|]. intros ->. destruct ph; simpl in *; try done; lia.
Qed.

End reachable.

(** ** The sample run *)

Lemma sample_crashed_reachable : reachable Supervisor.sample_cfg sample_crashed.
Proof.
  eapply (run_reachable _ sample_crash World.init); [constructor|].
  vm_compute. reflexivity.
Qed.

Lemma sample_restarted_reachable : reachable Supervisor.sample_cfg sample_restarted.
Proof.
  eapply (run_reachable _ sample_restart World.init); [constructor|].
  vm_compute. reflexivity.
Qed.

Lemma restart_count_bounded_witness :
  (1 ≤ 1)%nat ∧ (1%nat = 1%nat ↔ phase (view sample_restarted) 0 = Some Replaced).
Proof.
  apply (restart_count_bounded Supervisor.sample_cfg sample_restarted 0
           (mkInstance "router-0" 0 (Int 3100) (Some "k0") false None 10000 1));
    [apply sample_restarted_reachable | reflexivity].
Defined.

Lemma registered_count_zero_witness :
  0%nat = 0%nat ∧ phase (view sample_restarted) 2 ≠ Some Replaced.
Proof.
  apply (registered_count_zero Supervisor.sample_cfg sample_restarted "router-0" 2
           (mkInstance "router-0" 2 (Int 3100) (Some "k0") false None 10000 0));
    [apply sample_restarted_reachable | by_compute | reflexivity].
Defined.

Lemma step_lifecycle_witness :
  ∃ ph', phase (view sample_restarted) 0 = Some ph' ∧ follows Waiting ph'.
Proof.
  eapply (step_lifecycle Supervisor.sample_cfg sample_crashed
            (EResume 0 (ATimer true Supervisor.sample_clock)) _ sample_restarted 0);
    [apply sample_crashed_reachable | vm_compute; reflexivity].
Defined.

Lemma never_serves_again_witness :
  ∃ ph', phase (view sample_restarted) 0 = Some ph' ∧ ph' ≠ Serving.
Proof.
  eapply (never_serves_again Supervisor.sample_cfg
            [EResume 0 (ATimer true Supervisor.sample_clock)] sample_crashed _
            sample_restarted 0 Waiting);
    [apply sample_crashed_reachable | vm_compute; reflexivity | reflexivity | done].
Defined.

End Lifecycle.
