(* ===== verification/Monitor.v ===== *)
(** * The health monitor on the event loop

    One round of the periodic check of [startHealthCheck]
    ([router-ha.js], lines 216-230) as a run of [System.step]: the
    interval timer fires, and the probes of the round are answered one
    after the other while nothing else happens ([sweep]).  The round is
    compared with a reference: [noteAll] writes each answer to the
    instance at its position of the map, [trace] lists the calls, a
    probe per entry and a message per change of health.  Theorems: the
    round ends, makes the calls of the reference and writes what the
    reference writes, leaving everything else as it was; in every
    reachable world the instances that serve requests after the round
    are those whose probe was answered with status 200, in the order of
    their registration; a round under way when a termination signal
    arrives goes on probing. *)

From S2P Require Import Prelude Node Config Registry Balancer World.
From S2P Require Import Health Supervisor Shutdown System Invariants.

Module Monitor.
Import Registry World System Invariants.

(** The events of a round: the timer fires, then each probe is
    answered with an outcome and a reading of the clock.  [t] is the
    position at which the awaited probe is pending. *)
Definition sweep (t : nat) (answers : list (Health.Outcome * Z)) : list Event :=
  ETick :: ((λ a, EResume t (AProbe a.1 a.2)) <$> answers).

(** What an answer makes of an instance: the verdict of the probe and
    the time of its return. *)
Definition note (a : Health.Outcome * Z) (r : ref) (st : State) : State :=
  update (with_lastHealthCheck a.2) r
    (update (with_healthy (Health.checkInstanceHealth a.1)) r st).

(** The reference: the answers written to the instances [rs] in
    order. *)
Fixpoint noteAll (rs : list ref) (answers : list (Health.Outcome * Z))
    (st : State) : State :=
  match rs, answers with
  | r :: rs, a :: answers => noteAll rs answers (note a r st)
  | _, _ => st
  end.

(** The instances among [rs] whose probe was answered with status
    200. *)
Definition answered (rs : list ref) (answers : list (Health.Outcome * Z))
    : list ref :=
  omap (λ ra : ref * (Health.Outcome * Z),
          if Health.checkInstanceHealth ra.2.1 then Some ra.1 else None)
       (zip rs answers).

(** The calls a round makes for one entry of the map: the probe, and
    a message when the answer changes the instance's health. *)
Definition calls (st : State) (entry : string * ref)
    (a : Health.Outcome * Z) : list effect :=
  match heap st !! entry.2 with
  | Some i =>
      Health.probe (port i)
      :: Health.transitionLog entry.1 (healthy i) (Health.checkInstanceHealth a.1)
  | None => []
  end.

(** The calls of a round over the entries, in order. *)
Definition trace (st : State) (entries : list (string * ref))
    (answers : list (Health.Outcome * Z)) : list effect :=
  mjoin (zip_with (calls st) entries answers).

(** The ports of the instances [rs]. *)
Definition ports (st : State) (rs : list ref) : list num :=
  omap (λ r, port <$> heap st !! r) rs.

(** Two workers are up; the first answers its probe, the second does
    not. *)
Definition sample_answers : list (Health.Outcome * Z) :=
  [(Health.Response 200, 50000); (Health.RequestTimeout, 55000)].

(** * Lemmas *)

Section reference.
Implicit Types (st : State) (r : ref) (rs : list ref).
Implicit Types (a : Health.Outcome * Z) (answers : list (Health.Outcome * Z)).

Lemma noteAll_nil rs st : noteAll rs [] st = st.
Proof. by destruct rs. Qed.

Lemma mgr_note a r st : mgr (note a r st) = mgr st.
Proof. done. Qed.

Lemma length_note a r st : length (heap (note a r st)) = length (heap st).
Proof. unfold note. by rewrite !heap_update_length. Qed.

Lemma note_ne a r r' st : r ≠ r' → heap (note a r st) !! r' = heap st !! r'.
Proof. intros. unfold note. by rewrite !heap_update_ne. Qed.

Lemma note_eq a r st i :
  heap st !! r = Some i →
  heap (note a r st) !! r
  = Some (with_lastHealthCheck a.2 (with_healthy (Health.checkInstanceHealth a.1) i)).
Proof. intros Hi. unfold note. by do 2 apply heap_update_eq. Qed.

Lemma healthy_at_note a r st i :
  heap st !! r = Some i →
  healthy_at (heap (note a r st)) r = Health.checkInstanceHealth a.1.
Proof. intros Hi. unfold healthy_at. by rewrite (note_eq a r st i). Qed.

Lemma port_note a r r' st : port <$> heap (note a r st) !! r' = port <$> heap st !! r'.
Proof.
  destruct (decide (r = r')) as [<-|]; [|by rewrite note_ne].
  destruct (heap st !! r) as [i|] eqn:Hi; [by rewrite (note_eq a r st i)|].
  unfold note. simpl. by rewrite !list_lookup_alter, !decide_True, Hi.
Qed.

Lemma ports_cons st r rs i :
  heap st !! r = Some i → ports st (r :: rs) = port i :: ports st rs.
Proof. intros Hi. unfold ports. by rewrite omap_cons, Hi. Qed.

Lemma trace_nil st entries : trace st entries [] = [].
Proof. unfold trace. by destruct entries. Qed.

Lemma trace_cons st entry entries a answers :
  trace st (entry :: entries) (a :: answers)
  = calls st entry a ++ trace st entries answers.
Proof. done. Qed.

(** The calls for the entries that an answer does not touch. *)
Lemma trace_note a r st entries : ∀ answers,
  r ∉ entries.*2 → trace (note a r st) entries answers = trace st entries answers.
Proof.
  induction entries as [|[k r'] entries IH]; intros [|a' answers] Hr; try done.
  rewrite fmap_cons in Hr. apply not_elem_of_cons in Hr as [Hne Hr].
  rewrite !trace_cons, IH by done. unfold calls. by rewrite note_ne.
Qed.

Lemma probes_probe (p : num) es : probes (Health.probe p :: es) = p :: probes es.
Proof. done. Qed.

(** One probe per entry, at the port of its instance. *)
Lemma probes_trace st entries : ∀ answers,
  length answers = length entries →
  Forall (λ entry, is_Some (heap st !! entry.2)) entries →
  probes (trace st entries answers) = ports st entries.*2.
Proof.
  induction entries as [|[k r] entries IH]; intros [|a answers] Hlen Hall;
    try done.
  apply Forall_cons in Hall as [[i Hi] Hall]. injection Hlen as Hlen.
  rewrite trace_cons, probes_app, IH, fmap_cons, (ports_cons _ r _ i) by done.
  unfold calls. by rewrite Hi, probes_probe, Health.probes_transitionLog.
Qed.

Lemma wf_note a r st : wf st → wf (note a r st).
Proof. intros. unfold note. by do 2 (apply wf_update; [done|]). Qed.

Lemma wf_noteAll rs : ∀ answers st, wf st → wf (noteAll rs answers st).
Proof.
  induction rs as [|r rs IH]; intros [|a answers] st Hwf; try done.
  simpl. by apply IH, wf_note.
Qed.

Lemma mgr_noteAll rs : ∀ answers st, mgr (noteAll rs answers st) = mgr st.
Proof.
  induction rs as [|r rs IH]; intros [|a answers] st; try done.
  simpl. by rewrite IH.
Qed.

Lemma values_noteAll rs answers st : values (noteAll rs answers st) = values st.
Proof. unfold values. by rewrite mgr_noteAll. Qed.

(** The round writes to the instances it probes only. *)
Lemma noteAll_ne rs : ∀ answers st r,
  r ∉ rs → heap (noteAll rs answers st) !! r = heap st !! r.
Proof.
  induction rs as [|r' rs IH]; intros [|a answers] st r Hr; try done.
  apply not_elem_of_cons in Hr as [? ?]. simpl. by rewrite IH, note_ne.
Qed.

(** An instance probed once in the round carries the verdict and the
    time of its answer. *)
Lemma noteAll_lookup rs : ∀ answers st (j : nat) r a i,
  NoDup rs → rs !! j = Some r → answers !! j = Some a → heap st !! r = Some i →
  heap (noteAll rs answers st) !! r
  = Some (with_lastHealthCheck a.2 (with_healthy (Health.checkInstanceHealth a.1) i)).
Proof.
  induction rs as [|r' rs IH]; intros [|a' answers] st j r a i Hnd Hr Ha Hi;
    try done.
  apply NoDup_cons in Hnd as [Hr' Hnd]. destruct j as [|j]; simplify_eq/=.
  - rewrite noteAll_ne by done. by apply note_eq.
  - eapply IH; [done..|]. rewrite note_ne; [done|].
    intros ->. apply Hr'. by eapply list_elem_of_lookup_2.
Qed.

Lemma answered_cons r rs a answers :
  answered (r :: rs) (a :: answers)
  = if Health.checkInstanceHealth a.1 then r :: answered rs answers
    else answered rs answers.
Proof. unfold answered. simpl. by destruct (Health.checkInstanceHealth a.1). Qed.

(** After the round the healthy ones among the probed instances are
    those whose probe was answered with status 200. *)
Lemma filter_noteAll rs : ∀ answers st,
  NoDup rs → Forall (λ r, (r < length (heap st))%nat) rs →
  length answers = length rs →
  filter (λ r, healthy_at (heap (noteAll rs answers st)) r = true) rs
  = answered rs answers.
Proof.
  induction rs as [|r rs IH]; intros [|a answers] st Hnd Hlt Hlen; try done.
  apply NoDup_cons in Hnd as [Hr Hnd]. apply Forall_cons in Hlt as [Hr' Hlt].
  apply lookup_lt_is_Some in Hr' as [i Hi]. injection Hlen as Hlen.
  rewrite filter_cons, answered_cons. cbn [noteAll].
  rewrite (IH answers (note a r st)); [|done|by rewrite length_note|done].
  assert (healthy_at (heap (noteAll rs answers (note a r st))) r
          = Health.checkInstanceHealth a.1) as ->
    by (unfold healthy_at; by rewrite noteAll_ne, (note_eq a r st i)).
  by destruct (Health.checkInstanceHealth a.1).
Qed.

(** The routing pool that the reference leaves. *)
Lemma healthyInstances_noteAll answers st :
  wf st → length answers = length (instances (mgr st)) →
  healthyInstances (noteAll (values st) answers st) = answered (values st) answers.
Proof.
  intros Hwf Hlen. unfold healthyInstances. rewrite values_noteAll.
  apply filter_noteAll; [by apply wf_values_NoDup| |].
  - apply Forall_forall. intros r Hr. by eapply wf_values_lt.
  - unfold values, jm_values. by rewrite length_fmap.
Qed.

End reference.

Section round.
Context (cfg : Config.t).
Implicit Types (w : World.t) (r : ref) (pos : nat).
Implicit Types (a : Health.Outcome * Z) (answers : list (Health.Outcome * Z)).

(** The head of the loop at an entry of the map. *)
Lemma healthLoop_entry pos w instanceId r i :
  instances (mgr (reg w)) !! pos = Some (instanceId, r) →
  heap (reg w) !! r = Some i →
  Health.healthLoop pos w
  = ([Health.probe (port i)],
     add_task (THealthProbe pos instanceId r (healthy i)) w).
Proof. intros Hpos Hr. unfold Health.healthLoop. by rewrite Hpos, Hr. Qed.

(** The head of the loop past the last entry: the round is over. *)
Lemma healthLoop_end pos w :
  (length (instances (mgr (reg w))) ≤ pos)%nat → Health.healthLoop pos w = ([], w).
Proof. intros H. unfold Health.healthLoop. by rewrite lookup_ge_None_2. Qed.

(** The body of the loop in terms of the reference. *)
Lemma onHealthProbe_note a pos instanceId r wasHealthy w :
  Health.onHealthProbe a.1 a.2 pos instanceId r wasHealthy w
  = (Health.transitionLog instanceId wasHealthy
       (healthy_at (heap (note a r (reg w))) r)
     ++ (Health.healthLoop (S pos) (on_reg (note a r) w)).1,
     (Health.healthLoop (S pos) (on_reg (note a r) w)).2).
Proof.
  unfold Health.onHealthProbe.
  change (on_reg _ (on_reg _ w)) with (on_reg (note a r) w).
  by destruct (Health.healthLoop _ _).
Qed.

(** One round of the loop on the event loop: the probe of the entry
    at [pos] is answered, the answer is written and the loop goes on to
    the next entry. *)
Lemma sweep_step a pos w instanceId r i evs :
  exited w = None →
  instances (mgr (reg w)) !! pos = Some (instanceId, r) →
  heap (reg w) !! r = Some i →
  run cfg (EResume (length (tasks w)) (AProbe a.1 a.2) :: evs)
    (add_task (THealthProbe pos instanceId r (healthy i)) w)
  = '(es, w') ← run cfg evs (Health.healthLoop (S pos) (on_reg (note a r) w)).2;
    Some ((Health.transitionLog instanceId (healthy i)
             (Health.checkInstanceHealth a.1)
           ++ (Health.healthLoop (S pos) (on_reg (note a r) w)).1) ++ es, w').
Proof.
  intros He Hpos Hi. erewrite run_step; [done|].
  rewrite step_last by done. simpl.
  by rewrite onHealthProbe_note, (healthy_at_note a r _ i Hi).
Qed.

(** A world that differs from [on_reg f w] in the registry only
    differs from [w] in the registry only. *)
Lemma rest_on_reg f w w' :
  with_reg (reg (on_reg f w)) w' = on_reg f w → with_reg (reg w) w' = w.
Proof.
  destruct w, w'. unfold on_reg, with_reg. simpl.
  by intros [= -> -> -> -> -> -> ->].
Qed.

(** The rest of a round from the position [pos] of the iterator. *)
Lemma sweep_from answers : ∀ pos w,
  exited w = None → wf (reg w) →
  (pos + length answers = length (instances (mgr (reg w))))%nat →
  ∃ es w',
    run cfg ((λ a, EResume (length (tasks w)) (AProbe a.1 a.2)) <$> answers)
      (Health.healthLoop pos w).2 = Some (es, w')
    ∧ reg w' = noteAll (drop pos (values (reg w))) answers (reg w)
    ∧ with_reg (reg w) w' = w
    ∧ (Health.healthLoop pos w).1 ++ es
      = trace (reg w) (drop pos (instances (mgr (reg w)))) answers.
Proof.
  induction answers as [|a answers IH]; intros pos w He Hwf Hlen.
  { rewrite healthLoop_end by (simpl in Hlen; lia). eexists [], w.
    rewrite noteAll_nil, trace_nil. by destruct w. }
  destruct (lookup_lt_is_Some_2 (instances (mgr (reg w))) pos)
    as [[instanceId r] Hpos]; [simpl in Hlen; lia|].
  destruct (wf_lookup _ _ _ Hwf (list_elem_of_lookup_2 _ _ _ Hpos))
    as (i & Hi & _).
  assert (values (reg w) !! pos = Some r) as Hv
    by (unfold values, jm_values; by rewrite list_lookup_fmap, Hpos).
  pose proof (NoDup_lookup_drop _ _ _ (wf_values_NoDup _ Hwf) Hv) as Hnd.
  unfold values, jm_values in Hnd. rewrite <-fmap_drop in Hnd.
  destruct (IH (S pos) (on_reg (note a r) w))
    as (es & w' & Hrun & Hreg & Hrest & Hp);
    [done | by apply wf_note | simpl in *; lia |].
  rewrite reg_on_reg, mgr_note in Hp. rewrite tasks_on_reg in Hrun.
  rewrite (healthLoop_entry pos w instanceId r i), fmap_cons by done.
  cbn [fst snd]. rewrite (sweep_step a pos w instanceId r i) by done.
  rewrite Hrun. eexists _, w'. split; [done|]. split_and!.
  - by rewrite Hreg, (drop_S _ r pos Hv).
  - by eapply rest_on_reg.
  - rewrite (drop_S _ _ pos Hpos), trace_cons, <-app_assoc, Hp, trace_note by done.
    unfold calls. cbn [fst snd]. by rewrite Hi.
Qed.

(** A round from the tick of the interval timer: it ends; its calls
    are those of the reference, entry by entry in the map's order; it
    writes what the reference writes and changes nothing but the
    registry. *)
Lemma sweep_run answers w :
  exited w = None → ticking w = true → wf (reg w) →
  length answers = length (instances (mgr (reg w))) →
  ∃ es w',
    run cfg (sweep (length (tasks w)) answers) w = Some (es, w')
    ∧ reg w' = noteAll (values (reg w)) answers (reg w)
    ∧ with_reg (reg w) w' = w
    ∧ es = trace (reg w) (instances (mgr (reg w))) answers.
Proof.
  intros He Ht Hwf Hlen.
  destruct (sweep_from answers 0 w) as (es & w' & Hrun & Hreg & Hrest & Hp);
    [done..|].
  exists ((Health.healthLoop 0 w).1 ++ es), w'. split; [|done].
  unfold sweep. erewrite run_step; [by rewrite Hrun|].
  unfold step. rewrite decide_False, Ht by (rewrite He; by intros [? ?]).
  unfold Health.onHealthTick. by destruct (Health.healthLoop 0 w).
Qed.

(** A round under way is not stopped by a termination signal.  The
    signal handler clears the interval timer, which keeps later rounds
    from starting; the loop of the round that runs does not look at
    [isShuttingDown], so when the probe in flight is answered the next
    instance is probed, while the manager shuts down. *)
Theorem sweep_outlives_signal a signal pos instanceId r wasHealthy instanceId' r' i' w :
  exited w = None → handling w = true →
  instances (mgr (reg w)) !! S pos = Some (instanceId', r') →
  heap (reg w) !! r' = Some i' →
  let w0 := add_task (THealthProbe pos instanceId r wasHealthy) w in
  ∃ es w',
    step cfg (ESignal signal) w0 = Some (Shutdown.shutdown signal w0)
    ∧ step cfg (EResume (length (tasks w)) (AProbe a.1 a.2))
        (Shutdown.shutdown signal w0).2 = Some (es, w')
    ∧ isShuttingDown (mgr (reg w')) = true
    ∧ probes es = [port i'].
Proof.
  intros He Hh Hpos Hi' w0. rewrite Shutdown.shutdown_world.
  set (w2 := with_tasks (tasks w ++ [TGrace]) (Shutdown.stopped w0)).
  assert (exited (Shutdown.stopped w0) = None) as He'
    by (unfold Shutdown.stopped; by destruct (healthCheckInterval _)).
  assert (step cfg (EResume (length (tasks w)) (AProbe a.1 a.2))
            (Shutdown.stopped w0)
          = Some (Health.onHealthProbe a.1 a.2 pos instanceId r wasHealthy w2))
    as ->.
  { unfold step. rewrite decide_False by (rewrite He'; by intros [? ?]).
    rewrite Shutdown.tasks_stopped. unfold w0. rewrite tasks_add_task.
    rewrite <-!(app_assoc (tasks w) [_] [TGrace]). cbn [app].
    rewrite list_lookup_middle by done. cbn [mbind option_bind].
    by rewrite delete_middle. }
  exists (Health.onHealthProbe a.1 a.2 pos instanceId r wasHealthy w2).1,
    (Health.onHealthProbe a.1 a.2 pos instanceId r wasHealthy w2).2.
  split_and!; [|by destruct (Health.onHealthProbe _ _ _ _ _ _ _)| |].
  - unfold step. rewrite decide_False by (simpl; rewrite He; by intros [? ?]).
    simpl. by rewrite Hh.
  - rewrite Health.onHealthProbe_reg, !mgr_update.
    change (reg w2) with (reg (Shutdown.stopped w0)).
    by rewrite Shutdown.reg_stopped.
  - rewrite onHealthProbe_note. cbn [fst].
    rewrite probes_app, Health.probes_transitionLog.
    rewrite Health.healthLoop_probes, reg_on_reg, mgr_note.
    change (reg w2) with (reg (Shutdown.stopped w0)).
    rewrite Shutdown.reg_stopped. change (reg w0) with (reg w).
    change (instances (mgr (with_isShuttingDown true (reg w))))
      with (instances (mgr (reg w))).
    rewrite Hpos. cbn [mbind option_bind snd app].
    rewrite port_note. change (heap (with_isShuttingDown true (reg w)))
      with (heap (reg w)). by rewrite Hi'.
Qed.

End round.

(** * The monitor in the worlds the program reaches *)

Section reachable.
Context (cfg : Config.t).
Implicit Types (w : World.t) (r : ref).
Implicit Types (a : Health.Outcome * Z) (answers : list (Health.Outcome * Z)).

(** C10. A round of the health check decides who serves.  In every world
    the program reaches, while the timer is armed: when the timer fires
    and each probe of the round is answered, with nothing else
    happening in between, the round ends; its calls are, for each
    registered instance in the order of registration, one probe and,
    only when the answer changes the instance's health, one message;
    the instances that requests are routed to afterwards are exactly
    those whose probe was answered with status 200, in that order,
    whatever their health was before.  Nothing but the instances'
    health and probe time has changed. *)
Theorem health_round answers w :
  reachable cfg w → exited w = None → ticking w = true →
  length answers = length (instances (mgr (reg w))) →
  ∃ es w',
    run cfg (sweep (length (tasks w)) answers) w = Some (es, w')
    ∧ es = trace (reg w) (instances (mgr (reg w))) answers
    ∧ healthyInstances (reg w') = answered (values (reg w)) answers
    ∧ mgr (reg w') = mgr (reg w)
    ∧ with_reg (reg w) w' = w.
Proof.
  intros Hw He Ht Hlen. pose proof (reachable_registry cfg w Hw) as Hwf.
  destruct (sweep_run cfg answers w) as (es & w' & Hrun & Hreg & Hrest & Hp);
    [done..|].
  exists es, w'. split_and!; [done|done| | |done].
  - rewrite Hreg. by apply healthyInstances_noteAll.
  - by rewrite Hreg, mgr_noteAll.
Qed.

(** A round sends one probe to each registered instance, at its port,
    in the order of registration. *)
Theorem sweep_probes answers w :
  reachable cfg w →
  length answers = length (instances (mgr (reg w))) →
  probes (trace (reg w) (instances (mgr (reg w))) answers)
  = ports (reg w) (values (reg w)).
Proof.
  intros Hw Hlen. apply probes_trace; [done|].
  destruct (reachable_registry cfg w Hw) as (_ & Hids & _).
  eapply Forall_impl; [exact Hids|]. intros [k r]. unfold id_at. simpl.
  by destruct (heap (reg w) !! r); eauto.
Qed.

(** The monitor and the front door.  After a round, a window of as
    many selections as instances have answered with status 200 goes to
    each of these instances once, and to no other instance. *)
Theorem sweep_then_serves answers w :
  reachable cfg w → exited w = None → ticking w = true →
  length answers = length (instances (mgr (reg w))) →
  ∃ es w',
    run cfg (sweep (length (tasks w)) answers) w = Some (es, w')
    ∧ Balancer.selections (length (answered (values (reg w)) answers)) (reg w')
      ≡ₚ answered (values (reg w)) answers.
Proof.
  intros Hw He Ht Hlen. pose proof (reachable_registry cfg w Hw) as Hwf.
  destruct (sweep_run cfg answers w) as (es & w' & Hrun & Hreg & _); [done..|].
  exists es, w'. split; [done|].
  rewrite <-(healthyInstances_noteAll answers (reg w)), <-Hreg by done.
  apply Balancer.selections_window. rewrite Hreg. by apply wf_noteAll.
Qed.

(** After a round every registered instance carries the verdict of its
    own probe and the time of its answer; the other fields are as they
    were. *)
Theorem sweep_records answers w (j : nat) r a i :
  reachable cfg w → exited w = None → ticking w = true →
  length answers = length (instances (mgr (reg w))) →
  values (reg w) !! j = Some r → answers !! j = Some a →
  heap (reg w) !! r = Some i →
  ∃ es w',
    run cfg (sweep (length (tasks w)) answers) w = Some (es, w')
    ∧ heap (reg w') !! r
      = Some (with_lastHealthCheck a.2
                (with_healthy (Health.checkInstanceHealth a.1) i)).
Proof.
  intros Hw He Ht Hlen Hr Ha Hi. pose proof (reachable_registry cfg w Hw) as Hwf.
  destruct (sweep_run cfg answers w) as (es & w' & Hrun & Hreg & _);
    [done..|].
  exists es, w'. split; [done|]. rewrite Hreg.
  by eapply noteAll_lookup; [apply wf_values_NoDup|..].
Qed.

End reachable.

(** * The monitor on a sample run *)

Lemma health_round_witness :
  ∃ es w',
    run Supervisor.sample_cfg (sweep (length (tasks sample_up)) sample_answers)
      sample_up = Some (es, w')
    ∧ es = trace (reg sample_up) (instances (mgr (reg sample_up))) sample_answers
    ∧ healthyInstances (reg w') = answered (values (reg sample_up)) sample_answers
    ∧ mgr (reg w') = mgr (reg sample_up)
    ∧ with_reg (reg sample_up) w' = sample_up.
Proof.
  apply (health_round Supervisor.sample_cfg sample_answers sample_up);
    [apply sample_up_reachable | reflexivity..].
Defined.

Lemma sweep_outlives_signal_witness :
  let w0 := add_task (THealthProbe 0 "router-0" 0 true) sample_up in
  ∃ es w',
    step Supervisor.sample_cfg (ESignal "SIGTERM") w0
    = Some (Shutdown.shutdown "SIGTERM" w0)
    ∧ step Supervisor.sample_cfg
        (EResume (length (tasks sample_up)) (AProbe (Health.Response 200) 50000))
        (Shutdown.shutdown "SIGTERM" w0).2 = Some (es, w')
    ∧ isShuttingDown (mgr (reg w')) = true
    ∧ probes es = [Int 3101].
Proof.
  apply (sweep_outlives_signal Supervisor.sample_cfg (Health.Response 200, 50000)
           "SIGTERM" 0 "router-0" 0 true "router-1" 1
           (mkInstance "router-1" 1 (Int 3101) (Some "k1") true None 10000 0)
           sample_up); reflexivity.
Defined.

Lemma sweep_then_serves_witness :
  ∃ es w',
    run Supervisor.sample_cfg (sweep (length (tasks sample_up)) sample_answers)
      sample_up = Some (es, w')
    ∧ Balancer.selections
        (length (answered (values (reg sample_up)) sample_answers)) (reg w')
      ≡ₚ answered (values (reg sample_up)) sample_answers.
Proof.
  apply (sweep_then_serves Supervisor.sample_cfg sample_answers sample_up);
    [apply sample_up_reachable | reflexivity..].
Defined.

Lemma sweep_probes_witness :
  probes (trace (reg sample_up) (instances (mgr (reg sample_up))) sample_answers)
  = ports (reg sample_up) (values (reg sample_up)).
Proof.
  apply (sweep_probes Supervisor.sample_cfg sample_answers sample_up);
    [apply sample_up_reachable | reflexivity].
Defined.

Lemma sweep_records_witness :
  ∃ es w',
    run Supervisor.sample_cfg (sweep (length (tasks sample_up)) sample_answers)
      sample_up = Some (es, w')
    ∧ heap (reg w') !! 1%nat
      = Some (mkInstance "router-1" 1 (Int 3101) (Some "k1") false (Some 55000)
                10000 0).
Proof.
  apply (sweep_records Supervisor.sample_cfg sample_answers sample_up 1 1
           (Health.RequestTimeout, 55000)
           (mkInstance "router-1" 1 (Int 3101) (Some "k1") true None 10000 0));
    [apply sample_up_reachable | reflexivity..].
Defined.

End Monitor.
